(** * F&B audit application: scoring, uniqueness guard and report aggregation

    A shallow embedding of the core of the audit application
    (AuditForm.js, StaffEvaluation.js, RetrieveReports.js) together with
    the properties its specification states about it.

    Modelling conventions.
    - A JavaScript string is a [string]: a sequence of 8-bit code units.
      Case mapping and white space are the ASCII ones.
    - A JavaScript number is an exact integer ([Z]) or rational ([Q]);
      [None] stands for NaN.  Rounding of doubles is not modelled: every
      quantity the application computes is a small integer or a quotient
      of small integers.
    - A plain object used as a dictionary is a [gmap string _]; where the
      enumeration order of the keys is observable it is an association
      list.
    - Built-ins whose result the language leaves to the host (generic
      [Date] parsing, [localeCompare], [JSON.stringify], [Math.random],
      numeric literals beyond signed decimal integers) are fields of the
      class [Host].
    - The Firestore collections and the browser alerts are an explicit
      state, threaded through a small state-and-exception monad. *)

From Stdlib Require Import ZArith QArith Qround String Ascii List Lia Lqa Bool.
From stdpp Require Import gmap strings list.

Open Scope string_scope.
Open Scope Z_scope.

(** String concatenation unfolds on a constructor, as any fixpoint does. *)
#[local] Arguments String.append !_ _ / : simpl nomatch.

(* ===================================================================== *)
(** * Part I: the model                                                   *)
(* ===================================================================== *)

(** ** JavaScript strings *)

Module JsString.

(** The double quote, as a one-character string. *)
Definition dquote : string := String (ascii_of_nat 34) EmptyString.

(** White space as [String.prototype.trim] sees it (ASCII part). *)
Definition isWhiteSpace (c : ascii) : bool :=
  let n := nat_of_ascii c in
  ((n =? 9) || (n =? 10) || (n =? 11) || (n =? 12) || (n =? 13) || (n =? 32))%nat.

(** [\d] *)
Definition isDigit (c : ascii) : bool :=
  let n := nat_of_ascii c in ((48 <=? n) && (n <=? 57))%nat.

Definition isEmpty (s : string) : bool :=
  match s with EmptyString => true | String _ _ => false end.

Fixpoint trimStart (s : string) : string :=
  match s with
  | EmptyString => EmptyString
  | String c r => if isWhiteSpace c then trimStart r else s
  end.

Fixpoint trimEnd (s : string) : string :=
  match s with
  | EmptyString => EmptyString
  | String c r =>
      let r' := trimEnd r in
      if isWhiteSpace c && isEmpty r' then EmptyString else String c r'
  end.

(** [s.trim()] *)
Definition trim (s : string) : string := trimEnd (trimStart s).

Definition lowerChar (c : ascii) : ascii :=
  let n := nat_of_ascii c in
  if ((65 <=? n) && (n <=? 90))%nat then ascii_of_nat (n + 32) else c.

(** [s.toLowerCase()] *)
Fixpoint toLowerCase (s : string) : string :=
  match s with
  | EmptyString => EmptyString
  | String c r => String (lowerChar c) (toLowerCase r)
  end.

(** [s.startsWith(p)] *)
Fixpoint startsWith (p s : string) : bool :=
  match p, s with
  | EmptyString, _ => true
  | String a p', String b s' => Ascii.eqb a b && startsWith p' s'
  | String _ _, EmptyString => false
  end.

(** [s.includes(needle)] *)
Fixpoint includes (needle s : string) : bool :=
  startsWith needle s ||
  match s with
  | EmptyString => false
  | String _ r => includes needle r
  end.

(** [s.endsWith(p)] *)
Fixpoint endsWith (p s : string) : bool :=
  String.eqb p s ||
  match s with
  | EmptyString => false
  | String _ r => endsWith p r
  end.

(** [s.split(sep)] for a one-character separator. *)
Fixpoint split (sep : ascii) (s : string) : list string :=
  match s with
  | EmptyString => [EmptyString]
  | String c r =>
      if Ascii.eqb c sep then EmptyString :: split sep r
      else match split sep r with
           | p :: ps => String c p :: ps
           | [] => [String c EmptyString]
           end
  end.

Fixpoint replicate (n : nat) (c : ascii) : string :=
  match n with O => EmptyString | S k => String c (replicate k c) end.

(** [s.padStart(n, c)] for a one-character filler. *)
Definition padStart (n : nat) (c : ascii) (s : string) : string :=
  replicate (n - String.length s) c ++ s.

Fixpoint allChars (p : ascii -> bool) (s : string) : bool :=
  match s with
  | EmptyString => true
  | String c r => p c && allChars p r
  end.

(** [\d{lo,hi}], anchored at both ends. *)
Definition digitsBetween (lo hi : nat) (s : string) : bool :=
  allChars isDigit s && (lo <=? String.length s)%nat && (String.length s <=? hi)%nat.

(** [/^\d{1,2}\/\d{1,2}\/\d{4}$/.test(s)] *)
Definition reDDMMYYYY_test (s : string) : bool :=
  match split "/" s with
  | [a; b; c] => digitsBetween 1 2 a && digitsBetween 1 2 b && digitsBetween 4 4 c
  | _ => false
  end.

(** [parts[i]] in a string context: a missing element reads "undefined". *)
Definition part (i : nat) (parts : list string) : string :=
  nth i parts "undefined".

(** [arr.join(sep)] *)
Fixpoint join (sep : string) (l : list string) : string :=
  match l with
  | [] => EmptyString
  | [x] => x
  | x :: r => x ++ sep ++ join sep r
  end.

End JsString.

(** ** JavaScript numbers *)

Module JsNumber.
Import JsString.

Definition digitChar (d : Z) : ascii := ascii_of_nat (48 + Z.to_nat d).

Definition digitVal (c : ascii) : Z := Z.of_nat (nat_of_ascii c) - 48.

(** Decimal digits of a non-negative integer, most significant first,
    written in front of [acc]. *)
Fixpoint digitsOf (fuel : nat) (n : Z) (acc : string) : string :=
  match fuel with
  | O => acc
  | S k =>
      let acc' := String (digitChar (n mod 10)) acc in
      if n <? 10 then acc' else digitsOf k (n / 10) acc'
  end.

(** [String(n)] for an integer [n]. *)
Definition Number_toString (n : Z) : string :=
  if n <? 0
  then String "-" (digitsOf (S (Z.to_nat (Z.log2 (- n)))) (- n) EmptyString)
  else digitsOf (S (Z.to_nat (Z.log2 n))) n EmptyString.

Fixpoint parseDigits (s : string) (acc : Z) : Z :=
  match s with
  | EmptyString => acc
  | String c r => parseDigits r (10 * acc + digitVal c)
  end.

Definition isDigits (s : string) : bool :=
  negb (isEmpty s) && allChars isDigit s.

(** A signed decimal integer literal. *)
Definition parseDecimal (s : string) : option Z :=
  match s with
  | String "-" r => if isDigits r then Some (- parseDigits r 0) else None
  | String "+" r => if isDigits r then Some (parseDigits r 0) else None
  | _ => if isDigits s then Some (parseDigits s 0) else None
  end.

(** A number: [None] is NaN. *)
Definition number := option Q.

(** Truncation toward zero, as the [Date] constructor applies to its
    arguments. *)
Definition truncate (q : Q) : Z :=
  if Qle_bool 0 q then Qfloor q else Qceiling q.

(** [Math.round]: the nearest integer, ties toward plus infinity. *)
Definition Math_round (q : Q) : Z := Qfloor (q + (1 # 2)).

End JsNumber.

(** ** JavaScript dates, on the local time line *)

Module JsDate.

Definition msPerDay : Z := 86400000.

Definition isLeapYear (y : Z) : bool :=
  ((y mod 4 =? 0) && negb (y mod 100 =? 0)) || (y mod 400 =? 0).

(** Day number of the first day of year [y] (day 0 is 1 January 1970). *)
Definition DayFromYear (y : Z) : Z :=
  365 * (y - 1970) + (y - 1969) / 4 - (y - 1901) / 100 + (y - 1601) / 400.

(** Days of the year before month [m] (0 = January). *)
Definition daysBeforeMonth (leap : bool) (m : Z) : Z :=
  let l := if leap then 1 else 0 in
  match m with
  | 0 => 0 | 1 => 31 | 2 => 59 + l | 3 => 90 + l | 4 => 120 + l
  | 5 => 151 + l | 6 => 181 + l | 7 => 212 + l | 8 => 243 + l
  | 9 => 273 + l | 10 => 304 + l | _ => 334 + l
  end.

Definition daysInMonth (leap : bool) (m : Z) : Z :=
  match m with
  | 1 => if leap then 29 else 28
  | 3 | 5 | 8 | 10 => 30
  | _ => 31
  end.

(** [MakeDay(year, month, date)]: months and days out of range carry
    over. *)
Definition MakeDay (year month date : Z) : Z :=
  let ym := year + month / 12 in
  let mn := month mod 12 in
  DayFromYear ym + daysBeforeMonth (isLeapYear ym) mn + date - 1.

Definition MakeDate (day time : Z) : Z := day * msPerDay + time.

(** [TimeClip]: a time value beyond 8.64e15 ms is an invalid date. *)
Definition TimeClip (t : Z) : option Z :=
  if Z.abs t <=? 8640000000000000 then Some t else None.

(** A valid [Date] object is its time value, in milliseconds on the
    local time line (the zone offset is taken as constant); an invalid
    one is [None]. *)
Definition Date := Z.

(** [new Date(year, month, day)]; a NaN argument gives an invalid date
    and a year from 0 to 99 means 1900 + year. *)
Definition Date_ymd (year month day : JsNumber.number) : option Date :=
  match year, month, day with
  | Some y, Some m, Some d =>
      let yi := JsNumber.truncate y in
      let yr := if (0 <=? yi) && (yi <=? 99) then 1900 + yi else yi in
      TimeClip (MakeDate (MakeDay yr (JsNumber.truncate m) (JsNumber.truncate d)) 0)
  | _, _, _ => None
  end.

(** [d.setHours(h, m, s, ms)] *)
Definition setHours (d : Date) (h m s ms : Z) : Date :=
  MakeDate (d / msPerDay) (((h * 60 + m) * 60 + s) * 1000 + ms).

(** The local calendar fields of a date that generic parsing produced. *)
Record LocalTime := mkLocalTime {
  getFullYear : Z;
  getMonth : Z;      (* 0 = January *)
  getDate : Z;       (* day of the month *)
  msOfDay : Z
}.

Definition validLocalTime (t : LocalTime) : Prop :=
  0 <= getMonth t <= 11 /\
  1 <= getDate t <= daysInMonth (isLeapYear (getFullYear t)) (getMonth t) /\
  0 <= msOfDay t < msPerDay.

(** [d.getTime()] of such a date. *)
Definition getTime (t : LocalTime) : Date :=
  MakeDate (MakeDay (getFullYear t) (getMonth t) (getDate t)) (msOfDay t).

(** *** The calendar fields of a time value, in UTC *)

(** [Day(t)] and [TimeWithinDay(t)] *)
Definition Day (t : Z) : Z := t / msPerDay.
Definition TimeWithinDay (t : Z) : Z := t mod msPerDay.

(** [YearFromTime]: the largest year whose first day is not after the
    day.  The estimate from the mean length of a year is off by one year
    at most. *)
Definition YearFromDay (d : Z) : Z :=
  let y := 1970 + (400 * d) / 146097 in
  if d <? DayFromYear y then y - 1
  else if DayFromYear (y + 1) <=? d then y + 1
  else y.

(** [MonthFromTime] (0 = January) *)
Definition MonthFromDay (d : Z) : Z :=
  let y := YearFromDay d in
  let n := d - DayFromYear y in
  let leap := isLeapYear y in
  if n <? daysBeforeMonth leap 1 then 0
  else if n <? daysBeforeMonth leap 2 then 1
  else if n <? daysBeforeMonth leap 3 then 2
  else if n <? daysBeforeMonth leap 4 then 3
  else if n <? daysBeforeMonth leap 5 then 4
  else if n <? daysBeforeMonth leap 6 then 5
  else if n <? daysBeforeMonth leap 7 then 6
  else if n <? daysBeforeMonth leap 8 then 7
  else if n <? daysBeforeMonth leap 9 then 8
  else if n <? daysBeforeMonth leap 10 then 9
  else if n <? daysBeforeMonth leap 11 then 10
  else 11.

(** [DateFromTime]: the day of the month. *)
Definition DateFromDay (d : Z) : Z :=
  let y := YearFromDay d in
  d - DayFromYear y - daysBeforeMonth (isLeapYear y) (MonthFromDay d) + 1.

(** [String(z).padStart(n, "0")] *)
Definition pad (n : nat) (z : Z) : string :=
  JsString.padStart n "0" (JsNumber.Number_toString z).

(** [d.toISOString()] of a valid date: the fields are those of UTC, which
    the local time line is [tz] milliseconds ahead of.  A year outside
    0..9999 is written with its sign and six digits. *)
Definition toISOString (tz : Z) (d : Date) : string :=
  let t := d - tz in
  let dy := Day t in
  let ms := TimeWithinDay t in
  let y := YearFromDay dy in
  let yearText :=
    if (0 <=? y) && (y <=? 9999) then pad 4 y
    else (if y <? 0 then "-" else "+") ++ pad 6 (Z.abs y) in
  yearText ++ "-" ++ pad 2 (MonthFromDay dy + 1) ++ "-" ++ pad 2 (DateFromDay dy)
  ++ "T" ++ pad 2 (ms / 3600000) ++ ":" ++ pad 2 (ms / 60000 mod 60)
  ++ ":" ++ pad 2 (ms / 1000 mod 60) ++ "." ++ pad 3 (ms mod 1000) ++ "Z".

End JsDate.

(** ** Documents as the report page reads them *)

(** [{ id: d.id, ...d.data() }]: a document of either collection, every
    property of which may be missing. *)
Module Doc.

(** A stored score: a number, NaN or a text. *)
Inductive value :=
| VNum (q : Q)
| VNaN
| VStr (s : string).

Record Selection := mkSelection {
  sel_branch : option string;
  sel_city : option string;
  sel_date : option string
}.

Record t := mk {
  id : option string;
  empCode : option string;
  staffName : option string;
  (** the ratings object, its keys in insertion order *)
  ratings : option (list (string * string));
  scoreOutOf100 : option value;
  totalMarks : option value;
  total : option value;
  (** [timestamp.seconds] and [createdAt.seconds] *)
  timestamp : option Z;
  createdAt : option Z;
  selection : option Selection;
  branch : option string;
  city : option string;
  date : option string
}.

End Doc.

(** ** What the host environment decides *)

Class Host := {
  (** [new Date(s)] for a string; [None] when the date is invalid. *)
  Date_parse : string -> option JsDate.LocalTime;
  Date_parse_valid :
    forall s t, Date_parse s = Some t -> JsDate.validLocalTime t;
  (** [new Date("")] is an invalid date. *)
  Date_parse_empty : Date_parse EmptyString = None;
  (** [Number(s)] for a trimmed, non-empty [s] that is not a signed decimal
      integer (fractions, exponents, hexadecimal, ...); [None] is NaN, and
      an infinite value, which no date and no score of the application
      is, has no counterpart. *)
  StringToNumber_other : string -> JsNumber.number;
  (** [a.localeCompare(b)] *)
  localeCompare : string -> string -> Z;
  (** [Math.random().toString(36).slice(2, 8)] at the n-th drawing. *)
  Math_random_key : nat -> string;
  (** [JSON.stringify(item)] *)
  JSON_stringify : Doc.t -> string
}.

(** [Number(s)] for a string. *)
Definition Number_ `{Host} (s : string) : JsNumber.number :=
  let t := JsString.trim s in
  if JsString.isEmpty t then Some 0%Q
  else match JsNumber.parseDecimal t with
       | Some z => Some (inject_Z z)
       | None => StringToNumber_other t
       end.

(** [`${dd}/${mm}/${yyyy}`] from the local calendar fields of a date, the
    day and the month padded to two digits. *)
Definition formatLocal (d : JsDate.LocalTime) : string :=
  let dd := JsString.padStart 2 "0" (JsNumber.Number_toString (JsDate.getDate d)) in
  let mm := JsString.padStart 2 "0" (JsNumber.Number_toString (JsDate.getMonth d + 1)) in
  let yyyy := JsNumber.Number_toString (JsDate.getFullYear d) in
  dd ++ "/" ++ mm ++ "/" ++ yyyy.

(** ** The record store and the session *)

(** A stored unit audit. *)
Module UnitAudit.
Record ScoreBreakdown := mkBreakdown {
  checklist : Z;
  observationsScore : Z;
  maintenanceScore : Z;
  totalBeforeClamp : Z;
  maxChecklist : Z
}.

Record t := mk {
  kitchen : gmap string string;
  hygiene : gmap string string;
  foodSafety : gmap string string;
  observations : string;
  maintenance : string;
  actionPlan : string;
  date : string;
  auditor : string;
  branch : string;
  city : string;
  scoreOutOf100 : Z;
  scoreBreakdown : ScoreBreakdown;
  timestamp : Z
}.
End UnitAudit.

(** A stored staff evaluation. *)
Module StaffEval.
Record Selection := mkSelection {
  branch : string;
  city : string;
  auditor : string;
  date : string
}.

Record t := mk {
  staffName : string;
  empCode : string;
  designation : string;
  totalMarks : string;
  grade : string;
  ratings : gmap string string;
  selection : Selection;
  scoreOutOf100 : Z;
  createdAt : Z
}.
End StaffEval.

Module Store.

(** The two collections, what the session has shown and logged, the
    clock, and a script of the store's availability: each call to the
    store consumes the head of [outages], and [Some e] there makes the
    call fail with the error [e]; past the end of the script every call
    succeeds. *)
Record World := mkWorld {
  unitAudits : list UnitAudit.t;
  staffEvaluations : list StaffEval.t;
  outages : list (option string);
  alerts : list string;
  console : list string;
  clock : Z
}.

Inductive outcome (A : Type) :=
| Returned (a : A)
| Thrown (err : string).
Arguments Returned {A} a.
Arguments Thrown {A} err.

(** An asynchronous computation of the session, run to its end with no
    other handler in between.  The runs of a submission from one await to
    the next, which other handlers may separate, are in [AuditForm] (the
    submission, from await to await). *)
Definition M (A : Type) : Type := World -> outcome A * World.

#[global] Instance M_ret : MRet M := fun A a w => (Returned a, w).

#[global] Instance M_bind : MBind M := fun A B f m w =>
  match m w with
  | (Returned a, w') => f a w'
  | (Thrown e, w') => (Thrown e, w')
  end.

(** [try { body } catch (err) { handler(err) }] *)
Definition tryCatch {A} (body : M A) (handler : string -> M A) : M A :=
  fun w =>
    match body w with
    | (Returned a, w') => (Returned a, w')
    | (Thrown e, w') => handler e w'
    end.

(** One round trip to the store. *)
Definition storeCall : M unit := fun w =>
  match outages w with
  | [] => (Returned tt, w)
  | None :: rest =>
      (Returned tt,
       {| unitAudits := unitAudits w; staffEvaluations := staffEvaluations w;
          outages := rest; alerts := alerts w; console := console w;
          clock := clock w |})
  | Some e :: rest =>
      (Thrown e,
       {| unitAudits := unitAudits w; staffEvaluations := staffEvaluations w;
          outages := rest; alerts := alerts w; console := console w;
          clock := clock w |})
  end.

Definition get {A} (f : World -> A) : M A := fun w => (Returned (f w), w).

Definition modify (f : World -> World) : M unit := fun w => (Returned tt, f w).

(** [alert(msg)] *)
Definition alert (msg : string) : M unit :=
  modify (fun w =>
   {| unitAudits := unitAudits w; staffEvaluations := staffEvaluations w;
      outages := outages w; alerts := (alerts w ++ [msg])%list;
      console := console w; clock := clock w |}).

(** [console.error(label, err)] *)
Definition console_error (msg : string) : M unit :=
  modify (fun w =>
   {| unitAudits := unitAudits w; staffEvaluations := staffEvaluations w;
      outages := outages w; alerts := alerts w;
      console := (console w ++ [msg])%list; clock := clock w |}).

(** [getDocs(query(collection(db, "unitAudits"), where("branch", "==", b),
    where("date", "==", d)))] *)
Definition getDocs_unitAudits (b d : string) : M (list UnitAudit.t) :=
  _ ← storeCall;
  docs ← get unitAudits;
  mret (List.filter
          (fun r => String.eqb (UnitAudit.branch r) b && String.eqb (UnitAudit.date r) d)
          docs).

(** [addDoc(collection(db, "unitAudits"), payload)] *)
Definition addDoc_unitAudits (payload : UnitAudit.t) : M unit :=
  _ ← storeCall;
  modify (fun w =>
     {| unitAudits := (unitAudits w ++ [payload])%list;
        staffEvaluations := staffEvaluations w;
        outages := outages w; alerts := alerts w; console := console w;
        clock := clock w |}).

(** [getDocs(query(collection(db, "staffEvaluations"),
    where("empCode", "==", code), where("selection.date", "==", d), limit(1)))] *)
Definition getDocs_staffEvaluations (code d : string) : M (list StaffEval.t) :=
  _ ← storeCall;
  docs ← get staffEvaluations;
  mret (take 1
          (List.filter
             (fun r => String.eqb (StaffEval.empCode r) code
                       && String.eqb (StaffEval.date (StaffEval.selection r)) d)
             docs)).

(** [addDoc(collection(db, "staffEvaluations"), payload)]; the server
    stamps [createdAt]. *)
Definition addDoc_staffEvaluations (payload : Z -> StaffEval.t) : M unit :=
  _ ← storeCall;
  modify (fun w =>
     {| unitAudits := unitAudits w;
        staffEvaluations := (staffEvaluations w ++ [payload (clock w)])%list;
        outages := outages w; alerts := alerts w; console := console w;
        clock := clock w |}).

End Store.

(** ** AuditForm.js: the unit audit form *)

Module AuditForm.
Import JsString.

(** Format any date-like value to dd/mm/yyyy.  [None] is an absent
    value. *)
Definition formatDateDDMMYYYY `{Host} (dateValue : option string) : string :=
  match dateValue with
  | None => EmptyString
  | Some v =>
      if isEmpty v then EmptyString
      else if reDDMMYYYY_test (trim v) then
        let parts := split "/" (trim v) in
        let day := padStart 2 "0" (part 0 parts) in
        let month := padStart 2 "0" (part 1 parts) in
        let year := part 2 parts in
        day ++ "/" ++ month ++ "/" ++ year
      else
        match Date_parse v with
        | None => v
        | Some d => formatLocal d
        end
  end.

(** A checklist section of the form state: label -> answer. *)
Abbreviation checklist := (gmap string string).

Definition kitchenParams : list string :=
  [ "Overall kitchen cleanliness maintained";
    "Floors, walls, and ceilings clean and dry";
    "Cooking range and equipment properly cleaned";
    "Exhaust system functioning and cleaned";
    "Waste segregation & disposal followed" ].

Definition hygieneParams : list string :=
  [ "Staff wearing clean uniform, cap, gloves, mask";
    "Personal hygiene maintained (nails, hair, hand wash)";
    "Hand wash & sanitizer available and used" ].

Definition foodSafetyParams : list string :=
  [ "Bain Marie temperature maintained (>=60¬∞C)";
    "Fridge temperature maintained (<=5¬∞C)";
    "Freezer temperature maintained (<=-18¬∞C)";
    "Raw and cooked food stored separately";
    "Expiry date & labelling followed" ].

Definition observationsOptions : list string :=
  [ "-- Select --";
    "No issues observed";
    "Minor cleanliness issues (surface/sweep)";
    "Food held outside safe temperature range";
    "Cross-contamination risk observed";
    "Staff hygiene non-compliant";
    "Equipment malfunction (e.g., oven/fridge)";
    "Pest activity or droppings noted";
    "Expired or damaged items found";
    "Insufficient labeling / traceability";
    "Other (manual)" ].

Definition maintenanceOptions : list string :=
  [ "-- Select --";
    "No maintenance required";
    "Immediate cleaning required";
    "Schedule deep-cleaning";
    "Repair or service equipment";
    "Replace expired/damaged stock";
    "Retrain staff on hygiene & PPE";
    "Improve waste segregation & disposal";
    "Adjust/monitor temperature controls";
    "Improve labeling & storage procedures";
    "Implement daily cleaning checklist";
    "Other (manual)" ].

Definition actionPlanOptions : list string :=
  [ "-- Select --";
    "Correct on spot & coach staff";
    "Repair within 24‚Äì48 hours";
    "Discard affected items and document";
    "Schedule vendor/service visit";
    "Staff re-training scheduled";
    "Implement new SOP/checklist";
    "Follow-up audit in 7 days";
    "Escalate to branch manager";
    "Document corrective action and monitor";
    "Other (manual)" ].

(** *** Scoring *)

Definition POINTS_PER_CHECK : Z := 6.
Definition OBS_MAINT_PTS : Z := 11.

Definition getObservationScore (preset manual : string) : Z :=
  let p := toLowerCase preset in
  if String.eqb p "no issues observed" then OBS_MAINT_PTS
  else if includes "other" p then
    if negb (isEmpty manual) && includes "no issue" (toLowerCase (trim manual))
    then OBS_MAINT_PTS else - OBS_MAINT_PTS
  else if isEmpty preset || String.eqb preset "-- Select --" then 0
  else - OBS_MAINT_PTS.

Definition getMaintenanceScore (preset manual : string) : Z :=
  let p := toLowerCase preset in
  if String.eqb p "no maintenance required" || String.eqb p "no issues observed"
  then OBS_MAINT_PTS
  else if includes "other" p then
    if negb (isEmpty manual) && includes "no issue" (toLowerCase (trim manual))
    then OBS_MAINT_PTS else - OBS_MAINT_PTS
  else if isEmpty preset || String.eqb preset "-- Select --" then 0
  else - OBS_MAINT_PTS.

Record Scores := mkScores {
  checklistRaw : Z;
  obsScore : Z;
  maintScore : Z;
  rawScore : Z;
  scoreOutOf100 : Z;
  maxChecklist : Z
}.

(** [String(val)] for a property read that may be [undefined]. *)
Definition String_ (val : option string) : string :=
  match val with Some s => s | None => "undefined" end.

(** [kitchenObj?.[label] ?? hygieneObj?.[label] ?? foodObj?.[label]] *)
Definition answerOf (kitchenObj hygieneObj foodObj : checklist) (label : string)
  : option string :=
  match kitchenObj !! label with
  | Some v => Some v
  | None =>
      match hygieneObj !! label with
      | Some v => Some v
      | None => foodObj !! label
      end
  end.

Definition allParams : list string :=
  kitchenParams ++ hygieneParams ++ foodSafetyParams.

Definition computeScores (kitchenObj hygieneObj foodObj : checklist)
    (observationsPreset observationsManual : string)
    (maintenancePreset maintenanceManual : string) : Scores :=
  let checklistRaw :=
    fold_left
      (fun acc label =>
         let val := answerOf kitchenObj hygieneObj foodObj label in
         if String.eqb (toLowerCase (String_ val)) "yes"
         then acc + POINTS_PER_CHECK else acc)
      allParams 0 in
  let obsScore := getObservationScore observationsPreset observationsManual in
  let maintScore := getMaintenanceScore maintenancePreset maintenanceManual in
  let rawScore := checklistRaw + obsScore + maintScore in
  let finalScore := Z.max 0 (Z.min 100 rawScore) in
  {| checklistRaw := checklistRaw;
     obsScore := obsScore;
     maintScore := maintScore;
     rawScore := rawScore;
     scoreOutOf100 := finalScore;
     maxChecklist := Z.of_nat (length allParams) * POINTS_PER_CHECK |}.

(** *** The form and its submission *)

Record FormData := mkFormData {
  kitchen : checklist;
  hygiene : checklist;
  foodSafety : checklist;
  observationsPreset : string;
  observationsManual : string;
  maintenancePreset : string;
  maintenanceManual : string;
  actionPreset : string;
  actionManual : string
}.

(** The selection handed over by the selection page; [None] is a missing
    property. *)
Record Selection := mkSelection {
  auditor : option string;
  date : option string;
  branch : option string;
  city : option string
}.

(** [{ auditor: "Kumar Kannaiyan", ...selection }] *)
Definition defaultSelection (selection : Selection) : Selection :=
  {| auditor := match auditor selection with
                | Some a => Some a
                | None => Some "Kumar Kannaiyan"
                end;
     date := date selection;
     branch := branch selection;
     city := city selection |}.

(** [!v] for a value that is a string or missing. *)
Definition falsy (v : option string) : bool :=
  match v with
  | None => true
  | Some s => isEmpty s
  end.

Definition checkMissing (paramsArray : list string) (section : checklist)
    (title : string) : list string :=
  let missing := List.filter (fun label => falsy (section !! label)) paramsArray in
  if (0 <? length missing)%nat
  then [title ++ " - " ++ JsNumber.Number_toString (Z.of_nat (length missing))
              ++ " unanswered"]
  else [].

Definition remarkCheck (label preset manual : string) : list string :=
  if isEmpty preset || String.eqb preset "-- Select --" then
    (if isEmpty manual || isEmpty (trim manual)
     then [label ++ " is required (choose option or enter manually)"]
     else [])
  else if includes "other" (toLowerCase preset)
          && (isEmpty manual || isEmpty (trim manual))
  then [label ++ ": you chose " ++ dquote ++ "Other (manual)" ++ dquote
              ++ " but did not enter text"]
  else [].

(** The error messages of [validate]; the form is valid when there is
    none. *)
Definition validate (formData : FormData) (sel : Selection) : list string :=
  ((if falsy (auditor sel) then ["Auditor is required"] else [])
   ++ (if falsy (date sel) then ["Date is required"] else [])
   ++ (if falsy (branch sel) then ["Branch is required"] else [])
   ++ (if falsy (city sel) then ["City is required"] else [])
   ++ checkMissing kitchenParams (kitchen formData) "Kitchen Cleanliness & Maintenance"
   ++ checkMissing hygieneParams (hygiene formData) "Personal Hygiene"
   ++ checkMissing foodSafetyParams (foodSafety formData) "Food Safety & Storage"
   ++ remarkCheck "Observations" (observationsPreset formData) (observationsManual formData)
   ++ remarkCheck "Maintenance / Suggestions"
        (maintenancePreset formData) (maintenanceManual formData)
   ++ remarkCheck "Action Plan / Corrective Measures"
        (actionPreset formData) (actionManual formData))%list.

Definition getRemarkText (preset manual : string) : string :=
  if includes "other" (toLowerCase preset)
  then (if isEmpty (trim manual) then "-" else trim manual)
  else if String.eqb preset "-- Select --" then "-"
  else preset.

(** A header field of the payload; validation has made sure it is
    there. *)
Definition field (v : option string) : string := default EmptyString v.

Definition conflictMessage (b d : string) : string :=
  "‚ùå A Unit Audit for branch " ++ dquote ++ b ++ dquote ++ " on " ++ d
  ++ " already exists. Only one audit per branch per day is allowed.".

Definition payloadOf `{Host} (formData : FormData) (sel : Selection) (now : Z)
  : UnitAudit.t :=
  let scores := computeScores (kitchen formData) (hygiene formData)
                  (foodSafety formData)
                  (observationsPreset formData) (observationsManual formData)
                  (maintenancePreset formData) (maintenanceManual formData) in
  (* keep date in dd/mm/yyyy for the uniqueness key *)
  let dateDD := formatDateDDMMYYYY (date sel) in
  {| UnitAudit.kitchen := kitchen formData;
     UnitAudit.hygiene := hygiene formData;
     UnitAudit.foodSafety := foodSafety formData;
     UnitAudit.observations :=
       getRemarkText (observationsPreset formData) (observationsManual formData);
     UnitAudit.maintenance :=
       getRemarkText (maintenancePreset formData) (maintenanceManual formData);
     UnitAudit.actionPlan :=
       getRemarkText (actionPreset formData) (actionManual formData);
     UnitAudit.date := dateDD;
     UnitAudit.auditor := field (auditor sel);
     UnitAudit.branch := field (branch sel);
     UnitAudit.city := field (city sel);
     UnitAudit.scoreOutOf100 := scoreOutOf100 scores;
     UnitAudit.scoreBreakdown :=
       {| UnitAudit.checklist := checklistRaw scores;
          UnitAudit.observationsScore := obsScore scores;
          UnitAudit.maintenanceScore := maintScore scores;
          UnitAudit.totalBeforeClamp := rawScore scores;
          UnitAudit.maxChecklist := maxChecklist scores |};
     UnitAudit.timestamp := now |}.

(** Submit to Firestore *)
Definition handleSubmit `{Host} (formData : FormData) (selection : Selection)
  : Store.M unit :=
  let sel := defaultSelection selection in
  match validate formData sel with
  | _ :: _ => mret tt
  | [] =>
      now ← Store.get Store.clock;
      let payload := payloadOf formData sel now in
      Store.tryCatch
        ((* 1) is there an audit for this branch + date already? *)
         snap ← Store.getDocs_unitAudits (UnitAudit.branch payload)
                                          (UnitAudit.date payload);
         match snap with
         | _ :: _ =>
             Store.alert (conflictMessage (UnitAudit.branch payload)
                                          (UnitAudit.date payload))
         | [] =>
             (* 2) if not found, create the document *)
             _ ← Store.addDoc_unitAudits payload;
             Store.alert ("‚úÖ Audit submitted successfully! Score: "
                          ++ JsNumber.Number_toString (UnitAudit.scoreOutOf100 payload)
                          ++ " / 100")
         end)
        (fun err =>
           _ ← Store.console_error ("Error saving audit: " ++ err);
           Store.alert ("‚ùå Error saving data: " ++ err))
  end.

(** *** The form state and its handlers *)

(** The initial [formData]. *)
Definition initialFormData : FormData :=
  {| kitchen := ∅; hygiene := ∅; foodSafety := ∅;
     observationsPreset := "-- Select --"; observationsManual := EmptyString;
     maintenancePreset := "-- Select --"; maintenanceManual := EmptyString;
     actionPreset := "-- Select --"; actionManual := EmptyString |}.

(** [{ ...prev, [section]: { ...prev[section], [key]: value } }].  The
    sections are the properties "kitchen", "hygiene" and "foodSafety"; a
    property written under another name is read by nothing. *)
Definition handleCheck (section key value : string) (prev : FormData) : FormData :=
  if String.eqb section "kitchen" then
    {| kitchen := <[key := value]> (kitchen prev);
       hygiene := hygiene prev; foodSafety := foodSafety prev;
       observationsPreset := observationsPreset prev;
       observationsManual := observationsManual prev;
       maintenancePreset := maintenancePreset prev;
       maintenanceManual := maintenanceManual prev;
       actionPreset := actionPreset prev; actionManual := actionManual prev |}
  else if String.eqb section "hygiene" then
    {| kitchen := kitchen prev;
       hygiene := <[key := value]> (hygiene prev); foodSafety := foodSafety prev;
       observationsPreset := observationsPreset prev;
       observationsManual := observationsManual prev;
       maintenancePreset := maintenancePreset prev;
       maintenanceManual := maintenanceManual prev;
       actionPreset := actionPreset prev; actionManual := actionManual prev |}
  else if String.eqb section "foodSafety" then
    {| kitchen := kitchen prev; hygiene := hygiene prev;
       foodSafety := <[key := value]> (foodSafety prev);
       observationsPreset := observationsPreset prev;
       observationsManual := observationsManual prev;
       maintenancePreset := maintenancePreset prev;
       maintenanceManual := maintenanceManual prev;
       actionPreset := actionPreset prev; actionManual := actionManual prev |}
  else prev.

(** [{ ...prev, [`${which}Preset`]: value, ...rest }] where [rest] is
    empty when [String(value).toLowerCase().includes("other")] and resets
    [`${which}Manual`] to the empty string otherwise; [which] is
    "observations", "maintenance" or "action". *)
Definition handleRemarkPreset (which value : string) (prev : FormData) : FormData :=
  let manual (old : string) :=
    if includes "other" (toLowerCase value) then old else EmptyString in
  if String.eqb which "observations" then
    {| kitchen := kitchen prev; hygiene := hygiene prev; foodSafety := foodSafety prev;
       observationsPreset := value;
       observationsManual := manual (observationsManual prev);
       maintenancePreset := maintenancePreset prev;
       maintenanceManual := maintenanceManual prev;
       actionPreset := actionPreset prev; actionManual := actionManual prev |}
  else if String.eqb which "maintenance" then
    {| kitchen := kitchen prev; hygiene := hygiene prev; foodSafety := foodSafety prev;
       observationsPreset := observationsPreset prev;
       observationsManual := observationsManual prev;
       maintenancePreset := value;
       maintenanceManual := manual (maintenanceManual prev);
       actionPreset := actionPreset prev; actionManual := actionManual prev |}
  else if String.eqb which "action" then
    {| kitchen := kitchen prev; hygiene := hygiene prev; foodSafety := foodSafety prev;
       observationsPreset := observationsPreset prev;
       observationsManual := observationsManual prev;
       maintenancePreset := maintenancePreset prev;
       maintenanceManual := maintenanceManual prev;
       actionPreset := value; actionManual := manual (actionManual prev) |}
  else prev.

(** [{ ...prev, [`${which}Manual`]: value }] *)
Definition handleRemarkManual (which value : string) (prev : FormData) : FormData :=
  if String.eqb which "observations" then
    {| kitchen := kitchen prev; hygiene := hygiene prev; foodSafety := foodSafety prev;
       observationsPreset := observationsPreset prev;
       observationsManual := value;
       maintenancePreset := maintenancePreset prev;
       maintenanceManual := maintenanceManual prev;
       actionPreset := actionPreset prev; actionManual := actionManual prev |}
  else if String.eqb which "maintenance" then
    {| kitchen := kitchen prev; hygiene := hygiene prev; foodSafety := foodSafety prev;
       observationsPreset := observationsPreset prev;
       observationsManual := observationsManual prev;
       maintenancePreset := maintenancePreset prev;
       maintenanceManual := value;
       actionPreset := actionPreset prev; actionManual := actionManual prev |}
  else if String.eqb which "action" then
    {| kitchen := kitchen prev; hygiene := hygiene prev; foodSafety := foodSafety prev;
       observationsPreset := observationsPreset prev;
       observationsManual := observationsManual prev;
       maintenancePreset := maintenancePreset prev;
       maintenanceManual := maintenanceManual prev;
       actionPreset := actionPreset prev; actionManual := value |}
  else prev.

(** *** The rendered controls *)

(** What the user can do to the form: click a radio button of a checklist
    item, choose an option of a remark, type into the text area of a
    remark. *)
Inductive Event :=
| Answer (section key value : string)
| ChoosePreset (which value : string)
| TypeManual (which value : string).

(** The preset of a remark, by the name of the remark. *)
Definition presetOf (which : string) (formData : FormData) : string :=
  if String.eqb which "observations" then observationsPreset formData
  else if String.eqb which "maintenance" then maintenancePreset formData
  else actionPreset formData.

(** The controls the page renders: a "Yes" and a "No" button for every item
    of each section, a select over the options of each remark, and the
    text area of a remark only while its preset mentions "other". *)
Definition rendered (e : Event) (formData : FormData) : bool :=
  match e with
  | Answer section key value =>
      (String.eqb value "Yes" || String.eqb value "No")
      && ((String.eqb section "kitchen" && existsb (String.eqb key) kitchenParams)
          || (String.eqb section "hygiene" && existsb (String.eqb key) hygieneParams)
          || (String.eqb section "foodSafety"
              && existsb (String.eqb key) foodSafetyParams))
  | ChoosePreset which value =>
      (String.eqb which "observations" && existsb (String.eqb value) observationsOptions)
      || (String.eqb which "maintenance" && existsb (String.eqb value) maintenanceOptions)
      || (String.eqb which "action" && existsb (String.eqb value) actionPlanOptions)
  | TypeManual which _ =>
      (String.eqb which "observations" || String.eqb which "maintenance"
       || String.eqb which "action")
      && includes "other" (toLowerCase (presetOf which formData))
  end.

Definition handle (e : Event) (formData : FormData) : FormData :=
  match e with
  | Answer section key value => handleCheck section key value formData
  | ChoosePreset which value => handleRemarkPreset which value formData
  | TypeManual which value => handleRemarkManual which value formData
  end.

(** The form states a user can bring about. *)
Inductive reachable : FormData -> Prop :=
| reachable_initial : reachable initialFormData
| reachable_handle e formData :
    reachable formData -> rendered e formData = true ->
    reachable (handle e formData).

(** *** The submission, from await to await *)

(** [handleSubmit] is an asynchronous function.  It runs from the click to
    [await getDocs(q)], where it waits for the answer to its query; from
    that answer to [await addDoc(colRef, payload)], where it waits for the
    write; and from there to its end.  While it waits, other handlers run:
    the submit button stays enabled, and other pages use the same store.
    The answer of the store and the run of the handler that it sets off
    are one step here. *)

(** A submission that waits: for the answer to its query, or for its
    write. *)
Inductive Suspended :=
| AwaitQuery (payload : UnitAudit.t)
| AwaitWrite (payload : UnitAudit.t).

(** From the click to [await getDocs(q)]: a form that is not valid ends
    the handler, a valid one sends the query for its payload. *)
Definition submitStart `{Host} (formData : FormData) (selection : Selection)
  : Store.M (option Suspended) :=
  let sel := defaultSelection selection in
  match validate formData sel with
  | _ :: _ => mret None
  | [] =>
      now ← Store.get Store.clock;
      mret (Some (AwaitQuery (payloadOf formData sel now)))
  end.

(** [catch (err) { ... }] of [handleSubmit]. *)
Definition submitFailed {A} (result : A) (err : string) : Store.M A :=
  _ ← Store.console_error ("Error saving audit: " ++ err);
  _ ← Store.alert ("‚ùå Error saving data: " ++ err);
  mret result.

(** From the answer to the query to [await addDoc(colRef, payload)]. *)
Definition afterQuery (payload : UnitAudit.t) : Store.M (option Suspended) :=
  Store.tryCatch
    (snap ← Store.getDocs_unitAudits (UnitAudit.branch payload)
                                     (UnitAudit.date payload);
     match snap with
     | _ :: _ =>
         _ ← Store.alert (conflictMessage (UnitAudit.branch payload)
                                          (UnitAudit.date payload));
         mret None
     | [] => mret (Some (AwaitWrite payload))
     end)
    (submitFailed None).

(** From the answer to the write to the end. *)
Definition afterWrite (payload : UnitAudit.t) : Store.M (option Suspended) :=
  Store.tryCatch
    (_ ← Store.addDoc_unitAudits payload;
     _ ← Store.alert ("‚úÖ Audit submitted successfully! Score: "
                      ++ JsNumber.Number_toString (UnitAudit.scoreOutOf100 payload)
                      ++ " / 100");
     mret None)
    (submitFailed None).

Definition resume (s : Suspended) : Store.M (option Suspended) :=
  match s with
  | AwaitQuery payload => afterQuery payload
  | AwaitWrite payload => afterWrite payload
  end.

(** The store with the submissions that wait, in the order of their
    clicks. *)
Record Page := mkPage {
  world : Store.World;
  waiting : list Suspended
}.

(** What happens next: the submit button is clicked, with the form and the
    selection as they are then, or the store answers the [i]-th of the
    waiting submissions. *)
Inductive Turn :=
| Click (formData : FormData) (selection : Selection)
| Settle (i : nat).

Definition turn `{Host} (t : Turn) (pg : Page) : Page :=
  match t with
  | Click formData selection =>
      match submitStart formData selection (world pg) with
      | (Store.Returned (Some s), w) =>
          {| world := w; waiting := (waiting pg ++ [s])%list |}
      | (_, w) => {| world := w; waiting := waiting pg |}
      end
  | Settle i =>
      match waiting pg !! i with
      | None => pg
      | Some s =>
          match resume s (world pg) with
          | (Store.Returned (Some s'), w) =>
              {| world := w; waiting := <[i := s']> (waiting pg) |}
          | (_, w) => {| world := w; waiting := delete i (waiting pg) |}
          end
      end
  end.

Definition run `{Host} (turns : list Turn) (pg : Page) : Page :=
  fold_left (fun pg t => turn t pg) turns pg.

End AuditForm.

(** ** StaffEvaluation.js: the staff evaluation form *)

Module StaffEvaluation.
Import JsString.

(** The three-part branch of [ensureDDMMYYYY]. *)
Definition threeParts (s : string) : option string :=
  let parts :=
    if includes "/" s then Some (split "/" s)
    else if includes "-" s then Some (split "-" s)
    else None in
  match parts with
  | Some [p1; p2; p3] =>
      if ((String.length p1 <=? 2) && (String.length p2 <=? 2)
          && (String.length p3 =? 4))%nat
      then Some (padStart 2 "0" p1 ++ "/" ++ padStart 2 "0" p2 ++ "/" ++ p3)
      else None
  | _ => None
  end.

(** Utility: format dd/mm/yyyy.  [None] is [undefined] or [null]. *)
Definition ensureDDMMYYYY `{Host} (input : option string) : string :=
  match input with
  | None => EmptyString
  | Some v =>
      let s := trim v in
      match threeParts s with
      | Some r => r
      | None =>
          match Date_parse s with
          | Some d => formatLocal d
          | None => s
          end
      end
  end.

(** rating -> numeric mapping: [RATING_VALUE[r]], [None] for [undefined].
    The keys are the four ratings.  This is the lookup for every text
    that is not the name of a property every object inherits ("toString",
    "constructor", ...), hence for every rating the form produces; for
    such a name the lookup of the code finds the inherited property, which
    is outside this model. *)
Definition RATING_VALUE (r : string) : option Z :=
  if String.eqb r "Excellent" then Some 100
  else if String.eqb r "Good" then Some 80
  else if String.eqb r "Average" then Some 60
  else if String.eqb r "Poor" then Some 40
  else None.

(** grade thresholds from numeric score *)
Definition scoreToGrade (n : Z) : string :=
  if 90 <=? n then "A"
  else if 75 <=? n then "B"
  else if 60 <=? n then "C"
  else "D".

Definition params : list string :=
  [ "Attendance / Punctuality";
    "Work Discipline";
    "Food Taste / Quality";
    "Hygiene & Grooming";
    "Teamwork / Attitude" ].

Definition ratingOptions : list string :=
  [ "Excellent"; "Good"; "Average"; "Poor" ].

(** The numeric values [computeStaffScore] collects, in the order of
    [params]. *)
Definition ratedValues (ratingsObj : gmap string string) : list Z :=
  fold_left
    (fun vals k =>
       match ratingsObj !! k with
       | Some r =>
           if negb (isEmpty r) then
             match RATING_VALUE r with
             | Some v => (vals ++ [v])%list
             | None => vals
             end
           else vals
       | None => vals
       end)
    params [].

(** compute staff score from ratings (average of numeric values);
    [None] is [null]. *)
Definition computeStaffScore (ratingsObj : gmap string string) : option Z :=
  let vals := ratedValues ratingsObj in
  if (length vals =? 0)%nat then None
  else
    let total := fold_left (fun s x => s + x) vals 0 in
    let avg := (inject_Z total / inject_Z (Z.of_nat (length vals)))%Q in
    Some (JsNumber.Math_round avg).

Definition computedGrade (computedScore : option Z) : string :=
  match computedScore with
  | Some n => scoreToGrade n
  | None => EmptyString
  end.

(** *** The form and its submission *)

(** [totalMarks] and [grade] are display-only: an effect keeps them equal
    to the computed score and grade. *)
Record Form := mkForm {
  staffName : string;
  empCode : string;
  designation : string;
  totalMarks : string;
  grade : string
}.

Record Selection := mkSelection {
  branch : option string;
  city : option string;
  auditor : option string;
  date : option string
}.

Definition validate (form : Form) (ratings : gmap string string) : list string :=
  let missing :=
    List.filter (fun p => AuditForm.falsy (ratings !! p)) params in
  ((if isEmpty (trim (staffName form)) then ["Staff Name is required"] else [])
   ++ (if isEmpty (trim (empCode form)) then ["Emp Code is required"] else [])
   ++ (match missing with
       | [] => []
       | _ :: _ => [("Please rate: " ++ join ", " missing)%string]
       end))%list.

(** Prevent duplicate staff evaluation for same empCode and same date *)
Definition checkDuplicateForDate (empCode dateDD : string) : Store.M bool :=
  Store.tryCatch
    (snap ← Store.getDocs_staffEvaluations empCode dateDD;
     mret (match snap with [] => false | _ :: _ => true end))
    (fun err =>
       _ ← Store.console_error ("checkDuplicateForDate error: " ++ err);
       (* If there's an error, return false to avoid blocking *)
       mret false).

Definition duplicateMessage (empCode dateDD : string) : string :=
  "❌ An evaluation for Emp Code " ++ dquote ++ empCode ++ dquote
  ++ " already exists for " ++ dateDD
  ++ ". Only one evaluation per staff per day is allowed.".

Definition payloadOf `{Host} (form : Form) (ratings : gmap string string)
    (selection : Selection) (createdAt : Z) : StaffEval.t :=
  let computedScore := computeStaffScore ratings in
  let finalScore := default 0 computedScore in
  let finalGrade :=
    if isEmpty (grade form) then scoreToGrade finalScore else grade form in
  {| StaffEval.staffName := staffName form;
     StaffEval.empCode := empCode form;
     StaffEval.designation := designation form;
     StaffEval.totalMarks := JsNumber.Number_toString finalScore;
     StaffEval.grade := finalGrade;
     StaffEval.ratings := ratings;
     StaffEval.selection :=
       {| StaffEval.branch := default EmptyString (branch selection);
          StaffEval.city := default EmptyString (city selection);
          StaffEval.auditor := default EmptyString (auditor selection);
          StaffEval.date := ensureDDMMYYYY (date selection) |};
     StaffEval.scoreOutOf100 := finalScore;
     StaffEval.createdAt := createdAt |}.

(** Submit *)
Definition handleSubmit `{Host} (form : Form) (ratings : gmap string string)
    (selection : Selection) : Store.M unit :=
  match validate form ratings with
  | _ :: _ => mret tt
  | [] =>
      (* require date in selection *)
      let dateDD := ensureDDMMYYYY (date selection) in
      if isEmpty dateDD then
        Store.alert "Date missing from selection - please re-select branch/date."
      else
        (* check duplicates *)
        let empCode := trim (empCode form) in
        duplicate ← checkDuplicateForDate empCode dateDD;
        if duplicate : bool then
          Store.alert (duplicateMessage empCode dateDD)
        else
          Store.tryCatch
            (_ ← Store.addDoc_staffEvaluations (payloadOf form ratings selection);
             Store.alert "✅ Staff Evaluation submitted!")
            (fun err =>
               _ ← Store.console_error ("save error " ++ err);
               Store.alert ("❌ Error saving: " ++ err))
  end.

(** *** The handlers of the ratings table *)

(** [{ ...r, [param]: value }] *)
Definition handleRating (param value : string) (r : gmap string string)
  : gmap string string :=
  <[param := value]> r.

(** [{ ...r, [`${param}_remarks`]: text }]: the remark of a parameter lives
    in the ratings object, under the name of the parameter followed by
    "_remarks". *)
Definition handleRemark (param text : string) (r : gmap string string)
  : gmap string string :=
  <[(param ++ "_remarks")%string := text]> r.

(** *** Suggestions of staff names *)

Record Suggestion := mkSuggestion {
  s_staffName : string;
  s_empCode : string;
  s_designation : string;
  (** keep last doc to show previous marks if needed *)
  lastDoc : StaffEval.t
}.

(** [`${nameLower}::${code}`] *)
Definition suggestionKey (nameLower code : string) : string :=
  nameLower ++ "::" ++ code.

(** The client-side part of [searchStaffNames]: the suggestions for what
    was typed, from the documents the query fetched ([snap.docs], the most
    recent first).  A stored evaluation has all its fields, so that the
    fallbacks for a missing name, code or designation never apply. *)
Definition searchStaffNames (prefix : string) (docs : list StaffEval.t)
  : list Suggestion :=
  if isEmpty prefix || (String.length (trim prefix) <? 1)%nat then []
  else
    let prefixLower := toLowerCase (trim prefix) in
    snd (fold_left
           (fun (st : gset string * list Suggestion) data =>
              let '(seen, unique) := st in
              let name := trim (StaffEval.staffName data) in
              if isEmpty name then st
              else
                let nameLower := toLowerCase name in
                (* prefix match (case-insensitive) *)
                if startsWith prefixLower nameLower then
                  let code := trim (StaffEval.empCode data) in
                  let key := suggestionKey nameLower code in
                  if bool_decide (key ∈ seen) then st
                  else ({[ key ]} ∪ seen,
                        (unique ++ [ {| s_staffName := name;
                                        s_empCode := code;
                                        s_designation := StaffEval.designation data;
                                        lastDoc := data |} ])%list)
                else st)
           docs (∅, [])).

(** When user picks a suggestion *)
Definition pickSuggestion (sugg : Suggestion) (f : Form) : Form :=
  {| staffName := s_staffName sugg;
     empCode := s_empCode sugg;
     designation := s_designation sugg;
     totalMarks := totalMarks f;
     grade := grade f |}.

End StaffEvaluation.

(** ** SelectPage.js: the selection of branch and type *)

Module SelectPage.
Import JsString.

Definition newline : string := String (ascii_of_nat 10) EmptyString.

Definition centerCityMap : list (string * string) :=
  [ ("HSR Layout", "Bangalore");
    ("Koramangala", "Bangalore");
    ("Whitefield", "Bangalore");
    ("Bannerghatta Road", "Bangalore");
    ("Electronic City", "Bangalore");
    ("Manyata", "Bangalore");
    ("Kochi", "Kochi");
    ("Coimbatore", "Coimbatore") ].

(** [centerCityMap[branch]]; [None] is [undefined].  The branch is an
    option of the select, never the name of an inherited property. *)
Definition cityOf (branch : string) : option string :=
  snd <$> List.find (fun kv => String.eqb (fst kv) branch) centerCityMap.

(** What [formatDateDDMMYYYY] is given: a [Date] object ([None] when it is
    an invalid date) or a string. *)
Inductive DateValue :=
| ADate (d : option JsDate.LocalTime)
| AString (s : string).

(** format Date -> dd/mm/yyyy *)
Definition formatDateDDMMYYYY `{Host} (dateValue : DateValue) : string :=
  let d := match dateValue with
           | ADate d => d
           | AString s => Date_parse s
           end in
  match d with
  | None => EmptyString
  | Some t => formatLocal t
  end.

(** Today in dd/mm/yyyy, [now] being [new Date()]. *)
Definition todayDD `{Host} (now : JsDate.LocalTime) : string :=
  formatDateDDMMYYYY (ADate (Some now)).

Record Selection := mkSelection {
  branch : string;
  city : option string;
  auditor : string;
  date : string;
  type : string
}.

Definition existsMessage (branch todayDD : string) : string :=
  "A Unit Audit for branch " ++ dquote ++ branch ++ dquote
  ++ " already exists for today (" ++ todayDD ++ ")." ++ newline ++ newline
  ++ "Only one Unit Audit per branch per day is allowed.".

Definition connectionMessage (err : string) : string :=
  "Could not verify existing audits due to a connection error."
  ++ newline ++ newline
  ++ "If you are offline or your Firestore rules block reads, please try again or use Retrieve Reports."
  ++ newline ++ newline
  ++ "Error: " ++ err.

(** The submit handler of the page.  The result is the selection handed to
    [onSelect], [None] when [onSelect] is not called. *)
Definition handleSubmit (todayDD branch type : string)
  : Store.M (option Selection) :=
  if isEmpty branch || isEmpty type then
    _ ← Store.alert "Please select both Branch and Type.";
    mret None
  else
    (* Build selection object *)
    let selection :=
      {| branch := branch;
         city := cityOf branch;
         auditor := "Kumar Kannaiyan";
         date := todayDD;
         type := type |} in
    (* If it's a unit audit, check Firestore for an existing audit for
       same branch+date *)
    if String.eqb type "unit" then
      Store.tryCatch
        (snap ← Store.getDocs_unitAudits branch todayDD;
         match snap with
         | _ :: _ =>
             _ ← Store.alert (existsMessage branch todayDD);
             mret None
         | [] => mret (Some selection)
         end)
        (fun err =>
           _ ← Store.console_error ("Error checking existing audit: " ++ err);
           _ ← Store.alert (connectionMessage err);
           mret None)
    else
      (* staff evaluation: no duplicate check required *)
      mret (Some selection).

End SelectPage.

(** ** App.js: the pages *)

Module App.

Record State := mkState {
  page : string;
  selection : option SelectPage.Selection
}.

Definition initialState : State := {| page := "select"; selection := None |}.

Definition handleSelection (data : SelectPage.Selection) (st : State) : State :=
  {| page := if String.eqb (SelectPage.type data) "unit" then "unit" else "staff";
     selection := Some data |}.

Definition goBack (st : State) : State :=
  {| page := "select"; selection := selection st |}.

(** [<UnitAuditForm selection={selection} />]: the selection as the unit
    audit form reads it. *)
Definition unitSelection (st : State) : AuditForm.Selection :=
  match selection st with
  | Some s =>
      {| AuditForm.auditor := Some (SelectPage.auditor s);
         AuditForm.date := Some (SelectPage.date s);
         AuditForm.branch := Some (SelectPage.branch s);
         AuditForm.city := SelectPage.city s |}
  | None =>
      {| AuditForm.auditor := None; AuditForm.date := None;
         AuditForm.branch := None; AuditForm.city := None |}
  end.

(** [<StaffEvaluation selection={selection} />] *)
Definition staffSelection (st : State) : StaffEvaluation.Selection :=
  match selection st with
  | Some s =>
      {| StaffEvaluation.branch := Some (SelectPage.branch s);
         StaffEvaluation.city := SelectPage.city s;
         StaffEvaluation.auditor := Some (SelectPage.auditor s);
         StaffEvaluation.date := Some (SelectPage.date s) |}
  | None =>
      {| StaffEvaluation.branch := None; StaffEvaluation.city := None;
         StaffEvaluation.auditor := None; StaffEvaluation.date := None |}
  end.

End App.

(** ** RetrieveReports.js: retrieval and aggregation *)

(** A row of the per-employee table. *)
Module Row.
Record t := mk {
  empCode : string;
  staffName : string;
  count : nat;
  avg : JsNumber.number;
  label : string;
  branch : string;
  city : string
}.
End Row.

Module RetrieveReports.
Import JsString JsNumber JsDate.

(** [Array.prototype.sort(cmp)]: a stable sort, by insertion. *)
Fixpoint sortInsert {A} (cmp : A -> A -> Z) (x : A) (sorted : list A) : list A :=
  match sorted with
  | [] => [x]
  | y :: rest =>
      if cmp x y <? 0 then x :: y :: rest else y :: sortInsert cmp x rest
  end.

Definition Array_sort {A} (cmp : A -> A -> Z) (l : list A) : list A :=
  fold_left (fun sorted x => sortInsert cmp x sorted) l [].

(** [Number(v)] for a stored score. *)
Definition Number_value `{Host} (v : Doc.value) : number :=
  match v with
  | Doc.VNum q => Some q
  | Doc.VNaN => None
  | Doc.VStr s => Number_ s
  end.

Definition parseDDMMYYYYtoDate `{Host} (ddmmyy : string) : option Date :=
  if isEmpty ddmmyy then None
  else
    match split "/" ddmmyy with
    | [dStr; mStr; yStr] =>
        let day := Number_ dStr in
        let month := option_map (fun q => (q - 1)%Q) (Number_ mStr) in
        let year := Number_ yStr in
        Date_ymd year month day
    | _ => option_map getTime (Date_parse ddmmyy)
    end.

Definition isoToLocalDate `{Host} (iso : string) : option Date :=
  if isEmpty iso then None
  else
    match split "-" iso with
    | [yStr; mStr; dStr] =>
        let y := Number_ yStr in
        let m := option_map (fun q => (q - 1)%Q) (Number_ mStr) in
        let d := Number_ dStr in
        Date_ymd y m d
    | _ => option_map getTime (Date_parse iso)
    end.

Definition avgScoreToLabel (n : number) : string :=
  match n with
  | None => "-"
  | Some s =>
      if Qle_bool 90 s then "Excellent"
      else if Qle_bool 75 s then "Good"
      else if Qle_bool 60 s then "Average"
      else "Poor"
  end.

Definition withinRange `{Host} (dateDD fromISO toISO : string) : bool :=
  match parseDDMMYYYYtoDate dateDD with
  | None => false
  | Some d =>
      if isEmpty fromISO && isEmpty toISO then true
      else
        let from := if isEmpty fromISO then None else isoToLocalDate fromISO in
        let to := if isEmpty toISO then None else isoToLocalDate toISO in
        let from := option_map (fun f => setHours f 0 0 0 0) from in
        let to := option_map (fun t => setHours t 23 59 59 999) to in
        if match from with Some f => d <? f | None => false end then false
        else if match to with Some t => t <? d | None => false end then false
        else true
  end.

(** [item.id ?? JSON.stringify(item)] *)
Definition identity `{Host} (item : Doc.t) : string :=
  match Doc.id item with
  | Some i => i
  | None => JSON_stringify item
  end.

Definition dedupeById `{Host} (arr : list Doc.t) : list Doc.t :=
  snd (fold_left
         (fun (st : gset string * list Doc.t) item =>
            let '(seen, out) := st in
            let id := identity item in
            if bool_decide (id ∈ seen) then (seen, out)
            else ({[ id ]} ∪ seen, (out ++ [item])%list))
         arr (∅, [])).

(** [d.ratings || {}] *)
Definition ratingsOf (d : Doc.t) : list (string * string) :=
  default [] (Doc.ratings d).

(** [r[p]] *)
Definition prop (r : list (string * string)) (p : string) : option string :=
  snd <$> List.find (fun kv => String.eqb (fst kv) p) r.

Definition collectParameterNames (docs : list Doc.t) : list string :=
  fold_left
    (fun set d =>
       fold_left
         (fun set k =>
            if endsWith "_remarks" k then set
            else if existsb (String.eqb k) set then set
            else (set ++ [k])%list)
         (List.map fst (ratingsOf d)) set)
    docs [].

Record Tally := mkTally {
  Excellent : Z;
  Good : Z;
  Average : Z;
  Poor : Z;
  total : Z
}.

(** [stats[p][v] += 1; stats[p].total += 1] *)
Definition bump (v : string) (t : Tally) : Tally :=
  let t' :=
    if String.eqb v "Excellent" then
      {| Excellent := Excellent t + 1; Good := Good t; Average := Average t;
         Poor := Poor t; total := total t |}
    else if String.eqb v "Good" then
      {| Excellent := Excellent t; Good := Good t + 1; Average := Average t;
         Poor := Poor t; total := total t |}
    else if String.eqb v "Average" then
      {| Excellent := Excellent t; Good := Good t; Average := Average t + 1;
         Poor := Poor t; total := total t |}
    else
      {| Excellent := Excellent t; Good := Good t; Average := Average t;
         Poor := Poor t + 1; total := total t |} in
  {| Excellent := Excellent t'; Good := Good t'; Average := Average t';
     Poor := Poor t'; total := total t' + 1 |}.

Definition updateStats (stats : list (string * Tally)) (p : string)
    (f : Tally -> Tally) : list (string * Tally) :=
  List.map (fun kv => if String.eqb (fst kv) p then (fst kv, f (snd kv)) else kv) stats.

Definition computeParameterStats (docs : list Doc.t)
  : list string * list (string * Tally) :=
  let params := collectParameterNames docs in
  let ratings := ["Excellent"; "Good"; "Average"; "Poor"] in
  let stats := List.map (fun p => (p, mkTally 0 0 0 0 0)) params in
  let stats :=
    fold_left
      (fun stats d =>
         let r := ratingsOf d in
         fold_left
           (fun stats p =>
              match prop r p with
              | Some v =>
                  if negb (isEmpty v) && existsb (String.eqb v) ratings
                  then updateStats stats p (bump v)
                  else stats
              | None => stats
              end)
           params stats)
      docs stats in
  (params, stats).

(** *** The per-employee table *)

Record Group := mkGroup {
  g_empCode : string;
  g_staffName : string;
  recs : list Doc.t
}.

(** [v ? String(v).trim() : ""] *)
Definition trimmed (v : option string) : string :=
  match v with
  | Some s => if isEmpty s then EmptyString else trim s
  | None => EmptyString
  end.

(** [(code || name).toLowerCase()] *)
Definition naturalKey (r : Doc.t) : string :=
  let code := trimmed (Doc.empCode r) in
  let name := trimmed (Doc.staffName r) in
  toLowerCase (if isEmpty code then name else code).

Definition mapHas (map : list (string * Group)) (key : string) : bool :=
  existsb (fun kv => String.eqb (fst kv) key) map.

(** [if (!map.has(key)) map.set(key, {...}); map.get(key).recs.push(r)] *)
Definition mapPush (map : list (string * Group)) (key : string) (r : Doc.t)
  : list (string * Group) :=
  let map' :=
    if mapHas map key then map
    else (map ++ [(key, {| g_empCode := trimmed (Doc.empCode r);
                           g_staffName := trimmed (Doc.staffName r);
                           recs := [] |})])%list in
  List.map
    (fun kv =>
       if String.eqb (fst kv) key
       then (fst kv, {| g_empCode := g_empCode (snd kv);
                        g_staffName := g_staffName (snd kv);
                        recs := (recs (snd kv) ++ [r])%list |})
       else kv)
    map'.

(** The grouping loop; the counter numbers the drawings of random keys. *)
Definition groupRecords `{Host} (results : list Doc.t) : list (string * Group) :=
  fst (fold_left
         (fun (st : list (string * Group) * nat) r =>
            let '(map, drawn) := st in
            let k := naturalKey r in
            if isEmpty k
            then (mapPush map (Math_random_key drawn) r, S drawn)
            else (mapPush map k r, drawn))
         results ([], O)).

(** [(a.timestamp && a.timestamp.seconds) || (a.createdAt && a.createdAt.seconds) || 0] *)
Definition secondsOf (a : Doc.t) : Z :=
  match Doc.timestamp a with
  | Some s => if s =? 0 then default 0 (Doc.createdAt a) else s
  | None => default 0 (Doc.createdAt a)
  end.

(** [x || y] on strings that may be missing. *)
Definition orElse (x : option string) (y : string) : string :=
  match x with
  | Some s => if isEmpty s then y else s
  | None => y
  end.

(** [d.scoreOutOf100 ?? d.totalMarks ?? d.total ?? null], as a number when
    it is one. *)
Definition numericScore `{Host} (d : Doc.t) : option Q :=
  let s := match Doc.scoreOutOf100 d with
           | Some v => Some v
           | None => match Doc.totalMarks d with
                     | Some v => Some v
                     | None => Doc.total d
                     end
           end in
  match s with
  | Some v => Number_value v
  | None => None
  end.

Definition sumQ (l : list Q) : Q := fold_left Qplus l 0%Q.

(** The body of the loop over [map.values()]. *)
Definition rowOf `{Host} (val : Group) : option Row.t :=
  let sorted := Array_sort (fun a b => secondsOf b - secondsOf a) (recs val) in
  match sorted with
  | [] => None   (* a group is never empty *)
  | latest :: _ =>
      let numericScores := omap numericScore (recs val) in
      let avg := match numericScores with
                 | [] => None
                 | _ :: _ => Some (sumQ numericScores
                                   / inject_Z (Z.of_nat (length numericScores)))%Q
                 end in
      Some {| Row.empCode := g_empCode val;
              Row.staffName := g_staffName val;
              Row.count := length (recs val);
              Row.avg := avg;
              Row.label := match avg with
                           | Some _ => avgScoreToLabel avg
                           | None => "-"
                           end;
              Row.branch :=
                orElse (Doc.selection latest ≫= Doc.sel_branch)
                       (orElse (Doc.branch latest) "-");
              Row.city :=
                orElse (Doc.selection latest ≫= Doc.sel_city)
                       (orElse (Doc.city latest) "-") |}
  end.

Definition employeesAggregated `{Host} (results : list Doc.t) : list Row.t :=
  match results with
  | [] => []
  | _ :: _ =>
      let out := omap (fun kv => rowOf (snd kv)) (groupRecords results) in
      Array_sort (fun a b => localeCompare (Row.staffName a) (Row.staffName b)) out
  end.

(** *** The query *)

(** The client-side part of [runQuery] for staff evaluations: filter the
    fetched documents by date range, then deduplicate. *)
Definition staffResults `{Host} (docs : list Doc.t) (dateFromISO dateToISO : string)
  : list Doc.t :=
  dedupeById
    (List.filter
       (fun r =>
          let rDate :=
            match Doc.selection r ≫= Doc.sel_date with
            | Some d => d
            | None => default EmptyString (Doc.date r)
            end in
          withinRange rDate dateFromISO dateToISO)
       docs).

(** The same for unit audits. *)
Definition unitResults `{Host} (docs : list Doc.t) (dateFromISO dateToISO : string)
  : list Doc.t :=
  dedupeById
    (List.filter
       (fun r =>
          let rDate :=
            match Doc.date r with
            | Some d => d
            | None => default EmptyString (Doc.selection r ≫= Doc.sel_date)
            end in
          withinRange rDate dateFromISO dateToISO)
       docs).

(** *** Display helpers *)

(** Convert yyyy-mm-dd (input[type=date]) to dd/mm/yyyy *)
Definition isoToDDMMYYYY `{Host} (iso : string) : string :=
  if isEmpty iso then EmptyString
  else if reDDMMYYYY_test iso then iso
  else
    match split "-" iso with
    | [y; m; d] => padStart 2 "0" d ++ "/" ++ padStart 2 "0" m ++ "/" ++ y
    | _ =>
        match Date_parse iso with
        | Some dt => formatLocal dt
        | None => iso
        end
    end.

(** [formatTodayDDMMYYYY()], [now] being [new Date()]. *)
Definition formatTodayDDMMYYYY (now : LocalTime) : string := formatLocal now.

Definition scoreBadgeColor (score : number) : string :=
  match score with
  | None => "#999"
  | Some s =>
      if Qle_bool 90 s then "#2e7d32"
      else if Qle_bool 75 s then "#f0ad4e"
      else "#d9534f"
  end.

(** *** The history of an employee *)

(** The client-side part of [fetchEmployeeHistory], up to the list of
    evaluations it shows: deduplicate the fetched documents, keep those in
    the selected date range if there is one, and deduplicate again. *)
Definition employeeHistory `{Host} (docs : list Doc.t) (dateFromISO dateToISO : string)
  : list Doc.t :=
  let docs := dedupeById docs in
  (* respect the currently selected date range if any *)
  let docs :=
    if negb (isEmpty dateFromISO) || negb (isEmpty dateToISO)
    then List.filter
           (fun r =>
              let rDate :=
                match Doc.selection r ≫= Doc.sel_date with
                | Some d => d
                | None => default EmptyString (Doc.date r)
                end in
              withinRange rDate dateFromISO dateToISO)
           docs
    else docs in
  dedupeById docs.

(** *** The presets of the date range *)

(** [s.slice(from, to)] for indices within the string, [from <= to]. *)
Definition slice (from to : nat) (s : string) : string :=
  substring from (to - from) s.

(** [setPresetMonth(year, monthIndex)]: the From and To dates it sets, in
    a zone [tz] milliseconds ahead of UTC; [None] when [toISOString]
    throws on an invalid date, which leaves the range as it was. *)
Definition setPresetMonth (tz : Z) (year monthIndex : Z) : option (string * string) :=
  let from := Date_ymd (Some (inject_Z year)) (Some (inject_Z monthIndex)) (Some 1%Q) in
  let to := Date_ymd (Some (inject_Z year)) (Some (inject_Z monthIndex + 1)%Q) (Some 0%Q) in
  match to, from with
  | Some to, Some from =>
      let toISO := slice 0 10 (toISOString tz to) in
      let fromISO := slice 0 10 (toISOString tz from) in
      Some (fromISO, toISO)
  | _, _ => None
  end.

(** The button "This month", [now] being [new Date()]. *)
Definition thisMonth (tz : Z) (now : LocalTime) : option (string * string) :=
  setPresetMonth tz (getFullYear now) (getMonth now).

(** The button "Last month". *)
Definition lastMonth (tz : Z) (now : LocalTime) : option (string * string) :=
  match Date_ymd (Some (inject_Z (getFullYear now)))
                 (Some (inject_Z (getMonth now) - 1)%Q) (Some 1%Q) with
  | Some prev => setPresetMonth tz (YearFromDay (Day prev)) (MonthFromDay (Day prev))
  | None => None
  end.

End RetrieveReports.

(** ** Notions the specification is phrased in *)

Module Spec.
Import JsString.

(** [clamp(x, lo, hi)] *)
Definition clamp (lo hi x : Z) : Z :=
  if x <? lo then lo else if hi <? x then hi else x.

(** *** Unit audit scoring *)

(** A section of the form holds answers for its own items only, each
    "Yes" or "No" (what the radio buttons write). *)
Definition wellFormedSection (params : list string) (obj : gmap string string) : Prop :=
  forall label v, obj !! label = Some v ->
    label ∈ params /\ (v = "Yes" \/ v = "No").

(** A section in which every item of [params] carries the answer [v]. *)
Definition fillSection (params : list string) (v : string) : gmap string string :=
  list_to_map (List.map (fun label => (label, v)) params).

(** The section in which a checklist item lives. *)
Definition sectionOf (kitchen hygiene foodSafety : gmap string string)
    (label : string) : gmap string string :=
  if bool_decide (label ∈ AuditForm.kitchenParams) then kitchen
  else if bool_decide (label ∈ AuditForm.hygieneParams) then hygiene
  else foodSafety.

Definition answeredYes (kitchen hygiene foodSafety : gmap string string)
    (label : string) : bool :=
  bool_decide (sectionOf kitchen hygiene foodSafety label !! label = Some "Yes").

(** Number of checklist items answered "Yes", over the three sections. *)
Definition yesCount (kitchen hygiene foodSafety : gmap string string) : Z :=
  Z.of_nat (length (List.filter (answeredYes kitchen hygiene foodSafety)
                                AuditForm.allParams)).

(** The manual text mentions "no issue", whatever the letter case. *)
Definition mentionsNoIssue (manual : string) : bool :=
  includes "no issue" (toLowerCase manual).

(** Points of a remark: [noIssue] is the designated no-issue preset of
    the field. *)
Definition remarkPoints (noIssue preset manual : string) : Z :=
  if String.eqb preset noIssue then 11
  else if String.eqb preset "Other (manual)" then
    (if mentionsNoIssue manual then 11 else -11)
  else if String.eqb preset "-- Select --" then 0
  else -11.

(** *** Date normalisation *)

(** Generic parsing of [s], when it succeeds, gives a year of four
    digits. *)
Definition fourDigitYear `{Host} (s : string) : Prop :=
  forall t, Date_parse s = Some t -> 1000 <= JsDate.getFullYear t <= 9999.

(** The canonical form DD/MM/YYYY: two digits, two digits, four digits. *)
Definition canonicalDate (s : string) : bool :=
  match split "/" s with
  | [a; b; c] => digitsBetween 2 2 a && digitsBetween 2 2 b && digitsBetween 4 4 c
  | _ => false
  end.

(** *** The range filter *)

(** A calendar date. *)
Record CalDate := mkCal { year : Z; month : Z; day : Z }.

(** A date of the calendar, of a year the application can write down with
    four digits and that the [Date] constructor takes as it is (it reads a
    year below 100 as 1900 + year). *)
Definition validCal (c : CalDate) : bool :=
  (100 <=? year c) && (year c <=? 9999)
  && (1 <=? month c) && (month c <=? 12)
  && (1 <=? day c)
  && (day c <=? JsDate.daysInMonth (JsDate.isLeapYear (year c)) (month c - 1)).

(** The calendar date a DD/MM/YYYY string denotes. *)
Definition readDDMMYYYY (s : string) : option CalDate :=
  match split "/" s with
  | [dd; mm; yyyy] =>
      if digitsBetween 2 2 dd && digitsBetween 2 2 mm && digitsBetween 4 4 yyyy
      then
        let c := mkCal (JsNumber.parseDigits yyyy 0) (JsNumber.parseDigits mm 0)
                       (JsNumber.parseDigits dd 0) in
        if validCal c then Some c else None
      else None
  | _ => None
  end.

(** The calendar date an ISO string YYYY-MM-DD denotes. *)
Definition readISO (s : string) : option CalDate :=
  match split "-" s with
  | [yyyy; mm; dd] =>
      if digitsBetween 4 4 yyyy && digitsBetween 2 2 mm && digitsBetween 2 2 dd
      then
        let c := mkCal (JsNumber.parseDigits yyyy 0) (JsNumber.parseDigits mm 0)
                       (JsNumber.parseDigits dd 0) in
        if validCal c then Some c else None
      else None
  | _ => None
  end.

(** A bound of the range: the empty string is an absent bound. *)
Definition readBound (s : string) : option (option CalDate) :=
  if isEmpty s then Some None else Some <$> readISO s.

(** [a] is not later than [b] in the calendar. *)
Definition calLeb (a b : CalDate) : bool :=
  (year a <? year b)
  || ((year a =? year b)
      && ((month a <? month b) || ((month a =? month b) && (day a <=? day b)))).

(** The date lies in the range; an absent bound leaves its side open. *)
Definition inRange (d : CalDate) (from to : option CalDate) : bool :=
  match from with Some f => calLeb f d | None => true end
  && match to with Some t => calLeb d t | None => true end.

(** *** Deduplication and the query *)

(** Keep the first record of each identity that is not in [seen]. *)
Fixpoint firstOfEach `{Host} (seen : gset string) (xs : list Doc.t) : list Doc.t :=
  match xs with
  | [] => []
  | x :: rest =>
      if bool_decide (RetrieveReports.identity x ∈ seen) then firstOfEach seen rest
      else x :: firstOfEach ({[ RetrieveReports.identity x ]} ∪ seen) rest
  end.

(** The date the query reads off a staff evaluation: [selection.date],
    else [date], else the empty string. *)
Definition staffDate (r : Doc.t) : string :=
  match Doc.selection r ≫= Doc.sel_date with
  | Some d => d
  | None => default EmptyString (Doc.date r)
  end.

(** The date the query reads off a unit audit. *)
Definition unitDate (r : Doc.t) : string :=
  match Doc.date r with
  | Some d => d
  | None => default EmptyString (Doc.selection r ≫= Doc.sel_date)
  end.

(** The date of the record can be parsed. *)
Definition dated `{Host} (dateOf : Doc.t -> string) (r : Doc.t) : bool :=
  match RetrieveReports.parseDDMMYYYYtoDate (dateOf r) with
  | Some _ => true
  | None => false
  end.

(** *** The per-employee aggregate *)

(** The grouping key of a record: the employee code, or the staff name when
    the code is absent or blank, without outer white space and in lower
    case. *)
Definition groupingKey (r : Doc.t) : string :=
  let code := default EmptyString (Doc.empCode r) in
  let name := default EmptyString (Doc.staffName r) in
  toLowerCase (trim (if isEmpty (trim code) then name else code)).

(** Every record has a code or a name to be grouped by. *)
Definition keyed (rs : list Doc.t) : Prop :=
  forall r, r ∈ rs -> isEmpty (groupingKey r) = false.

(** The records of the group [k]. *)
Definition members (k : string) (rs : list Doc.t) : list Doc.t :=
  List.filter (fun r => String.eqb (groupingKey r) k) rs.

(** The arithmetic mean of a non-empty list of rationals. *)
Definition meanQ (qs : list Q) : Q :=
  (foldr Qplus 0 qs / inject_Z (Z.of_nat (length qs)))%Q.

(** Excellent, Good, Average, Poor by the thresholds 90, 75, 60. *)
Definition labelOfMean (a : Q) (l : string) : Prop :=
  ((90 <= a)%Q -> l = "Excellent") /\
  ((75 <= a)%Q /\ (a < 90)%Q -> l = "Good") /\
  ((60 <= a)%Q /\ (a < 75)%Q -> l = "Average") /\
  ((a < 60)%Q -> l = "Poor").

(** The number a text writes down: a blank text counts as 0, a signed
    decimal integer as its value, any other text as the host reads it;
    [None] when it writes no number. *)
Definition numberWritten `{Host} (s : string) : option Q :=
  match trim s with
  | EmptyString => Some 0%Q
  | String _ _ as t =>
      match JsNumber.parseDecimal t with
      | Some z => Some (inject_Z z)
      | None => StringToNumber_other t
      end
  end.

(** The score of a record, for the mean of its group.  The score is kept
    under [scoreOutOf100], in records of another make under [totalMarks]
    or under [total]: the first of the three that the record has is its
    score, whatever the others hold.  A number counts as it is and a text
    as the number it writes down; a record without any of the three, or
    whose score is NaN or a text that writes no number, has no score. *)
Definition statedScore `{Host} (d : Doc.t) : option Q :=
  match Doc.scoreOutOf100 d, Doc.totalMarks d, Doc.total d with
  | Some v, _, _ | None, Some v, _ | None, None, Some v =>
      match v with
      | Doc.VNum q => Some q
      | Doc.VNaN => None
      | Doc.VStr s => numberWritten s
      end
  | None, None, None => None
  end.

(** [row] is the aggregate of the records [ms]: their number, the mean of
    the scores of those that have one, and the label of that mean. *)
Definition aggregateOf `{Host} (ms : list Doc.t) (row : Row.t) : Prop :=
  Row.count row = length ms /\
  match omap statedScore ms with
  | [] => Row.avg row = None /\ Row.label row = "-"
  | qs =>
      exists a, Row.avg row = Some a /\ (a == meanQ qs)%Q
                /\ labelOfMean a (Row.label row)
  end.

(** *** The uniqueness guard *)

(** The store answers the next call. *)
Definition storeAnswers (w : Store.World) : Prop :=
  match Store.outages w with
  | Some _ :: _ => False
  | _ => True
  end.

(** A unit audit for the branch [b] on the date [d] is on record. *)
Definition unitAuditOnRecord (w : Store.World) (b d : string) : Prop :=
  exists r, r ∈ Store.unitAudits w /\ UnitAudit.branch r = b /\ UnitAudit.date r = d.

(** A staff evaluation for the employee [code] on the date [d] is on
    record. *)
Definition staffEvaluationOnRecord (w : Store.World) (code d : string) : Prop :=
  exists r, r ∈ Store.staffEvaluations w /\ StaffEval.empCode r = code
            /\ StaffEval.date (StaffEval.selection r) = d.

(** *** Staff evaluation scoring *)

Inductive Rating := Excellent | Good | Average | Poor.

Definition ratingOfName (name : string) : option Rating :=
  if String.eqb name "Excellent" then Some Excellent
  else if String.eqb name "Good" then Some Good
  else if String.eqb name "Average" then Some Average
  else if String.eqb name "Poor" then Some Poor
  else None.

(** The table {Excellent: 100, Good: 80, Average: 60, Poor: 40}. *)
Definition ratingPoints (r : Rating) : Z :=
  match r with
  | Excellent => 100
  | Good => 80
  | Average => 60
  | Poor => 40
  end.

Definition tableValue (name : string) : Z :=
  match ratingOfName name with
  | Some r => ratingPoints r
  | None => 0
  end.

(** A ratings assignment gives a rating, one of the four radio values, to
    some of the fixed parameters (remark texts live under other keys). *)
Definition wellFormedRatings (ratings : gmap string string) : Prop :=
  forall p r, p ∈ StaffEvaluation.params -> ratings !! p = Some r ->
    r ∈ StaffEvaluation.ratingOptions.

(** The answers given, in the order of the parameters. *)
Definition answers (ratings : gmap string string) : list string :=
  omap (fun p => ratings !! p) StaffEvaluation.params.

Definition answeredValues (ratings : gmap string string) : list Z :=
  List.map tableValue (answers ratings).

Definition sumZ (vals : list Z) : Z := foldr Z.add 0 vals.

(** The arithmetic mean of a non-empty list of integers. *)
Definition mean (vals : list Z) : Q :=
  (inject_Z (sumZ vals) / inject_Z (Z.of_nat (length vals)))%Q.

(** [n] is the integer nearest to [q], a tie going up. *)
Definition nearestInteger (q : Q) (n : Z) : Prop :=
  (q - (1 # 2) < inject_Z n /\ inject_Z n <= q + (1 # 2))%Q.

(** A, B, C, D by the thresholds 90, 75, 60. *)
Definition gradeOf (n : Z) (g : string) : Prop :=
  (90 <= n -> g = "A") /\
  (75 <= n < 90 -> g = "B") /\
  (60 <= n < 75 -> g = "C") /\
  (n < 60 -> g = "D").

End Spec.

(** ** A reference host *)

(** A host in the zone UTC whose generic date parsing reads the ISO form
    YYYY-MM-DD and, as the common engines do, the slash form as
    month/day/year, and nothing else. *)
Module RefHost.
Import JsString JsNumber JsDate.

Definition checked (y m d : Z) : option LocalTime :=
  if (1 <=? m) && (m <=? 12) && (1 <=? d)
     && (d <=? daysInMonth (isLeapYear y) (m - 1))
  then Some {| getFullYear := y; getMonth := m - 1; getDate := d; msOfDay := 0 |}
  else None.

Definition parseISO (s : string) : option LocalTime :=
  match split "-" s with
  | [y; m; d] =>
      if digitsBetween 4 4 y && digitsBetween 2 2 m && digitsBetween 2 2 d
      then checked (parseDigits y 0) (parseDigits m 0) (parseDigits d 0)
      else None
  | _ => None
  end.

Definition parseSlash (s : string) : option LocalTime :=
  match split "/" s with
  | [m; d; y] =>
      if digitsBetween 1 2 m && digitsBetween 1 2 d && digitsBetween 1 6 y
      then
        let yv := parseDigits y 0 in
        let yr := if (String.length y <=? 2)%nat
                  then (if yv <? 50 then 2000 + yv else 1900 + yv)
                  else yv in
        checked yr (parseDigits m 0) (parseDigits d 0)
      else None
  | _ => None
  end.

Definition parse (s : string) : option LocalTime :=
  match parseISO s with
  | Some t => Some t
  | None => parseSlash s
  end.

Lemma checked_valid y m d t : checked y m d = Some t -> validLocalTime t.
Proof.
  unfold checked.
  destruct ((1 <=? m) && (m <=? 12) && (1 <=? d)
            && (d <=? daysInMonth (isLeapYear y) (m - 1))) eqn:E; [|discriminate].
  intros [= <-].
  apply andb_prop in E as [E E4]. apply andb_prop in E as [E E3].
  apply andb_prop in E as [E1 E2].
  unfold validLocalTime, msPerDay. simpl. lia.
Qed.

Lemma parse_valid s t : parse s = Some t -> validLocalTime t.
Proof.
  unfold parse, parseISO, parseSlash.
  destruct (split "-" s) as [|y [|m [|d [|]]]];
    try (destruct (split "/" s) as [|m' [|d' [|y' [|]]]]; try discriminate;
         destruct (_ && _ && _); try discriminate; apply checked_valid).
  destruct (digitsBetween 4 4 y && digitsBetween 2 2 m && digitsBetween 2 2 d).
  - destruct (checked (parseDigits y 0) (parseDigits m 0) (parseDigits d 0)) eqn:E.
    + intros [= <-]. now apply checked_valid in E.
    + destruct (split "/" s) as [|m' [|d' [|y' [|]]]]; try discriminate.
      destruct (_ && _ && _); try discriminate. apply checked_valid.
  - destruct (split "/" s) as [|m' [|d' [|y' [|]]]]; try discriminate.
    destruct (_ && _ && _); try discriminate. apply checked_valid.
Qed.

Definition compareUnits (a b : string) : Z :=
  match String.compare a b with
  | Lt => -1
  | Eq => 0
  | Gt => 1
  end.

Definition refHost : Host :=
  {| Date_parse := parse;
     Date_parse_valid := parse_valid;
     Date_parse_empty := eq_refl;
     StringToNumber_other := fun _ => None;
     localeCompare := compareUnits;
     Math_random_key := fun n => "k" ++ Number_toString (Z.of_nat n);
   JSON_stringify := fun d =>
     "{" ++ default EmptyString (Doc.empCode d) ++ ","
         ++ default EmptyString (Doc.staffName d) ++ ","
         ++ default EmptyString (Doc.date d) ++ "}" |}.

End RefHost.

(** ** Sample data *)

(** A session on the reference host and a few documents, for the examples. *)
Module Sample.

(** The assignment {Excellent, Excellent, Good, Average, Poor}. *)
Definition exampleRatings : gmap string string :=
  list_to_map
    [ ("Attendance / Punctuality", "Excellent");
      ("Work Discipline", "Excellent");
      ("Food Taste / Quality", "Good");
      ("Hygiene & Grooming", "Average");
      ("Teamwork / Attitude", "Poor") ].

Definition auditForm : AuditForm.FormData :=
  {| AuditForm.kitchen := Spec.fillSection AuditForm.kitchenParams "Yes";
     AuditForm.hygiene := Spec.fillSection AuditForm.hygieneParams "Yes";
     AuditForm.foodSafety := Spec.fillSection AuditForm.foodSafetyParams "No";
     AuditForm.observationsPreset := "No issues observed";
     AuditForm.observationsManual := EmptyString;
     AuditForm.maintenancePreset := "Schedule deep-cleaning";
     AuditForm.maintenanceManual := EmptyString;
     AuditForm.actionPreset := "Follow-up audit in 7 days";
     AuditForm.actionManual := EmptyString |}.

Definition auditSelection : AuditForm.Selection :=
  {| AuditForm.auditor := Some "Kumar Kannaiyan";
     AuditForm.date := Some "01/06/2024";
     AuditForm.branch := Some "Koramangala";
     AuditForm.city := Some "Bengaluru" |}.

Definition staffForm : StaffEvaluation.Form :=
  {| StaffEvaluation.staffName := "Asha";
     StaffEvaluation.empCode := "E17";
     StaffEvaluation.designation := "Cook";
     StaffEvaluation.totalMarks := "76";
     StaffEvaluation.grade := "B" |}.

Definition staffSelection : StaffEvaluation.Selection :=
  {| StaffEvaluation.branch := Some "Koramangala";
     StaffEvaluation.city := Some "Bengaluru";
     StaffEvaluation.auditor := Some "Kumar Kannaiyan";
     StaffEvaluation.date := Some "01/06/2024" |}.

(** A store that holds one audit and one evaluation of 01/06/2024, and
    whose calls fail as [script] says. *)
Definition session (script : list (option string)) : Store.World :=
  {| Store.unitAudits :=
       [ @AuditForm.payloadOf RefHost.refHost auditForm auditSelection 0 ];
     Store.staffEvaluations :=
       [ @StaffEvaluation.payloadOf RefHost.refHost staffForm
           exampleRatings staffSelection 0 ];
     Store.outages := script;
     Store.alerts := [];
     Store.console := [];
     Store.clock := 1 |}.

(** An evaluation of the employee E17, as retrieved: its document id, the
    staff name as typed, and its score. *)
Definition evaluation (id name : string) (score : Z) : Doc.t :=
  {| Doc.id := Some id;
     Doc.empCode := Some "E17";
     Doc.staffName := Some name;
     Doc.ratings := Some [("Work Discipline", "Good")];
     Doc.scoreOutOf100 := Some (Doc.VNum (inject_Z score));
     Doc.totalMarks := None;
     Doc.total := None;
     Doc.timestamp := None;
     Doc.createdAt := Some 1717200000;
     Doc.selection :=
       Some {| Doc.sel_branch := Some "Koramangala";
               Doc.sel_city := Some "Bengaluru";
               Doc.sel_date := Some "01/06/2024" |};
     Doc.branch := None;
     Doc.city := None;
     Doc.date := None |}.

End Sample.

(* ===================================================================== *)
(** * Part II: properties                                                 *)
(* ===================================================================== *)

(** ** Facts about the string primitives *)

Module JsStringFacts.
Import JsString.

(** The needle does not begin with white space (and is not empty). *)
Definition headNonWs (n : string) : bool :=
  match n with
  | EmptyString => false
  | String a _ => negb (isWhiteSpace a)
  end.

(** The needle does not end with white space. *)
Fixpoint lastNonWs (n : string) : bool :=
  match n with
  | EmptyString => true
  | String a EmptyString => negb (isWhiteSpace a)
  | String _ r => lastNonWs r
  end.

Lemma isWhiteSpace_lowerChar c : isWhiteSpace (lowerChar c) = isWhiteSpace c.
Proof. destruct c as [[] [] [] [] [] [] [] []]; reflexivity. Qed.

Lemma isEmpty_toLowerCase s : isEmpty (toLowerCase s) = isEmpty s.
Proof. destruct s; reflexivity. Qed.

Lemma isEmpty_true s : isEmpty s = true -> s = EmptyString.
Proof. destruct s; [reflexivity | discriminate]. Qed.

Lemma toLowerCase_trimStart s :
  toLowerCase (trimStart s) = trimStart (toLowerCase s).
Proof.
  induction s as [|c r IH]; simpl; [reflexivity|].
  rewrite isWhiteSpace_lowerChar.
  destruct (isWhiteSpace c); [exact IH | reflexivity].
Qed.

Lemma toLowerCase_trimEnd s :
  toLowerCase (trimEnd s) = trimEnd (toLowerCase s).
Proof.
  induction s as [|c r IH]; simpl; [reflexivity|].
  rewrite isWhiteSpace_lowerChar, <- IH, isEmpty_toLowerCase.
  destruct (isWhiteSpace c && isEmpty (trimEnd r)); reflexivity.
Qed.

Lemma toLowerCase_trim s : toLowerCase (trim s) = trim (toLowerCase s).
Proof. unfold trim. now rewrite toLowerCase_trimEnd, toLowerCase_trimStart. Qed.

Lemma startsWith_ws n c s :
  headNonWs n = true -> isWhiteSpace c = true -> startsWith n (String c s) = false.
Proof.
  destruct n as [|a n']; simpl; [discriminate|].
  intros Ha Hc. destruct (Ascii.eqb_spec a c) as [->|]; [|reflexivity].
  rewrite Hc in Ha. discriminate.
Qed.

Lemma includes_trimStart n s :
  headNonWs n = true -> includes n (trimStart s) = includes n s.
Proof.
  intros Hn. induction s as [|c r IH]; [reflexivity|].
  cbn [trimStart]. destruct (isWhiteSpace c) eqn:Hc; [|reflexivity].
  rewrite IH. cbn [includes]. now rewrite (startsWith_ws n c r Hn Hc).
Qed.

Lemma startsWith_nil_r p :
  startsWith p EmptyString = isEmpty p.
Proof. destruct p; reflexivity. Qed.

Lemma startsWith_trimEnd p s :
  lastNonWs p = true -> startsWith p (trimEnd s) = startsWith p s.
Proof.
  revert p. induction s as [|c r IH]; intros p Hp; [reflexivity|].
  cbn [trimEnd]. destruct p as [|a p']; [reflexivity|].
  assert (Hp' : lastNonWs p' = true) by (destruct p'; [reflexivity | exact Hp]).
  destruct (isWhiteSpace c && isEmpty (trimEnd r)) eqn:E.
  - apply andb_prop in E as [Hc He]. apply isEmpty_true in He.
    cbn [startsWith]. specialize (IH p' Hp'). rewrite He in IH.
    destruct (Ascii.eqb_spec a c) as [->|]; [|reflexivity].
    rewrite <- IH, startsWith_nil_r. destruct p'; [|reflexivity].
    simpl in Hp. rewrite Hc in Hp. discriminate.
  - cbn [startsWith]. now rewrite IH.
Qed.

Lemma includes_nil_r n : includes n EmptyString = isEmpty n.
Proof. destruct n; reflexivity. Qed.

Lemma includes_trimEnd n s :
  headNonWs n = true -> lastNonWs n = true ->
  includes n (trimEnd s) = includes n s.
Proof.
  intros Hh Hl. induction s as [|c r IH]; [reflexivity|].
  cbn [trimEnd]. destruct (isWhiteSpace c && isEmpty (trimEnd r)) eqn:E.
  - apply andb_prop in E as [Hc He]. apply isEmpty_true in He.
    rewrite He in IH. cbn [includes]. rewrite <- IH, (startsWith_ws n c r Hh Hc).
    reflexivity.
  - change (includes n (String c (trimEnd r)))
      with (startsWith n (String c (trimEnd r)) || includes n (trimEnd r)).
    assert (H : startsWith n (String c (trimEnd r)) = startsWith n (String c r)).
    { destruct n as [|a n']; [reflexivity|]. cbn [startsWith].
      rewrite startsWith_trimEnd; [reflexivity|].
      destruct n'; [reflexivity | exact Hl]. }
    rewrite H, IH. reflexivity.
Qed.

(** Trimming does not change whether a needle free of outer white space
    occurs. *)
Lemma includes_trim n s :
  headNonWs n = true -> lastNonWs n = true ->
  includes n (trim s) = includes n s.
Proof.
  intros Hh Hl. unfold trim.
  now rewrite includes_trimEnd, includes_trimStart.
Qed.

(** *** Append and length *)

Lemma append_nil_r s : s ++ EmptyString = s.
Proof. induction s; simpl; congruence. Qed.

Lemma append_assoc a b c : (a ++ b) ++ c = a ++ (b ++ c).
Proof. induction a; simpl; congruence. Qed.

Lemma length_append a b :
  String.length (a ++ b) = (String.length a + String.length b)%nat.
Proof. induction a; simpl; congruence. Qed.

Lemma length_replicate n c : String.length (replicate n c) = n.
Proof. induction n; simpl; congruence. Qed.

Lemma length_zero s : String.length s = 0%nat -> s = EmptyString.
Proof. destruct s; [reflexivity | discriminate]. Qed.

Lemma allChars_append p a b :
  allChars p (a ++ b) = allChars p a && allChars p b.
Proof. induction a; simpl; [reflexivity|]. now rewrite IHa, andb_assoc. Qed.

Lemma allChars_replicate p n c : p c = true -> allChars p (replicate n c) = true.
Proof. intros H. induction n; simpl; [reflexivity|]. now rewrite H. Qed.

Lemma allChars_impl (p q : ascii -> bool) s :
  (forall c, p c = true -> q c = true) -> allChars p s = true -> allChars q s = true.
Proof.
  intros H. induction s; simpl; [reflexivity|].
  intros [Ha Hs]%andb_prop. now rewrite (H _ Ha), IHs.
Qed.

(** *** Padding *)

Lemma padStart_length n c s :
  (String.length s <= n)%nat -> String.length (padStart n c s) = n.
Proof. intros H. unfold padStart. rewrite length_append, length_replicate. lia. Qed.

Lemma padStart_full n c s : (n <= String.length s)%nat -> padStart n c s = s.
Proof.
  intros H. unfold padStart.
  replace (n - String.length s)%nat with 0%nat by lia. reflexivity.
Qed.

Lemma padStart_allChars p n c s :
  p c = true -> allChars p s = true -> allChars p (padStart n c s) = true.
Proof.
  intros Hc Hs. unfold padStart.
  now rewrite allChars_append, allChars_replicate, Hs.
Qed.

(** *** Splitting *)

(** The character [c] does not occur in [s]. *)
Definition noChar (c : ascii) (s : string) : bool :=
  allChars (fun a => negb (Ascii.eqb a c)) s.

Lemma split_single sep a : noChar sep a = true -> split sep a = [a].
Proof.
  induction a as [|c a IH]; simpl; [reflexivity|].
  intros [Hc Ha]%andb_prop. apply negb_true_iff in Hc.
  now rewrite Hc, (IH Ha).
Qed.

Lemma split_app sep a b :
  noChar sep a = true -> split sep (a ++ String sep b) = a :: split sep b.
Proof.
  induction a as [|c a IH]; simpl.
  - intros _. now rewrite Ascii.eqb_refl.
  - intros [Hc Ha]%andb_prop. apply negb_true_iff in Hc.
    now rewrite Hc, (IH Ha).
Qed.

Lemma split_three sep a b c :
  noChar sep a = true -> noChar sep b = true -> noChar sep c = true ->
  split sep (a ++ String sep (b ++ String sep c)) = [a; b; c].
Proof. intros Ha Hb Hc. now rewrite !split_app, split_single. Qed.

(** A split into three parts gives the string back. *)
Lemma split_three_inv sep s a b c :
  split sep s = [a; b; c] ->
  s = a ++ String sep (b ++ String sep c) /\
  noChar sep a = true /\ noChar sep b = true /\ noChar sep c = true.
Proof.
  assert (G : forall s ps, split sep s = ps ->
            match ps with
            | [] => False
            | [x] => s = x /\ noChar sep x = true
            | x :: ((_ :: _) as r) =>
                exists t, s = x ++ String sep t /\ noChar sep x = true /\ split sep t = r
            end).
  { clear. induction s as [|ch s IH]; intros ps E; simpl in E.
    - subst ps. split; reflexivity.
    - destruct (Ascii.eqb_spec ch sep) as [->|Hne].
      + subst ps. specialize (IH _ eq_refl).
        destruct (split sep s) as [|y r] eqn:Es; [contradiction|].
        exists s. repeat split. exact Es.
      + specialize (IH _ eq_refl).
        assert (Hn : negb (Ascii.eqb ch sep) = true)
          by (apply negb_true_iff; now apply Ascii.eqb_neq).
        destruct (split sep s) as [|y r] eqn:Es; [contradiction|].
        subst ps. destruct r as [|z r].
        * destruct IH as [-> Hy]. split; [reflexivity|].
          unfold noChar in *. cbn [allChars]. now rewrite Hn.
        * destruct IH as (t & -> & Hy & Ht). exists t.
          split; [reflexivity|].
          split; [unfold noChar in *; cbn [allChars]; now rewrite Hn | exact Ht]. }
  intros E. destruct (G _ _ E) as (t & -> & Ha & Et).
  destruct (G _ _ Et) as (u & -> & Hb & Eu).
  destruct (G _ _ Eu) as [-> Hc]. repeat split; assumption.
Qed.

Lemma includes_char c s :
  includes (String c EmptyString) s = negb (noChar c s).
Proof.
  induction s as [|a s IH]; [reflexivity|].
  cbn [includes startsWith noChar allChars]. fold (noChar c s). rewrite IH.
  rewrite (Ascii.eqb_sym c a).
  destruct (Ascii.eqb a c), s; simpl; reflexivity.
Qed.

Lemma noChar_append c a b : noChar c (a ++ b) = noChar c a && noChar c b.
Proof. apply allChars_append. Qed.

Lemma digits_noChar c s :
  isDigit c = false -> allChars isDigit s = true -> noChar c s = true.
Proof.
  intros Hc. apply allChars_impl. intros a Ha.
  apply negb_true_iff, Ascii.eqb_neq. intros ->. congruence.
Qed.

(** *** Trimming *)

Lemma trimStart_id s :
  isEmpty s || headNonWs s = true -> trimStart s = s.
Proof.
  destruct s as [|c r]; [reflexivity|]. simpl.
  now intros ->%negb_true_iff.
Qed.

Lemma trimEnd_id s : lastNonWs s = true -> trimEnd s = s.
Proof.
  induction s as [|c r IH]; [reflexivity|]. intros H. cbn [trimEnd].
  destruct r as [|c' r'].
  - simpl in *. apply negb_true_iff in H. now rewrite H.
  - rewrite IH by exact H. now rewrite andb_false_r.
Qed.

Lemma trimEnd_last s : lastNonWs (trimEnd s) = true.
Proof.
  induction s as [|c r IH]; [reflexivity|]. cbn [trimEnd].
  destruct (isWhiteSpace c && isEmpty (trimEnd r)) eqn:E; [reflexivity|].
  destruct (trimEnd r) as [|c' r'] eqn:Er; [|exact IH].
  simpl. rewrite andb_true_r in E. now rewrite E.
Qed.

Lemma trimStart_head s :
  isEmpty (trimStart s) || headNonWs (trimStart s) = true.
Proof.
  induction s as [|c r IH]; [reflexivity|]. cbn [trimStart].
  destruct (isWhiteSpace c) eqn:E; [exact IH|]. simpl. now rewrite E.
Qed.

Lemma trimEnd_head s :
  isEmpty s || headNonWs s = true ->
  isEmpty (trimEnd s) || headNonWs (trimEnd s) = true.
Proof.
  destruct s as [|c r]; [reflexivity|]. simpl.
  intros H. apply negb_true_iff in H. rewrite H. simpl. now rewrite H.
Qed.

Lemma trim_head s : isEmpty (trim s) || headNonWs (trim s) = true.
Proof. apply trimEnd_head, trimStart_head. Qed.

Lemma trim_last s : lastNonWs (trim s) = true.
Proof. apply trimEnd_last. Qed.

Lemma trim_id s :
  isEmpty s || headNonWs s = true -> lastNonWs s = true -> trim s = s.
Proof. intros Hh Hl. unfold trim. now rewrite trimStart_id, trimEnd_id. Qed.

Lemma trim_idem s : trim (trim s) = trim s.
Proof. apply trim_id; [apply trim_head | apply trim_last]. Qed.

Lemma headNonWs_append a b :
  isEmpty a = false -> headNonWs (a ++ b) = headNonWs a.
Proof. destruct a; [discriminate | reflexivity]. Qed.

Lemma lastNonWs_append a b :
  isEmpty b = false -> lastNonWs (a ++ b) = lastNonWs b.
Proof.
  intros Hb. induction a as [|c a IH]; [reflexivity|].
  simpl. destruct (a ++ b) eqn:E; [|exact IH].
  destruct a, b; discriminate.
Qed.

Lemma lastNonWs_cons c s : isEmpty s = false -> lastNonWs (String c s) = lastNonWs s.
Proof. destruct s; [discriminate | reflexivity]. Qed.

Lemma digit_not_ws c : isDigit c = true -> isWhiteSpace c = false.
Proof. destruct c as [[] [] [] [] [] [] [] []]; vm_compute; congruence. Qed.

Lemma digits_head s :
  isEmpty s = false -> allChars isDigit s = true -> headNonWs s = true.
Proof.
  destruct s as [|c r]; [discriminate|]. simpl.
  intros _ [Hc _]%andb_prop. now rewrite (digit_not_ws _ Hc).
Qed.

Lemma digits_last s : allChars isDigit s = true -> lastNonWs s = true.
Proof.
  induction s as [|c r IH]; [reflexivity|]. simpl.
  intros [Hc Hr]%andb_prop. destruct r; [|now apply IH].
  now rewrite (digit_not_ws _ Hc).
Qed.

End JsStringFacts.

(** ** Facts about the number primitives *)

Module JsNumberFacts.
Import JsString JsStringFacts JsNumber.

(** [lia] also reasons about division and remainder by constants. *)
Ltac Zify.zify_post_hook ::= Z.to_euclidean_division_equations.

Lemma digit_cases d :
  0 <= d <= 9 ->
  d = 0 \/ d = 1 \/ d = 2 \/ d = 3 \/ d = 4 \/ d = 5 \/ d = 6 \/ d = 7 \/ d = 8 \/ d = 9.
Proof. lia. Qed.

Lemma digitChar_isDigit d : 0 <= d <= 9 -> isDigit (digitChar d) = true.
Proof.
  intros H. destruct (digit_cases d H) as [-> | [-> | [-> | [-> | [-> | [-> | [-> | [-> | [-> | ->]]]]]]]]];
    reflexivity.
Qed.

Lemma digitVal_digitChar d : 0 <= d <= 9 -> digitVal (digitChar d) = d.
Proof.
  intros H. destruct (digit_cases d H) as [-> | [-> | [-> | [-> | [-> | [-> | [-> | [-> | [-> | ->]]]]]]]]];
    reflexivity.
Qed.

Lemma digitsOf_step k n acc :
  digitsOf (S k) n acc
  = if n <? 10 then String (digitChar (n mod 10)) acc
    else digitsOf k (n / 10) (String (digitChar (n mod 10)) acc).
Proof. reflexivity. Qed.

Lemma log2_fuel n b :
  0 < b -> 2 ^ b <= n -> exists k, Z.to_nat (Z.log2 n) = (Z.to_nat b + k)%nat.
Proof.
  intros Hb Hn.
  assert (b <= Z.log2 n) by (apply Z.log2_le_pow2; lia).
  exists (Z.to_nat (Z.log2 n) - Z.to_nat b)%nat. lia.
Qed.

(** One, two and four digit numbers, digit by digit. *)
Lemma toString_1 n :
  0 <= n < 10 -> Number_toString n = String (digitChar n) EmptyString.
Proof.
  intros H. unfold Number_toString.
  destruct (Z.ltb_spec n 0); [lia|]. rewrite digitsOf_step.
  destruct (Z.ltb_spec n 10); [|lia]. now rewrite Z.mod_small by lia.
Qed.

Lemma toString_2 n :
  10 <= n < 100 ->
  Number_toString n
  = String (digitChar (n / 10)) (String (digitChar (n mod 10)) EmptyString).
Proof.
  intros H. unfold Number_toString.
  destruct (Z.ltb_spec n 0); [lia|].
  destruct (log2_fuel n 3 ltac:(lia) ltac:(simpl; lia)) as [k ->].
  change (Z.to_nat 3) with 3%nat. cbn [Nat.add].
  rewrite !digitsOf_step.
  destruct (Z.ltb_spec n 10); [lia|].
  destruct (Z.ltb_spec (n / 10) 10); [|lia].
  now rewrite (Z.mod_small (n / 10)) by lia.
Qed.

Lemma toString_4 n :
  1000 <= n < 10000 ->
  Number_toString n
  = String (digitChar (n / 1000))
      (String (digitChar (n / 100 mod 10))
         (String (digitChar (n / 10 mod 10))
            (String (digitChar (n mod 10)) EmptyString))).
Proof.
  intros H. unfold Number_toString.
  destruct (Z.ltb_spec n 0); [lia|].
  destruct (log2_fuel n 9 ltac:(lia) ltac:(simpl; lia)) as [k ->].
  change (Z.to_nat 9) with 9%nat. cbn [Nat.add].
  rewrite !digitsOf_step.
  destruct (Z.ltb_spec n 10); [lia|].
  destruct (Z.ltb_spec (n / 10) 10); [lia|].
  destruct (Z.ltb_spec (n / 10 / 10) 10); [lia|].
  destruct (Z.ltb_spec (n / 10 / 10 / 10) 10); [|lia].
  replace (n / 10 / 10 / 10) with (n / 1000) by lia.
  replace (n / 10 / 10) with (n / 100) by lia.
  now rewrite (Z.mod_small (n / 1000)) by lia.
Qed.

(** A number below 100 prints, padded, as two digits. *)
Lemma pad2_form n :
  0 <= n < 100 ->
  padStart 2 "0" (Number_toString n)
  = String (digitChar (n / 10)) (String (digitChar (n mod 10)) EmptyString).
Proof.
  intros H. destruct (Z.ltb_spec n 10).
  - rewrite toString_1 by lia.
    replace (n / 10) with 0 by lia. now rewrite Z.mod_small by lia.
  - now rewrite toString_2 by lia.
Qed.

Lemma parseDigits_2 a b :
  0 <= a <= 9 -> 0 <= b <= 9 ->
  parseDecimal (String (digitChar a) (String (digitChar b) EmptyString))
  = Some (10 * a + b).
Proof.
  intros Ha Hb.
  destruct (digit_cases a Ha) as [-> | [-> | [-> | [-> | [-> | [-> | [-> | [-> | [-> | ->]]]]]]]]];
  destruct (digit_cases b Hb) as [-> | [-> | [-> | [-> | [-> | [-> | [-> | [-> | [-> | ->]]]]]]]]];
    reflexivity.
Qed.

Lemma allDigits_chars (l : list Z) :
  Forall (fun d => 0 <= d <= 9) l ->
  allChars isDigit (fold_right (fun d s => String (digitChar d) s) EmptyString l) = true.
Proof.
  induction 1 as [|e l' He Hl' IH]; cbn [fold_right allChars]; [reflexivity|].
  now rewrite (digitChar_isDigit e He).
Qed.

Lemma isDigits_chars (l : list Z) :
  l <> [] -> Forall (fun d => 0 <= d <= 9) l ->
  isDigits (fold_right (fun d s => String (digitChar d) s) EmptyString l) = true.
Proof.
  intros Hne Hl. unfold isDigits. rewrite (allDigits_chars l Hl).
  destruct l; [contradiction | reflexivity].
Qed.

Lemma digitChar_not_sign d :
  0 <= d <= 9 -> digitChar d <> "-"%char /\ digitChar d <> "+"%char.
Proof.
  intros H. destruct (digit_cases d H) as [-> | [-> | [-> | [-> | [-> | [-> | [-> | [-> | [-> | ->]]]]]]]]];
    split; discriminate.
Qed.

End JsNumberFacts.

(** ** The date normalisers *)

Module DateNormalizer.
Import JsString JsStringFacts JsNumber JsNumberFacts JsDate.
Import AuditForm StaffEvaluation Spec.

(** [a/b/c] *)
Definition slashed (a b c : string) : string :=
  a ++ String "/" (b ++ String "/" c).

Lemma slashed_eq a b c : a ++ "/" ++ b ++ "/" ++ c = slashed a b c.
Proof. reflexivity. Qed.

Lemma nonempty_length s n : String.length s = S n -> isEmpty s = false.
Proof. destruct s; [discriminate | reflexivity]. Qed.

Section fixed.
Variables a b c : string.
Hypothesis Ha : noChar "/" a = true.
Hypothesis Hb : noChar "/" b = true.
Hypothesis Hc : noChar "/" c = true.
Hypothesis La : String.length a = 2%nat.
Hypothesis Lb : String.length b = 2%nat.
Hypothesis Lc : String.length c = 4%nat.

Lemma slashed_includes : includes "/" (slashed a b c) = true.
Proof.
  rewrite includes_char. unfold slashed. rewrite noChar_append.
  unfold noChar at 2. cbn [allChars]. rewrite Ascii.eqb_refl.
  now rewrite andb_false_r.
Qed.

Lemma slashed_split : split "/" (slashed a b c) = [a; b; c].
Proof. now apply split_three. Qed.

Lemma threeParts_fixed : threeParts (slashed a b c) = Some (slashed a b c).
Proof.
  unfold threeParts. rewrite slashed_includes, slashed_split, La, Lb, Lc.
  cbn [Nat.leb Nat.eqb andb].
  now rewrite !padStart_full by lia.
Qed.

Lemma slashed_last : lastNonWs (slashed a b c) = lastNonWs c.
Proof.
  unfold slashed.
  rewrite lastNonWs_append by reflexivity.
  rewrite lastNonWs_cons by (destruct b; reflexivity).
  rewrite lastNonWs_append by reflexivity.
  apply lastNonWs_cons. now apply (nonempty_length c 3).
Qed.

Lemma slashed_head : headNonWs (slashed a b c) = headNonWs a.
Proof. apply headNonWs_append. now apply (nonempty_length a 1). Qed.

Lemma slashed_trim :
  headNonWs a = true -> lastNonWs c = true -> trim (slashed a b c) = slashed a b c.
Proof.
  intros Hh Hl. apply trim_id.
  - now rewrite slashed_head, Hh, orb_true_r.
  - now rewrite slashed_last.
Qed.

Lemma ensure_fixed `{Host} :
  headNonWs a = true -> lastNonWs c = true ->
  ensureDDMMYYYY (Some (slashed a b c)) = slashed a b c.
Proof.
  intros Hh Hl. unfold ensureDDMMYYYY.
  now rewrite slashed_trim, threeParts_fixed.
Qed.

Lemma format_fixed `{Host} :
  allChars isDigit a = true -> allChars isDigit b = true ->
  allChars isDigit c = true ->
  formatDateDDMMYYYY (Some (slashed a b c)) = slashed a b c.
Proof.
  intros Da Db Dc. unfold formatDateDDMMYYYY.
  assert (E : isEmpty (slashed a b c) = false).
  { destruct a; [discriminate La | reflexivity]. }
  rewrite E, slashed_trim.
  - unfold reDDMMYYYY_test, digitsBetween.
    rewrite slashed_split, Da, Db, Dc, La, Lb, Lc.
    cbn [Nat.leb andb part nth].
    now rewrite !padStart_full by lia.
  - apply digits_head; [now apply (nonempty_length a 1) | exact Da].
  - now apply digits_last.
Qed.
End fixed.

Lemma daysInMonth_le leap m : daysInMonth leap m <= 31.
Proof.
  unfold daysInMonth. destruct leap;
    destruct m as [|p|p]; try lia;
    do 4 (try destruct p as [p|p|]); lia.
Qed.

Lemma slash_not_digit : isDigit "/" = false.
Proof. reflexivity. Qed.

Lemma noChar_pad p : noChar "/" p = true -> noChar "/" (padStart 2 "0" p) = true.
Proof. intros H. now apply padStart_allChars. Qed.

(** The text [formatLocal] writes for a date with a year of four digits
    is canonical. *)
Lemma formatLocal_form (t : LocalTime) :
  validLocalTime t -> 1000 <= getFullYear t <= 9999 ->
  exists a b c,
    formatLocal t = slashed a b c /\
    allChars isDigit a = true /\ allChars isDigit b = true /\
    allChars isDigit c = true /\
    String.length a = 2%nat /\ String.length b = 2%nat /\ String.length c = 4%nat.
Proof.
  intros (Hm & Hd & _) Hy. unfold formatLocal. rewrite slashed_eq.
  assert (Hd' : 1 <= getDate t <= 31).
  { split; [lia|]. eapply Z.le_trans; [apply Hd|]. apply daysInMonth_le. }
  rewrite (pad2_form (getDate t)) by lia.
  rewrite (pad2_form (getMonth t + 1)) by lia.
  rewrite (toString_4 (getFullYear t)) by lia.
  do 3 eexists. split; [reflexivity|].
  repeat split; cbn [allChars];
    rewrite ?digitChar_isDigit by lia; reflexivity.
Qed.

Section host.
Context `{Host}.

(** *** ensureDDMMYYYY *)

Lemma threeParts_canonical s r :
  isEmpty s || headNonWs s = true -> lastNonWs s = true ->
  threeParts s = Some r ->
  exists a b c,
    r = slashed a b c /\
    noChar "/" a = true /\ noChar "/" b = true /\ noChar "/" c = true /\
    String.length a = 2%nat /\ String.length b = 2%nat /\ String.length c = 4%nat /\
    headNonWs a = true /\ lastNonWs c = true.
Proof.
  intros Hh Hl. unfold threeParts.
  set (parts := if includes "/" s then Some (split "/" s)
                else if includes "-" s then Some (split "-" s) else None).
  assert (Hp : forall p1 p2 p3, parts = Some [p1; p2; p3] ->
             exists sep, s = p1 ++ String sep (p2 ++ String sep p3) /\
               noChar "/" p1 = true /\ noChar "/" p2 = true /\ noChar "/" p3 = true).
  { intros p1 p2 p3. unfold parts.
    destruct (includes "/" s) eqn:Es.
    - intros [= E]. apply split_three_inv in E as (-> & ? & ? & ?).
      exists "/"%char. auto.
    - rewrite includes_char in Es. apply negb_false_iff in Es.
      destruct (includes "-" s); [|discriminate].
      intros [= E]. apply split_three_inv in E as (-> & _).
      exists "-"%char. split; [reflexivity|].
      rewrite noChar_append in Es. apply andb_prop in Es as [E1 Es].
      unfold noChar in Es. cbn [allChars] in Es. apply andb_prop in Es as [_ Es].
      fold (noChar "/" (p2 ++ String "-" p3)) in Es.
      rewrite noChar_append in Es. apply andb_prop in Es as [E2 Es].
      unfold noChar in Es. cbn [allChars] in Es. apply andb_prop in Es as [_ E3].
      auto. }
  destruct parts as [[|p1 [|p2 [|p3 [|]]]]|]; try discriminate.
  destruct (Hp _ _ _ eq_refl) as (sep & Hs & N1 & N2 & N3).
  destruct ((String.length p1 <=? 2)%nat) eqn:L1; [|discriminate].
  destruct ((String.length p2 <=? 2)%nat) eqn:L2; [|discriminate].
  destruct ((String.length p3 =? 4)%nat) eqn:L3; [|discriminate].
  apply Nat.leb_le in L1, L2. apply Nat.eqb_eq in L3.
  intros [= <-].
  exists (padStart 2 "0" p1), (padStart 2 "0" p2), p3.
  split; [reflexivity|].
  split; [now apply noChar_pad|]. split; [now apply noChar_pad|].
  split; [exact N3|].
  split; [now apply padStart_length|]. split; [now apply padStart_length|].
  split; [exact L3|]. split.
  - (* the first character *)
    destruct p1 as [|c1 [|c2 p1']]; [reflexivity | reflexivity |].
    rewrite padStart_full by (simpl; lia).
    rewrite Hs in Hh. simpl in Hh |- *. exact Hh.
  - (* the last character *)
    rewrite Hs in Hl.
    rewrite lastNonWs_append in Hl by reflexivity.
    assert (E3 : isEmpty p3 = false) by now apply (nonempty_length p3 3).
    rewrite lastNonWs_cons in Hl by (destruct p2; reflexivity).
    rewrite lastNonWs_append in Hl by reflexivity.
    now rewrite lastNonWs_cons in Hl.
Qed.

Lemma ensure_idempotent x :
  (threeParts (trim x) = None -> fourDigitYear (trim x)) ->
  ensureDDMMYYYY (Some (ensureDDMMYYYY (Some x))) = ensureDDMMYYYY (Some x).
Proof.
  intros Hy. remember (ensureDDMMYYYY (Some x)) as y eqn:Ey.
  unfold ensureDDMMYYYY in Ey.
  destruct (threeParts (trim x)) as [r|] eqn:E3; subst y.
  - destruct (threeParts_canonical _ _ (trim_head x) (trim_last x) E3)
      as (a & b & c & -> & Na & Nb & Nc & La & Lb & Lc & Hh & Hl).
    now apply ensure_fixed.
  - destruct (Date_parse (trim x)) as [t|] eqn:Ep.
    + destruct (formatLocal_form t (Date_parse_valid _ _ Ep) (Hy eq_refl _ Ep))
        as (a & b & c & E & Da & Db & Dc & La & Lb & Lc).
      rewrite E.
      apply ensure_fixed; try assumption;
        try (now apply digits_noChar).
      * apply digits_head; [now apply (nonempty_length a 1) | exact Da].
      * now apply digits_last.
    + unfold ensureDDMMYYYY. now rewrite trim_idem, E3, Ep.
Qed.

(** *** formatDateDDMMYYYY *)

Lemma reTest_canonical s :
  reDDMMYYYY_test s = true ->
  exists a b c,
    padStart 2 "0" (part 0 (split "/" s)) ++ "/"
      ++ padStart 2 "0" (part 1 (split "/" s)) ++ "/" ++ part 2 (split "/" s)
    = slashed a b c /\
    allChars isDigit a = true /\ allChars isDigit b = true /\
    allChars isDigit c = true /\
    String.length a = 2%nat /\ String.length b = 2%nat /\ String.length c = 4%nat.
Proof.
  unfold reDDMMYYYY_test, digitsBetween.
  destruct (split "/" s) as [|p1 [|p2 [|p3 [|]]]]; try discriminate.
  intros E. apply andb_prop in E as [E E3]. apply andb_prop in E as [E1 E2].
  apply andb_prop in E1 as [E1 U1]. apply andb_prop in E1 as [D1 L1].
  apply andb_prop in E2 as [E2 U2]. apply andb_prop in E2 as [D2 L2].
  apply andb_prop in E3 as [E3 U3]. apply andb_prop in E3 as [D3 L3].
  apply Nat.leb_le in L1, U1, L2, U2, L3, U3.
  cbn [part nth]. rewrite slashed_eq.
  exists (padStart 2 "0" p1), (padStart 2 "0" p2), p3.
  split; [reflexivity|].
  split; [now apply padStart_allChars|]. split; [now apply padStart_allChars|].
  split; [exact D3|].
  split; [now apply padStart_length|]. split; [now apply padStart_length|]. lia.
Qed.

Lemma format_idempotent x :
  (reDDMMYYYY_test (trim x) = false -> fourDigitYear x) ->
  formatDateDDMMYYYY (Some (formatDateDDMMYYYY (Some x)))
  = formatDateDDMMYYYY (Some x).
Proof.
  intros Hy. remember (formatDateDDMMYYYY (Some x)) as y eqn:Ey.
  unfold formatDateDDMMYYYY in Ey.
  destruct (isEmpty x) eqn:Ex; [subst y; reflexivity|].
  destruct (reDDMMYYYY_test (trim x)) eqn:Er.
  - destruct (reTest_canonical _ Er)
      as (a & b & c & E & Da & Db & Dc & La & Lb & Lc).
    cbv zeta in Ey. rewrite E in Ey. subst y.
    apply format_fixed; try assumption; now apply digits_noChar.
  - destruct (Date_parse x) as [t|] eqn:Ep; subst y.
    + destruct (formatLocal_form t (Date_parse_valid _ _ Ep) (Hy eq_refl _ Ep))
        as (a & b & c & E & Da & Db & Dc & La & Lb & Lc).
      rewrite E.
      apply format_fixed; try assumption; now apply digits_noChar.
    + unfold formatDateDDMMYYYY. now rewrite Ex, Er, Ep.
Qed.

(** *** Canonical strings are fixed points *)

Lemma canonical_form x :
  canonicalDate x = true ->
  exists a b c,
    x = slashed a b c /\
    allChars isDigit a = true /\ allChars isDigit b = true /\
    allChars isDigit c = true /\
    String.length a = 2%nat /\ String.length b = 2%nat /\ String.length c = 4%nat.
Proof.
  unfold canonicalDate, digitsBetween.
  destruct (split "/" x) as [|p1 [|p2 [|p3 [|]]]] eqn:Es; try discriminate.
  apply split_three_inv in Es as (-> & _).
  intros E. apply andb_prop in E as [E E3]. apply andb_prop in E as [E1 E2].
  apply andb_prop in E1 as [E1 U1]. apply andb_prop in E1 as [D1 L1].
  apply andb_prop in E2 as [E2 U2]. apply andb_prop in E2 as [D2 L2].
  apply andb_prop in E3 as [E3 U3]. apply andb_prop in E3 as [D3 L3].
  apply Nat.leb_le in L1, U1, L2, U2, L3, U3.
  exists p1, p2, p3. repeat split; try assumption; lia.
Qed.

Lemma canonical_fixed x :
  canonicalDate x = true ->
  ensureDDMMYYYY (Some x) = x /\ formatDateDDMMYYYY (Some x) = x.
Proof.
  intros Hx. destruct (canonical_form x Hx)
    as (a & b & c & -> & Da & Db & Dc & La & Lb & Lc).
  split.
  - apply ensure_fixed; try assumption; try (now apply digits_noChar).
    + apply digits_head; [now apply (nonempty_length a 1) | exact Da].
    + now apply digits_last.
  - apply format_fixed; try assumption; now apply digits_noChar.
Qed.
End host.

(** C4, as the code has it.  Both normalisers are idempotent on every
    input string for which generic date parsing, where the normaliser
    falls back on it and it succeeds, gives a year of four digits (1000
    to 9999); inputs of the three-part shape and inputs that do not parse
    need no condition.  A canonical DD/MM/YYYY string is returned
    unchanged by both. *)
Theorem normalizers_idempotent `{Host} (x : string) :
  (threeParts (trim x) = None -> fourDigitYear (trim x)) ->
  (reDDMMYYYY_test (trim x) = false -> fourDigitYear x) ->
  ensureDDMMYYYY (Some (ensureDDMMYYYY (Some x))) = ensureDDMMYYYY (Some x) /\
  formatDateDDMMYYYY (Some (formatDateDDMMYYYY (Some x)))
    = formatDateDDMMYYYY (Some x) /\
  (canonicalDate x = true ->
     ensureDDMMYYYY (Some x) = x /\ formatDateDDMMYYYY (Some x) = x).
Proof.
  intros H1 H2. split; [now apply ensure_idempotent|].
  split; [now apply format_idempotent | apply canonical_fixed].
Qed.

(** The ISO date 2024-06-01 on the reference host. *)
Lemma normalizers_idempotent_witness :
  let ensure := @ensureDDMMYYYY RefHost.refHost in
  let format := @formatDateDDMMYYYY RefHost.refHost in
  ensure (Some (ensure (Some "2024-06-01"))) = ensure (Some "2024-06-01") /\
  format (Some (format (Some "2024-06-01"))) = format (Some "2024-06-01") /\
  (canonicalDate "2024-06-01" = true ->
     ensure (Some "2024-06-01") = "2024-06-01" /\
     format (Some "2024-06-01") = "2024-06-01").
Proof.
  apply (@normalizers_idempotent RefHost.refHost "2024-06-01").
  - intros _ t E. vm_compute in E. injection E as <-. simpl. lia.
  - intros _ t E. vm_compute in E. injection E as <-. simpl. lia.
Defined.

(** C4, as stated, fails: on the reference host the ISO date 0999-01-02
    normalises to 02/01/999, whose year has three digits, and that text
    is read again as the first of February. *)
Lemma normalizers_not_idempotent :
  let ensure := @ensureDDMMYYYY RefHost.refHost in
  let format := @formatDateDDMMYYYY RefHost.refHost in
  ensure (Some "0999-01-02") = "02/01/999" /\
  ensure (Some (ensure (Some "0999-01-02"))) = "01/02/999" /\
  format (Some "0999-01-02") = "02/01/999" /\
  format (Some (format (Some "0999-01-02"))) = "01/02/999" /\
  ensure (Some (ensure (Some "0999-01-02"))) <> ensure (Some "0999-01-02") /\
  format (Some (format (Some "0999-01-02"))) <> format (Some "0999-01-02").
Proof. vm_compute. repeat split; discriminate. Qed.

(** C8, as the code has it.  When the input has no three-part shape and
    generic parsing fails, [ensureDDMMYYYY] returns the input with the
    surrounding white space removed and [formatDateDDMMYYYY] returns the
    input as it is; an absent or empty input gives the empty string.
    Both are total functions: no input makes them fail. *)
Theorem normalizers_on_failure `{Host} (x : string) :
  (threeParts (trim x) = None -> Date_parse (trim x) = None ->
     ensureDDMMYYYY (Some x) = trim x) /\
  (reDDMMYYYY_test (trim x) = false -> Date_parse x = None ->
     formatDateDDMMYYYY (Some x) = x) /\
  ensureDDMMYYYY None = EmptyString /\
  ensureDDMMYYYY (Some EmptyString) = EmptyString /\
  formatDateDDMMYYYY None = EmptyString /\
  formatDateDDMMYYYY (Some EmptyString) = EmptyString.
Proof.
  split; [|split; [|split; [|split; [|split]]]]; try reflexivity.
  - intros E3 Ep. unfold ensureDDMMYYYY. now rewrite E3, Ep.
  - intros Er Ep. unfold formatDateDDMMYYYY. rewrite Er, Ep.
    now destruct x.
  - unfold ensureDDMMYYYY. cbn. now rewrite Date_parse_empty.
Qed.

(** The text " pending " on the reference host. *)
Lemma normalizers_on_failure_witness :
  @ensureDDMMYYYY RefHost.refHost (Some " pending ") = trim " pending " /\
  @formatDateDDMMYYYY RefHost.refHost (Some " pending ") = " pending ".
Proof.
  split.
  - exact (proj1 (@normalizers_on_failure RefHost.refHost " pending ") eq_refl eq_refl).
  - exact (proj1 (proj2 (@normalizers_on_failure RefHost.refHost " pending "))
             eq_refl eq_refl).
Defined.

(** C8, as stated, fails for [ensureDDMMYYYY]: the text " pending " has
    no date shape and does not parse, and what comes back is "pending",
    not the input. *)
Lemma ensure_trims_on_failure :
  let x := " pending " in
  threeParts (trim x) = None /\
  @Date_parse RefHost.refHost (trim x) = None /\
  @Date_parse RefHost.refHost x = None /\
  @ensureDDMMYYYY RefHost.refHost (Some x) = "pending" /\
  @ensureDDMMYYYY RefHost.refHost (Some x) <> x.
Proof. vm_compute. repeat split; discriminate. Qed.

End DateNormalizer.

(** ** Unit audit scoring *)

Module UnitScore.
Import JsString JsStringFacts AuditForm Spec.

Lemma clamp_max_min x : Z.max 0 (Z.min 100 x) = clamp 0 100 x.
Proof.
  unfold clamp.
  destruct (Z.ltb_spec x 0), (Z.ltb_spec 100 x); lia.
Qed.

Lemma params_disjoint :
  Forall (fun l => (l ∉ hygieneParams) /\ (l ∉ foodSafetyParams)) kitchenParams /\
  Forall (fun l => (l ∉ kitchenParams) /\ (l ∉ foodSafetyParams)) hygieneParams /\
  Forall (fun l => (l ∉ kitchenParams) /\ (l ∉ hygieneParams)) foodSafetyParams.
Proof. apply (bool_decide_unpack _). vm_compute. exact I. Qed.

Section checklist.
Variables kitchen hygiene foodSafety : gmap string string.
Hypothesis Hk : wellFormedSection kitchenParams kitchen.
Hypothesis Hh : wellFormedSection hygieneParams hygiene.
Hypothesis Hf : wellFormedSection foodSafetyParams foodSafety.

Lemma lookup_foreign params obj label :
  wellFormedSection params obj -> label ∉ params -> obj !! label = None.
Proof.
  intros Hwf Hn. destruct (obj !! label) as [v|] eqn:E; [|reflexivity].
  destruct (Hwf _ _ E) as [Hin _]. contradiction.
Qed.

Lemma answerOf_section label :
  label ∈ allParams ->
  answerOf kitchen hygiene foodSafety label
  = sectionOf kitchen hygiene foodSafety label !! label.
Proof.
  destruct params_disjoint as (Dk & Dh & Df).
  rewrite Forall_forall in Dk, Dh, Df.
  unfold allParams. rewrite !elem_of_app. unfold answerOf, sectionOf.
  intros [Hin | [Hin | Hin]].
  - rewrite (bool_decide_eq_true_2 _ Hin).
    destruct (Dk _ Hin) as [N1 N2].
    rewrite (lookup_foreign _ _ _ Hh N1), (lookup_foreign _ _ _ Hf N2).
    destruct (kitchen !! label); reflexivity.
  - destruct (Dh _ Hin) as [N1 N2].
    rewrite (bool_decide_eq_false_2 _ N1), (bool_decide_eq_true_2 _ Hin).
    rewrite (lookup_foreign _ _ _ Hk N1), (lookup_foreign _ _ _ Hf N2).
    destruct (hygiene !! label); reflexivity.
  - destruct (Df _ Hin) as [N1 N2].
    rewrite (bool_decide_eq_false_2 _ N1), (bool_decide_eq_false_2 _ N2).
    rewrite (lookup_foreign _ _ _ Hk N1), (lookup_foreign _ _ _ Hh N2).
    reflexivity.
Qed.

Lemma section_answer label v :
  sectionOf kitchen hygiene foodSafety label !! label = Some v ->
  v = "Yes" \/ v = "No".
Proof.
  unfold sectionOf. repeat case_bool_decide; intros E.
  - exact (proj2 (Hk _ _ E)).
  - exact (proj2 (Hh _ _ E)).
  - exact (proj2 (Hf _ _ E)).
Qed.

Lemma yes_test label :
  label ∈ allParams ->
  String.eqb (toLowerCase (String_ (answerOf kitchen hygiene foodSafety label))) "yes"
  = answeredYes kitchen hygiene foodSafety label.
Proof.
  intros Hin. rewrite (answerOf_section _ Hin). unfold answeredYes.
  destruct (sectionOf kitchen hygiene foodSafety label !! label) as [v|] eqn:E.
  - destruct (section_answer _ _ E) as [-> | ->]; reflexivity.
  - reflexivity.
Qed.
End checklist.

Lemma fold_count (P Q : string -> bool) (ls : list string) (a : Z) :
  (forall l, l ∈ ls -> P l = Q l) ->
  fold_left (fun acc l => if P l then acc + POINTS_PER_CHECK else acc) ls a
  = a + 6 * Z.of_nat (length (List.filter Q ls)).
Proof.
  revert a. induction ls as [|l ls IH]; intros a H; simpl.
  - lia.
  - rewrite IH by (intros; apply H; now right).
    rewrite (H l) by now left.
    unfold POINTS_PER_CHECK. destruct (Q l); simpl length; lia.
Qed.

Lemma filter_length_le {A} (p : A -> bool) (l : list A) :
  (length (List.filter p l) <= length l)%nat.
Proof. induction l; simpl; [lia|]. destruct (p a); simpl; lia. Qed.

Lemma remark_other manual :
  (if negb (isEmpty manual) && includes "no issue" (toLowerCase (trim manual))
   then OBS_MAINT_PTS else - OBS_MAINT_PTS)
  = (if mentionsNoIssue manual then 11 else -11).
Proof.
  unfold mentionsNoIssue.
  rewrite toLowerCase_trim, includes_trim by reflexivity.
  destruct manual; reflexivity.
Qed.

Lemma getObservationScore_spec preset manual :
  preset ∈ observationsOptions ->
  getObservationScore preset manual = remarkPoints "No issues observed" preset manual.
Proof.
  unfold observationsOptions. rewrite !elem_of_cons, elem_of_nil.
  intros H. pose proof (remark_other manual) as Ho.
  repeat (destruct H as [-> | H]; [first [reflexivity | exact Ho] |]).
  contradiction.
Qed.

Lemma getMaintenanceScore_spec preset manual :
  preset ∈ maintenanceOptions ->
  getMaintenanceScore preset manual = remarkPoints "No maintenance required" preset manual.
Proof.
  unfold maintenanceOptions. rewrite !elem_of_cons, elem_of_nil.
  intros H. pose proof (remark_other manual) as Ho.
  repeat (destruct H as [-> | H]; [first [reflexivity | exact Ho] |]).
  contradiction.
Qed.

Lemma fillSection_wellFormed params v :
  v = "Yes" \/ v = "No" -> wellFormedSection params (fillSection params v).
Proof.
  intros Hv label w E. unfold fillSection in E.
  apply elem_of_list_to_map_2 in E.
  apply list_elem_of_In, in_map_iff in E as (l & [= <- <-] & Hin).
  split; [now apply list_elem_of_In | exact Hv].
Qed.

(** C1.  For a unit audit whose three checklist sections hold "Yes"/"No"
    answers for their own items and whose observation and maintenance
    presets come from the option lists, [computeScores] returns
    [scoreOutOf100 = clamp(checklist + obs + maint, 0, 100)] with
    [checklist = 6 * (number of items answered "Yes")] (at most 78) and
    each of [obs], [maint] equal to +11 for the no-issue preset or for
    "Other (manual)" with a manual text mentioning "no issue" in any
    letter case, 0 for "-- Select --" and -11 for any other preset.  The
    final score lies in [0, 100]; no "Yes" with both remarks at -11 gives
    0, and 13 "Yes" with both remarks at +11 gives 100. *)
Theorem computeScores_spec
    (kitchen hygiene foodSafety : gmap string string)
    (observationsPreset observationsManual : string)
    (maintenancePreset maintenanceManual : string) :
  wellFormedSection kitchenParams kitchen ->
  wellFormedSection hygieneParams hygiene ->
  wellFormedSection foodSafetyParams foodSafety ->
  observationsPreset ∈ observationsOptions ->
  maintenancePreset ∈ maintenanceOptions ->
  let sc := computeScores kitchen hygiene foodSafety
              observationsPreset observationsManual
              maintenancePreset maintenanceManual in
  let yes := yesCount kitchen hygiene foodSafety in
  let obs := remarkPoints "No issues observed" observationsPreset observationsManual in
  let maint := remarkPoints "No maintenance required" maintenancePreset maintenanceManual in
  checklistRaw sc = 6 * yes /\ 0 <= 6 * yes <= 78 /\
  obsScore sc = obs /\ maintScore sc = maint /\
  rawScore sc = 6 * yes + obs + maint /\
  scoreOutOf100 sc = clamp 0 100 (6 * yes + obs + maint) /\
  0 <= scoreOutOf100 sc <= 100 /\
  (yes = 0 -> obs = -11 -> maint = -11 -> scoreOutOf100 sc = 0) /\
  (yes = 13 -> obs = 11 -> maint = 11 -> scoreOutOf100 sc = 100).
Proof.
  intros Hk Hh Hf Ho Hm sc yes obs maint.
  assert (Hc : checklistRaw sc = 6 * yes).
  { unfold sc, computeScores, checklistRaw, yes, yesCount.
    rewrite (fold_count _ (answeredYes kitchen hygiene foodSafety)); [lia|].
    intros l Hl. now apply yes_test. }
  assert (Hy : 0 <= yes <= 13).
  { unfold yes, yesCount.
    pose proof (filter_length_le (answeredYes kitchen hygiene foodSafety) allParams) as L.
    change (length allParams) with 13%nat in L. lia. }
  assert (Hobs : obsScore sc = obs) by (now apply getObservationScore_spec).
  assert (Hmt : maintScore sc = maint) by (now apply getMaintenanceScore_spec).
  assert (Hraw : rawScore sc = 6 * yes + obs + maint).
  { rewrite <- Hc, <- Hobs, <- Hmt. reflexivity. }
  assert (Hfin : scoreOutOf100 sc = clamp 0 100 (6 * yes + obs + maint)).
  { rewrite <- Hraw. unfold sc, computeScores, scoreOutOf100, rawScore.
    apply clamp_max_min. }
  repeat split; try assumption; try lia.
  - rewrite Hfin. unfold clamp.
    destruct (Z.ltb_spec (6 * yes + obs + maint) 0); [lia|].
    destruct (Z.ltb_spec 100 (6 * yes + obs + maint)); lia.
  - rewrite Hfin. unfold clamp.
    destruct (Z.ltb_spec (6 * yes + obs + maint) 0); [lia|].
    destruct (Z.ltb_spec 100 (6 * yes + obs + maint)); lia.
  - intros -> -> ->. rewrite Hfin. reflexivity.
  - intros -> -> ->. rewrite Hfin. reflexivity.
Qed.

(** A full checklist of "Yes" with both no-issue presets scores 100. *)
Lemma computeScores_spec_witness :
  scoreOutOf100
    (computeScores (fillSection kitchenParams "Yes")
                   (fillSection hygieneParams "Yes")
                   (fillSection foodSafetyParams "Yes")
                   "No issues observed" EmptyString
                   "No maintenance required" EmptyString) = 100.
Proof.
  refine (proj2 (proj2 (proj2 (proj2 (proj2 (proj2 (proj2 (proj2
    (computeScores_spec
       (fillSection kitchenParams "Yes") (fillSection hygieneParams "Yes")
       (fillSection foodSafetyParams "Yes")
       "No issues observed" EmptyString "No maintenance required" EmptyString
       _ _ _ _ _)))))))) _ _ _).
  - apply fillSection_wellFormed; now left.
  - apply fillSection_wellFormed; now left.
  - apply fillSection_wellFormed; now left.
  - apply (bool_decide_unpack _). vm_compute. exact I.
  - apply (bool_decide_unpack _). vm_compute. exact I.
  - vm_compute. reflexivity.
  - vm_compute. reflexivity.
  - vm_compute. reflexivity.
Defined.

(** All thirteen items answered "No" with two penalised remarks: the raw
    score is -22 and the final score 0. *)
Example computeScores_all_no :
  let sc := computeScores (fillSection kitchenParams "No")
              (fillSection hygieneParams "No")
              (fillSection foodSafetyParams "No")
              "Staff hygiene non-compliant" EmptyString
              "Schedule deep-cleaning" EmptyString in
  rawScore sc = -22 /\ scoreOutOf100 sc = 0.
Proof. vm_compute. split; reflexivity. Qed.

End UnitScore.

(** ** Staff evaluation scoring *)

Module StaffScore.
Import JsString JsNumber StaffEvaluation Spec.

Lemma Math_round_nearest q : nearestInteger q (Math_round q).
Proof.
  unfold nearestInteger, Math_round.
  pose proof (Qfloor_le (q + (1 # 2))) as Hle.
  pose proof (Qlt_floor (q + (1 # 2))) as Hlt.
  rewrite inject_Z_plus in Hlt.
  split; [|exact Hle].
  apply Qplus_lt_l with (z := 1%Q).
  eapply Qle_lt_trans; [|exact Hlt].
  ring_simplify. apply Qle_refl.
Qed.

Lemma fold_left_add vals a :
  fold_left (fun s x => s + x) vals a = a + sumZ vals.
Proof.
  revert a. induction vals as [|v vals IH]; intros a; simpl.
  - lia.
  - rewrite IH. unfold sumZ. simpl. lia.
Qed.

(** The loop of [computeStaffScore] collects, in order, the values of
    the keys for which [f] answers. *)
Lemma fold_left_collect {K} (f : K -> option Z) (step : list Z -> K -> list Z)
    (ks : list K) (acc : list Z) :
  (forall vals k, k ∈ ks ->
     step vals k = match f k with Some v => (vals ++ [v])%list | None => vals end) ->
  fold_left step ks acc = (acc ++ omap f ks)%list.
Proof.
  revert acc. induction ks as [|k ks IH]; intros acc H; simpl.
  - now rewrite app_nil_r.
  - rewrite IH by (intros; apply H; now right).
    rewrite (H acc k) by now left.
    destruct (f k); [now rewrite <- app_assoc | reflexivity].
Qed.

Lemma rated_option r :
  r ∈ ratingOptions ->
  negb (isEmpty r) = true /\ RATING_VALUE r = Some (tableValue r).
Proof.
  unfold ratingOptions. rewrite !elem_of_cons, elem_of_nil.
  intros [-> | [-> | [-> | [-> | []]]]]; split; reflexivity.
Qed.

Lemma ratedValues_spec ratings :
  wellFormedRatings ratings -> ratedValues ratings = answeredValues ratings.
Proof.
  intros Hwf. unfold ratedValues, answeredValues, answers.
  rewrite (fold_left_collect (fun p => tableValue <$> ratings !! p)).
  - rewrite app_nil_l. generalize params. intros ps.
    induction ps as [|q ps IH]; [reflexivity|].
    cbn [omap list_omap]. destruct (ratings !! q); cbn [fmap option_fmap option_map List.map];
      now rewrite IH.
  - intros vals k Hk. destruct (ratings !! k) as [r|] eqn:E; simpl; [|reflexivity].
    destruct (rated_option r (Hwf _ _ Hk E)) as [-> ->]. reflexivity.
Qed.

Lemma scoreToGrade_spec n : gradeOf n (scoreToGrade n).
Proof.
  unfold gradeOf, scoreToGrade.
  destruct (Z.leb_spec 90 n), (Z.leb_spec 75 n), (Z.leb_spec 60 n);
    repeat split; intros; (reflexivity || lia).
Qed.

(** C2.  For a ratings assignment, the staff score is the integer nearest
    to the arithmetic mean of the table values (Excellent 100, Good 80,
    Average 60, Poor 40) of the answered parameters, and the grade of that
    score is A from 90, B from 75, C from 60 and D below; with no parameter
    answered there is no score ([null]) and no grade.  The assignment
    {Excellent, Excellent, Good, Average, Poor} scores 76, grade B. *)
Theorem computeStaffScore_spec (ratings : gmap string string) :
  wellFormedRatings ratings ->
  let vals := answeredValues ratings in
  (vals = [] -> computeStaffScore ratings = None) /\
  (vals <> [] ->
     computeStaffScore ratings = Some (Math_round (mean vals)) /\
     nearestInteger (mean vals) (Math_round (mean vals)) /\
     gradeOf (Math_round (mean vals))
             (computedGrade (computeStaffScore ratings))) /\
  computeStaffScore Sample.exampleRatings = Some 76 /\
  computedGrade (computeStaffScore Sample.exampleRatings) = "B".
Proof.
  intros Hwf vals.
  assert (Hv : ratedValues ratings = vals) by now apply ratedValues_spec.
  unfold computeStaffScore. rewrite Hv.
  split; [|split; [|split; reflexivity]].
  - intros ->. reflexivity.
  - intros Hne. destruct vals as [|v vs] eqn:E; [contradiction|].
    cbn [length Nat.eqb]. cbv zeta.
    rewrite fold_left_add, Z.add_0_l.
    change (inject_Z (sumZ (v :: vs)) / inject_Z (Z.of_nat (length (v :: vs))))%Q
      with (mean (v :: vs)).
    split; [reflexivity|]. split; [apply Math_round_nearest|].
    apply scoreToGrade_spec.
Qed.

Lemma exampleRatings_wellFormed : wellFormedRatings Sample.exampleRatings.
Proof.
  intros p r Hp. unfold params in Hp.
  rewrite !elem_of_cons, elem_of_nil in Hp.
  destruct Hp as [-> | [-> | [-> | [-> | [-> | []]]]]];
    intros E; vm_compute in E; injection E as <-;
    apply list_elem_of_In; simpl; tauto.
Qed.

Lemma computeStaffScore_spec_witness :
  let vals := answeredValues Sample.exampleRatings in
  computeStaffScore Sample.exampleRatings = Some (Math_round (mean vals)) /\
  nearestInteger (mean vals) (Math_round (mean vals)) /\
  gradeOf (Math_round (mean vals))
          (computedGrade (computeStaffScore Sample.exampleRatings)).
Proof.
  apply (proj1 (proj2 (computeStaffScore_spec Sample.exampleRatings
                         exampleRatings_wellFormed))).
  intros E. vm_compute in E. discriminate E.
Defined.

End StaffScore.

(** ** The uniqueness guard and the submissions *)

Module Uniqueness.
Import JsString JsStringFacts Store Spec.

Lemma startsWith_append n b : startsWith n (n ++ b) = true.
Proof. induction n as [|c n IH]; simpl; [reflexivity|]. now rewrite Ascii.eqb_refl. Qed.

Lemma includes_here n b : includes n (n ++ b) = true.
Proof.
  destruct (n ++ b) eqn:E; cbn [includes]; rewrite <- E, startsWith_append; reflexivity.
Qed.

Lemma includes_later a n s : includes n s = true -> includes n (a ++ s) = true.
Proof.
  intros H. induction a as [|c a IH]; [exact H|].
  cbn [String.append includes]. rewrite IH. apply orb_true_r.
Qed.

Lemma includes_middle a n b : includes n (a ++ n ++ b) = true.
Proof. apply includes_later, includes_here. Qed.

Lemma conflictMessage_names b d :
  includes b (AuditForm.conflictMessage b d) = true /\
  includes d (AuditForm.conflictMessage b d) = true.
Proof.
  unfold AuditForm.conflictMessage. split.
  - apply includes_later, includes_later, includes_here.
  - do 5 apply includes_later. apply includes_here.
Qed.

Lemma duplicateMessage_names code d :
  includes code (StaffEvaluation.duplicateMessage code d) = true /\
  includes d (StaffEvaluation.duplicateMessage code d) = true.
Proof.
  unfold StaffEvaluation.duplicateMessage. split.
  - apply includes_later, includes_later, includes_here.
  - do 5 apply includes_later. apply includes_here.
Qed.

Lemma filter_nonempty {A} (p : A -> bool) (l : list A) (x : A) :
  x ∈ l -> p x = true -> List.filter p l <> [].
Proof.
  intros Hin Hp E.
  assert (H : In x (List.filter p l)) by (apply filter_In; split; [now apply list_elem_of_In | exact Hp]).
  rewrite E in H. exact H.
Qed.

(** What a call to the store leaves of the world. *)
Definition afterCall (w : World) : World :=
  {| unitAudits := unitAudits w; staffEvaluations := staffEvaluations w;
     outages := tail (outages w); alerts := alerts w; console := console w;
     clock := clock w |}.

Lemma storeCall_answers w :
  storeAnswers w -> storeCall w = (Returned tt, afterCall w).
Proof.
  unfold storeAnswers, storeCall, afterCall.
  destruct w as [ua se [|[e|] rest] al co cl]; simpl; intros Hs;
    [reflexivity | contradiction | reflexivity].
Qed.

Lemma storeCall_fails w e rest :
  outages w = Some e :: rest -> storeCall w = (Thrown e, afterCall w).
Proof. unfold storeCall, afterCall. now intros ->. Qed.

Definition withAlert (w : World) (msg : string) : World :=
  {| unitAudits := unitAudits w; staffEvaluations := staffEvaluations w;
     outages := outages w; alerts := (alerts w ++ [msg])%list;
     console := console w; clock := clock w |}.

Definition withConsole (w : World) (msg : string) : World :=
  {| unitAudits := unitAudits w; staffEvaluations := staffEvaluations w;
     outages := outages w; alerts := alerts w;
     console := (console w ++ [msg])%list; clock := clock w |}.

Lemma run_bind {A B} (m : M A) (f : A -> M B) w :
  (m ≫= f) w
  = match m w with
    | (Returned a, w') => f a w'
    | (Thrown e, w') => (Thrown e, w')
    end.
Proof. reflexivity. Qed.

Lemma getDocs_unitAudits_answers b d w :
  storeAnswers w ->
  getDocs_unitAudits b d w
  = (Returned (List.filter
                 (fun r => String.eqb (UnitAudit.branch r) b
                           && String.eqb (UnitAudit.date r) d)
                 (unitAudits w)),
     afterCall w).
Proof.
  intros Hs. unfold getDocs_unitAudits.
  rewrite run_bind, (storeCall_answers w Hs). reflexivity.
Qed.

Lemma getDocs_unitAudits_fails b d w e rest :
  outages w = Some e :: rest ->
  getDocs_unitAudits b d w = (Thrown e, afterCall w).
Proof.
  intros Ho. unfold getDocs_unitAudits.
  rewrite run_bind, (storeCall_fails w e rest Ho). reflexivity.
Qed.

Lemma getDocs_staffEvaluations_answers code d w :
  storeAnswers w ->
  getDocs_staffEvaluations code d w
  = (Returned (take 1
       (List.filter
          (fun r => String.eqb (StaffEval.empCode r) code
                    && String.eqb (StaffEval.date (StaffEval.selection r)) d)
          (staffEvaluations w))),
     afterCall w).
Proof.
  intros Hs. unfold getDocs_staffEvaluations.
  rewrite run_bind, (storeCall_answers w Hs). reflexivity.
Qed.

Lemma getDocs_staffEvaluations_fails code d w e rest :
  outages w = Some e :: rest ->
  getDocs_staffEvaluations code d w = (Thrown e, afterCall w).
Proof.
  intros Ho. unfold getDocs_staffEvaluations.
  rewrite run_bind, (storeCall_fails w e rest Ho). reflexivity.
Qed.

(** The guard of the staff form: its answer and what it leaves. *)
Lemma checkDuplicate_answers code d w :
  storeAnswers w ->
  StaffEvaluation.checkDuplicateForDate code d w
  = (Returned
       (match List.filter
                (fun r => String.eqb (StaffEval.empCode r) code
                          && String.eqb (StaffEval.date (StaffEval.selection r)) d)
                (staffEvaluations w)
        with [] => false | _ :: _ => true end),
     afterCall w).
Proof.
  intros Hs. unfold StaffEvaluation.checkDuplicateForDate, tryCatch.
  rewrite run_bind, (getDocs_staffEvaluations_answers code d w Hs).
  destruct (List.filter _ _); reflexivity.
Qed.

Lemma checkDuplicate_fails code d w e rest :
  outages w = Some e :: rest ->
  StaffEvaluation.checkDuplicateForDate code d w
  = (Returned false,
     withConsole (afterCall w) ("checkDuplicateForDate error: " ++ e)).
Proof.
  intros Ho. unfold StaffEvaluation.checkDuplicateForDate, tryCatch.
  rewrite run_bind, (getDocs_staffEvaluations_fails code d w e rest Ho).
  reflexivity.
Qed.

Section submissions.
Context `{Host}.

(** **** The unit audit form *)

Lemma unit_conflict formData selection w :
  AuditForm.validate formData (AuditForm.defaultSelection selection) = [] ->
  storeAnswers w ->
  unitAuditOnRecord w (AuditForm.field (AuditForm.branch selection))
    (AuditForm.formatDateDDMMYYYY (AuditForm.date selection)) ->
  AuditForm.handleSubmit formData selection w
  = (Returned tt,
     withAlert (afterCall w)
       (AuditForm.conflictMessage
          (AuditForm.field (AuditForm.branch selection))
          (AuditForm.formatDateDDMMYYYY (AuditForm.date selection)))).
Proof.
  intros Hv Hs (r & Hin & Hb & Hd).
  unfold AuditForm.handleSubmit. rewrite Hv.
  rewrite run_bind. unfold get at 1, tryCatch.
  rewrite run_bind, (getDocs_unitAudits_answers _ _ w Hs).
  destruct (List.filter _ (unitAudits w)) as [|r' rs] eqn:E.
  - exfalso. apply (filter_nonempty _ _ r Hin) in E; [exact E|].
    rewrite Hb, Hd. cbn. now rewrite !String.eqb_refl.
  - reflexivity.
Qed.

Lemma unit_query_fails formData selection w e rest :
  AuditForm.validate formData (AuditForm.defaultSelection selection) = [] ->
  outages w = Some e :: rest ->
  AuditForm.handleSubmit formData selection w
  = (Returned tt,
     withAlert (withConsole (afterCall w) ("Error saving audit: " ++ e))
       ("‚ùå Error saving data: " ++ e)).
Proof.
  intros Hv Ho.
  unfold AuditForm.handleSubmit. rewrite Hv.
  rewrite run_bind. unfold get at 1, tryCatch.
  rewrite run_bind, (getDocs_unitAudits_fails _ _ w e rest Ho).
  reflexivity.
Qed.

(** **** The staff evaluation form *)

Lemma staff_conflict form ratings selection w :
  StaffEvaluation.validate form ratings = [] ->
  storeAnswers w ->
  isEmpty (StaffEvaluation.ensureDDMMYYYY (StaffEvaluation.date selection)) = false ->
  staffEvaluationOnRecord w (trim (StaffEvaluation.empCode form))
    (StaffEvaluation.ensureDDMMYYYY (StaffEvaluation.date selection)) ->
  StaffEvaluation.handleSubmit form ratings selection w
  = (Returned tt,
     withAlert (afterCall w)
       (StaffEvaluation.duplicateMessage
          (trim (StaffEvaluation.empCode form))
          (StaffEvaluation.ensureDDMMYYYY (StaffEvaluation.date selection)))).
Proof.
  intros Hv Hs Hd (r & Hin & Hc & Hr).
  unfold StaffEvaluation.handleSubmit. rewrite Hv, Hd.
  rewrite run_bind, (checkDuplicate_answers _ _ w Hs).
  destruct (List.filter _ (staffEvaluations w)) as [|r' rs] eqn:E.
  - exfalso. apply (filter_nonempty _ _ r Hin) in E; [exact E|].
    rewrite Hc, Hr. cbn. now rewrite !String.eqb_refl.
  - reflexivity.
Qed.

Lemma staff_date_missing form ratings selection w :
  StaffEvaluation.validate form ratings = [] ->
  isEmpty (StaffEvaluation.ensureDDMMYYYY (StaffEvaluation.date selection)) = true ->
  StaffEvaluation.handleSubmit form ratings selection w
  = (Returned tt,
     withAlert w "Date missing from selection - please re-select branch/date.").
Proof.
  intros Hv Hd. unfold StaffEvaluation.handleSubmit. now rewrite Hv, Hd.
Qed.

(** After a failed duplicate check the staff form goes on to the
    write. *)
Lemma staff_query_fails form ratings selection w e rest :
  StaffEvaluation.validate form ratings = [] ->
  isEmpty (StaffEvaluation.ensureDDMMYYYY (StaffEvaluation.date selection)) = false ->
  outages w = Some e :: rest ->
  StaffEvaluation.handleSubmit form ratings selection w
  = Store.tryCatch
      (_ ← Store.addDoc_staffEvaluations
             (StaffEvaluation.payloadOf form ratings selection);
       Store.alert "✅ Staff Evaluation submitted!")
      (fun err =>
         _ ← Store.console_error ("save error " ++ err);
         Store.alert ("❌ Error saving: " ++ err))
      (withConsole (afterCall w) ("checkDuplicateForDate error: " ++ e)).
Proof.
  intros Hv Hd Ho. unfold StaffEvaluation.handleSubmit. rewrite Hv, Hd.
  rewrite run_bind, (checkDuplicate_fails _ _ w e rest Ho). reflexivity.
Qed.
End submissions.

Lemma staff_write `{Host} payload w :
  storeAnswers w ->
  Store.tryCatch
    (_ ← Store.addDoc_staffEvaluations payload;
     Store.alert "✅ Staff Evaluation submitted!")
    (fun err =>
       _ ← Store.console_error ("save error " ++ err);
       Store.alert ("❌ Error saving: " ++ err)) w
  = (Returned tt,
     {| unitAudits := unitAudits w;
        staffEvaluations := (staffEvaluations w ++ [payload (clock w)])%list;
        outages := tail (outages w);
        alerts := (alerts w ++ ["✅ Staff Evaluation submitted!"])%list;
        console := console w; clock := clock w |}).
Proof.
  intros Hs. unfold tryCatch, addDoc_staffEvaluations.
  rewrite !run_bind, (storeCall_answers w Hs). reflexivity.
Qed.

Lemma staff_write_fails `{Host} payload w e rest :
  outages w = Some e :: rest ->
  Store.tryCatch
    (_ ← Store.addDoc_staffEvaluations payload;
     Store.alert "✅ Staff Evaluation submitted!")
    (fun err =>
       _ ← Store.console_error ("save error " ++ err);
       Store.alert ("❌ Error saving: " ++ err)) w
  = (Returned tt,
     withAlert (withConsole (afterCall w) ("save error " ++ e))
       ("❌ Error saving: " ++ e)).
Proof.
  intros Ho. unfold tryCatch, addDoc_staffEvaluations.
  rewrite !run_bind, (storeCall_fails w e rest Ho). reflexivity.
Qed.

(** What the two guards do turn down.  A unit audit submission (a valid
    form, the store answering the guard's query) for a branch and
    normalised date that already have a record is turned down with a
    message that names the branch and the date, and both collections are
    left as they were.  A staff evaluation submission is turned down, and
    nothing is written, when a record is stored under the trimmed employee
    code of the form and the date; a record stored under the code as it
    was typed, with outer white space, is not found
    ([staff_duplicate_written]). *)
Theorem duplicate_submission_rejected `{Host} :
  (forall formData selection w,
     AuditForm.validate formData (AuditForm.defaultSelection selection) = [] ->
     storeAnswers w ->
     let b := AuditForm.field (AuditForm.branch selection) in
     let d := AuditForm.formatDateDDMMYYYY (AuditForm.date selection) in
     unitAuditOnRecord w b d ->
     let w' := snd (AuditForm.handleSubmit formData selection w) in
     unitAudits w' = unitAudits w /\
     staffEvaluations w' = staffEvaluations w /\
     alerts w' = (alerts w ++ [AuditForm.conflictMessage b d])%list /\
     includes b (AuditForm.conflictMessage b d) = true /\
     includes d (AuditForm.conflictMessage b d) = true) /\
  (forall form ratings selection w,
     StaffEvaluation.validate form ratings = [] ->
     storeAnswers w ->
     let code := trim (StaffEvaluation.empCode form) in
     let d := StaffEvaluation.ensureDDMMYYYY (StaffEvaluation.date selection) in
     staffEvaluationOnRecord w code d ->
     let w' := snd (StaffEvaluation.handleSubmit form ratings selection w) in
     unitAudits w' = unitAudits w /\
     staffEvaluations w' = staffEvaluations w /\
     (isEmpty d = false ->
      alerts w' = (alerts w ++ [StaffEvaluation.duplicateMessage code d])%list /\
      includes code (StaffEvaluation.duplicateMessage code d) = true /\
      includes d (StaffEvaluation.duplicateMessage code d) = true)).
Proof.
  split.
  - intros formData selection w Hv Hs b d Hr w'.
    unfold w'. rewrite (unit_conflict formData selection w Hv Hs Hr).
    destruct (conflictMessage_names b d) as [Hb Hd].
    repeat split; assumption || reflexivity.
  - intros form ratings selection w Hv Hs code d Hr w'.
    destruct (isEmpty d) eqn:Ed.
    + unfold w'. rewrite (staff_date_missing form ratings selection w Hv Ed).
      repeat split; discriminate.
    + unfold w'. rewrite (staff_conflict form ratings selection w Hv Hs Ed Hr).
      destruct (duplicateMessage_names code d) as [Hc Hd].
      repeat split; assumption || reflexivity.
Qed.

(** A second audit of Koramangala on 01/06/2024 and a second evaluation
    of E17 on that day. *)
Lemma duplicate_submission_rejected_witness :
  let w := Sample.session [] in
  let wa := snd (@AuditForm.handleSubmit RefHost.refHost Sample.auditForm Sample.auditSelection w) in
  let ws := snd (@StaffEvaluation.handleSubmit RefHost.refHost Sample.staffForm
                   Sample.exampleRatings Sample.staffSelection w) in
  (unitAudits wa = unitAudits w /\
   staffEvaluations wa = staffEvaluations w /\
   alerts wa = (alerts w ++ [AuditForm.conflictMessage "Koramangala" "01/06/2024"])%list /\
   includes "Koramangala" (AuditForm.conflictMessage "Koramangala" "01/06/2024") = true /\
   includes "01/06/2024" (AuditForm.conflictMessage "Koramangala" "01/06/2024") = true) /\
  (unitAudits ws = unitAudits w /\ staffEvaluations ws = staffEvaluations w).
Proof.
  split.
  - apply (proj1 (@duplicate_submission_rejected RefHost.refHost)
             Sample.auditForm Sample.auditSelection (Sample.session [])).
    + vm_compute. reflexivity.
    + exact I.
    + eexists. split; [left|]. split; reflexivity.
  - refine (let P := proj2 (@duplicate_submission_rejected RefHost.refHost)
                       Sample.staffForm Sample.exampleRatings Sample.staffSelection
                       (Sample.session []) _ I _ in
            conj (proj1 P) (proj1 (proj2 P))).
    + vm_compute. reflexivity.
    + eexists. split; [left|]. split; reflexivity.
Defined.

(** The guard's key is the trimmed code, the stored code is the code as
    typed: an evaluation stored under "E17 " is not found by the query for
    "E17", and the same form submitted again is stored again. *)
Remark padded_code_not_found :
  let form := {| StaffEvaluation.staffName := "Asha";
                 StaffEvaluation.empCode := "E17 ";
                 StaffEvaluation.designation := "Cook";
                 StaffEvaluation.totalMarks := "76";
                 StaffEvaluation.grade := "B" |} in
  let submit := @StaffEvaluation.handleSubmit RefHost.refHost form
                  Sample.exampleRatings Sample.staffSelection in
  let w0 := {| unitAudits := []; staffEvaluations := []; outages := [];
               alerts := []; console := []; clock := 0 |} in
  let w1 := snd (submit w0) in
  let w2 := snd (submit w1) in
  List.map StaffEval.empCode (staffEvaluations w1) = ["E17 "] /\
  List.map StaffEval.empCode (staffEvaluations w2) = ["E17 "; "E17 "].
Proof. vm_compute. split; reflexivity. Qed.

(** C3, where the code departs from it.  The staff form is submitted with
    the employee code typed as "E17 " (a space after it), for 01/06/2024,
    to a store that answers every call.  The first submission stores the
    evaluation under the code as typed.  The second submission of the same
    form, for the same date, asks the store for the trimmed code "E17",
    finds nothing, and is stored as well: two evaluations of the same
    employee code and date are on record, and both submissions were
    answered with the success message, none with the refusal. *)
Theorem staff_duplicate_written :
  let form := {| StaffEvaluation.staffName := "Asha";
                 StaffEvaluation.empCode := "E17 ";
                 StaffEvaluation.designation := "Cook";
                 StaffEvaluation.totalMarks := "76";
                 StaffEvaluation.grade := "B" |} in
  let submit := @StaffEvaluation.handleSubmit RefHost.refHost form
                  Sample.exampleRatings Sample.staffSelection in
  let w0 := {| unitAudits := []; staffEvaluations := []; outages := [];
               alerts := []; console := []; clock := 0 |} in
  let w1 := snd (submit w0) in
  let w2 := snd (submit w1) in
  let key r := (StaffEval.empCode r, StaffEval.date (StaffEval.selection r)) in
  StaffEvaluation.validate form Sample.exampleRatings = [] /\
  List.map key (staffEvaluations w1) = [("E17 ", "01/06/2024")] /\
  List.map key (staffEvaluations w2) = [("E17 ", "01/06/2024"); ("E17 ", "01/06/2024")] /\
  alerts w2 = ["✅ Staff Evaluation submitted!"; "✅ Staff Evaluation submitted!"] /\
  fst (StaffEvaluation.checkDuplicateForDate "E17" "01/06/2024" w1) = Returned false.
Proof. vm_compute. repeat split; reflexivity. Qed.

(** C9, as the code has it.  When the guard's query fails, the unit audit
    submission is abandoned: nothing is written, no further call goes to
    the store, and the error is shown.  The guard of the staff form logs
    the error and answers that there is no duplicate, and the submission
    goes on to the write: the evaluation is stored when that call
    succeeds, and the submission is abandoned only when the write fails
    too. *)
Theorem failed_duplicate_query `{Host} :
  (forall formData selection w e rest,
     AuditForm.validate formData (AuditForm.defaultSelection selection) = [] ->
     outages w = Some e :: rest ->
     let w' := snd (AuditForm.handleSubmit formData selection w) in
     unitAudits w' = unitAudits w /\
     staffEvaluations w' = staffEvaluations w /\
     outages w' = rest /\
     alerts w' = (alerts w ++ [("‚ùå Error saving data: " ++ e)%string])%list) /\
  (forall code d w e rest,
     outages w = Some e :: rest ->
     fst (StaffEvaluation.checkDuplicateForDate code d w) = Returned false) /\
  (forall form ratings selection w e rest,
     StaffEvaluation.validate form ratings = [] ->
     isEmpty (StaffEvaluation.ensureDDMMYYYY (StaffEvaluation.date selection)) = false ->
     outages w = Some e :: rest ->
     let w' := snd (StaffEvaluation.handleSubmit form ratings selection w) in
     unitAudits w' = unitAudits w /\
     match rest with
     | Some e' :: _ =>
         staffEvaluations w' = staffEvaluations w /\
         alerts w' = (alerts w ++ [("❌ Error saving: " ++ e')%string])%list
     | _ =>
         staffEvaluations w'
         = (staffEvaluations w
            ++ [StaffEvaluation.payloadOf form ratings selection (clock w)])%list /\
         alerts w' = (alerts w ++ ["✅ Staff Evaluation submitted!"])%list
     end).
Proof.
  split; [|split].
  - intros formData selection w e rest Hv Ho w'.
    unfold w'. rewrite (unit_query_fails formData selection w e rest Hv Ho).
    cbn. rewrite Ho. repeat split; reflexivity.
  - intros code d w e rest Ho.
    now rewrite (checkDuplicate_fails code d w e rest Ho).
  - intros form ratings selection w e rest Hv Hd Ho w'.
    unfold w'. rewrite (staff_query_fails form ratings selection w e rest Hv Hd Ho).
    destruct rest as [|[e'|] rest'].
    + rewrite staff_write by (unfold storeAnswers; cbn; now rewrite Ho).
      repeat split; reflexivity.
    + erewrite staff_write_fails by (cbn; rewrite Ho; reflexivity).
      repeat split; reflexivity.
    + rewrite staff_write by (unfold storeAnswers; cbn; now rewrite Ho).
      repeat split; reflexivity.
Qed.

(** The store is out of reach for the guard's query and back for the
    write. *)
Lemma failed_duplicate_query_witness :
  let w := Sample.session [Some "unavailable"] in
  let wa := snd (@AuditForm.handleSubmit RefHost.refHost Sample.auditForm Sample.auditSelection w) in
  unitAudits wa = unitAudits w /\
  staffEvaluations wa = staffEvaluations w /\
  outages wa = [] /\
  alerts wa = (alerts w ++ ["‚ùå Error saving data: unavailable"])%list.
Proof.
  apply (proj1 (@failed_duplicate_query RefHost.refHost)
           Sample.auditForm Sample.auditSelection (Sample.session [Some "unavailable"]) "unavailable" []).
  - vm_compute. reflexivity.
  - reflexivity.
Defined.

(** C9, as stated, fails for the staff form: E17 has an evaluation of
    01/06/2024 on record, the guard's query fails, the guard answers "no
    duplicate" and a second evaluation of E17 for that day is written. *)
Lemma staff_write_after_failed_check :
  let w := Sample.session [Some "unavailable"] in
  let code := trim (StaffEvaluation.empCode Sample.staffForm) in
  let d := @StaffEvaluation.ensureDDMMYYYY RefHost.refHost
             (StaffEvaluation.date Sample.staffSelection) in
  let w' := snd (@StaffEvaluation.handleSubmit RefHost.refHost Sample.staffForm
                   Sample.exampleRatings Sample.staffSelection w) in
  List.map (fun r => (StaffEval.empCode r, StaffEval.date (StaffEval.selection r)))
           (staffEvaluations w) = [(code, d)] /\
  fst (StaffEvaluation.checkDuplicateForDate code d w) = Returned false /\
  List.map (fun r => (StaffEval.empCode r, StaffEval.date (StaffEval.selection r)))
           (staffEvaluations w') = [(code, d); (code, d)] /\
  alerts w' = ["✅ Staff Evaluation submitted!"].
Proof. vm_compute. repeat split; reflexivity. Qed.

End Uniqueness.

(** ** The calendar and the range filter *)

Module RangeFilter.
Import JsString JsStringFacts JsNumber JsNumberFacts JsDate RetrieveReports Spec.

(** Day number of a calendar date. *)
Definition dayNo (c : CalDate) : Z := MakeDay (year c) (month c - 1) (day c).

Lemma isLeapYear_spec y :
  isLeapYear y = true <-> (y mod 4 = 0 /\ y mod 100 <> 0) \/ y mod 400 = 0.
Proof.
  unfold isLeapYear.
  destruct (Z.eqb_spec (y mod 4) 0), (Z.eqb_spec (y mod 100) 0),
    (Z.eqb_spec (y mod 400) 0); simpl; intuition (discriminate || lia).
Qed.

Lemma DayFromYear_succ y :
  DayFromYear (y + 1) = DayFromYear y + (if isLeapYear y then 366 else 365).
Proof.
  destruct (isLeapYear y) eqn:E.
  - apply isLeapYear_spec in E. unfold DayFromYear. lia.
  - assert (N : ~ ((y mod 4 = 0 /\ y mod 100 <> 0) \/ y mod 400 = 0))
      by (rewrite <- isLeapYear_spec; congruence).
    unfold DayFromYear. lia.
Qed.

Lemma DayFromYear_mono y1 y2 : y1 <= y2 -> DayFromYear y1 <= DayFromYear y2.
Proof. unfold DayFromYear. lia. Qed.

Lemma month_cases m :
  1 <= m <= 12 ->
  m = 1 \/ m = 2 \/ m = 3 \/ m = 4 \/ m = 5 \/ m = 6 \/ m = 7 \/ m = 8
  \/ m = 9 \/ m = 10 \/ m = 11 \/ m = 12.
Proof. lia. Qed.

Ltac each_month m H :=
  destruct (month_cases m H)
    as [-> | [-> | [-> | [-> | [-> | [-> | [-> | [-> | [-> | [-> | [-> | ->]]]]]]]]]]].

(** The day of the year, counted from 0. *)
Definition dayOfYear (leap : bool) (m d : Z) : Z :=
  daysBeforeMonth leap (m - 1) + d - 1.

Lemma dayOfYear_bound leap m d :
  1 <= m <= 12 -> 1 <= d <= daysInMonth leap (m - 1) ->
  0 <= dayOfYear leap m d < (if leap then 366 else 365).
Proof.
  intros Hm. unfold dayOfYear.
  each_month m Hm; destruct leap; simpl; lia.
Qed.

Lemma dayOfYear_lt leap m1 d1 m2 d2 :
  1 <= m1 <= 12 -> 1 <= d1 <= daysInMonth leap (m1 - 1) ->
  1 <= m2 <= 12 -> 1 <= d2 <= daysInMonth leap (m2 - 1) ->
  m1 < m2 \/ (m1 = m2 /\ d1 < d2) ->
  dayOfYear leap m1 d1 < dayOfYear leap m2 d2.
Proof.
  intros Hm1 Hd1 Hm2 Hd2 Hlt. unfold dayOfYear in *.
  each_month m1 Hm1; each_month m2 Hm2; destruct leap; simpl in *; lia.
Qed.

Lemma validCal_spec c :
  validCal c = true ->
  100 <= year c <= 9999 /\ 1 <= month c <= 12 /\
  1 <= day c <= daysInMonth (isLeapYear (year c)) (month c - 1).
Proof.
  unfold validCal. intros E.
  repeat (apply andb_prop in E as [E ?]). lia.
Qed.

Lemma dayNo_eq c :
  validCal c = true ->
  dayNo c = DayFromYear (year c) + dayOfYear (isLeapYear (year c)) (month c) (day c).
Proof.
  intros (Hy & Hm & Hd)%validCal_spec. unfold dayNo, MakeDay, dayOfYear.
  replace ((month c - 1) / 12) with 0 by lia.
  replace ((month c - 1) mod 12) with (month c - 1) by lia.
  rewrite Z.add_0_r. lia.
Qed.

(** Strictly earlier in the calendar. *)
Definition calLt (a b : CalDate) : Prop :=
  year a < year b
  \/ (year a = year b /\ (month a < month b \/ (month a = month b /\ day a < day b))).

Lemma dayNo_lt a b :
  validCal a = true -> validCal b = true -> calLt a b -> dayNo a < dayNo b.
Proof.
  intros Ha Hb Hlt. rewrite (dayNo_eq a Ha), (dayNo_eq b Hb).
  apply validCal_spec in Ha as (Hya & Hma & Hda).
  apply validCal_spec in Hb as (Hyb & Hmb & Hdb).
  pose proof (dayOfYear_bound _ _ _ Hma Hda) as Ba.
  pose proof (dayOfYear_bound _ _ _ Hmb Hdb) as Bb.
  destruct Hlt as [Hy | [Hy Hmd]].
  - pose proof (DayFromYear_succ (year a)) as Hs.
    pose proof (DayFromYear_mono (year a + 1) (year b) ltac:(lia)) as Hmo.
    destruct (isLeapYear (year a)); lia.
  - rewrite Hy in *.
    pose proof (dayOfYear_lt _ _ _ _ _ Hma Hda Hmb Hdb Hmd). lia.
Qed.

Lemma calLeb_dayNo a b :
  validCal a = true -> validCal b = true -> calLeb a b = (dayNo a <=? dayNo b).
Proof.
  intros Ha Hb. unfold calLeb.
  destruct (Z.leb_spec (dayNo a) (dayNo b)) as [Hle | Hgt].
  - destruct (Z.ltb_spec (year a) (year b)); [reflexivity|].
    destruct (Z.eqb_spec (year a) (year b)) as [Ey|Ny].
    + destruct (Z.ltb_spec (month a) (month b)); [reflexivity|].
      destruct (Z.eqb_spec (month a) (month b)) as [Em|Nm].
      * destruct (Z.leb_spec (day a) (day b)); [reflexivity|].
        pose proof (dayNo_lt b a Hb Ha) as L. unfold calLt in L. lia.
      * pose proof (dayNo_lt b a Hb Ha) as L. unfold calLt in L. lia.
    + pose proof (dayNo_lt b a Hb Ha) as L. unfold calLt in L. lia.
  - pose proof (dayNo_lt a b Ha Hb) as L. unfold calLt in L.
    destruct (Z.ltb_spec (year a) (year b)); [lia|].
    destruct (Z.eqb_spec (year a) (year b)) as [Ey|Ny]; [|reflexivity].
    destruct (Z.ltb_spec (month a) (month b)); [lia|].
    destruct (Z.eqb_spec (month a) (month b)) as [Em|Nm]; [|reflexivity].
    destruct (Z.leb_spec (day a) (day b)); [|reflexivity].
    assert (day a = day b \/ day a < day b) as [E|E] by lia; [|lia].
    destruct a, b; simpl in *; subst. lia.
Qed.

Lemma dayNo_bound c : validCal c = true -> -700000 <= dayNo c <= 3000000.
Proof.
  intros Hc. rewrite (dayNo_eq c Hc).
  apply validCal_spec in Hc as (Hy & Hm & Hd).
  pose proof (dayOfYear_bound _ _ _ Hm Hd) as B.
  unfold DayFromYear. destruct (isLeapYear (year c)); lia.
Qed.

(** *** Reading the strings *)

Lemma parseDecimal_digits s :
  isDigits s = true -> parseDecimal s = Some (parseDigits s 0).
Proof.
  destruct s as [|c r]; [discriminate|]. intros Hs.
  assert (Hc : isDigit c = true).
  { unfold isDigits in Hs. cbn [isEmpty negb allChars andb] in Hs.
    now apply andb_prop in Hs as [Hc _]. }
  unfold parseDecimal.
  destruct c as [[] [] [] [] [] [] [] []]; try discriminate Hc; now rewrite Hs.
Qed.

Lemma digitsBetween_isDigits lo hi s :
  (1 <= lo)%nat -> digitsBetween lo hi s = true -> isDigits s = true.
Proof.
  intros Hlo E. unfold digitsBetween in E.
  apply andb_prop in E as [E _]. apply andb_prop in E as [Hd Hl].
  apply Nat.leb_le in Hl. unfold isDigits. rewrite Hd.
  destruct s; [simpl in Hl; lia | reflexivity].
Qed.

Lemma Number_digits `{Host} s :
  isDigits s = true -> Number_ s = Some (inject_Z (parseDigits s 0)).
Proof.
  intros Hs. unfold Number_.
  assert (Hd : allChars isDigit s = true /\ isEmpty s = false).
  { unfold isDigits in Hs. apply andb_prop in Hs as [He Hd].
    split; [exact Hd | now apply negb_true_iff]. }
  destruct Hd as [Hd He].
  rewrite trim_id.
  - now rewrite He, (parseDecimal_digits s Hs).
  - now rewrite (digits_head s He Hd), orb_true_r.
  - now apply digits_last.
Qed.

Lemma truncate_Z q z : (q == inject_Z z)%Q -> truncate q = z.
Proof.
  intros E. unfold truncate. destruct (Qle_bool 0 q).
  - rewrite (Qfloor_comp _ _ E). apply Qfloor_Z.
  - rewrite (Qceiling_comp _ _ E). apply Qceiling_Z.
Qed.

Lemma Date_ymd_valid c :
  validCal c = true ->
  Date_ymd (Some (inject_Z (year c)))
           (Some (inject_Z (month c) - 1)%Q)
           (Some (inject_Z (day c)))
  = Some (MakeDate (dayNo c) 0).
Proof.
  intros Hc. unfold Date_ymd.
  rewrite (truncate_Z (inject_Z (year c)) (year c)) by reflexivity.
  rewrite (truncate_Z (inject_Z (day c)) (day c)) by reflexivity.
  rewrite (truncate_Z (inject_Z (month c) - 1)%Q (month c - 1))
    by (unfold Z.sub; rewrite inject_Z_plus, inject_Z_opp; reflexivity).
  pose proof (dayNo_bound c Hc) as B.
  apply validCal_spec in Hc as (Hy & _).
  destruct (Z.leb_spec 0 (year c)); [|lia].
  destruct (Z.leb_spec (year c) 99); [lia|]. cbn [andb].
  fold (dayNo c). unfold TimeClip, MakeDate, msPerDay in *.
  destruct (Z.leb_spec (Z.abs (dayNo c * 86400000 + 0)) 8640000000000000);
    [reflexivity | lia].
Qed.

Section reading.
Context `{Host}.

Lemma parse_readDDMMYYYY s c :
  readDDMMYYYY s = Some c ->
  parseDDMMYYYYtoDate s = Some (MakeDate (dayNo c) 0) /\ validCal c = true.
Proof.
  unfold readDDMMYYYY, parseDDMMYYYYtoDate.
  destruct s as [|ch s']; [discriminate|]. cbn [isEmpty].
  destruct (split "/" (String ch s')) as [|dd [|mm [|yyyy [|]]]]; try discriminate.
  destruct (digitsBetween 2 2 dd && digitsBetween 2 2 mm && digitsBetween 4 4 yyyy)
    eqn:E; [|discriminate].
  apply andb_prop in E as [E E3]. apply andb_prop in E as [E1 E2].
  destruct (validCal _) eqn:Ev; [|discriminate]. intros [= <-].
  rewrite (Number_digits dd), (Number_digits mm), (Number_digits yyyy)
    by (eapply digitsBetween_isDigits; [|eassumption]; lia).
  split; [|exact Ev]. cbn [option_map].
  exact (Date_ymd_valid _ Ev).
Qed.

Lemma parse_readISO s c :
  readISO s = Some c ->
  isEmpty s = false /\
  isoToLocalDate s = Some (MakeDate (dayNo c) 0) /\ validCal c = true.
Proof.
  unfold readISO, isoToLocalDate.
  destruct s as [|ch s']; [discriminate|]. cbn [isEmpty].
  destruct (split "-" (String ch s')) as [|yyyy [|mm [|dd [|]]]]; try discriminate.
  destruct (digitsBetween 4 4 yyyy && digitsBetween 2 2 mm && digitsBetween 2 2 dd)
    eqn:E; [|discriminate].
  apply andb_prop in E as [E E3]. apply andb_prop in E as [E1 E2].
  destruct (validCal _) eqn:Ev; [|discriminate]. intros [= <-].
  rewrite (Number_digits dd), (Number_digits mm), (Number_digits yyyy)
    by (eapply digitsBetween_isDigits; [|eassumption]; lia).
  split; [reflexivity|]. split; [|exact Ev]. cbn [option_map].
  exact (Date_ymd_valid _ Ev).
Qed.

Lemma startOfDay n : setHours (MakeDate n 0) 0 0 0 0 = MakeDate n 0.
Proof. unfold setHours, MakeDate, msPerDay. lia. Qed.

Lemma endOfDay n : setHours (MakeDate n 0) 23 59 59 999 = MakeDate n 86399999.
Proof. unfold setHours, MakeDate, msPerDay. lia. Qed.

Lemma before_start d f :
  validCal d = true -> validCal f = true ->
  (MakeDate (dayNo d) 0 <? MakeDate (dayNo f) 0) = negb (calLeb f d).
Proof.
  intros Hd Hf. rewrite (calLeb_dayNo f d Hf Hd). unfold MakeDate, msPerDay.
  destruct (Z.ltb_spec (dayNo d * 86400000 + 0) (dayNo f * 86400000 + 0)),
    (Z.leb_spec (dayNo f) (dayNo d)); simpl; lia.
Qed.

Lemma after_end d t :
  validCal d = true -> validCal t = true ->
  (MakeDate (dayNo t) 86399999 <? MakeDate (dayNo d) 0) = negb (calLeb d t).
Proof.
  intros Hd Ht. rewrite (calLeb_dayNo d t Hd Ht). unfold MakeDate, msPerDay.
  destruct (Z.ltb_spec (dayNo t * 86400000 + 86399999) (dayNo d * 86400000 + 0)),
    (Z.leb_spec (dayNo d) (dayNo t)); simpl; lia.
Qed.

(** A bound as [withinRange] sees it. *)
Lemma bound_read s b :
  readBound s = Some b ->
  match b with
  | None => isEmpty s = true
  | Some c =>
      isEmpty s = false /\
      isoToLocalDate s = Some (MakeDate (dayNo c) 0) /\ validCal c = true
  end.
Proof.
  unfold readBound. destruct (isEmpty s) eqn:E.
  - now intros [= <-].
  - destruct (readISO s) as [c|] eqn:Ec; [|discriminate].
    intros [= <-]. destruct (parse_readISO s c Ec) as (_ & ? & ?). auto.
Qed.

Lemma withinRange_read dateDD fromISO toISO d from to :
  readDDMMYYYY dateDD = Some d ->
  readBound fromISO = Some from ->
  readBound toISO = Some to ->
  withinRange dateDD fromISO toISO = inRange d from to.
Proof.
  intros Hd Hf Ht.
  destruct (parse_readDDMMYYYY _ _ Hd) as [Pd Vd].
  apply bound_read in Hf, Ht.
  unfold withinRange, inRange. rewrite Pd.
  destruct from as [f|], to as [t|].
  - destruct Hf as (Ef & Pf & Vf), Ht as (Et & Pt & Vt).
    rewrite Ef, Et, Pf, Pt. cbn [andb option_map].
    rewrite startOfDay, endOfDay, (before_start d f Vd Vf), (after_end d t Vd Vt).
    destruct (calLeb f d), (calLeb d t); reflexivity.
  - destruct Hf as (Ef & Pf & Vf).
    rewrite Ef, Ht, Pf. cbn [andb option_map].
    rewrite startOfDay, (before_start d f Vd Vf).
    destruct (calLeb f d); reflexivity.
  - destruct Ht as (Et & Pt & Vt).
    rewrite Hf, Et, Pt. cbn [andb option_map].
    rewrite endOfDay, (after_end d t Vd Vt).
    destruct (calLeb d t); reflexivity.
  - now rewrite Hf, Ht.
Qed.
End reading.

(** A record of 15 March 2024 against ranges of March and of April. *)
Lemma march_2024 `{Host} :
  withinRange "15/03/2024" "2024-03-01" "2024-03-31" = true /\
  withinRange "15/03/2024" "2024-03-15" "2024-03-31" = true /\
  withinRange "15/03/2024" "2024-03-01" "2024-03-15" = true /\
  withinRange "15/03/2024" "2024-04-01" "2024-04-30" = false.
Proof.
  pose (d := mkCal 2024 3 15).
  rewrite (withinRange_read "15/03/2024" "2024-03-01" "2024-03-31" d
             (Some (mkCal 2024 3 1)) (Some (mkCal 2024 3 31))) by reflexivity.
  rewrite (withinRange_read "15/03/2024" "2024-03-15" "2024-03-31" d
             (Some (mkCal 2024 3 15)) (Some (mkCal 2024 3 31))) by reflexivity.
  rewrite (withinRange_read "15/03/2024" "2024-03-01" "2024-03-15" d
             (Some (mkCal 2024 3 1)) (Some (mkCal 2024 3 15))) by reflexivity.
  rewrite (withinRange_read "15/03/2024" "2024-04-01" "2024-04-30" d
             (Some (mkCal 2024 4 1)) (Some (mkCal 2024 4 30))) by reflexivity.
  repeat split; reflexivity.
Qed.




End RangeFilter.

(** ** Deduplication *)

Module Dedupe.
Import JsString RetrieveReports Spec.

Section dedupe.
Context {host : Host}.

Lemma dedupe_fold seen out xs :
  snd (fold_left
         (fun (st : gset string * list Doc.t) item =>
            let '(seen, out) := st in
            let id := identity item in
            if bool_decide (id ∈ seen) then (seen, out)
            else ({[ id ]} ∪ seen, (out ++ [item])%list))
         xs (seen, out))
  = (out ++ firstOfEach seen xs)%list.
Proof.
  revert seen out. induction xs as [|x xs IH]; intros seen out; cbn [fold_left firstOfEach].
  - now rewrite app_nil_r.
  - destruct (bool_decide (identity x ∈ seen)).
    + apply IH.
    + rewrite IH, <- app_assoc. reflexivity.
Qed.

Lemma dedupeById_eq xs : dedupeById xs = firstOfEach ∅ xs.
Proof. unfold dedupeById. now rewrite dedupe_fold. Qed.

Lemma firstOfEach_again seen seen' xs :
  seen' ⊆ seen -> firstOfEach seen' (firstOfEach seen xs) = firstOfEach seen xs.
Proof.
  revert seen seen'. induction xs as [|x xs IH]; intros seen seen' Hsub; [reflexivity|].
  cbn [firstOfEach]. destruct (bool_decide (identity x ∈ seen)) eqn:E.
  - now apply IH.
  - apply bool_decide_eq_false in E. cbn [firstOfEach].
    rewrite bool_decide_eq_false_2 by set_solver.
    f_equal. apply IH. set_solver.
Qed.

Lemma firstOfEach_app seen l1 l2 :
  firstOfEach seen (l1 ++ l2)
  = (firstOfEach seen l1
     ++ firstOfEach (seen ∪ list_to_set (List.map identity l1)) l2)%list.
Proof.
  revert seen. induction l1 as [|x l1 IH]; intros seen.
  - cbn. f_equal. set_solver.
  - cbn [app firstOfEach List.map]. destruct (bool_decide (identity x ∈ seen)) eqn:E.
    + apply bool_decide_eq_true in E. rewrite IH. f_equal. f_equal. set_solver.
    + rewrite IH. cbn [app]. f_equal. f_equal. f_equal. set_solver.
Qed.

(** A later record of an identity already met does not count. *)
Lemma firstOfEach_duplicate seen l r' l3 :
  identity r' ∈ seen ∪ list_to_set (List.map identity l) ->
  firstOfEach seen (l ++ r' :: l3) = firstOfEach seen (l ++ l3).
Proof.
  intros Hin. rewrite !firstOfEach_app. f_equal.
  cbn [firstOfEach]. now rewrite bool_decide_eq_true_2.
Qed.

Lemma firstOfEach_subset seen xs x : x ∈ firstOfEach seen xs -> x ∈ xs.
Proof.
  revert seen. induction xs as [|y xs IH]; intros seen; cbn [firstOfEach].
  - intros Hx. exact Hx.
  - destruct (bool_decide (identity y ∈ seen)).
    + intros Hx. right. eapply IH, Hx.
    + intros [->|Hx]%elem_of_cons; [left | right; eapply IH, Hx].
Qed.

Lemma firstOfEach_fresh seen xs x :
  x ∈ firstOfEach seen xs -> identity x ∉ seen.
Proof.
  revert seen. induction xs as [|y xs IH]; intros seen; cbn [firstOfEach].
  - intros Hx. inversion Hx.
  - destruct (bool_decide (identity y ∈ seen)) eqn:E.
    + apply IH.
    + apply bool_decide_eq_false in E.
      intros [->|Hx]%elem_of_cons; [exact E|].
      apply IH in Hx. set_solver.
Qed.

Lemma firstOfEach_NoDup seen xs :
  NoDup (List.map identity (firstOfEach seen xs)).
Proof.
  revert seen. induction xs as [|y xs IH]; intros seen; cbn [firstOfEach].
  - constructor.
  - destruct (bool_decide (identity y ∈ seen)); [apply IH|].
    cbn [List.map]. constructor; [|apply IH].
    intros Hin. apply list_elem_of_In, in_map_iff in Hin as (z & Ez & Hz).
    apply list_elem_of_In, firstOfEach_fresh in Hz. set_solver.
Qed.
End dedupe.

(** C7.  Deduplication is by the record id and is idempotent: a list in
    which a record id occurs a second time results in the same deduplicated
    records, hence the same employee aggregates and the same per-parameter
    statistics, as the list without that second record; no id is left
    twice; and deduplicating a deduplicated list changes nothing. *)
Theorem dedupe_idempotent `{Host} :
  (forall xs, dedupeById (dedupeById xs) = dedupeById xs) /\
  (forall xs, NoDup (List.map identity (dedupeById xs))) /\
  (forall l1 r l2 r' l3 i,
     Doc.id r = Some i -> Doc.id r' = Some i ->
     let twice := (l1 ++ r :: l2 ++ r' :: l3)%list in
     let once := (l1 ++ r :: l2 ++ l3)%list in
     dedupeById twice = dedupeById once /\
     employeesAggregated (dedupeById twice) = employeesAggregated (dedupeById once) /\
     computeParameterStats (dedupeById twice)
     = computeParameterStats (dedupeById once)).
Proof.
  split; [|split].
  - intros xs. rewrite !dedupeById_eq. now apply firstOfEach_again.
  - intros xs. rewrite dedupeById_eq. apply firstOfEach_NoDup.
  - intros l1 r l2 r' l3 i Hr Hr' twice once.
    assert (E : dedupeById twice = dedupeById once).
    { unfold twice, once. rewrite !dedupeById_eq.
      replace (l1 ++ r :: l2 ++ r' :: l3)%list with ((l1 ++ r :: l2) ++ r' :: l3)%list
        by (now rewrite <- app_assoc).
      replace (l1 ++ r :: l2 ++ l3)%list with ((l1 ++ r :: l2) ++ l3)%list
        by (now rewrite <- app_assoc).
      apply firstOfEach_duplicate.
      assert (Ei : identity r' = identity r)
        by (unfold identity; now rewrite Hr, Hr').
      rewrite Ei, map_app. cbn [List.map]. set_solver. }
    now rewrite E.
Qed.

(** An evaluation fetched twice, by employee code and by name. *)
Lemma dedupe_idempotent_witness :
  let a := Doc.mk (Some "a1") (Some "E17") (Some "Asha Rao") None
             (Some (Doc.VNum 80)) None None None (Some 1717200000) None None None
             (Some "01/06/2024") in
  let b := Doc.mk (Some "b2") (Some "E21") (Some "Ravi") None
             (Some (Doc.VNum 64)) None None None (Some 1717200300) None None None
             (Some "01/06/2024") in
  @dedupeById RefHost.refHost [a; b; a] = @dedupeById RefHost.refHost [a; b] /\
  @employeesAggregated RefHost.refHost (@dedupeById RefHost.refHost [a; b; a])
  = @employeesAggregated RefHost.refHost (@dedupeById RefHost.refHost [a; b]) /\
  @computeParameterStats (@dedupeById RefHost.refHost [a; b; a])
  = @computeParameterStats (@dedupeById RefHost.refHost [a; b]).
Proof.
  intros a b.
  exact (proj2 (proj2 (@dedupe_idempotent RefHost.refHost))
           [] a [b] a [] "a1" eq_refl eq_refl).
Defined.

End Dedupe.

(** ** Records without a date *)

Module QueryResults.
Import JsString RetrieveReports Spec Dedupe.

Lemma filter_implied {A} (p q : A -> bool) (l : list A) :
  (forall x, p x = true -> q x = true) ->
  List.filter p l = List.filter p (List.filter q l).
Proof.
  intros Hpq. induction l as [|x l IH]; [reflexivity|]. cbn [List.filter].
  destruct (p x) eqn:Ep.
  - rewrite (Hpq x Ep). cbn [List.filter]. now rewrite Ep, IH.
  - destruct (q x); [cbn [List.filter]; now rewrite Ep|exact IH].
Qed.

Section query.
Context `{Host}.

Lemma withinRange_unparsed dateDD fromISO toISO :
  parseDDMMYYYYtoDate dateDD = None -> withinRange dateDD fromISO toISO = false.
Proof. intros E. unfold withinRange. now rewrite E. Qed.

Lemma withinRange_dated (dateOf : Doc.t -> string) r fromISO toISO :
  withinRange (dateOf r) fromISO toISO = true -> dated dateOf r = true.
Proof.
  unfold dated. destruct (parseDDMMYYYYtoDate (dateOf r)) eqn:E; [reflexivity|].
  now rewrite (withinRange_unparsed _ _ _ E).
Qed.

Lemma unsplit_unparsed s :
  length (split "/" s) <> 3%nat -> Date_parse s = None ->
  parseDDMMYYYYtoDate s = None.
Proof.
  intros Hl Hp. unfold parseDDMMYYYYtoDate.
  destruct (isEmpty s); [reflexivity|].
  destruct (split "/" s) as [|a [|b [|c [|]]]]; try (now rewrite Hp).
  now contradiction Hl.
Qed.

Lemma nonnumeric_unparsed s dStr mStr yStr :
  split "/" s = [dStr; mStr; yStr] ->
  Number_ dStr = None \/ Number_ mStr = None \/ Number_ yStr = None ->
  parseDDMMYYYYtoDate s = None.
Proof.
  intros Hs Hn. unfold parseDDMMYYYYtoDate. rewrite Hs.
  destruct (isEmpty s); [reflexivity|].
  unfold JsDate.Date_ymd.
  destruct (Number_ dStr), (Number_ mStr), (Number_ yStr);
    cbn [option_map]; try reflexivity.
  destruct Hn as [E | [E | E]]; discriminate E.
Qed.

(** A day beyond the end of the month is carried over by the [Date]
    constructor: such a string parses. *)
Example rollover_parses :
  parseDDMMYYYYtoDate "31/02/2024" = parseDDMMYYYYtoDate "02/03/2024" /\
  dated (fun _ => "31/02/2024") (Doc.mk None None None None None None None
                                  None None None None None None) = true.
Proof. split; reflexivity. Qed.

Lemma staffResults_eq docs fromISO toISO :
  staffResults docs fromISO toISO
  = dedupeById (List.filter (fun r => withinRange (staffDate r) fromISO toISO) docs).
Proof. reflexivity. Qed.

Lemma unitResults_eq docs fromISO toISO :
  unitResults docs fromISO toISO
  = dedupeById (List.filter (fun r => withinRange (unitDate r) fromISO toISO) docs).
Proof. reflexivity. Qed.

Lemma results_dated (dateOf : Doc.t -> string) docs fromISO toISO r :
  r ∈ dedupeById (List.filter (fun r => withinRange (dateOf r) fromISO toISO) docs) ->
  dated dateOf r = true.
Proof.
  rewrite dedupeById_eq. intros Hr%firstOfEach_subset.
  apply list_elem_of_In, filter_In in Hr as [_ Hr].
  now apply withinRange_dated in Hr.
Qed.

Lemma results_ignore_undated (dateOf : Doc.t -> string) docs fromISO toISO :
  dedupeById (List.filter (fun r => withinRange (dateOf r) fromISO toISO) docs)
  = dedupeById
      (List.filter (fun r => withinRange (dateOf r) fromISO toISO)
         (List.filter (dated dateOf) docs)).
Proof.
  f_equal. apply filter_implied. intros r. apply withinRange_dated.
Qed.
End query.

(** C10.  A record whose date string does not parse is refused by the
    range filter whatever the bounds, also when both are absent; a missing
    date reads as the empty string, which does not parse.  So every record
    of a range-filtered result has a date that parses, and the results,
    the employee aggregates and the per-parameter statistics are those of
    the documents with the undated ones left out. *)
Theorem unparseable_date_excluded `{Host} :
  (forall dateDD fromISO toISO,
     parseDDMMYYYYtoDate dateDD = None ->
     withinRange dateDD fromISO toISO = false) /\
  (forall dateDD,
     parseDDMMYYYYtoDate dateDD = None ->
     withinRange dateDD EmptyString EmptyString = false) /\
  parseDDMMYYYYtoDate EmptyString = None /\
  (forall s, length (split "/" s) <> 3%nat -> Date_parse s = None ->
     parseDDMMYYYYtoDate s = None) /\
  (forall s dStr mStr yStr, split "/" s = [dStr; mStr; yStr] ->
     Number_ dStr = None \/ Number_ mStr = None \/ Number_ yStr = None ->
     parseDDMMYYYYtoDate s = None) /\
  (forall docs fromISO toISO r,
     (r ∈ staffResults docs fromISO toISO -> dated staffDate r = true) /\
     (r ∈ unitResults docs fromISO toISO -> dated unitDate r = true)) /\
  (forall docs fromISO toISO,
     let kept := List.filter (dated staffDate) docs in
     staffResults docs fromISO toISO = staffResults kept fromISO toISO /\
     employeesAggregated (staffResults docs fromISO toISO)
     = employeesAggregated (staffResults kept fromISO toISO) /\
     computeParameterStats (staffResults docs fromISO toISO)
     = computeParameterStats (staffResults kept fromISO toISO)) /\
  (forall docs fromISO toISO,
     unitResults docs fromISO toISO
     = unitResults (List.filter (dated unitDate) docs) fromISO toISO).
Proof.
  split; [exact withinRange_unparsed|].
  split; [intros d; apply withinRange_unparsed|].
  split; [reflexivity|].
  split; [apply unsplit_unparsed|].
  split; [apply nonnumeric_unparsed|].
  split; [|split].
  - intros docs f t r. split.
    + rewrite staffResults_eq. apply results_dated.
    + rewrite unitResults_eq. apply results_dated.
  - intros docs f t kept.
    assert (E : staffResults docs f t = staffResults kept f t).
    { unfold kept. rewrite !staffResults_eq. apply results_ignore_undated. }
    now rewrite E.
  - intros docs f t. rewrite !unitResults_eq. apply results_ignore_undated.
Qed.

(** A record dated "pending" against an open range. *)
Lemma unparseable_date_excluded_witness :
  @withinRange RefHost.refHost "pending" EmptyString EmptyString = false.
Proof.
  exact (proj1 (proj2 (@unparseable_date_excluded RefHost.refHost)) "pending" eq_refl).
Defined.

End QueryResults.

(** ** The per-employee aggregate *)

Module Aggregation.
Import JsString JsStringFacts JsNumber RetrieveReports Spec.

(** *** The stable sort *)

Lemma sortInsert_perm {A} (cmp : A -> A -> Z) x l :
  Permutation (sortInsert cmp x l) (x :: l).
Proof.
  induction l as [|y l IH]; cbn [sortInsert]; [reflexivity|].
  destruct (cmp x y <? 0); [reflexivity|].
  rewrite IH. apply perm_swap.
Qed.

Lemma Array_sort_perm {A} (cmp : A -> A -> Z) l : Permutation (Array_sort cmp l) l.
Proof.
  unfold Array_sort.
  assert (G : forall acc, Permutation (fold_left (fun s x => sortInsert cmp x s) l acc)
                                      (acc ++ l)%list).
  { induction l as [|x l IH]; intros acc; cbn [fold_left].
    - now rewrite app_nil_r.
    - rewrite IH, sortInsert_perm. cbn [app]. apply Permutation_middle. }
  apply G.
Qed.

(** *** The grouping key *)

Lemma trimmed_eq v : trimmed v = trim (default EmptyString v).
Proof. destruct v as [[|c s]|]; reflexivity. Qed.

Lemma naturalKey_eq r : naturalKey r = groupingKey r.
Proof.
  unfold naturalKey, groupingKey. rewrite !trimmed_eq.
  now destruct (isEmpty (trim (default EmptyString (Doc.empCode r)))).
Qed.

(** Codes that differ in letter case only give the same key. *)
Lemma groupingKey_case r r' c c' :
  Doc.empCode r = Some c -> Doc.empCode r' = Some c' ->
  isEmpty (trim c) = false -> toLowerCase c = toLowerCase c' ->
  groupingKey r = groupingKey r'.
Proof.
  intros Hc Hc' Hne Hl. unfold groupingKey. rewrite Hc, Hc'. cbn [from_option id].
  assert (Hne' : isEmpty (trim c') = false).
  { rewrite <- isEmpty_toLowerCase, toLowerCase_trim, <- Hl,
      <- toLowerCase_trim, isEmpty_toLowerCase. exact Hne. }
  rewrite Hne, Hne'. now rewrite !toLowerCase_trim, Hl.
Qed.

(** *** The grouping loop *)

Definition pushAll (rs : list Doc.t) (m : list (string * Group))
  : list (string * Group) :=
  fold_left (fun m r => mapPush m (naturalKey r) r) rs m.

Lemma keyed_cons r rs : keyed (r :: rs) -> isEmpty (naturalKey r) = false /\ keyed rs.
Proof.
  intros Hk. split.
  - rewrite naturalKey_eq. apply Hk. now left.
  - intros x Hx. apply Hk. now right.
Qed.

Lemma groupRecords_keyed `{Host} rs : keyed rs -> groupRecords rs = pushAll rs [].
Proof.
  unfold groupRecords, pushAll. generalize (@nil (string * Group)) O.
  induction rs as [|r rs IH]; intros m n Hk; [reflexivity|].
  apply keyed_cons in Hk as [Hr Hk]. cbn [fold_left]. rewrite Hr. now apply IH.
Qed.

Lemma pushAll_snoc rs r m :
  pushAll (rs ++ [r]) m = mapPush (pushAll rs m) (naturalKey r) r.
Proof. unfold pushAll. now rewrite fold_left_app. Qed.

(** The map holds one entry for each key met, in the order of their first
    records, and under each key its records in their order. *)
Definition wellGrouped (rs : list Doc.t) (m : list (string * Group)) : Prop :=
  NoDup (List.map fst m) /\
  (forall k, k ∈ List.map fst m <-> k ∈ List.map groupingKey rs) /\
  Forall (fun kv => recs (snd kv) = members (fst kv) rs) m.

Lemma mapHas_spec m k : mapHas m k = true <-> k ∈ List.map fst m.
Proof.
  unfold mapHas. rewrite existsb_exists, list_elem_of_In, in_map_iff. split.
  - intros (kv & Hin & E). apply String.eqb_eq in E. eauto.
  - intros (kv & E & Hin). exists kv. split; [exact Hin | now apply String.eqb_eq].
Qed.

Lemma members_snoc k rs r :
  members k (rs ++ [r])
  = (members k rs ++ if String.eqb (groupingKey r) k then [r] else [])%list.
Proof.
  unfold members. rewrite List.filter_app. cbn [List.filter].
  now destruct (_ =? _)%string.
Qed.

Lemma members_nil k rs : k ∉ List.map groupingKey rs -> members k rs = [].
Proof.
  intros Hn. unfold members. induction rs as [|r rs IH]; [reflexivity|].
  cbn [List.filter]. destruct (String.eqb_spec (groupingKey r) k) as [E|_].
  - exfalso. apply Hn. cbn [List.map]. rewrite E. now left.
  - apply IH. intros Hin. apply Hn. now right.
Qed.

Lemma members_nonempty k rs : k ∈ List.map groupingKey rs -> members k rs <> [].
Proof.
  intros Hin E. apply list_elem_of_In, in_map_iff in Hin as (r & Er & Hr).
  assert (Hm : In r (members k rs)).
  { apply filter_In. split; [exact Hr | now apply String.eqb_eq]. }
  rewrite E in Hm. exact Hm.
Qed.

Definition pushed (k : string) (r : Doc.t) (kv : string * Group) : string * Group :=
  if String.eqb (fst kv) k
  then (fst kv, {| g_empCode := g_empCode (snd kv);
                   g_staffName := g_staffName (snd kv);
                   recs := (recs (snd kv) ++ [r])%list |})
  else kv.

Lemma pushed_fst k r m : List.map fst (List.map (pushed k r) m) = List.map fst m.
Proof.
  rewrite List.map_map. apply List.map_ext. intros kv. unfold pushed.
  now destruct (_ =? _)%string.
Qed.

Lemma pushed_members k r rs kv :
  groupingKey r = k ->
  recs (snd kv) = members (fst kv) rs ->
  recs (snd (pushed k r kv)) = members (fst (pushed k r kv)) (rs ++ [r]).
Proof.
  intros Ek Hkv. unfold pushed. rewrite members_snoc, Ek.
  destruct (String.eqb_spec (fst kv) k) as [E|N]; cbn [fst snd recs].
  - now rewrite Hkv, E, String.eqb_refl.
  - rewrite Hkv. destruct (String.eqb_spec k (fst kv)) as [E'|_]; [now symmetry in E'|].
    now rewrite app_nil_r.
Qed.

Lemma mapPush_wellGrouped rs m r :
  wellGrouped rs m -> wellGrouped (rs ++ [r]) (mapPush m (naturalKey r) r).
Proof.
  intros (Hnd & Hkeys & Hrecs). rewrite naturalKey_eq.
  set (k := groupingKey r). unfold mapPush. fold (pushed k r).
  destruct (mapHas m k) eqn:Eh.
  - apply mapHas_spec in Eh. split; [|split].
    + now rewrite pushed_fst.
    + intros k'. rewrite pushed_fst, map_app, elem_of_app, Hkeys.
      cbn [List.map]. rewrite list_elem_of_singleton. fold k.
      split; [auto|]. intros [Hk' | ->]; [exact Hk' | now apply Hkeys].
    + rewrite Forall_map. eapply Forall_impl; [exact Hrecs|].
      intros kv Hkv. now apply pushed_members.
  - assert (Hn : k ∉ List.map fst m).
    { intros Hin. apply mapHas_spec in Hin. congruence. }
    split; [|split].
    + rewrite pushed_fst, map_app. cbn [List.map fst].
      apply NoDup_app. split; [exact Hnd|]. split.
      * intros x Hx ->%list_elem_of_singleton. contradiction.
      * apply NoDup_singleton.
    + intros k'. rewrite pushed_fst, !map_app, !elem_of_app, Hkeys. reflexivity.
    + rewrite Forall_map, Forall_app. split.
      * eapply Forall_impl; [exact Hrecs|]. intros kv Hkv. now apply pushed_members.
      * constructor; [|constructor].
        unfold pushed. cbn [fst snd]. rewrite String.eqb_refl. cbn [fst snd recs].
        rewrite members_snoc. fold k. rewrite String.eqb_refl.
        rewrite members_nil; [reflexivity|]. now rewrite <- Hkeys.
Qed.

Lemma pushAll_wellGrouped rs : wellGrouped rs (pushAll rs []).
Proof.
  induction rs as [|r rs IH] using rev_ind.
  - split; [constructor|]. split; [reflexivity | constructor].
  - rewrite pushAll_snoc. now apply mapPush_wellGrouped.
Qed.

(** *** The rows *)

Lemma fold_left_Qplus qs a : (fold_left Qplus qs a == a + foldr Qplus 0 qs)%Q.
Proof.
  revert a. induction qs as [|q qs IH]; intros a; cbn [fold_left foldr].
  - ring.
  - rewrite IH. ring.
Qed.

Lemma sumQ_mean qs :
  (sumQ qs / inject_Z (Z.of_nat (length qs)) == meanQ qs)%Q.
Proof.
  unfold sumQ, meanQ. rewrite fold_left_Qplus. now rewrite Qplus_0_l.
Qed.

Lemma avgScoreToLabel_spec a : labelOfMean a (avgScoreToLabel (Some a)).
Proof.
  unfold labelOfMean, avgScoreToLabel.
  destruct (Qle_bool 90 a) eqn:E90; [apply Qle_bool_iff in E90|];
  (destruct (Qle_bool 75 a) eqn:E75; [apply Qle_bool_iff in E75|]);
  (destruct (Qle_bool 60 a) eqn:E60; [apply Qle_bool_iff in E60|]);
  try (assert (N90 : ~ (90 <= a)%Q) by (rewrite <- Qle_bool_iff; congruence));
  try (assert (N75 : ~ (75 <= a)%Q) by (rewrite <- Qle_bool_iff; congruence));
  try (assert (N60 : ~ (60 <= a)%Q) by (rewrite <- Qle_bool_iff; congruence));
  repeat split; intros; try reflexivity; exfalso; lra.
Qed.

Section rows.
Context `{Host}.

(** The score the code reads off a record is the score of the record. *)
Lemma numericScore_stated d : numericScore d = statedScore d.
Proof.
  unfold numericScore, statedScore, Number_value, Number_, numberWritten.
  destruct (Doc.scoreOutOf100 d) as [[q| |s]|];
    [| |destruct (trim s); reflexivity|]; try reflexivity.
  destruct (Doc.totalMarks d) as [[q| |s]|];
    [| |destruct (trim s); reflexivity|]; try reflexivity.
  destruct (Doc.total d) as [[q| |s]|];
    [| |destruct (trim s); reflexivity|]; reflexivity.
Qed.

Lemma stated_scores (ms : list Doc.t) :
  omap statedScore ms = omap numericScore ms.
Proof.
  induction ms as [|d ms IH]; [reflexivity|].
  cbn [omap list_omap]. now rewrite numericScore_stated, IH.
Qed.

Lemma rowOf_spec g :
  recs g <> [] -> exists row, rowOf g = Some row /\ aggregateOf (recs g) row.
Proof.
  intros Hne. unfold rowOf.
  destruct (Array_sort _ (recs g)) as [|latest rest] eqn:Es.
  - exfalso. apply Hne.
    pose proof (Array_sort_perm (fun a b => secondsOf b - secondsOf a) (recs g)) as P.
    rewrite Es in P. now apply Permutation_nil in P.
  - eexists. split; [reflexivity|]. unfold aggregateOf. cbn [Row.count Row.avg Row.label].
    split; [reflexivity|]. rewrite stated_scores.
    destruct (omap numericScore (recs g)) as [|q qs] eqn:Eq.
    + split; reflexivity.
    + eexists. split; [reflexivity|]. split; [apply sumQ_mean|].
      apply avgScoreToLabel_spec.
Qed.

Lemma omap_all_some {A B} (f : A -> option B) (l : list A) :
  Forall (fun x => is_Some (f x)) l -> length (omap f l) = length l.
Proof.
  induction 1 as [|x l [y Hy] Hl IH]; [reflexivity|].
  cbn [omap list_omap]. rewrite Hy. cbn [length]. now rewrite <- IH.
Qed.

Lemma wellGrouped_member rs m k g :
  wellGrouped rs m -> (k, g) ∈ m ->
  k ∈ List.map groupingKey rs /\ recs g = members k rs /\ recs g <> [].
Proof.
  intros (Hnd & Hkeys & Hrecs) Hin.
  assert (Hk : k ∈ List.map groupingKey rs).
  { apply Hkeys. apply list_elem_of_In, in_map_iff. exists (k, g).
    split; [reflexivity | now apply list_elem_of_In]. }
  rewrite Forall_forall in Hrecs. specialize (Hrecs _ Hin). cbn [fst snd] in Hrecs.
  split; [exact Hk|]. split; [exact Hrecs|].
  rewrite Hrecs. now apply members_nonempty.
Qed.

Lemma aggregated_eq rs :
  rs <> [] -> keyed rs ->
  Permutation (employeesAggregated rs)
              (omap (fun kv => rowOf (snd kv)) (pushAll rs [])).
Proof.
  intros Hne Hk. unfold employeesAggregated.
  destruct rs as [|r rs']; [contradiction|].
  rewrite (groupRecords_keyed _ Hk). apply Array_sort_perm.
Qed.

Lemma aggregated_rows rs :
  keyed rs ->
  let rows := employeesAggregated rs in
  (forall row, row ∈ rows ->
     exists k, k ∈ List.map groupingKey rs /\ aggregateOf (members k rs) row) /\
  (forall k, k ∈ List.map groupingKey rs ->
     exists row, row ∈ rows /\ aggregateOf (members k rs) row) /\
  length rows = size (list_to_set (List.map groupingKey rs) : gset string).
Proof.
  intros Hk rows.
  assert (rs = [] \/ rs <> []) as [-> | Hne]
    by (destruct rs; [now left | right; discriminate]).
  { split; [|split]; [intros row Hr; inversion Hr | intros k Hin; inversion Hin | reflexivity]. }
  pose proof (aggregated_eq rs Hne Hk) as P. fold rows in P.
  pose proof (pushAll_wellGrouped rs) as W.
  set (m := pushAll rs []) in *.
  split; [|split].
  - intros row Hr. rewrite P in Hr.
    apply list_elem_of_omap in Hr as ([k g] & Hin & Hrow). cbn [snd] in Hrow.
    destruct (wellGrouped_member rs m k g W Hin) as (Hkin & Hrecs & Hn).
    destruct (rowOf_spec g Hn) as (row' & E & Hagg).
    rewrite E in Hrow. injection Hrow as <-.
    exists k. split; [exact Hkin|]. now rewrite <- Hrecs.
  - intros k Hkin.
    assert (Hm : k ∈ List.map fst m) by (now apply (proj1 (proj2 W))).
    apply list_elem_of_In, in_map_iff in Hm as ([k' g] & Ek & Hin).
    cbn [fst] in Ek. subst k'. apply list_elem_of_In in Hin.
    destruct (wellGrouped_member rs m k g W Hin) as (_ & Hrecs & Hn).
    destruct (rowOf_spec g Hn) as (row & E & Hagg).
    exists row. split.
    + rewrite P. apply list_elem_of_omap. exists (k, g). split; [exact Hin | exact E].
    + now rewrite <- Hrecs.
  - rewrite (Permutation_length P).
    rewrite omap_all_some.
    + destruct W as (Hnd & Hkeys & _).
      rewrite <- (length_map fst m), <- (size_list_to_set (C := gset string)) by exact Hnd.
      f_equal. apply set_eq. intros k. rewrite !elem_of_list_to_set. apply Hkeys.
    + apply Forall_forall. intros [k g] Hin.
      destruct (wellGrouped_member rs m k g W Hin) as (_ & _ & Hn).
      destruct (rowOf_spec g Hn) as (row & E & _). cbn [snd]. rewrite E. eauto.
Qed.
End rows.

Lemma same_code_one_row {host : Host} r1 r2 c1 c2 :
  Doc.empCode r1 = Some c1 -> Doc.empCode r2 = Some c2 ->
  isEmpty (trim c1) = false -> toLowerCase c1 = toLowerCase c2 ->
  exists row,
    employeesAggregated [r1; r2] = [row] /\ Row.count row = 2%nat /\
    forall q1 q2, statedScore r1 = Some q1 -> statedScore r2 = Some q2 ->
      exists a, Row.avg row = Some a /\ (a == (q1 + q2) / 2)%Q.
Proof.
  intros H1 H2 Hne Hl.
  pose proof (groupingKey_case r1 r2 c1 c2 H1 H2 Hne Hl) as Ek.
  assert (Hk1 : isEmpty (groupingKey r1) = false).
  { unfold groupingKey. rewrite H1. cbn [from_option id]. rewrite Hne.
    now rewrite isEmpty_toLowerCase. }
  assert (Hk : keyed [r1; r2]).
  { intros r [-> | [-> | []%elem_of_nil]%elem_of_cons]%elem_of_cons;
      [exact Hk1 | now rewrite <- Ek]. }
  destruct (aggregated_rows [r1; r2] Hk) as (A & _ & L).
  cbn [List.map] in L. rewrite <- Ek in L.
  replace (list_to_set [groupingKey r1; groupingKey r1] : gset string)
    with ({[ groupingKey r1 ]} : gset string) in L by set_solver.
  rewrite size_singleton in L.
  destruct (employeesAggregated [r1; r2]) as [|row [|]] eqn:E; try discriminate L.
  exists row. split; [reflexivity|].
  destruct (A row ltac:(now left)) as (k & Hkin & Hcount & Havg).
  assert (k = groupingKey r1) as ->.
  { cbn [List.map] in Hkin. rewrite <- Ek in Hkin.
    apply elem_of_cons in Hkin as [-> | Hkin]; [reflexivity|].
    now apply list_elem_of_singleton in Hkin. }
  assert (Em : members (groupingKey r1) [r1; r2] = [r1; r2]).
  { unfold members. cbn [List.filter]. now rewrite <- Ek, String.eqb_refl. }
  rewrite Em in Hcount, Havg. split; [exact Hcount|].
  intros q1 q2 Hq1 Hq2. cbn [omap list_omap] in Havg. rewrite Hq1, Hq2 in Havg.
  destruct Havg as (a & Ea & Emean & _). exists a. split; [exact Ea|].
  rewrite Emean. unfold meanQ. cbn [foldr length]. field.
Qed.

(** C6, as the code has it.  When every record has a code or a name, the
    per-employee table has one row for each grouping key (the employee
    code, or the staff name when the code is absent or blank, trimmed and
    in lower case), and the row of a key carries the number of its records,
    the arithmetic mean of the scores of those that have one, and the label
    of that mean (Excellent from 90, Good from 75, Average from 60, Poor
    below; no mean and the label "-" when no record has a score).  The
    score of a record is the first it has of [scoreOutOf100], [totalMarks]
    and [total], read as a number: a number counts as it is, a text as the
    number it writes down, a blank text as 0; NaN and a text that writes
    no number do not count.  Codes that differ in letter case only share a
    key; two records with the same code, whatever the case of their staff
    names, make a single row with count 2 and the mean of their two
    scores. *)
Theorem employeesAggregated_spec `{Host} :
  (forall rs, keyed rs ->
     let rows := employeesAggregated rs in
     (forall row, row ∈ rows ->
        exists k, k ∈ List.map groupingKey rs /\ aggregateOf (members k rs) row) /\
     (forall k, k ∈ List.map groupingKey rs ->
        exists row, row ∈ rows /\ aggregateOf (members k rs) row) /\
     length rows = size (list_to_set (List.map groupingKey rs) : gset string)) /\
  (forall r, naturalKey r = groupingKey r) /\
  (forall r r' c c',
     Doc.empCode r = Some c -> Doc.empCode r' = Some c' ->
     isEmpty (trim c) = false -> toLowerCase c = toLowerCase c' ->
     groupingKey r = groupingKey r') /\
  (forall r1 r2 c q1 q2,
     Doc.empCode r1 = Some c -> Doc.empCode r2 = Some c ->
     isEmpty (trim c) = false ->
     statedScore r1 = Some q1 -> statedScore r2 = Some q2 ->
     exists row a,
       employeesAggregated [r1; r2] = [row] /\ Row.count row = 2%nat /\
       Row.avg row = Some a /\ (a == (q1 + q2) / 2)%Q).
Proof.
  split; [exact aggregated_rows|].
  split; [exact naturalKey_eq|].
  split; [exact groupingKey_case|].
  intros r1 r2 c q1 q2 H1 H2 Hne Hq1 Hq2.
  destruct (same_code_one_row r1 r2 c c H1 H2 Hne eq_refl) as (row & E & Hc & Ha).
  destruct (Ha q1 q2 Hq1 Hq2) as (a & Ea & Em).
  now exists row, a.
Qed.

(** Two evaluations of E17, scored 80 and 90, under staff names that differ
    in case: one row, of count 2 and mean 85. *)
Lemma employeesAggregated_spec_witness :
  exists row a,
    @employeesAggregated RefHost.refHost
      [Sample.evaluation "a1" "Asha Rao" 80; Sample.evaluation "a2" "ASHA RAO" 90] = [row] /\
    Row.count row = 2%nat /\
    Row.avg row = Some a /\ (a == 85)%Q.
Proof.
  destruct (proj2 (proj2 (proj2 (@employeesAggregated_spec RefHost.refHost)))
              (Sample.evaluation "a1" "Asha Rao" 80) (Sample.evaluation "a2" "ASHA RAO" 90)
              "E17" (inject_Z 80) (inject_Z 90) eq_refl eq_refl eq_refl eq_refl eq_refl)
    as (row & a & E & Hc & Ea & Em).
  exists row, a. split; [exact E|]. split; [exact Hc|]. split; [exact Ea|].
  rewrite Em. reflexivity.
Defined.

(** C6 as stated fails where a score is a blank text.  Two evaluations of
    E17: one scored 80, one of another make whose score is the empty text
    under [totalMarks] (no [scoreOutOf100], no [total]).  The second has no
    numeric score, so that the mean of the numeric scores is 80, of one
    record; but [Number("")] is 0 and not NaN, the code counts it, and the
    row shows the mean 40 and the label "Poor". *)
Lemma blank_score_counts_as_zero :
  let scored := Sample.evaluation "a1" "Asha Rao" 80 in
  let blank :=
    {| Doc.id := Some "a2"; Doc.empCode := Some "E17";
       Doc.staffName := Some "Asha Rao"; Doc.ratings := None;
       Doc.scoreOutOf100 := None; Doc.totalMarks := Some (Doc.VStr EmptyString);
       Doc.total := None; Doc.timestamp := None; Doc.createdAt := Some 1717200000;
       Doc.selection := None; Doc.branch := None; Doc.city := None;
       Doc.date := None |} in
  List.map (fun row => (Row.count row, Qred <$> Row.avg row, Row.label row))
    (@employeesAggregated RefHost.refHost [scored; blank])
  = [(2%nat, Some (40 # 1)%Q, "Poor")] /\
  List.map (fun row => (Row.count row, Qred <$> Row.avg row, Row.label row))
    (@employeesAggregated RefHost.refHost [scored])
  = [(1%nat, Some (80 # 1)%Q, "Good")].
Proof. vm_compute. split; reflexivity. Qed.

(** The same two evaluations, run: one row, count 2, mean 85, "Good". *)
Example employeesAggregated_run :
  List.map (fun row => (Row.empCode row, Row.staffName row, Row.count row,
                        Qred <$> Row.avg row, Row.label row, Row.branch row))
    (@employeesAggregated RefHost.refHost
       [Sample.evaluation "a1" "Asha Rao" 80; Sample.evaluation "a2" "ASHA RAO" 90])
  = [("E17", "Asha Rao", 2%nat, Some (85 # 1)%Q, "Good", "Koramangala")].
Proof. vm_compute. reflexivity. Qed.

End Aggregation.


(* ===================================================================== *)
(** * Part III: further properties of the code                            *)
(* ===================================================================== *)

(** ** Facts about lists *)

Module ListFacts.

Lemma filter_nil_iff {A} (p : A -> bool) (l : list A) :
  List.filter p l = [] <-> forall x, x ∈ l -> p x = false.
Proof.
  induction l as [|y l IH]; cbn [List.filter].
  - split; [intros _ x Hx; inversion Hx | reflexivity].
  - destruct (p y) eqn:E.
    + split; [discriminate|]. intros H. rewrite (H y) in E by now left. discriminate.
    + rewrite IH. split.
      * intros H x [-> | Hx]%elem_of_cons; [exact E | now apply H].
      * intros H x Hx. apply H. now right.
Qed.

Lemma app_nil_iff {A} (l1 l2 : list A) : (l1 ++ l2)%list = [] <-> l1 = [] /\ l2 = [].
Proof. split; [apply app_eq_nil | intros [-> ->]; reflexivity]. Qed.

Lemma existsb_eqb_iff (k : string) (l : list string) :
  existsb (String.eqb k) l = true <-> k ∈ l.
Proof.
  rewrite existsb_exists, list_elem_of_In. split.
  - intros (y & Hy & E). apply String.eqb_eq in E. now subst y.
  - intros Hk. exists k. split; [exact Hk | apply String.eqb_refl].
Qed.

Lemma fold_left_ext_elem {A B} (f g : A -> B -> A) (l : list B) (a : A) :
  (forall x acc, x ∈ l -> f acc x = g acc x) ->
  fold_left f l a = fold_left g l a.
Proof.
  revert a. induction l as [|x l IH]; intros a Hfg; [reflexivity|].
  cbn [fold_left]. rewrite (Hfg x a) by now left.
  apply IH. intros y acc Hy. apply Hfg. now right.
Qed.

Lemma filter_ext_elem {A} (p q : A -> bool) (l : list A) :
  (forall x, x ∈ l -> p x = q x) -> List.filter p l = List.filter q l.
Proof.
  intros H. apply List.filter_ext_in. intros x Hx. apply H. now apply list_elem_of_In.
Qed.

Lemma filter_sublist {A} (p : A -> bool) (l : list A) : sublist (List.filter p l) l.
Proof.
  induction l as [|x l IH]; cbn [List.filter]; [constructor|].
  destruct (p x); [now apply sublist_skip | now apply sublist_cons].
Qed.

Definition indicator (b : bool) : Z := if b then 1 else 0.

Lemma filter_count {A} (q : A -> bool) (x : A) (l : list A) :
  Z.of_nat (length (List.filter q (x :: l)))
  = indicator (q x) + Z.of_nat (length (List.filter q l)).
Proof. cbn [List.filter]. destruct (q x); cbn [length indicator]; lia. Qed.

End ListFacts.

(** ** The range of the unit audit score *)

Module ScoreRange.
Import JsString JsStringFacts AuditForm Spec.

Lemma getObservationScore_values preset manual :
  getObservationScore preset manual = 11 \/
  getObservationScore preset manual = 0 \/
  getObservationScore preset manual = -11.
Proof.
  unfold getObservationScore, OBS_MAINT_PTS.
  repeat match goal with |- context [if ?b then _ else _] => destruct b end; auto.
Qed.

Lemma getMaintenanceScore_values preset manual :
  getMaintenanceScore preset manual = 11 \/
  getMaintenanceScore preset manual = 0 \/
  getMaintenanceScore preset manual = -11.
Proof.
  unfold getMaintenanceScore, OBS_MAINT_PTS.
  repeat match goal with |- context [if ?b then _ else _] => destruct b end; auto.
Qed.

(** X1.  Whatever the form holds, the checklist part of the score is a
    multiple of 6 between 0 and the maximum of 78, each remark contributes
    11, 0 or -11, and the raw score lies between -22 and 100: the upper
    bound of the clamp is never reached from above, the final score is the
    raw score with a negative one raised to 0, and it is 100 only when all
    thirteen items count and both remarks earn their 11 points. *)
Theorem computeScores_range
    (kitchenObj hygieneObj foodObj : gmap string string)
    (observationsPreset observationsManual : string)
    (maintenancePreset maintenanceManual : string) :
  let sc := computeScores kitchenObj hygieneObj foodObj
              observationsPreset observationsManual
              maintenancePreset maintenanceManual in
  maxChecklist sc = 78 /\
  (exists n, 0 <= n <= 13 /\ checklistRaw sc = 6 * n) /\
  (obsScore sc = 11 \/ obsScore sc = 0 \/ obsScore sc = -11) /\
  (maintScore sc = 11 \/ maintScore sc = 0 \/ maintScore sc = -11) /\
  -22 <= rawScore sc <= 100 /\
  scoreOutOf100 sc = Z.max 0 (rawScore sc) /\
  0 <= scoreOutOf100 sc <= 100 /\
  (scoreOutOf100 sc = 100 ->
     checklistRaw sc = maxChecklist sc /\ obsScore sc = 11 /\ maintScore sc = 11).
Proof.
  intros sc.
  set (yes := fun label =>
         String.eqb (toLowerCase (String_ (answerOf kitchenObj hygieneObj foodObj label)))
                    "yes").
  assert (Hc : checklistRaw sc = 6 * Z.of_nat (length (List.filter yes allParams))).
  { unfold sc, computeScores, checklistRaw.
    rewrite (UnitScore.fold_count yes yes) by reflexivity. lia. }
  pose proof (UnitScore.filter_length_le yes allParams) as Hl.
  change (length allParams) with 13%nat in Hl.
  pose proof (getObservationScore_values observationsPreset observationsManual) as Ho.
  pose proof (getMaintenanceScore_values maintenancePreset maintenanceManual) as Hm.
  assert (Hr : rawScore sc = checklistRaw sc + obsScore sc + maintScore sc) by reflexivity.
  assert (Hf : scoreOutOf100 sc = Z.max 0 (Z.min 100 (rawScore sc))) by reflexivity.
  change (obsScore sc) with (getObservationScore observationsPreset observationsManual) in *.
  change (maintScore sc) with (getMaintenanceScore maintenancePreset maintenanceManual) in *.
  change (maxChecklist sc) with 78.
  split; [reflexivity|].
  split; [exists (Z.of_nat (length (List.filter yes allParams))); lia|].
  split; [exact Ho|]. split; [exact Hm|].
  repeat split; lia.
Qed.

End ScoreRange.

(** ** Submissions, whatever the store does *)

Module Submission.
Import ListFacts JsString JsStringFacts Store Spec Uniqueness.


(** *** Validation *)

Lemma checkMissing_nil paramsArray section title :
  AuditForm.checkMissing paramsArray section title = []
  <-> forall label, label ∈ paramsArray -> AuditForm.falsy (section !! label) = false.
Proof.
  unfold AuditForm.checkMissing. rewrite <- filter_nil_iff.
  destruct (List.filter _ paramsArray) as [|x xs]; cbn [length Nat.ltb Nat.leb].
  - split; reflexivity.
  - split; discriminate.
Qed.

(** No remark is given: nothing is chosen, or "Other (manual)" is, and the
    manual text is blank. *)
Definition remarkMissing (preset manual : string) : bool :=
  (isEmpty preset || String.eqb preset "-- Select --"
   || includes "other" (toLowerCase preset))
  && isEmpty (trim manual).

Lemma blank_manual manual : isEmpty manual || isEmpty (trim manual) = isEmpty (trim manual).
Proof. destruct manual; reflexivity. Qed.

Lemma remarkCheck_nil label preset manual :
  AuditForm.remarkCheck label preset manual = [] <-> remarkMissing preset manual = false.
Proof.
  unfold AuditForm.remarkCheck, remarkMissing. rewrite blank_manual.
  destruct (isEmpty preset || String.eqb preset "-- Select --");
    destruct (includes "other" (toLowerCase preset));
    destruct (isEmpty (trim manual)); cbn; split; (reflexivity || discriminate).
Qed.

Lemma header_nil (v : option string) (msg : string) :
  (if AuditForm.falsy v then [msg] else []) = [] <-> AuditForm.falsy v = false.
Proof. destruct (AuditForm.falsy v); split; (reflexivity || discriminate). Qed.

(** The unit audit form is valid exactly when the header is there, every
    item of the three sections is answered and the three remarks are
    given. *)
Lemma audit_validate_nil formData sel :
  AuditForm.validate formData sel = [] <->
  AuditForm.falsy (AuditForm.auditor sel) = false /\
  AuditForm.falsy (AuditForm.date sel) = false /\
  AuditForm.falsy (AuditForm.branch sel) = false /\
  AuditForm.falsy (AuditForm.city sel) = false /\
  (forall l, l ∈ AuditForm.kitchenParams ->
     AuditForm.falsy (AuditForm.kitchen formData !! l) = false) /\
  (forall l, l ∈ AuditForm.hygieneParams ->
     AuditForm.falsy (AuditForm.hygiene formData !! l) = false) /\
  (forall l, l ∈ AuditForm.foodSafetyParams ->
     AuditForm.falsy (AuditForm.foodSafety formData !! l) = false) /\
  remarkMissing (AuditForm.observationsPreset formData)
                (AuditForm.observationsManual formData) = false /\
  remarkMissing (AuditForm.maintenancePreset formData)
                (AuditForm.maintenanceManual formData) = false /\
  remarkMissing (AuditForm.actionPreset formData)
                (AuditForm.actionManual formData) = false.
Proof.
  unfold AuditForm.validate.
  rewrite !app_nil_iff, !header_nil, !checkMissing_nil, !remarkCheck_nil.
  reflexivity.
Qed.

Lemma staff_validate_nil form ratings :
  StaffEvaluation.validate form ratings = [] <->
  isEmpty (trim (StaffEvaluation.staffName form)) = false /\
  isEmpty (trim (StaffEvaluation.empCode form)) = false /\
  (forall p, p ∈ StaffEvaluation.params -> AuditForm.falsy (ratings !! p) = false).
Proof.
  unfold StaffEvaluation.validate. cbv zeta.
  rewrite !app_nil_iff, <- filter_nil_iff.
  destruct (isEmpty (trim (StaffEvaluation.staffName form)));
    destruct (isEmpty (trim (StaffEvaluation.empCode form)));
    destruct (List.filter _ StaffEvaluation.params);
    split; intros (? & ? & ?); repeat split; (reflexivity || discriminate).
Qed.


(** A call to the store answers or fails, and either way consumes one entry
    of the script. *)
Lemma storeCall_cases w :
  storeCall w = (Returned tt, afterCall w)
  \/ exists e, storeCall w = (Thrown e, afterCall w).
Proof.
  unfold storeCall, afterCall. destruct w as [ua se [|[e|] rest] al co cl]; cbn.
  - now left.
  - right. now exists e.
  - now left.
Qed.

Definition sameAudit (payload r : UnitAudit.t) : bool :=
  String.eqb (UnitAudit.branch r) (UnitAudit.branch payload)
  && String.eqb (UnitAudit.date r) (UnitAudit.date payload).

Section unit_form.
Context `{Host}.

(** The four ways a complete unit audit form can end. *)
Lemma unit_submit_cases formData selection w :
  AuditForm.validate formData (AuditForm.defaultSelection selection) = [] ->
  let payload := AuditForm.payloadOf formData (AuditForm.defaultSelection selection) (clock w) in
  exists msg w',
    AuditForm.handleSubmit formData selection w = (Returned tt, w') /\
    staffEvaluations w' = staffEvaluations w /\
    alerts w' = (alerts w ++ [msg])%list /\
    clock w' = clock w /\
    (unitAudits w' = unitAudits w
     \/ (List.filter (sameAudit payload) (unitAudits w) = []
         /\ unitAudits w' = (unitAudits w ++ [payload])%list)).
Proof.
  intros Hv payload. unfold AuditForm.handleSubmit. rewrite Hv.
  rewrite run_bind. unfold get at 1. fold payload. unfold tryCatch.
  rewrite run_bind. unfold getDocs_unitAudits. rewrite run_bind.
  destruct (storeCall_cases w) as [E | [e E]]; rewrite E.
  - rewrite run_bind. unfold get at 1. cbn [mret M_ret].
    change (afterCall w) with (afterCall w).
    destruct (List.filter _ (unitAudits (afterCall w))) as [|r rs] eqn:Ef.
    + unfold addDoc_unitAudits. rewrite !run_bind.
      destruct (storeCall_cases (afterCall w)) as [E2 | [e2 E2]]; rewrite E2.
      * do 2 eexists. split; [reflexivity|]. cbn.
        split; [reflexivity|]. split; [reflexivity|]. split; [reflexivity|].
        right. split; [exact Ef | reflexivity].
      * do 2 eexists. split; [reflexivity|]. cbn.
        split; [reflexivity|]. split; [reflexivity|]. split; [reflexivity|]. now left.
    + do 2 eexists. split; [reflexivity|]. cbn.
      split; [reflexivity|]. split; [reflexivity|]. split; [reflexivity|]. now left.
  - do 2 eexists. split; [reflexivity|]. cbn.
    split; [reflexivity|]. split; [reflexivity|]. split; [reflexivity|]. now left.
Qed.
End unit_form.

Section staff_form.
Context `{Host}.

Lemma staff_write_cases payload w :
  exists msg w',
    Store.tryCatch
      (_ ← Store.addDoc_staffEvaluations payload;
       Store.alert "✅ Staff Evaluation submitted!")
      (fun err =>
         _ ← Store.console_error ("save error " ++ err);
         Store.alert ("❌ Error saving: " ++ err)) w
    = (Returned tt, w') /\
    unitAudits w' = unitAudits w /\
    alerts w' = (alerts w ++ [msg])%list /\
    (staffEvaluations w' = staffEvaluations w
     \/ staffEvaluations w' = (staffEvaluations w ++ [payload (clock w)])%list).
Proof.
  unfold tryCatch, addDoc_staffEvaluations. rewrite !run_bind.
  destruct (storeCall_cases w) as [E | [e E]]; rewrite E.
  - do 2 eexists. split; [reflexivity|]. cbn. repeat split. now right.
  - do 2 eexists. split; [reflexivity|]. cbn. repeat split. now left.
Qed.

Lemma checkDuplicate_cases code d w :
  exists b w1,
    StaffEvaluation.checkDuplicateForDate code d w = (Returned b, w1) /\
    unitAudits w1 = unitAudits w /\ staffEvaluations w1 = staffEvaluations w /\
    alerts w1 = alerts w /\ clock w1 = clock w.
Proof.
  unfold StaffEvaluation.checkDuplicateForDate, tryCatch, getDocs_staffEvaluations.
  rewrite !run_bind.
  destruct (storeCall_cases w) as [E | [e E]]; rewrite E.
  - do 2 eexists. split; [reflexivity|]. cbn. repeat split.
  - do 2 eexists. split; [reflexivity|]. cbn. repeat split.
Qed.

Lemma staff_submit_cases form ratings selection w :
  StaffEvaluation.validate form ratings = [] ->
  exists msg w',
    StaffEvaluation.handleSubmit form ratings selection w = (Returned tt, w') /\
    unitAudits w' = unitAudits w /\
    alerts w' = (alerts w ++ [msg])%list /\
    (staffEvaluations w' = staffEvaluations w
     \/ staffEvaluations w'
        = (staffEvaluations w
           ++ [StaffEvaluation.payloadOf form ratings selection (clock w)])%list).
Proof.
  intros Hv. unfold StaffEvaluation.handleSubmit. rewrite Hv.
  destruct (isEmpty _).
  - do 2 eexists. split; [reflexivity|]. cbn. repeat split. now left.
  - rewrite run_bind.
    destruct (checkDuplicate_cases
                (trim (StaffEvaluation.empCode form))
                (StaffEvaluation.ensureDDMMYYYY (StaffEvaluation.date selection)) w)
      as (b & w1 & E & Hu & Hs & Ha & Hc).
    rewrite E. destruct b.
    + do 2 eexists. split; [reflexivity|]. cbn. rewrite Hu, Hs, Ha. repeat split. now left.
    + destruct (staff_write_cases (StaffEvaluation.payloadOf form ratings selection) w1)
        as (msg & w' & E' & Hu' & Ha' & Hs').
      exists msg, w'. split; [exact E'|].
      rewrite Hu', Ha', Hu, Ha. split; [reflexivity|]. split; [reflexivity|].
      rewrite Hs, Hc in Hs'. exact Hs'.
Qed.
End staff_form.

(** *** What the theorems speak of *)

(** The key under which a unit audit must be unique. *)
Definition auditKey (r : UnitAudit.t) : string * string :=
  (UnitAudit.branch r, UnitAudit.date r).

(** At most one audit per branch and day. *)
Definition oneAuditPerDay (l : list UnitAudit.t) : Prop :=
  NoDup (List.map auditKey l).

Lemma unit_submit_invalid `{Host} formData selection w :
  AuditForm.validate formData (AuditForm.defaultSelection selection) <> [] ->
  AuditForm.handleSubmit formData selection w = (Returned tt, w).
Proof.
  intros Hv. unfold AuditForm.handleSubmit.
  destruct (AuditForm.validate _ _); [contradiction | reflexivity].
Qed.

Lemma staff_submit_invalid `{Host} form ratings selection w :
  StaffEvaluation.validate form ratings <> [] ->
  StaffEvaluation.handleSubmit form ratings selection w = (Returned tt, w).
Proof.
  intros Hv. unfold StaffEvaluation.handleSubmit.
  destruct (StaffEvaluation.validate _ _); [contradiction | reflexivity].
Qed.

Lemma fresh_key payload l :
  List.filter (sameAudit payload) l = [] -> auditKey payload ∉ List.map auditKey l.
Proof.
  rewrite filter_nil_iff. intros Hf Hin.
  apply list_elem_of_In, in_map_iff in Hin as (r & Er & Hr).
  apply list_elem_of_In in Hr. specialize (Hf r Hr).
  unfold auditKey in Er. injection Er as Eb Ed.
  unfold sameAudit in Hf. now rewrite Eb, Ed, !String.eqb_refl in Hf.
Qed.

(** X2.  A form that is not complete is not submitted: when the date, the
    branch, the city or the auditor of the selection is missing, when an
    item of one of the three checklist sections is unanswered, or when one
    of the three remarks is not given, submitting the unit audit form
    leaves the session as it was: no call goes to the store, nothing is
    written and no alert is shown.  The same holds for the staff form when
    the staff name or the employee code is blank or a parameter is not
    rated. *)
Theorem incomplete_form_not_submitted `{Host} :
  (forall formData selection w,
     let sel := AuditForm.defaultSelection selection in
     (AuditForm.falsy (AuditForm.date sel) = true
      \/ AuditForm.falsy (AuditForm.branch sel) = true
      \/ AuditForm.falsy (AuditForm.city sel) = true
      \/ AuditForm.falsy (AuditForm.auditor sel) = true
      \/ (exists l, l ∈ AuditForm.kitchenParams /\
            AuditForm.falsy (AuditForm.kitchen formData !! l) = true)
      \/ (exists l, l ∈ AuditForm.hygieneParams /\
            AuditForm.falsy (AuditForm.hygiene formData !! l) = true)
      \/ (exists l, l ∈ AuditForm.foodSafetyParams /\
            AuditForm.falsy (AuditForm.foodSafety formData !! l) = true)
      \/ remarkMissing (AuditForm.observationsPreset formData)
                       (AuditForm.observationsManual formData) = true
      \/ remarkMissing (AuditForm.maintenancePreset formData)
                       (AuditForm.maintenanceManual formData) = true
      \/ remarkMissing (AuditForm.actionPreset formData)
                       (AuditForm.actionManual formData) = true) ->
     AuditForm.handleSubmit formData selection w = (Returned tt, w)) /\
  (forall form ratings selection w,
     (isEmpty (trim (StaffEvaluation.staffName form)) = true
      \/ isEmpty (trim (StaffEvaluation.empCode form)) = true
      \/ (exists p, p ∈ StaffEvaluation.params /\
            AuditForm.falsy (ratings !! p) = true)) ->
     StaffEvaluation.handleSubmit form ratings selection w = (Returned tt, w)).
Proof.
  split.
  - intros formData selection w sel Hmiss. apply unit_submit_invalid.
    fold sel. rewrite audit_validate_nil.
    intros (Ha & Hd & Hb & Hc & Hk & Hh & Hf & Ho & Hm & Hp).
    destruct Hmiss
      as [E | [E | [E | [E | [(l & Hl & E) | [(l & Hl & E) | [(l & Hl & E) | Hmiss]]]]]]];
      try congruence.
    + specialize (Hk l Hl). congruence.
    + specialize (Hh l Hl). congruence.
    + specialize (Hf l Hl). congruence.
    + destruct Hmiss as [E | [E | E]]; congruence.
  - intros form ratings selection w Hmiss. apply staff_submit_invalid.
    rewrite staff_validate_nil. intros (Hn & Hc & Hr).
    destruct Hmiss as [E | [E | (p & Hp & E)]]; try congruence.
    specialize (Hr p Hp). congruence.
Qed.

(** The untouched form, and a staff form without ratings. *)
Lemma incomplete_form_not_submitted_witness :
  @AuditForm.handleSubmit RefHost.refHost AuditForm.initialFormData
     Sample.auditSelection (Sample.session [])
  = (Returned tt, Sample.session []) /\
  @StaffEvaluation.handleSubmit RefHost.refHost Sample.staffForm ∅
     Sample.staffSelection (Sample.session [])
  = (Returned tt, Sample.session []).
Proof.
  split.
  - apply (proj1 (@incomplete_form_not_submitted RefHost.refHost)).
    do 4 right. left. exists "Overall kitchen cleanliness maintained".
    split; [now left | reflexivity].
  - apply (proj2 (@incomplete_form_not_submitted RefHost.refHost)).
    do 2 right. exists "Work Discipline".
    split; [right; now left | reflexivity].
Defined.

(** X4.  A submission always comes to an end and tells the user: whatever
    the store does, neither submit handler lets an error escape; each adds
    at most one record, to its own collection, and leaves the other
    collection untouched; a complete form ends with exactly one alert (the
    success, the refusal or the error), and a form that is not complete
    leaves the session as it was. *)
Theorem submission_always_answers `{Host} :
  (forall formData selection w,
     exists w',
       AuditForm.handleSubmit formData selection w = (Returned tt, w') /\
       staffEvaluations w' = staffEvaluations w /\
       (unitAudits w' = unitAudits w
        \/ unitAudits w'
           = (unitAudits w
              ++ [AuditForm.payloadOf formData (AuditForm.defaultSelection selection)
                    (clock w)])%list) /\
       match AuditForm.validate formData (AuditForm.defaultSelection selection) with
       | [] => exists msg, alerts w' = (alerts w ++ [msg])%list
       | _ :: _ => w' = w
       end) /\
  (forall form ratings selection w,
     exists w',
       StaffEvaluation.handleSubmit form ratings selection w = (Returned tt, w') /\
       unitAudits w' = unitAudits w /\
       (staffEvaluations w' = staffEvaluations w
        \/ staffEvaluations w'
           = (staffEvaluations w
              ++ [StaffEvaluation.payloadOf form ratings selection (clock w)])%list) /\
       match StaffEvaluation.validate form ratings with
       | [] => exists msg, alerts w' = (alerts w ++ [msg])%list
       | _ :: _ => w' = w
       end).
Proof.
  split.
  - intros formData selection w.
    destruct (AuditForm.validate formData (AuditForm.defaultSelection selection)) eqn:Hv.
    + destruct (unit_submit_cases formData selection w Hv)
        as (msg & w' & E & Hs & Ha & _ & Hu).
      exists w'. split; [exact E|]. split; [exact Hs|]. split.
      * destruct Hu as [Hu | [_ Hu]]; [now left | now right].
      * now exists msg.
    + exists w. split; [|split; [reflexivity | split; [now left | reflexivity]]].
      apply unit_submit_invalid. rewrite Hv. discriminate.
  - intros form ratings selection w.
    destruct (StaffEvaluation.validate form ratings) eqn:Hv.
    + destruct (staff_submit_cases form ratings selection w Hv)
        as (msg & w' & E & Hu & Ha & Hs).
      exists w'. split; [exact E|]. split; [exact Hu|]. split; [exact Hs|].
      now exists msg.
    + exists w. split; [|split; [reflexivity | split; [now left | reflexivity]]].
      apply staff_submit_invalid. rewrite Hv. discriminate.
Qed.

End Submission.

(** ** Submissions that overlap *)

Module Overlap.
Import ListFacts JsString JsStringFacts Store Spec Uniqueness Submission.
Import AuditForm (Suspended, AwaitQuery, AwaitWrite, submitStart, submitFailed, afterQuery,
  afterWrite, resume, Page, mkPage, world, waiting, Turn, Click, Settle, turn, run).

(** No submission waits. *)
Definition idle (w : World) : Page := {| world := w; waiting := [] |}.

(** The writes on their way to the store. *)
Definition inFlight (l : list Suspended) : list UnitAudit.t :=
  omap (fun s => match s with AwaitWrite p => Some p | AwaitQuery _ => None end) l.

Section steps.
Context `{Host}.

Lemma afterQuery_cases payload w :
  (exists w', afterQuery payload w = (Returned None, w') /\
     unitAudits w' = unitAudits w /\ staffEvaluations w' = staffEvaluations w)
  \/ (afterQuery payload w = (Returned (Some (AwaitWrite payload)), afterCall w)
      /\ List.filter (sameAudit payload) (unitAudits w) = []).
Proof.
  unfold afterQuery, tryCatch, getDocs_unitAudits. rewrite !run_bind.
  destruct (storeCall_cases w) as [E | [e E]]; rewrite E.
  - unfold mbind, M_bind, get, mret, M_ret. cbn beta iota.
    destruct (List.filter _ (unitAudits (afterCall w))) as [|r rs] eqn:Ef.
    + right. split; [reflexivity | exact Ef].
    + left. eexists. split; [reflexivity|]. split; reflexivity.
  - left. eexists. split; [reflexivity|]. split; reflexivity.
Qed.

Lemma afterWrite_cases payload w :
  exists w', afterWrite payload w = (Returned None, w') /\
    staffEvaluations w' = staffEvaluations w /\
    (unitAudits w' = unitAudits w
     \/ unitAudits w' = (unitAudits w ++ [payload])%list).
Proof.
  unfold afterWrite, tryCatch, addDoc_unitAudits. rewrite !run_bind.
  destruct (storeCall_cases w) as [E | [e E]]; rewrite E.
  - eexists. split; [reflexivity|]. split; [reflexivity|]. now right.
  - eexists. split; [reflexivity|]. split; [reflexivity|]. now left.
Qed.

(** The three runs in a row are the handler run to its end. *)
Lemma handleSubmit_steps formData selection w :
  AuditForm.handleSubmit formData selection w
  = match submitStart formData selection w with
    | (Returned (Some (AwaitQuery p)), w0) =>
        match afterQuery p w0 with
        | (Returned (Some (AwaitWrite p')), w1) => (Returned tt, snd (afterWrite p' w1))
        | (_, w1) => (Returned tt, w1)
        end
    | (_, w0) => (Returned tt, w0)
    end.
Proof.
  unfold AuditForm.handleSubmit, submitStart.
  destruct (AuditForm.validate _ _); [|reflexivity].
  unfold afterQuery, afterWrite, submitFailed, tryCatch, getDocs_unitAudits,
    addDoc_unitAudits, storeCall, get, modify, alert, console_error,
    mbind, M_bind, mret, M_ret.
  destruct w as [ua se out al co cl].
  cbn [unitAudits staffEvaluations outages alerts console clock].
  destruct out as [|[e|] rest]; cbn beta iota;
    cbn [unitAudits staffEvaluations outages alerts console clock]; try reflexivity.
  - destruct (List.filter _ ua) as [|r rs]; cbn beta iota;
      cbn [unitAudits staffEvaluations outages alerts console clock snd];
      reflexivity.
  - destruct (List.filter _ ua) as [|r rs]; cbn beta iota;
      cbn [unitAudits staffEvaluations outages alerts console clock snd];
      [|reflexivity].
    destruct rest as [|[e|] rest]; reflexivity.
Qed.

(** The branch and date of the records and of the writes on their way. *)
Definition keysOf (pg : Page) : list (string * string) :=
  List.map auditKey (unitAudits (world pg) ++ inFlight (waiting pg))%list.

(** The answer to a query does not arrive while a write for the same
    branch and date is on its way. *)
Definition apart (t : Turn) (pg : Page) : Prop :=
  match t with
  | Click _ _ => True
  | Settle i =>
      match waiting pg !! i with
      | Some (AwaitQuery p) => List.filter (sameAudit p) (inFlight (waiting pg)) = []
      | _ => True
      end
  end.

Fixpoint allApart (turns : list Turn) (pg : Page) : Prop :=
  match turns with
  | [] => True
  | t :: rest => apart t pg /\ allApart rest (turn t pg)
  end.

Lemma inFlight_app l1 l2 : inFlight (l1 ++ l2) = (inFlight l1 ++ inFlight l2)%list.
Proof. apply omap_app. Qed.

Lemma inFlight_lookup l i s :
  l !! i = Some s ->
  inFlight l
  = (inFlight (take i l)
     ++ match s with AwaitWrite p => [p] | AwaitQuery _ => [] end
     ++ inFlight (drop (S i) l))%list /\
  inFlight (delete i l) = (inFlight (take i l) ++ inFlight (drop (S i) l))%list /\
  forall p, inFlight (<[i := AwaitWrite p]> l)
            = (inFlight (take i l) ++ p :: inFlight (drop (S i) l))%list.
Proof.
  intros Hl. pose proof (lookup_lt_Some _ _ _ Hl) as Hlt.
  split; [|split].
  - transitivity (inFlight (take i l ++ s :: drop (S i) l));
      [now rewrite take_drop_middle|].
    rewrite inFlight_app. f_equal. destruct s; reflexivity.
  - now rewrite delete_take_drop, inFlight_app.
  - intros p. rewrite insert_take_drop by exact Hlt. now rewrite inFlight_app.
Qed.

Lemma turn_keeps t pg :
  NoDup (keysOf pg) -> apart t pg ->
  NoDup (keysOf (turn t pg)) /\
  unitAudits (world pg) `prefix_of` unitAudits (world (turn t pg)) /\
  staffEvaluations (world (turn t pg)) = staffEvaluations (world pg).
Proof.
  intros Hnd Ha. destruct t as [formData selection | i]; cbn [turn].
  - unfold submitStart.
    destruct (AuditForm.validate _ _);
      unfold get, mret, M_ret, mbind, M_bind; cbn beta iota; [|now repeat split].
    unfold keysOf. cbn [world waiting]. rewrite inFlight_app.
    change (inFlight [AwaitQuery _]) with (@nil UnitAudit.t).
    rewrite app_nil_r. now repeat split.
  - cbn [apart] in Ha.
    destruct (waiting pg !! i) as [s|] eqn:Hl; [|now repeat split].
    destruct (inFlight_lookup _ _ _ Hl) as (Ein & Edel & Eins).
    unfold keysOf in *. destruct s as [p | p]; cbn [resume].
    + destruct (afterQuery_cases p (world pg)) as [(w' & E & Hu & Hs) | [E Hf]];
        rewrite E; cbn [world waiting].
      * rewrite Edel, Hu. rewrite Ein in Hnd. cbn [app] in Hnd.
        split; [exact Hnd|]. split; [reflexivity | exact Hs].
      * rewrite Eins. cbn [unitAudits staffEvaluations afterCall].
        split; [|split; reflexivity].
        rewrite Ein in Hnd, Ha. cbn [app] in Hnd, Ha.
        apply fresh_key in Hf, Ha.
        rewrite app_assoc, <- Permutation_middle, <- app_assoc.
        cbn [List.map]. apply NoDup_cons. split; [|exact Hnd].
        rewrite map_app. intros [Hin | Hin]%elem_of_app; contradiction.
    + destruct (afterWrite_cases p (world pg)) as (w' & E & Hs & [Hu | Hu]);
        rewrite E; cbn [world waiting]; rewrite Edel, Hu;
        rewrite Ein in Hnd; cbn [app] in Hnd;
        (split; [|split; [|exact Hs]]).
      * rewrite app_assoc, <- Permutation_middle, <- app_assoc in Hnd.
        cbn [List.map] in Hnd. now apply NoDup_cons in Hnd as [_ Hnd].
      * reflexivity.
      * rewrite <- app_assoc. cbn [app]. rewrite <- Permutation_middle.
        rewrite app_assoc, <- Permutation_middle, <- app_assoc in Hnd.
        exact Hnd.
      * now apply prefix_app_r.
Qed.

Lemma run_keeps turns pg :
  NoDup (keysOf pg) -> allApart turns pg ->
  NoDup (keysOf (run turns pg)) /\
  unitAudits (world pg) `prefix_of` unitAudits (world (run turns pg)) /\
  staffEvaluations (world (run turns pg)) = staffEvaluations (world pg).
Proof.
  revert pg. induction turns as [|t turns IH]; intros pg Hnd Ha.
  - now repeat split.
  - destruct Ha as [Ha Hrest]. cbn [run fold_left].
    destruct (turn_keeps t pg Hnd Ha) as (Hnd1 & Hp1 & Hs1).
    destruct (IH _ Hnd1 Hrest) as (Hnd2 & Hp2 & Hs2). unfold run in *.
    split; [exact Hnd2|]. split; [etransitivity; [exact Hp1 | exact Hp2]|].
    now rewrite Hs2.
Qed.

Lemma run_app turns1 turns2 pg :
  run (turns1 ++ turns2) pg = run turns2 (run turns1 pg).
Proof. apply fold_left_app. Qed.

Lemma allApart_app turns1 turns2 pg :
  allApart (turns1 ++ turns2) pg
  <-> allApart turns1 pg /\ allApart turns2 (run turns1 pg).
Proof.
  revert pg. induction turns1 as [|t turns1 IH]; intros pg; cbn [app allApart].
  - tauto.
  - rewrite IH. cbn [run fold_left]. tauto.
Qed.

(** *** One submission at a time *)

(** The turns of a submission that nothing interrupts. *)
Definition alone (formData : AuditForm.FormData) (selection : AuditForm.Selection)
  : list Turn :=
  [Click formData selection; Settle 0; Settle 0].

Definition oneByOne (subs : list (AuditForm.FormData * AuditForm.Selection))
  : list Turn :=
  flat_map (fun s => alone (fst s) (snd s)) subs.

Lemma alone_is_handleSubmit formData selection w :
  run (alone formData selection) (idle w)
  = idle (snd (AuditForm.handleSubmit formData selection w))
  /\ allApart (alone formData selection) (idle w).
Proof.
  rewrite handleSubmit_steps. unfold alone, run.
  cbn [fold_left allApart apart turn idle world waiting].
  unfold submitStart.
  destruct (AuditForm.validate _ _);
    unfold get, mret, M_ret, mbind, M_bind; cbn beta iota;
    cbn [world waiting app lookup list_lookup resume].
  - destruct (afterQuery_cases
                (AuditForm.payloadOf formData (AuditForm.defaultSelection selection)
                   (clock w)) w) as [(w' & E & _) | [E _]]; rewrite E;
      cbn [world waiting delete list_delete insert list_insert lookup list_lookup resume snd].
    + repeat split; reflexivity.
    + destruct (afterWrite_cases
                  (AuditForm.payloadOf formData (AuditForm.defaultSelection selection)
                     (clock w)) (afterCall w)) as (w' & E' & _); rewrite E'.
      cbn [world waiting delete list_delete snd]. repeat split; reflexivity.
  - repeat split; reflexivity.
Qed.

Lemma oneByOne_is_sequence subs w :
  run (oneByOne subs) (idle w)
  = idle (fold_left (fun w s => snd (AuditForm.handleSubmit (fst s) (snd s) w)) subs w)
  /\ allApart (oneByOne subs) (idle w).
Proof.
  revert w. induction subs as [|[formData selection] subs IH]; intros w.
  - split; [reflexivity | exact I].
  - cbn [oneByOne flat_map fold_left fst snd]. fold (oneByOne subs).
    destruct (alone_is_handleSubmit formData selection w) as [E A].
    destruct (IH (snd (AuditForm.handleSubmit formData selection w))) as [E' A'].
    rewrite run_app, allApart_app, E. split; [exact E'|]. split; [exact A | exact A'].
Qed.

(** *** Two submissions that overlap *)

(** The same form is submitted twice before the store has answered; both
    queries are answered, then both writes. *)
Definition overlapping (formData : AuditForm.FormData) (selection : AuditForm.Selection)
  : list Turn :=
  [Click formData selection; Click formData selection;
   Settle 0; Settle 1; Settle 0; Settle 0].

Lemma quiet_afterCall w : outages w = [] -> afterCall w = w.
Proof. destruct w. cbn. now intros ->. Qed.

(** The world after a write that the store takes. *)
Definition written (payload : UnitAudit.t) (w : World) : World :=
  {| unitAudits := (unitAudits w ++ [payload])%list;
     staffEvaluations := staffEvaluations w;
     outages := tail (outages w);
     alerts := (alerts w
                ++ [("‚úÖ Audit submitted successfully! Score: "
                     ++ JsNumber.Number_toString (UnitAudit.scoreOutOf100 payload)
                     ++ " / 100")%string])%list;
     console := console w; clock := clock w |}.

Lemma afterWrite_answers payload w :
  storeAnswers w -> afterWrite payload w = (Returned None, written payload w).
Proof.
  intros Hs. unfold afterWrite, tryCatch, addDoc_unitAudits.
  rewrite !run_bind, (storeCall_answers w Hs). reflexivity.
Qed.

Lemma overlapping_writes_twice formData selection w :
  AuditForm.validate formData (AuditForm.defaultSelection selection) = [] ->
  outages w = [] ->
  let payload :=
    AuditForm.payloadOf formData (AuditForm.defaultSelection selection) (clock w) in
  List.filter (sameAudit payload) (unitAudits w) = [] ->
  let pg := run (overlapping formData selection) (idle w) in
  unitAudits (world pg) = (unitAudits w ++ [payload; payload])%list /\
  waiting pg = [].
Proof.
  intros Hv Ho payload Hf pg. unfold pg, overlapping, run.
  cbn [fold_left turn idle world waiting]. unfold submitStart. rewrite Hv.
  unfold get, mret, M_ret, mbind, M_bind. cbn beta iota.
  cbn [world waiting app lookup list_lookup resume]. fold payload.
  assert (Eq : afterQuery payload w = (Returned (Some (AwaitWrite payload)), w)).
  { destruct (afterQuery_cases payload w) as [(w' & E & _) | [E _]].
    - exfalso. revert E. unfold afterQuery, tryCatch.
      rewrite run_bind, (getDocs_unitAudits_answers _ _ w) by (unfold storeAnswers; now rewrite Ho).
      fold (sameAudit payload). rewrite Hf. discriminate.
    - now rewrite (quiet_afterCall w Ho) in E. }
  rewrite Eq. cbn [world waiting insert list_insert lookup list_lookup resume].
  rewrite Eq. cbn [world waiting insert list_insert lookup list_lookup resume].
  rewrite (afterWrite_answers payload w) by (unfold storeAnswers; now rewrite Ho).
  cbn [world waiting delete list_delete lookup list_lookup resume].
  rewrite (afterWrite_answers payload (written payload w))
    by (unfold storeAnswers, written; cbn [outages]; now rewrite Ho).
  cbn [world waiting delete list_delete written unitAudits].
  split; [|reflexivity]. now rewrite <- app_assoc.
Qed.
End steps.



End Overlap.

(** ** The states of the unit audit form *)

Module FormState.
Import ListFacts JsString JsStringFacts AuditForm Spec Submission.

(** The manual text of a remark is empty unless its preset mentions
    "other". *)
Definition manualOnlyWithOther (preset manual : string) : Prop :=
  manual <> EmptyString -> includes "other" (toLowerCase preset) = true.

(** A form as the scoring expects it: the sections hold "Yes"/"No" answers
    for their own items, the presets are options of their selects, and a
    manual text is there only beside "Other (manual)". *)
Definition wellFormedForm (formData : FormData) : Prop :=
  wellFormedSection kitchenParams (kitchen formData) /\
  wellFormedSection hygieneParams (hygiene formData) /\
  wellFormedSection foodSafetyParams (foodSafety formData) /\
  observationsPreset formData ∈ observationsOptions /\
  maintenancePreset formData ∈ maintenanceOptions /\
  actionPreset formData ∈ actionPlanOptions /\
  manualOnlyWithOther (observationsPreset formData) (observationsManual formData) /\
  manualOnlyWithOther (maintenancePreset formData) (maintenanceManual formData) /\
  manualOnlyWithOther (actionPreset formData) (actionManual formData).

Lemma wellFormedSection_insert params obj key value :
  wellFormedSection params obj -> key ∈ params -> value = "Yes" \/ value = "No" ->
  wellFormedSection params (<[key := value]> obj).
Proof.
  intros Hwf Hk Hv label v. rewrite lookup_insert_Some.
  intros [[<- <-] | [_ E]]; [now split | now apply Hwf].
Qed.

Lemma manual_cleared preset value old :
  manualOnlyWithOther preset old ->
  manualOnlyWithOther value (if includes "other" (toLowerCase value) then old else EmptyString).
Proof.
  intros _. unfold manualOnlyWithOther.
  destruct (includes "other" (toLowerCase value)); [reflexivity | congruence].
Qed.

Lemma initial_wellFormed : wellFormedForm initialFormData.
Proof.
  unfold wellFormedForm, initialFormData. cbn.
  repeat apply conj; try (intros label v E; now rewrite lookup_empty in E);
    try (now left); try (intros E; now contradiction E).
Qed.

Lemma handle_wellFormed e formData :
  wellFormedForm formData -> rendered e formData = true ->
  wellFormedForm (handle e formData).
Proof.
  intros (Hk & Hh & Hf & Ho & Hm & Ha & Mo & Mm & Ma) Hr.
  destruct e as [section key value | which value | which value]; cbn [rendered handle] in *.
  - apply andb_prop in Hr as [Hv Hs].
    assert (Hv' : value = "Yes" \/ value = "No").
    { apply orb_prop in Hv as [E | E]; apply String.eqb_eq in E; auto. }
    unfold handleCheck.
    destruct (String.eqb_spec section "kitchen") as [-> | _];
      [| destruct (String.eqb_spec section "hygiene") as [-> | _];
         [| destruct (String.eqb_spec section "foodSafety") as [-> | _] ] ];
      cbn [String.eqb Ascii.eqb Bool.eqb andb orb] in Hs; rewrite ?orb_false_r in Hs;
      try (apply existsb_eqb_iff in Hs);
      unfold wellFormedForm; cbn [kitchen hygiene foodSafety observationsPreset
        observationsManual maintenancePreset maintenanceManual actionPreset actionManual];
      repeat apply conj; try assumption;
      try (now apply wellFormedSection_insert); try discriminate.
  - unfold handleRemarkPreset.
    destruct (String.eqb_spec which "observations") as [-> | _];
      [| destruct (String.eqb_spec which "maintenance") as [-> | _];
         [| destruct (String.eqb_spec which "action") as [-> | _] ] ];
      cbn [String.eqb Ascii.eqb Bool.eqb andb orb] in Hr; rewrite ?orb_false_r in Hr;
      try (apply existsb_eqb_iff in Hr);
      unfold wellFormedForm; cbn [kitchen hygiene foodSafety observationsPreset
        observationsManual maintenancePreset maintenanceManual actionPreset actionManual];
      repeat apply conj; try assumption;
      try (eapply manual_cleared; eassumption); try discriminate.
  - apply andb_prop in Hr as [Hw Hi].
    unfold handleRemarkManual. unfold presetOf in Hi.
    destruct (String.eqb_spec which "observations") as [-> | _];
      [| destruct (String.eqb_spec which "maintenance") as [-> | _];
         [| destruct (String.eqb_spec which "action") as [-> | _] ] ];
      try discriminate Hw;
      cbn [String.eqb Ascii.eqb Bool.eqb andb orb] in Hi;
      unfold wellFormedForm; cbn [kitchen hygiene foodSafety observationsPreset
        observationsManual maintenancePreset maintenanceManual actionPreset actionManual];
      repeat apply conj; try assumption; intros _; exact Hi.
Qed.

Lemma reachable_invariant formData : reachable formData -> wellFormedForm formData.
Proof.
  induction 1 as [|e formData _ IH Hr]; [apply initial_wellFormed|].
  now apply handle_wellFormed.
Qed.

(** A run of events, each on a control that is rendered when its turn
    comes. *)
Definition afterEvents (es : list Event) (formData : FormData) : FormData :=
  fold_left (fun f e => handle e f) es formData.

Fixpoint allRendered (es : list Event) (formData : FormData) : bool :=
  match es with
  | [] => true
  | e :: es' => rendered e formData && allRendered es' (handle e formData)
  end.

Lemma reachable_afterEvents es formData :
  reachable formData -> allRendered es formData = true ->
  reachable (afterEvents es formData).
Proof.
  revert formData. induction es as [|e es IH]; intros formData Hf Hr; [exact Hf|].
  cbn [allRendered] in Hr. apply andb_prop in Hr as [Hr Hes].
  cbn [afterEvents fold_left]. apply IH; [|exact Hes].
  now apply reachable_handle.
Qed.

(** An audit of a kitchen in order, as clicked through. *)
Definition sampleEvents : list Event :=
  (List.map (fun l => Answer "kitchen" l "Yes") kitchenParams
   ++ List.map (fun l => Answer "hygiene" l "Yes") hygieneParams
   ++ List.map (fun l => Answer "foodSafety" l "No") foodSafetyParams
   ++ [ ChoosePreset "observations" "Other (manual)";
        TypeManual "observations" " No issue seen ";
        ChoosePreset "maintenance" "Schedule deep-cleaning";
        ChoosePreset "action" "Follow-up audit in 7 days" ])%list.

(** X5.  Whatever the user does with the controls the page renders (the
    "Yes" and "No" buttons of the items, the selects of the three remarks,
    and the text area of a remark, which is there only while the preset
    mentions "other"), the form stays well formed: each section holds
    "Yes" or "No" for items of its own only, each preset is an option of
    its select, and a manual text is present only beside a preset that
    mentions "other" (choosing another option clears it). *)
Theorem reachable_wellFormed (formData : FormData) :
  reachable formData ->
  wellFormedSection kitchenParams (kitchen formData) /\
  wellFormedSection hygieneParams (hygiene formData) /\
  wellFormedSection foodSafetyParams (foodSafety formData) /\
  observationsPreset formData ∈ observationsOptions /\
  maintenancePreset formData ∈ maintenanceOptions /\
  actionPreset formData ∈ actionPlanOptions /\
  (observationsManual formData <> EmptyString ->
     observationsPreset formData = "Other (manual)") /\
  (maintenanceManual formData <> EmptyString ->
     maintenancePreset formData = "Other (manual)") /\
  (actionManual formData <> EmptyString ->
     actionPreset formData = "Other (manual)").
Proof.
  intros Hr. destruct (reachable_invariant formData Hr)
    as (Hk & Hh & Hf & Ho & Hm & Ha & Mo & Mm & Ma).
  repeat apply conj; try assumption.
  - intros Hn. specialize (Mo Hn). revert Mo. generalize (observationsPreset formData) Ho.
    unfold observationsOptions. intros p. rewrite !elem_of_cons, elem_of_nil.
    intros Hp. repeat (destruct Hp as [-> | Hp]; [first [reflexivity | discriminate] |]).
    contradiction.
  - intros Hn. specialize (Mm Hn). revert Mm. generalize (maintenancePreset formData) Hm.
    unfold maintenanceOptions. intros p. rewrite !elem_of_cons, elem_of_nil.
    intros Hp. repeat (destruct Hp as [-> | Hp]; [first [reflexivity | discriminate] |]).
    contradiction.
  - intros Hn. specialize (Ma Hn). revert Ma. generalize (actionPreset formData) Ha.
    unfold actionPlanOptions. intros p. rewrite !elem_of_cons, elem_of_nil.
    intros Hp. repeat (destruct Hp as [-> | Hp]; [first [reflexivity | discriminate] |]).
    contradiction.
Qed.

(** The form after the sample run of clicks. *)
Lemma reachable_wellFormed_witness :
  let formData := afterEvents sampleEvents initialFormData in
  wellFormedSection kitchenParams (kitchen formData) /\
  wellFormedSection hygieneParams (hygiene formData) /\
  wellFormedSection foodSafetyParams (foodSafety formData) /\
  observationsPreset formData ∈ observationsOptions /\
  maintenancePreset formData ∈ maintenanceOptions /\
  actionPreset formData ∈ actionPlanOptions /\
  (observationsManual formData <> EmptyString ->
     observationsPreset formData = "Other (manual)") /\
  (maintenanceManual formData <> EmptyString ->
     maintenancePreset formData = "Other (manual)") /\
  (actionManual formData <> EmptyString ->
     actionPreset formData = "Other (manual)").
Proof.
  apply (reachable_wellFormed (afterEvents sampleEvents initialFormData)).
  apply reachable_afterEvents; [apply reachable_initial | vm_compute; reflexivity].
Defined.

(** *** What a valid form stores *)

(** The remark as the user sees it: the option chosen, or the manual text
    beside "Other (manual)". *)
Definition remarkShown (preset manual : string) : string :=
  if String.eqb preset "Other (manual)" then trim manual else preset.

(** An option of a select is the placeholder, "Other (manual)", or a plain
    text that does not mention "other". *)
Definition optionKind (o : string) : bool :=
  String.eqb o "-- Select --" || String.eqb o "Other (manual)"
  || (negb (includes "other" (toLowerCase o)) && negb (isEmpty o)).

Lemma options_kinds :
  forallb optionKind observationsOptions = true /\
  forallb optionKind maintenanceOptions = true /\
  forallb optionKind actionPlanOptions = true.
Proof. repeat split; reflexivity. Qed.

Lemma remarkMissing_select manual :
  remarkMissing "-- Select --" manual = isEmpty (trim manual).
Proof. reflexivity. Qed.

Lemma remarkMissing_other manual :
  remarkMissing "Other (manual)" manual = isEmpty (trim manual).
Proof. reflexivity. Qed.

Lemma getRemarkText_other manual :
  getRemarkText "Other (manual)" manual
  = if isEmpty (trim manual) then "-" else trim manual.
Proof. reflexivity. Qed.

Lemma remark_of_valid options preset manual :
  forallb optionKind options = true -> preset ∈ options ->
  manualOnlyWithOther preset manual -> remarkMissing preset manual = false ->
  getRemarkText preset manual = remarkShown preset manual /\
  isEmpty (getRemarkText preset manual) = false /\
  preset <> "-- Select --" /\ isEmpty preset = false.
Proof.
  intros Hk Hin Hm Hg. rewrite forallb_forall in Hk.
  specialize (Hk preset (proj1 (list_elem_of_In _ _) Hin)).
  unfold optionKind in Hk.
  destruct (String.eqb_spec preset "-- Select --") as [-> | Hs].
  - exfalso. rewrite remarkMissing_select in Hg.
    assert (Hn : manual <> EmptyString) by (intros ->; discriminate Hg).
    specialize (Hm Hn). discriminate Hm.
  - destruct (String.eqb_spec preset "Other (manual)") as [-> | Ho].
    + rewrite remarkMissing_other in Hg.
      rewrite getRemarkText_other, Hg.
      repeat split; [exact Hg | discriminate].
    + cbn [orb] in Hk. apply andb_prop in Hk as [Hk1 Hk2].
      apply negb_true_iff in Hk1, Hk2.
      unfold getRemarkText, remarkShown. rewrite Hk1.
      destruct (String.eqb_spec preset "-- Select --") as [E | _]; [contradiction|].
      destruct (String.eqb_spec preset "Other (manual)") as [E | _]; [contradiction|].
      repeat split; assumption.
Qed.

Lemma observation_counts preset manual :
  isEmpty preset = false -> preset <> "-- Select --" ->
  getObservationScore preset manual = 11 \/ getObservationScore preset manual = -11.
Proof.
  intros He Hs. unfold getObservationScore, OBS_MAINT_PTS. rewrite He.
  destruct (String.eqb_spec preset "-- Select --") as [E | _]; [contradiction|].
  cbn [orb].
  repeat match goal with |- context [if ?b then _ else _] => destruct b end; auto.
Qed.

Lemma maintenance_counts preset manual :
  isEmpty preset = false -> preset <> "-- Select --" ->
  getMaintenanceScore preset manual = 11 \/ getMaintenanceScore preset manual = -11.
Proof.
  intros He Hs. unfold getMaintenanceScore, OBS_MAINT_PTS. rewrite He.
  destruct (String.eqb_spec preset "-- Select --") as [E | _]; [contradiction|].
  cbn [orb].
  repeat match goal with |- context [if ?b then _ else _] => destruct b end; auto.
Qed.

Lemma answered_yes_no params section l :
  wellFormedSection params section -> falsy (section !! l) = false ->
  section !! l = Some "Yes" \/ section !! l = Some "No".
Proof.
  intros Hwf Hf. destruct (section !! l) as [v|] eqn:E; [|discriminate Hf].
  destruct (Hwf _ _ E) as [_ [-> | ->]]; auto.
Qed.

(** X6.  A form filled in through the rendered controls and accepted by
    the validation is stored as the user sees it: each of the three
    remarks of the record is the option chosen, or the manual text without
    outer white space when "Other (manual)" is chosen; it is never empty
    and no remark is left at "-- Select --".  Hence the observation and the
    maintenance remark each count for +11 or -11, never 0, and every one of
    the thirteen items carries "Yes" or "No". *)
Theorem valid_form_stored_as_shown `{Host} (formData : FormData)
    (sel : Selection) (now : Z) :
  reachable formData -> validate formData sel = [] ->
  let p := payloadOf formData sel now in
  UnitAudit.observations p
  = remarkShown (observationsPreset formData) (observationsManual formData) /\
  UnitAudit.maintenance p
  = remarkShown (maintenancePreset formData) (maintenanceManual formData) /\
  UnitAudit.actionPlan p
  = remarkShown (actionPreset formData) (actionManual formData) /\
  isEmpty (UnitAudit.observations p) = false /\
  isEmpty (UnitAudit.maintenance p) = false /\
  isEmpty (UnitAudit.actionPlan p) = false /\
  observationsPreset formData <> "-- Select --" /\
  maintenancePreset formData <> "-- Select --" /\
  actionPreset formData <> "-- Select --" /\
  (UnitAudit.observationsScore (UnitAudit.scoreBreakdown p) = 11
   \/ UnitAudit.observationsScore (UnitAudit.scoreBreakdown p) = -11) /\
  (UnitAudit.maintenanceScore (UnitAudit.scoreBreakdown p) = 11
   \/ UnitAudit.maintenanceScore (UnitAudit.scoreBreakdown p) = -11) /\
  (forall l, l ∈ kitchenParams ->
     kitchen formData !! l = Some "Yes" \/ kitchen formData !! l = Some "No") /\
  (forall l, l ∈ hygieneParams ->
     hygiene formData !! l = Some "Yes" \/ hygiene formData !! l = Some "No") /\
  (forall l, l ∈ foodSafetyParams ->
     foodSafety formData !! l = Some "Yes" \/ foodSafety formData !! l = Some "No").
Proof.
  intros Hr Hv p.
  destruct (reachable_invariant formData Hr)
    as (Hk & Hh & Hf & Ho & Hm & Ha & Mo & Mm & Ma).
  apply audit_validate_nil in Hv
    as (_ & _ & _ & _ & Ak & Ah & Af & Go & Gm & Ga).
  destruct options_kinds as (Ko & Km & Ka).
  destruct (remark_of_valid _ _ _ Ko Ho Mo Go) as (O1 & O2 & O3 & O4).
  destruct (remark_of_valid _ _ _ Km Hm Mm Gm) as (M1 & M2 & M3 & M4).
  destruct (remark_of_valid _ _ _ Ka Ha Ma Ga) as (A1 & A2 & A3 & A4).
  unfold p, payloadOf.
  cbn [UnitAudit.observations UnitAudit.maintenance UnitAudit.actionPlan
       UnitAudit.scoreBreakdown UnitAudit.observationsScore UnitAudit.maintenanceScore].
  repeat apply conj; try assumption.
  - now apply observation_counts.
  - now apply maintenance_counts.
  - intros l Hl. apply (answered_yes_no kitchenParams); [exact Hk | now apply Ak].
  - intros l Hl. apply (answered_yes_no hygieneParams); [exact Hh | now apply Ah].
  - intros l Hl. apply (answered_yes_no foodSafetyParams); [exact Hf | now apply Af].
Qed.

(** The sample run of clicks, submitted with the sample selection. *)
Lemma valid_form_stored_as_shown_witness :
  let formData := afterEvents sampleEvents initialFormData in
  let p := @payloadOf RefHost.refHost formData Sample.auditSelection 0 in
  UnitAudit.observations p = "No issue seen" /\
  UnitAudit.maintenance p = "Schedule deep-cleaning" /\
  UnitAudit.actionPlan p = "Follow-up audit in 7 days" /\
  (UnitAudit.observationsScore (UnitAudit.scoreBreakdown p) = 11
   \/ UnitAudit.observationsScore (UnitAudit.scoreBreakdown p) = -11).
Proof.
  intros formData p.
  assert (Hr : reachable formData).
  { apply reachable_afterEvents; [apply reachable_initial | vm_compute; reflexivity]. }
  assert (Hv : validate formData Sample.auditSelection = []) by (vm_compute; reflexivity).
  destruct (@valid_form_stored_as_shown RefHost.refHost formData Sample.auditSelection 0 Hr Hv)
    as (E1 & E2 & E3 & _ & _ & _ & _ & _ & _ & S1 & _).
  fold p in E1, E2, E3, S1.
  split; [rewrite E1; reflexivity|]. split; [rewrite E2; reflexivity|].
  split; [rewrite E3; reflexivity | exact S1].
Defined.

End FormState.

(** ** The ratings of the staff form *)

Module StaffRatings.
Import ListFacts JsString JsStringFacts JsNumber StaffEvaluation Spec.

(** The value a parameter contributes: that of its rating, when it has one
    of the four. *)
Definition valueOf (ratingsObj : gmap string string) (k : string) : option Z :=
  match ratingsObj !! k with
  | Some r => if negb (isEmpty r) then RATING_VALUE r else None
  | None => None
  end.

Lemma ratedValues_omap ratingsObj :
  ratedValues ratingsObj = omap (valueOf ratingsObj) params.
Proof.
  unfold ratedValues.
  rewrite (StaffScore.fold_left_collect (valueOf ratingsObj)); [reflexivity|].
  intros vals k _. unfold valueOf.
  destruct (ratingsObj !! k) as [r|]; [|reflexivity].
  destruct (negb (isEmpty r)); reflexivity.
Qed.

Lemma RATING_VALUE_range r v : RATING_VALUE r = Some v -> 40 <= v <= 100.
Proof.
  unfold RATING_VALUE.
  repeat match goal with |- context [if ?b then _ else _] => destruct b end;
    intros [= <-]; lia.
Qed.

Lemma valueOf_range ratingsObj k v : valueOf ratingsObj k = Some v -> 40 <= v <= 100.
Proof.
  unfold valueOf. destruct (ratingsObj !! k) as [r|]; [|discriminate].
  destruct (negb (isEmpty r)); [apply RATING_VALUE_range | discriminate].
Qed.

Lemma sumZ_range (vals : list Z) :
  Forall (fun v => 40 <= v <= 100) vals ->
  40 * Z.of_nat (length vals) <= sumZ vals <= 100 * Z.of_nat (length vals).
Proof.
  induction 1 as [|v vals Hv _ IH]; unfold sumZ in *; cbn [foldr length]; lia.
Qed.

Lemma Math_round_range (total n : Z) :
  0 < n -> 40 * n <= total <= 100 * n ->
  40 <= Math_round (inject_Z total / inject_Z n) <= 100.
Proof.
  intros Hn Ht. set (q := (inject_Z total / inject_Z n)%Q).
  assert (Hq : (40 <= q <= 100)%Q).
  { unfold q, Qdiv, Qle, Qmult, Qinv, inject_Z. cbn.
    destruct n as [|p|p]; try lia. cbn. nia. }
  destruct (StaffScore.Math_round_nearest q) as [Hlo Hhi].
  set (m := Math_round q) in *. split.
  - assert (H : (inject_Z 39 < inject_Z m)%Q) by (change (inject_Z 39) with 39%Q; lra).
    rewrite <- Zlt_Qlt in H. lia.
  - assert (H : (inject_Z m < inject_Z 101)%Q) by (change (inject_Z 101) with 101%Q; lra).
    rewrite <- Zlt_Qlt in H. lia.
Qed.

Lemma option_value r :
  r ∈ ratingOptions -> negb (isEmpty r) = true /\ is_Some (RATING_VALUE r).
Proof.
  intros Hr. apply list_elem_of_In in Hr.
  destruct Hr as [<- | [<- | [<- | [<- | []]]]]; split; (reflexivity || (cbn; eauto)).
Qed.

(** With a rating of the form, a parameter contributes exactly when it is
    rated. *)
Lemma valueOf_rated ratingsObj p :
  wellFormedRatings ratingsObj -> p ∈ params ->
  (valueOf ratingsObj p = None <-> ratingsObj !! p = None).
Proof.
  intros Hw Hp. unfold valueOf.
  destruct (ratingsObj !! p) as [r|] eqn:E; [|split; reflexivity].
  destruct (option_value r (Hw p r Hp E)) as [-> [v ->]]. split; discriminate.
Qed.

(** X7.  For the ratings the form produces (each of the five parameters
    without a rating or with one of the four of the radio buttons), the
    staff score, when there is one, lies between 40 and 100, and there is
    one exactly when at least one of the five parameters is rated; the
    grade is then one of A, B, C and D.  What is stored is that score, or 0
    when there is none, and its decimal text as the total marks. *)
Theorem computeStaffScore_range `{Host} (form : Form)
    (ratingsObj : gmap string string) (selection : Selection) (createdAt : Z) :
  wellFormedRatings ratingsObj ->
  match computeStaffScore ratingsObj with
  | Some n =>
      40 <= n <= 100 /\
      (exists p r, p ∈ params /\ ratingsObj !! p = Some r) /\
      computedGrade (Some n) ∈ ["A"; "B"; "C"; "D"] /\
      StaffEval.scoreOutOf100 (payloadOf form ratingsObj selection createdAt) = n
  | None =>
      (forall p, p ∈ params -> ratingsObj !! p = None) /\
      computedGrade None = EmptyString /\
      StaffEval.scoreOutOf100 (payloadOf form ratingsObj selection createdAt) = 0
  end /\
  StaffEval.totalMarks (payloadOf form ratingsObj selection createdAt)
  = Number_toString
      (StaffEval.scoreOutOf100 (payloadOf form ratingsObj selection createdAt)).
Proof.
  intros Hw. split; [|reflexivity].
  unfold payloadOf. cbn [StaffEval.scoreOutOf100].
  unfold computeStaffScore. rewrite ratedValues_omap.
  destruct (omap (valueOf ratingsObj) params) as [|v vs] eqn:E.
  - cbn [length Nat.eqb]. split; [|split; reflexivity].
    intros p Hp. apply (valueOf_rated ratingsObj p Hw Hp).
    destruct (valueOf ratingsObj p) as [x|] eqn:Ex; [|reflexivity].
    assert (Hin : x ∈ omap (valueOf ratingsObj) params)
      by (apply list_elem_of_omap; eauto).
    rewrite E in Hin. inversion Hin.
  - cbn [length Nat.eqb]. cbv zeta. rewrite StaffScore.fold_left_add, Z.add_0_l.
    assert (Hall : Forall (fun v => 40 <= v <= 100) (v :: vs)).
    { rewrite <- E. apply Forall_forall. intros x Hx.
      apply list_elem_of_omap in Hx as (k & _ & Hk). now apply valueOf_range in Hk. }
    pose proof (sumZ_range _ Hall) as Hs.
    pose proof (Math_round_range (sumZ (v :: vs)) (Z.of_nat (length (v :: vs)))
                  ltac:(cbn [length]; lia) Hs) as Hr.
    split; [exact Hr|]. split; [|split; [|reflexivity]].
    + assert (Hin : v ∈ omap (valueOf ratingsObj) params) by (rewrite E; now left).
      apply list_elem_of_omap in Hin as (p & Hp & Ep). exists p.
      destruct (ratingsObj !! p) as [r|] eqn:Er.
      * exists r. now split.
      * apply (valueOf_rated ratingsObj p Hw Hp) in Er. congruence.
    + unfold computedGrade, scoreToGrade.
      repeat match goal with |- context [if ?b then _ else _] => destruct b end;
        apply list_elem_of_In; simpl; tauto.
Qed.

(** The ratings {Excellent, Excellent, Good, Average, Poor} have a score,
    between 40 and 100, and it is stored with its text as total marks. *)
Lemma computeStaffScore_range_witness :
  exists n,
    computeStaffScore Sample.exampleRatings = Some n /\ 40 <= n <= 100 /\
    StaffEval.scoreOutOf100
      (@payloadOf RefHost.refHost Sample.staffForm Sample.exampleRatings
         Sample.staffSelection 0) = n.
Proof.
  pose proof (@computeStaffScore_range RefHost.refHost Sample.staffForm
                Sample.exampleRatings Sample.staffSelection 0
                StaffScore.exampleRatings_wellFormed) as [Hc _].
  destruct (computeStaffScore Sample.exampleRatings) as [n|].
  - exists n. destruct Hc as (Hr & _ & _ & Hs). now repeat split.
  - exfalso. destruct Hc as [Hn _].
    specialize (Hn "Work Discipline" ltac:(right; left)).
    vm_compute in Hn. discriminate Hn.
Defined.

(** *** Ratings and remarks share an object *)

Lemma endsWith_append p s : endsWith s (p ++ s) = true.
Proof.
  induction p as [|c p IH]; cbn [String.append].
  - destruct s; cbn [endsWith]; now rewrite String.eqb_refl.
  - cbn [endsWith]. rewrite IH. apply orb_true_r.
Qed.

Lemma params_not_remarks :
  forallb (fun k => negb (endsWith "_remarks" k)) params = true.
Proof. reflexivity. Qed.

Lemma remark_key_fresh param k : k ∈ params -> k <> param ++ "_remarks".
Proof.
  intros Hk ->. pose proof params_not_remarks as H.
  rewrite forallb_forall in H. specialize (H _ (proj1 (list_elem_of_In _ _) Hk)).
  now rewrite endsWith_append in H.
Qed.

(** The score and the validation read the ratings of the parameters
    only. *)
Lemma same_answers_same_result form (r1 r2 : gmap string string) :
  (forall p, p ∈ params -> r1 !! p = r2 !! p) ->
  computeStaffScore r1 = computeStaffScore r2 /\ validate form r1 = validate form r2.
Proof.
  intros Hsame. split.
  - unfold computeStaffScore.
    assert (E : ratedValues r1 = ratedValues r2).
    { unfold ratedValues. apply fold_left_ext_elem. intros k acc Hk.
      now rewrite (Hsame k Hk). }
    now rewrite E.
  - unfold validate.
    assert (E : List.filter (fun p => AuditForm.falsy (r1 !! p)) params
                = List.filter (fun p => AuditForm.falsy (r2 !! p)) params).
    { apply filter_ext_elem. intros p Hp. now rewrite (Hsame p Hp). }
    cbv zeta. now rewrite E.
Qed.

(** X8.  The remark of a parameter is kept in the ratings object, under
    the name of the parameter followed by "_remarks", and never gets in
    the way of a rating: writing a remark, for whatever parameter name,
    changes no rating of the five parameters, hence neither the score, nor
    the grade, nor the outcome of the validation; and rating a parameter
    sets its rating and changes no other rating and no remark. *)
Theorem remarks_and_ratings_apart (form : Form) (ratingsObj : gmap string string)
    (param text : string) :
  (forall p, p ∈ params -> handleRemark param text ratingsObj !! p = ratingsObj !! p) /\
  computeStaffScore (handleRemark param text ratingsObj) = computeStaffScore ratingsObj /\
  computedGrade (computeStaffScore (handleRemark param text ratingsObj))
  = computedGrade (computeStaffScore ratingsObj) /\
  validate form (handleRemark param text ratingsObj) = validate form ratingsObj /\
  handleRemark param text ratingsObj !! (param ++ "_remarks") = Some text /\
  (forall p value, p ∈ params ->
     handleRating p value ratingsObj !! p = Some value /\
     (forall q, q <> p -> handleRating p value ratingsObj !! q = ratingsObj !! q) /\
     (forall q, handleRating p value ratingsObj !! (q ++ "_remarks")
                = ratingsObj !! (q ++ "_remarks"))).
Proof.
  assert (Hsame : forall p, p ∈ params ->
            handleRemark param text ratingsObj !! p = ratingsObj !! p).
  { intros p Hp. unfold handleRemark. apply lookup_insert_ne.
    intros E. now apply (remark_key_fresh param p Hp). }
  destruct (same_answers_same_result form _ _ Hsame) as [Es Ev].
  split; [exact Hsame|]. split; [exact Es|]. split; [now rewrite Es|].
  split; [exact Ev|]. split.
  - unfold handleRemark. now rewrite lookup_insert_eq.
  - intros p value Hp. unfold handleRating. split; [now rewrite lookup_insert_eq|].
    split.
    + intros q Hq. now apply lookup_insert_ne.
    + intros q. apply lookup_insert_ne. now apply remark_key_fresh.
Qed.

End StaffRatings.

(** ** Suggestions of staff names *)

Module Suggestions.
Import JsString JsStringFacts StaffEvaluation.

(** The key of a suggestion. *)
Definition keyOf (s : Suggestion) : string :=
  suggestionKey (toLowerCase (s_staffName s)) (s_empCode s).

(** The suggestion a document gives rise to: none when it has no name or
    its name does not begin with what was typed. *)
Definition candidate (prefixLower : string) (data : StaffEval.t) : option Suggestion :=
  let name := trim (StaffEval.staffName data) in
  if isEmpty name then None
  else if startsWith prefixLower (toLowerCase name) then
    Some {| s_staffName := name;
            s_empCode := trim (StaffEval.empCode data);
            s_designation := StaffEval.designation data;
            lastDoc := data |}
  else None.

(** The first candidate of each key that is not in [seen]. *)
Fixpoint firstCandidates (prefixLower : string) (seen : gset string)
    (docs : list StaffEval.t) : list Suggestion :=
  match docs with
  | [] => []
  | data :: rest =>
      match candidate prefixLower data with
      | None => firstCandidates prefixLower seen rest
      | Some s =>
          if bool_decide (keyOf s ∈ seen) then firstCandidates prefixLower seen rest
          else s :: firstCandidates prefixLower ({[ keyOf s ]} ∪ seen) rest
      end
  end.

Lemma suggestions_fold prefixLower seen unique docs :
  snd (fold_left
         (fun (st : gset string * list Suggestion) data =>
            let '(seen, unique) := st in
            let name := trim (StaffEval.staffName data) in
            if isEmpty name then st
            else
              let nameLower := toLowerCase name in
              if startsWith prefixLower nameLower then
                let code := trim (StaffEval.empCode data) in
                let key := suggestionKey nameLower code in
                if bool_decide (key ∈ seen) then st
                else ({[ key ]} ∪ seen,
                      (unique ++ [ {| s_staffName := name;
                                      s_empCode := code;
                                      s_designation := StaffEval.designation data;
                                      lastDoc := data |} ])%list)
              else st)
         docs (seen, unique))
  = (unique ++ firstCandidates prefixLower seen docs)%list.
Proof.
  revert seen unique. induction docs as [|data docs IH]; intros seen unique.
  - cbn. now rewrite app_nil_r.
  - cbn [fold_left firstCandidates]. unfold candidate. cbv zeta.
    destruct (isEmpty (trim (StaffEval.staffName data))); [apply IH|].
    destruct (startsWith prefixLower _); [|apply IH].
    unfold keyOf. cbn [s_staffName s_empCode].
    destruct (bool_decide _); [apply IH|].
    rewrite IH, <- app_assoc. reflexivity.
Qed.

Lemma blank_prefix prefix :
  isEmpty prefix || (String.length (trim prefix) <? 1)%nat = isEmpty (trim prefix).
Proof.
  destruct prefix as [|c p]; [reflexivity|]. cbn [isEmpty orb].
  destruct (trim (String c p)); reflexivity.
Qed.

Lemma searchStaffNames_eq prefix docs :
  searchStaffNames prefix docs
  = if isEmpty (trim prefix) then []
    else firstCandidates (toLowerCase (trim prefix)) ∅ docs.
Proof.
  unfold searchStaffNames. rewrite blank_prefix.
  destruct (isEmpty (trim prefix)); [reflexivity|].
  cbv zeta. now rewrite suggestions_fold.
Qed.

Lemma candidate_spec prefixLower data s :
  candidate prefixLower data = Some s ->
  lastDoc s = data /\
  s_staffName s = trim (StaffEval.staffName data) /\
  s_empCode s = trim (StaffEval.empCode data) /\
  s_designation s = StaffEval.designation data /\
  isEmpty (s_staffName s) = false /\
  startsWith prefixLower (toLowerCase (s_staffName s)) = true.
Proof.
  unfold candidate.
  destruct (isEmpty (trim (StaffEval.staffName data))) eqn:E1; [discriminate|].
  destruct (startsWith prefixLower _) eqn:E2; [|discriminate].
  intros [= <-]. cbn [lastDoc s_staffName s_empCode s_designation].
  repeat split; assumption.
Qed.

Lemma firstCandidates_fresh prefixLower seen docs s :
  s ∈ firstCandidates prefixLower seen docs -> keyOf s ∉ seen.
Proof.
  revert seen. induction docs as [|data docs IH]; intros seen; cbn [firstCandidates].
  - intros Hs. inversion Hs.
  - destruct (candidate prefixLower data) as [c|]; [|apply IH].
    destruct (bool_decide (keyOf c ∈ seen)) eqn:E; [apply IH|].
    apply bool_decide_eq_false in E.
    intros [-> | Hs]%elem_of_cons; [exact E|].
    apply IH in Hs. intros Hin. apply Hs. apply elem_of_union. now right.
Qed.

Lemma firstCandidates_NoDup prefixLower seen docs :
  NoDup (List.map keyOf (firstCandidates prefixLower seen docs)).
Proof.
  revert seen. induction docs as [|data docs IH]; intros seen; cbn [firstCandidates].
  - constructor.
  - destruct (candidate prefixLower data) as [c|]; [|apply IH].
    destruct (bool_decide (keyOf c ∈ seen)); [apply IH|].
    cbn [List.map]. constructor; [|apply IH].
    intros Hin. apply list_elem_of_In, in_map_iff in Hin as (z & Ez & Hz).
    apply list_elem_of_In, firstCandidates_fresh in Hz.
    apply Hz. rewrite Ez. apply elem_of_union. left. now apply elem_of_singleton.
Qed.

(** A suggestion comes from the first document of its key. *)
Lemma firstCandidates_first prefixLower seen docs s :
  s ∈ firstCandidates prefixLower seen docs ->
  exists before after,
    docs = (before ++ lastDoc s :: after)%list /\
    candidate prefixLower (lastDoc s) = Some s /\
    forall d c, d ∈ before -> candidate prefixLower d = Some c -> keyOf c <> keyOf s.
Proof.
  revert seen. induction docs as [|data docs IH]; intros seen; cbn [firstCandidates].
  - intros Hs. inversion Hs.
  - destruct (candidate prefixLower data) as [c|] eqn:Ec.
    + destruct (bool_decide (keyOf c ∈ seen)) eqn:E.
      * apply bool_decide_eq_true in E. intros Hs.
        pose proof (firstCandidates_fresh _ _ _ _ Hs) as Hf.
        destruct (IH _ Hs) as (before & after & -> & Hc & Hb).
        exists (data :: before), after. split; [reflexivity|]. split; [exact Hc|].
        intros d c' [-> | Hd]%elem_of_cons Hc'.
        -- rewrite Ec in Hc'. injection Hc' as <-. intros Ek. apply Hf. now rewrite <- Ek.
        -- now apply (Hb d).
      * intros [-> | Hs]%elem_of_cons.
        -- destruct (candidate_spec _ _ _ Ec) as (El & _).
           exists [], docs. rewrite El. split; [reflexivity|]. split; [exact Ec|].
           intros d c' Hd. inversion Hd.
        -- pose proof (firstCandidates_fresh _ _ _ _ Hs) as Hf.
           destruct (IH _ Hs) as (before & after & -> & Hc & Hb).
           exists (data :: before), after. split; [reflexivity|]. split; [exact Hc|].
           intros d c' [-> | Hd]%elem_of_cons Hc'.
           ++ rewrite Ec in Hc'. injection Hc' as <-. intros Ek. apply Hf.
              rewrite <- Ek. apply elem_of_union. left. now apply elem_of_singleton.
           ++ now apply (Hb d).
    + intros Hs. destruct (IH _ Hs) as (before & after & -> & Hc & Hb).
      exists (data :: before), after. split; [reflexivity|]. split; [exact Hc|].
      intros d c' [-> | Hd]%elem_of_cons Hc'; [congruence | now apply (Hb d)].
Qed.

(** Every candidate has a suggestion of its key, unless the key was seen
    before. *)
Lemma firstCandidates_complete prefixLower seen docs d c :
  d ∈ docs -> candidate prefixLower d = Some c ->
  keyOf c ∈ seen
  \/ exists s, s ∈ firstCandidates prefixLower seen docs /\ keyOf s = keyOf c.
Proof.
  revert seen. induction docs as [|data docs IH]; intros seen Hd Hc.
  - inversion Hd.
  - cbn [firstCandidates]. apply elem_of_cons in Hd as [<- | Hd].
    + rewrite Hc. destruct (bool_decide (keyOf c ∈ seen)) eqn:E.
      * left. now apply bool_decide_eq_true in E.
      * right. exists c. split; [now left | reflexivity].
    + destruct (candidate prefixLower data) as [c0|] eqn:E0; [|now apply IH].
      destruct (bool_decide (keyOf c0 ∈ seen)) eqn:E; [now apply IH|].
      destruct (IH ({[ keyOf c0 ]} ∪ seen) Hd Hc) as [Hin | (s & Hs & Ek)].
      * apply elem_of_union in Hin as [Hin | Hin]; [|now left].
        apply elem_of_singleton in Hin. right. exists c0. split; [now left | now symmetry].
      * right. exists s. split; [now right | exact Ek].
Qed.

(** X9.  The suggestions for what was typed: none when it is blank;
    otherwise one suggestion for each distinct key (lower-case name, "::",
    code) among the fetched documents whose name, without outer white
    space, is not empty and begins with the typed text, letter case
    ignored.  No two suggestions share a key; each carries the trimmed
    name and code and the designation of the first document of its key,
    which is the most recent one, and keeps that document. *)
Theorem searchStaffNames_spec (prefix : string) (docs : list StaffEval.t) :
  let found := searchStaffNames prefix docs in
  let typed := toLowerCase (trim prefix) in
  NoDup (List.map keyOf found) /\
  (isEmpty (trim prefix) = true -> found = []) /\
  (forall s, s ∈ found ->
     isEmpty (s_staffName s) = false /\
     startsWith typed (toLowerCase (s_staffName s)) = true /\
     s_staffName s = trim (StaffEval.staffName (lastDoc s)) /\
     s_empCode s = trim (StaffEval.empCode (lastDoc s)) /\
     s_designation s = StaffEval.designation (lastDoc s) /\
     exists before after,
       docs = (before ++ lastDoc s :: after)%list /\
       forall d c, d ∈ before -> candidate typed d = Some c -> keyOf c <> keyOf s) /\
  (isEmpty (trim prefix) = false ->
   forall d c, d ∈ docs -> candidate typed d = Some c ->
     exists s, s ∈ found /\ keyOf s = keyOf c).
Proof.
  intros found typed. unfold found. rewrite searchStaffNames_eq. fold typed.
  destruct (isEmpty (trim prefix)) eqn:Eb.
  - split; [constructor|]. split; [reflexivity|].
    split; [intros s Hs; inversion Hs | discriminate].
  - split; [apply firstCandidates_NoDup|]. split; [discriminate|]. split.
    + intros s Hs.
      destruct (firstCandidates_first _ _ _ _ Hs) as (before & after & Ed & Hc & Hb).
      destruct (candidate_spec _ _ _ Hc) as (_ & En & Ec & Eg & Hne & Hp).
      repeat (split; [assumption|]). now exists before, after.
    + intros _ d c Hd Hc.
      destruct (firstCandidates_complete typed ∅ docs d c Hd Hc) as [Hin | Hex];
        [now apply not_elem_of_empty in Hin | exact Hex].
Qed.

(** Three evaluations on record, "as" typed: Asha Rao (E17) is suggested
    once, from her most recent evaluation, and Ravi is not. *)
Lemma searchStaffNames_spec_witness :
  let doc name code createdAt :=
    {| StaffEval.staffName := name; StaffEval.empCode := code;
       StaffEval.designation := "Cook"; StaffEval.totalMarks := "80";
       StaffEval.grade := "B"; StaffEval.ratings := ∅;
       StaffEval.selection :=
         {| StaffEval.branch := "Kochi"; StaffEval.city := "Kochi";
            StaffEval.auditor := "Kumar Kannaiyan"; StaffEval.date := "01/06/2024" |};
       StaffEval.scoreOutOf100 := 80; StaffEval.createdAt := createdAt |} in
  let docs := [doc " Asha Rao" "E17" 3; doc "Ravi" "E21" 2; doc "ASHA RAO " "E17 " 1] in
  NoDup (List.map keyOf (searchStaffNames " as" docs)) /\
  List.map (fun s => (s_staffName s, s_empCode s, StaffEval.createdAt (lastDoc s)))
    (searchStaffNames " as" docs)
  = [("Asha Rao", "E17", 3)].
Proof.
  intros doc docs. split.
  - exact (proj1 (searchStaffNames_spec " as" docs)).
  - vm_compute. reflexivity.
Defined.

End Suggestions.

(** ** From the date inputs to the stored dates *)

Module IsoDates.
Import JsString JsStringFacts JsNumber JsNumberFacts JsDate RetrieveReports Spec.
Import DateNormalizer RangeFilter.

Lemma digitsBetween_spec lo hi s :
  digitsBetween lo hi s = true ->
  allChars isDigit s = true /\ (lo <= String.length s <= hi)%nat.
Proof.
  unfold digitsBetween. intros E.
  apply andb_prop in E as [E Hhi]. apply andb_prop in E as [Hd Hlo].
  apply Nat.leb_le in Hlo, Hhi. auto.
Qed.

Lemma digitsBetween_exact n s :
  allChars isDigit s = true -> String.length s = n -> digitsBetween n n s = true.
Proof.
  intros Hd Hl. unfold digitsBetween. rewrite Hd, Hl, Nat.leb_refl. reflexivity.
Qed.

Lemma digitsBetween_weaken lo s : (lo <= 2)%nat ->
  digitsBetween 2 2 s = true -> digitsBetween lo 2 s = true.
Proof.
  intros Hlo (Hd & Hl)%digitsBetween_spec. unfold digitsBetween. rewrite Hd.
  cbn [andb]. apply andb_true_intro. split; apply Nat.leb_le; lia.
Qed.

(** The shape of a valid ISO date. *)
Lemma readISO_parts iso c :
  readISO iso = Some c ->
  exists yyyy mm dd,
    iso = yyyy ++ String "-" (mm ++ String "-" dd) /\
    digitsBetween 4 4 yyyy = true /\ digitsBetween 2 2 mm = true /\
    digitsBetween 2 2 dd = true /\
    c = mkCal (parseDigits yyyy 0) (parseDigits mm 0) (parseDigits dd 0) /\
    validCal c = true.
Proof.
  unfold readISO.
  destruct (split "-" iso) as [|yyyy [|mm [|dd [|]]]] eqn:Es; try discriminate.
  destruct (digitsBetween 4 4 yyyy && digitsBetween 2 2 mm && digitsBetween 2 2 dd)
    eqn:E; [|discriminate].
  apply andb_prop in E as [E E3]. apply andb_prop in E as [E1 E2].
  destruct (validCal _) eqn:Ev; [|discriminate]. intros [= <-].
  apply split_three_inv in Es as (-> & _).
  exists yyyy, mm, dd. repeat split; assumption.
Qed.

Lemma dash_not_digit : isDigit "-" = false.
Proof. reflexivity. Qed.

Lemma slashed_read yyyy mm dd :
  digitsBetween 4 4 yyyy = true -> digitsBetween 2 2 mm = true ->
  digitsBetween 2 2 dd = true ->
  validCal (mkCal (parseDigits yyyy 0) (parseDigits mm 0) (parseDigits dd 0)) = true ->
  readDDMMYYYY (slashed dd mm yyyy)
  = Some (mkCal (parseDigits yyyy 0) (parseDigits mm 0) (parseDigits dd 0))
  /\ canonicalDate (slashed dd mm yyyy) = true
  /\ reDDMMYYYY_test (slashed dd mm yyyy) = true
  /\ isEmpty (slashed dd mm yyyy) = false.
Proof.
  intros Hy Hm Hd Hv.
  destruct (digitsBetween_spec _ _ _ Hy) as [Dy Ly].
  destruct (digitsBetween_spec _ _ _ Hm) as [Dm Lm].
  destruct (digitsBetween_spec _ _ _ Hd) as [Dd Ld].
  assert (Es : split "/" (slashed dd mm yyyy) = [dd; mm; yyyy]).
  { apply split_three; apply digits_noChar; (apply slash_not_digit || assumption). }
  unfold readDDMMYYYY, canonicalDate, reDDMMYYYY_test. rewrite Es, Hy, Hm, Hd, Hv.
  rewrite !(digitsBetween_weaken 1) by (lia || assumption).
  repeat split. destruct dd; [simpl in Ld; lia | reflexivity].
Qed.

Section iso.
Context `{Host}.
Variables (iso : string) (c : CalDate).
Hypothesis Hiso : readISO iso = Some c.

Lemma iso_not_slashed : reDDMMYYYY_test iso = false.
Proof.
  destruct (readISO_parts iso c Hiso) as (yyyy & mm & dd & -> & Hy & Hm & Hd & _).
  apply digitsBetween_spec in Hy as [Dy _], Hm as [Dm _], Hd as [Dd _].
  unfold reDDMMYYYY_test. rewrite split_single; [reflexivity|].
  rewrite noChar_append. unfold noChar at 2. cbn [allChars].
  fold (noChar "/" (mm ++ String "-" dd)). rewrite noChar_append.
  unfold noChar at 3. cbn [allChars]. fold (noChar "/" dd).
  rewrite !(digits_noChar "/") by (reflexivity || assumption). reflexivity.
Qed.

Lemma isoToDDMMYYYY_valid :
  exists yyyy mm dd,
    iso = yyyy ++ String "-" (mm ++ String "-" dd) /\
    isoToDDMMYYYY iso = slashed dd mm yyyy /\
    digitsBetween 4 4 yyyy = true /\ digitsBetween 2 2 mm = true /\
    digitsBetween 2 2 dd = true /\
    c = mkCal (parseDigits yyyy 0) (parseDigits mm 0) (parseDigits dd 0) /\
    validCal c = true.
Proof.
  pose proof iso_not_slashed as Hn.
  destruct (readISO_parts iso c Hiso) as (yyyy & mm & dd & E & Hy & Hm & Hd & Ec & Hv).
  exists yyyy, mm, dd. split; [exact E|]. split; [|now repeat split].
  unfold isoToDDMMYYYY. rewrite Hn. rewrite E.
  destruct (digitsBetween_spec _ _ _ Hy) as [Dy Ly].
  destruct (digitsBetween_spec _ _ _ Hm) as [Dm Lm].
  destruct (digitsBetween_spec _ _ _ Hd) as [Dd Ld].
  assert (Ee : isEmpty (yyyy ++ String "-" (mm ++ String "-" dd)) = false)
    by (destruct yyyy; [simpl in Ly; lia | reflexivity]).
  rewrite Ee, split_three
    by (apply digits_noChar; [apply dash_not_digit | assumption]).
  rewrite !padStart_full by lia. apply slashed_eq.
Qed.

End iso.
Lemma calLeb_refl a : calLeb a a = true.
Proof.
  unfold calLeb. rewrite !Z.eqb_refl, Z.leb_refl. cbn [andb].
  now rewrite !orb_true_r.
Qed.

Lemma calLeb_antisym a b : calLeb a b = true -> calLeb b a = true -> a = b.
Proof.
  unfold calLeb. destruct a as [ya ma da], b as [yb mb db]. cbn [year month day].
  destruct (Z.ltb_spec ya yb), (Z.ltb_spec yb ya), (Z.eqb_spec ya yb),
    (Z.eqb_spec yb ya), (Z.ltb_spec ma mb), (Z.ltb_spec mb ma),
    (Z.eqb_spec ma mb), (Z.eqb_spec mb ma), (Z.leb_spec da db), (Z.leb_spec db da);
    cbn; intros; try discriminate; try lia.
  f_equal; lia.
Qed.

(** X10.  A date of the date input (the ISO form of a calendar date) and
    its dd/mm/yyyy form are the same day: [isoToDDMMYYYY] turns the ISO
    text into the canonical dd/mm/yyyy text of the same calendar date,
    which it then leaves unchanged, and the two texts parse to the same
    [Date].  So a record stored under that text is found by the query for
    that single day (the same date as From and as To), and such a query
    keeps the records of that day only. *)
Theorem isoToDDMMYYYY_round_trip `{Host} (iso : string) (c : CalDate) :
  readISO iso = Some c ->
  let dd := isoToDDMMYYYY iso in
  canonicalDate dd = true /\
  readDDMMYYYY dd = Some c /\
  parseDDMMYYYYtoDate dd = isoToLocalDate iso /\
  isoToDDMMYYYY dd = dd /\
  withinRange dd iso iso = true /\
  (forall dateDD d, readDDMMYYYY dateDD = Some d ->
     (withinRange dateDD iso iso = true <-> d = c)).
Proof.
  intros Hiso dd.
  destruct (isoToDDMMYYYY_valid iso c Hiso)
    as (yyyy & mm & dd' & Ei & Ed & Hy & Hm & Hd & Ec & Hv).
  rewrite Ec in Hv.
  destruct (slashed_read yyyy mm dd' Hy Hm Hd Hv) as (Hread & Hcan & Hre & Hne).
  rewrite <- Ec in Hread. unfold dd. rewrite Ed.
  assert (Hb : readBound iso = Some (Some c)).
  { unfold readBound. destruct (parse_readISO iso c Hiso) as (-> & _). now rewrite Hiso. }
  split; [exact Hcan|]. split; [exact Hread|]. split; [|split; [|split]].
  - destruct (parse_readDDMMYYYY _ _ Hread) as [-> _].
    destruct (parse_readISO iso c Hiso) as (_ & -> & _). reflexivity.
  - unfold isoToDDMMYYYY. now rewrite Hne, Hre.
  - rewrite (withinRange_read _ _ _ c (Some c) (Some c) Hread Hb Hb).
    unfold inRange. now rewrite calLeb_refl.
  - intros dateDD d Hd'.
    rewrite (withinRange_read _ _ _ d (Some c) (Some c) Hd' Hb Hb).
    unfold inRange. rewrite andb_true_iff. split.
    + intros [H1 H2]. now apply calLeb_antisym.
    + intros ->. now rewrite calLeb_refl.
Qed.

(** The leap day of 2024. *)
Lemma isoToDDMMYYYY_round_trip_witness :
  let dd := @isoToDDMMYYYY RefHost.refHost "2024-02-29" in
  canonicalDate dd = true /\
  readDDMMYYYY dd = Some (mkCal 2024 2 29) /\
  @parseDDMMYYYYtoDate RefHost.refHost dd = @isoToLocalDate RefHost.refHost "2024-02-29" /\
  @isoToDDMMYYYY RefHost.refHost dd = dd /\
  @withinRange RefHost.refHost dd "2024-02-29" "2024-02-29" = true /\
  (forall dateDD d, readDDMMYYYY dateDD = Some d ->
     (@withinRange RefHost.refHost dateDD "2024-02-29" "2024-02-29" = true
      <-> d = mkCal 2024 2 29)).
Proof.
  apply (@isoToDDMMYYYY_round_trip RefHost.refHost "2024-02-29" (mkCal 2024 2 29)).
  reflexivity.
Defined.

(** *** The order of the bounds *)

Section bounds.
Context `{Host}.

(** The filter between two ISO dates, on the time line. *)
Lemma withinRange_between dateDD fromISO toISO f t :
  readISO fromISO = Some f -> readISO toISO = Some t ->
  withinRange dateDD fromISO toISO
  = match parseDDMMYYYYtoDate dateDD with
    | Some d => (MakeDate (dayNo f) 0 <=? d) && (d <=? MakeDate (dayNo t) 86399999)
    | None => false
    end.
Proof.
  intros Hf Ht.
  destruct (parse_readISO _ _ Hf) as (Ef & Pf & Vf).
  destruct (parse_readISO _ _ Ht) as (Et & Pt & Vt).
  unfold withinRange. destruct (parseDDMMYYYYtoDate dateDD) as [d|]; [|reflexivity].
  rewrite Ef, Et, Pf, Pt. cbn [andb option_map]. rewrite startOfDay, endOfDay.
  destruct (Z.ltb_spec d (MakeDate (dayNo f) 0)),
    (Z.leb_spec (MakeDate (dayNo f) 0) d),
    (Z.ltb_spec (MakeDate (dayNo t) 86399999) d),
    (Z.leb_spec d (MakeDate (dayNo t) 86399999)); cbn; (reflexivity || lia).
Qed.

Lemma withinRange_from dateDD fromISO f :
  readISO fromISO = Some f ->
  withinRange dateDD fromISO EmptyString
  = match parseDDMMYYYYtoDate dateDD with
    | Some d => MakeDate (dayNo f) 0 <=? d
    | None => false
    end.
Proof.
  intros Hf. destruct (parse_readISO _ _ Hf) as (Ef & Pf & Vf).
  unfold withinRange. destruct (parseDDMMYYYYtoDate dateDD) as [d|]; [|reflexivity].
  rewrite Ef, Pf. cbn [isEmpty andb option_map]. rewrite startOfDay.
  destruct (Z.ltb_spec d (MakeDate (dayNo f) 0)),
    (Z.leb_spec (MakeDate (dayNo f) 0) d); cbn; (reflexivity || lia).
Qed.

Lemma withinRange_to dateDD toISO t :
  readISO toISO = Some t ->
  withinRange dateDD EmptyString toISO
  = match parseDDMMYYYYtoDate dateDD with
    | Some d => d <=? MakeDate (dayNo t) 86399999
    | None => false
    end.
Proof.
  intros Ht. destruct (parse_readISO _ _ Ht) as (Et & Pt & Vt).
  unfold withinRange. destruct (parseDDMMYYYYtoDate dateDD) as [d|]; [|reflexivity].
  rewrite Et, Pt. cbn [isEmpty andb option_map]. rewrite endOfDay.
  destruct (Z.ltb_spec (MakeDate (dayNo t) 86399999) d),
    (Z.leb_spec d (MakeDate (dayNo t) 86399999)); cbn; (reflexivity || lia).
Qed.

Lemma dayNo_le a b :
  validCal a = true -> validCal b = true -> calLeb a b = true -> dayNo a <= dayNo b.
Proof. intros Ha Hb. rewrite (calLeb_dayNo a b Ha Hb). apply Z.leb_le. Qed.

Lemma dayNo_gt a b :
  validCal a = true -> validCal b = true -> calLeb a b = false -> dayNo b < dayNo a.
Proof. intros Ha Hb. rewrite (calLeb_dayNo a b Ha Hb). apply Z.leb_gt. Qed.
End bounds.

(** X11.  The range filter follows the order of its bounds, whatever the
    date text of the record: a range whose From is later than its To keeps
    no record at all; a record kept by a range is kept by every range that
    starts no later and ends no earlier, and by the ranges with the From or
    the To left open. *)
Theorem withinRange_order `{Host} (fromISO toISO : string) (f t : CalDate) :
  readISO fromISO = Some f -> readISO toISO = Some t ->
  (calLeb f t = false -> forall dateDD, withinRange dateDD fromISO toISO = false) /\
  (forall fromISO' toISO' f' t' dateDD,
     readISO fromISO' = Some f' -> readISO toISO' = Some t' ->
     calLeb f' f = true -> calLeb t t' = true ->
     withinRange dateDD fromISO toISO = true ->
     withinRange dateDD fromISO' toISO' = true) /\
  (forall dateDD,
     withinRange dateDD fromISO toISO = true ->
     withinRange dateDD fromISO EmptyString = true /\
     withinRange dateDD EmptyString toISO = true /\
     withinRange dateDD EmptyString EmptyString = true).
Proof.
  intros Hf Ht.
  destruct (parse_readISO _ _ Hf) as (_ & _ & Vf).
  destruct (parse_readISO _ _ Ht) as (_ & _ & Vt).
  split; [|split].
  - intros Hgt dateDD. rewrite (withinRange_between _ _ _ f t Hf Ht).
    destruct (parseDDMMYYYYtoDate dateDD) as [d|]; [|reflexivity].
    pose proof (dayNo_gt f t Vf Vt Hgt) as L. unfold MakeDate, msPerDay.
    destruct (Z.leb_spec (dayNo f * 86400000 + 0) d),
      (Z.leb_spec d (dayNo t * 86400000 + 86399999)); cbn; (reflexivity || lia).
  - intros fromISO' toISO' f' t' dateDD Hf' Ht' Lf Lt.
    destruct (parse_readISO _ _ Hf') as (_ & _ & Vf').
    destruct (parse_readISO _ _ Ht') as (_ & _ & Vt').
    rewrite (withinRange_between _ _ _ f t Hf Ht),
      (withinRange_between _ _ _ f' t' Hf' Ht').
    destruct (parseDDMMYYYYtoDate dateDD) as [d|]; [|discriminate].
    pose proof (dayNo_le f' f Vf' Vf Lf) as L1.
    pose proof (dayNo_le t t' Vt Vt' Lt) as L2.
    unfold MakeDate, msPerDay. rewrite !andb_true_iff, !Z.leb_le. lia.
  - intros dateDD. rewrite (withinRange_between _ _ _ f t Hf Ht),
      (withinRange_from _ _ f Hf), (withinRange_to _ _ t Ht).
    unfold withinRange at 1.
    destruct (parseDDMMYYYYtoDate dateDD) as [d|]; [|discriminate].
    rewrite andb_true_iff. intros [H1 H2]. repeat split; assumption.
Qed.

(** June 2024 entered the wrong way round, and June within the year. *)
Lemma withinRange_order_witness :
  (forall dateDD,
     @withinRange RefHost.refHost dateDD "2024-06-30" "2024-06-01" = false) /\
  (forall dateDD,
     @withinRange RefHost.refHost dateDD "2024-06-01" "2024-06-30" = true ->
     @withinRange RefHost.refHost dateDD "2024-01-01" "2024-12-31" = true).
Proof.
  split.
  - apply (proj1 (@withinRange_order RefHost.refHost "2024-06-30" "2024-06-01"
                    (mkCal 2024 6 30) (mkCal 2024 6 1) eq_refl eq_refl)).
    reflexivity.
  - intros dateDD.
    apply (proj1 (proj2 (@withinRange_order RefHost.refHost "2024-06-01" "2024-06-30"
                           (mkCal 2024 6 1) (mkCal 2024 6 30) eq_refl eq_refl))
             "2024-01-01" "2024-12-31" (mkCal 2024 1 1) (mkCal 2024 12 31) dateDD);
      reflexivity.
Defined.

End IsoDates.

(** ** What a query returns *)

Module QueryExact.
Import ListFacts JsString RetrieveReports Spec Dedupe QueryResults.

Section results.
Context `{Host}.

Lemma firstOfEach_sublist seen xs : sublist (firstOfEach seen xs) xs.
Proof.
  revert seen. induction xs as [|x xs IH]; intros seen; cbn [firstOfEach]; [constructor|].
  destruct (bool_decide (identity x ∈ seen)); [apply sublist_cons | apply sublist_skip];
    apply IH.
Qed.

Lemma firstOfEach_complete seen xs x :
  x ∈ xs ->
  identity x ∈ seen \/ exists r, r ∈ firstOfEach seen xs /\ identity r = identity x.
Proof.
  revert seen. induction xs as [|y xs IH]; intros seen Hx; [inversion Hx|].
  cbn [firstOfEach]. apply elem_of_cons in Hx as [-> | Hx].
  - destruct (bool_decide (identity y ∈ seen)) eqn:E.
    + left. now apply bool_decide_eq_true in E.
    + right. exists y. split; [now left | reflexivity].
  - destruct (bool_decide (identity y ∈ seen)) eqn:E; [now apply IH|].
    destruct (IH ({[ identity y ]} ∪ seen) Hx) as [Hin | (r & Hr & Er)].
    + apply elem_of_union in Hin as [Hin | Hin]; [|now left].
      apply elem_of_singleton in Hin. right. exists y. split; [now left | now symmetry].
    + right. exists r. split; [now right | exact Er].
Qed.

Lemma results_exact (dateOf : Doc.t -> string) docs fromISO toISO :
  let results :=
    dedupeById (List.filter (fun r => withinRange (dateOf r) fromISO toISO) docs) in
  (forall r, r ∈ results -> r ∈ docs /\ withinRange (dateOf r) fromISO toISO = true) /\
  (forall d, d ∈ docs -> withinRange (dateOf d) fromISO toISO = true ->
     exists r, r ∈ results /\ identity r = identity d) /\
  NoDup (List.map identity results) /\
  sublist results docs.
Proof.
  intros results. unfold results. rewrite dedupeById_eq.
  split; [|split; [|split]].
  - intros r Hr%firstOfEach_subset.
    apply list_elem_of_In, filter_In in Hr as [Hin Hw].
    split; [now apply list_elem_of_In | exact Hw].
  - intros d Hd Hw.
    assert (Hin : d ∈ List.filter (fun r => withinRange (dateOf r) fromISO toISO) docs).
    { apply list_elem_of_In, filter_In. split; [now apply list_elem_of_In | exact Hw]. }
    destruct (firstOfEach_complete ∅ _ d Hin) as [He | Hex];
      [now apply not_elem_of_empty in He | exact Hex].
  - apply firstOfEach_NoDup.
  - etransitivity; [apply firstOfEach_sublist | apply filter_sublist].
Qed.
End results.

(** X12.  The client-side part of a query returns the fetched documents
    whose date lies in the range, each identity once: every result is a
    fetched document in the range; every fetched document in the range is
    represented by a result of its identity (its id, or its JSON text when
    it has none); no two results share an identity; and the results keep
    the order in which the documents were fetched.  This holds for staff
    evaluations (dated by the date of their selection) and for unit audits
    (dated by their own date). *)
Theorem query_results_exact `{Host} (docs : list Doc.t) (fromISO toISO : string) :
  (let results := staffResults docs fromISO toISO in
   (forall r, r ∈ results -> r ∈ docs /\ withinRange (staffDate r) fromISO toISO = true) /\
   (forall d, d ∈ docs -> withinRange (staffDate d) fromISO toISO = true ->
      exists r, r ∈ results /\ identity r = identity d) /\
   NoDup (List.map identity results) /\
   sublist results docs) /\
  (let results := unitResults docs fromISO toISO in
   (forall r, r ∈ results -> r ∈ docs /\ withinRange (unitDate r) fromISO toISO = true) /\
   (forall d, d ∈ docs -> withinRange (unitDate d) fromISO toISO = true ->
      exists r, r ∈ results /\ identity r = identity d) /\
   NoDup (List.map identity results) /\
   sublist results docs).
Proof.
  split.
  - rewrite staffResults_eq. apply (results_exact staffDate).
  - rewrite unitResults_eq. apply (results_exact unitDate).
Qed.

(** Two evaluations of 01/06/2024, the first fetched twice, queried for
    June 2024. *)
Lemma query_results_exact_witness :
  let a := Sample.evaluation "a1" "Asha Rao" 80 in
  let b := Sample.evaluation "b2" "Ravi" 64 in
  let results := @staffResults RefHost.refHost [a; b; a] "2024-06-01" "2024-06-30" in
  results = [a; b] /\
  NoDup (List.map (@identity RefHost.refHost) results) /\
  sublist results [a; b; a].
Proof.
  intros a b results. split; [vm_compute; reflexivity|].
  exact (proj2 (proj2 (proj1
           (@query_results_exact RefHost.refHost [a; b; a] "2024-06-01" "2024-06-30")))).
Defined.

End QueryExact.

(** ** The row of an employee *)

Module LatestRecord.
Import JsString JsStringFacts JsNumber RetrieveReports Spec Aggregation.

(** [x] is the first of the elements of [l] with the greatest key. *)
Definition firstGreatest {A} (key : A -> Z) (l : list A) (x : A) : Prop :=
  exists before after,
    l = (before ++ x :: after)%list /\
    (forall r, r ∈ before -> key r < key x) /\
    (forall r, r ∈ after -> key r <= key x).

Lemma Array_sort_snoc {A} (cmp : A -> A -> Z) l x :
  Array_sort cmp (l ++ [x]) = sortInsert cmp x (Array_sort cmp l).
Proof. unfold Array_sort. now rewrite fold_left_app. Qed.

Lemma head_sortInsert {A} (cmp : A -> A -> Z) x s :
  head (sortInsert cmp x s)
  = Some match s with
         | [] => x
         | y :: _ => if cmp x y <? 0 then x else y
         end.
Proof. destruct s as [|y s]; cbn [sortInsert]; [reflexivity|]. now destruct (cmp x y <? 0). Qed.

Lemma firstGreatest_max {A} (key : A -> Z) l x r :
  firstGreatest key l x -> r ∈ l -> key r <= key x.
Proof.
  intros (before & after & -> & Hb & Ha) Hr.
  apply elem_of_app in Hr as [Hr | [-> | Hr]%elem_of_cons].
  - specialize (Hb r Hr). lia.
  - lia.
  - now apply Ha.
Qed.

(** Sorting by the key, the greatest first, brings the first of the
    greatest elements to the front. *)
Lemma Array_sort_head {A} (key : A -> Z) (l : list A) :
  match head (Array_sort (fun a b => key b - key a) l) with
  | Some x => firstGreatest key l x
  | None => l = []
  end.
Proof.
  induction l as [|x l IH] using rev_ind; [reflexivity|].
  rewrite Array_sort_snoc, head_sortInsert.
  destruct (Array_sort (fun a b => key b - key a) l) as [|h s] eqn:Es.
  - cbn [head] in IH. subst l. exists [], []. split; [reflexivity|].
    split; intros r Hr; inversion Hr.
  - cbn [head] in IH. destruct (Z.ltb_spec (key h - key x) 0) as [Hlt | Hge].
    + exists l, []. split; [reflexivity|]. split; [|intros r Hr; inversion Hr].
      intros r Hr. pose proof (firstGreatest_max key l h r IH Hr). lia.
    + destruct IH as (before & after & -> & Hb & Ha).
      exists before, (after ++ [x])%list. split; [now rewrite <- app_assoc|].
      split; [exact Hb|].
      intros r [Hr | ->%list_elem_of_singleton]%elem_of_app; [now apply Ha | lia].
Qed.

(** *** The name and the code of a group *)

(** The group of a key carries the trimmed code and name of its first
    record. *)
Definition namedAfterFirst (rs : list Doc.t) (m : list (string * Group)) : Prop :=
  Forall (fun kv =>
            exists first rest,
              members (fst kv) rs = first :: rest /\
              g_empCode (snd kv) = trimmed (Doc.empCode first) /\
              g_staffName (snd kv) = trimmed (Doc.staffName first)) m.

Lemma pushed_names k r kv :
  g_empCode (snd (pushed k r kv)) = g_empCode (snd kv) /\
  g_staffName (snd (pushed k r kv)) = g_staffName (snd kv) /\
  fst (pushed k r kv) = fst kv.
Proof. unfold pushed. destruct (_ =? _)%string; repeat split; reflexivity. Qed.

Lemma mapPush_named rs m r :
  wellGrouped rs m -> namedAfterFirst rs m ->
  namedAfterFirst (rs ++ [r]) (mapPush m (naturalKey r) r).
Proof.
  intros (Hnd & Hkeys & Hrecs) Hn. rewrite naturalKey_eq.
  set (k := groupingKey r). unfold mapPush. fold (pushed k r).
  assert (Hold : Forall (fun kv =>
            exists first rest,
              members (fst kv) (rs ++ [r]) = first :: rest /\
              g_empCode (snd kv) = trimmed (Doc.empCode first) /\
              g_staffName (snd kv) = trimmed (Doc.staffName first)) m).
  { eapply Forall_impl; [exact Hn|]. intros kv (first & rest & Em & Ec & En).
    rewrite members_snoc, Em. cbn [app]. eauto. }
  assert (Hmap : forall m', Forall (fun kv =>
            exists first rest,
              members (fst kv) (rs ++ [r]) = first :: rest /\
              g_empCode (snd kv) = trimmed (Doc.empCode first) /\
              g_staffName (snd kv) = trimmed (Doc.staffName first)) m' ->
          namedAfterFirst (rs ++ [r]) (List.map (pushed k r) m')).
  { intros m' Hm'. unfold namedAfterFirst. rewrite Forall_map.
    eapply Forall_impl; [exact Hm'|]. intros kv (first & rest & Em & Ec & En).
    destruct (pushed_names k r kv) as (-> & -> & ->). eauto. }
  destruct (mapHas m k) eqn:Eh; apply Hmap; [exact Hold|].
  rewrite Forall_app. split; [exact Hold|]. constructor; [|constructor].
  cbn [fst snd g_empCode g_staffName].
  assert (Hnk : k ∉ List.map groupingKey rs).
  { rewrite <- Hkeys. intros Hin. apply mapHas_spec in Hin. congruence. }
  exists r, []. rewrite members_snoc, (members_nil k rs Hnk).
  fold k. rewrite String.eqb_refl. repeat split.
Qed.

Lemma pushAll_named rs : namedAfterFirst rs (pushAll rs []).
Proof.
  induction rs as [|r rs IH] using rev_ind; [constructor|].
  rewrite pushAll_snoc. apply mapPush_named; [apply pushAll_wellGrouped | exact IH].
Qed.

(** *** The rows *)

Section rows.
Context `{Host}.

Lemma rowOf_latest g row :
  rowOf g = Some row ->
  Row.empCode row = g_empCode g /\ Row.staffName row = g_staffName g /\
  exists latest,
    firstGreatest secondsOf (recs g) latest /\
    Row.branch row
    = orElse (Doc.selection latest ≫= Doc.sel_branch) (orElse (Doc.branch latest) "-") /\
    Row.city row
    = orElse (Doc.selection latest ≫= Doc.sel_city) (orElse (Doc.city latest) "-").
Proof.
  unfold rowOf. pose proof (Array_sort_head secondsOf (recs g)) as Hh.
  destruct (Array_sort _ (recs g)) as [|latest rest]; [discriminate|].
  cbn [head] in Hh. intros [= <-]. cbn [Row.empCode Row.staffName Row.branch Row.city].
  split; [reflexivity|]. split; [reflexivity|]. now exists latest.
Qed.
End rows.



End LatestRecord.

(** ** The statistics of the parameters *)

Module ParameterStats.
Import ListFacts JsString JsStringFacts RetrieveReports.

(** *** The names *)

(** The step of the inner loop of [collectParameterNames]. *)
Definition addKey (set : list string) (k : string) : list string :=
  if endsWith "_remarks" k then set
  else if existsb (String.eqb k) set then set
  else (set ++ [k])%list.

Lemma addKey_spec set k :
  NoDup set ->
  NoDup (addKey set k) /\
  forall x, x ∈ addKey set k <-> x ∈ set \/ (x = k /\ endsWith "_remarks" k = false).
Proof.
  intros Hnd. unfold addKey. destruct (endsWith "_remarks" k) eqn:Er.
  - split; [exact Hnd|]. intros x. split; [auto | intros [? | [_ ?]]; [assumption | discriminate]].
  - destruct (existsb (String.eqb k) set) eqn:Ee.
    + apply existsb_eqb_iff in Ee. split; [exact Hnd|].
      intros x. split; [auto | intros [? | [-> _]]; assumption].
    + assert (Hn : k ∉ set) by (rewrite <- existsb_eqb_iff; congruence).
      split.
      * apply NoDup_app. split; [exact Hnd|]. split; [|apply NoDup_singleton].
        intros x Hx ->%list_elem_of_singleton. contradiction.
      * intros x. rewrite elem_of_app, list_elem_of_singleton. split.
        -- intros [? | ->]; auto.
        -- intros [? | [-> _]]; auto.
Qed.

Lemma addKeys_spec ks set :
  NoDup set ->
  NoDup (fold_left addKey ks set) /\
  forall x, x ∈ fold_left addKey ks set
            <-> x ∈ set \/ (x ∈ ks /\ endsWith "_remarks" x = false).
Proof.
  revert set. induction ks as [|k ks IH]; intros set Hnd; cbn [fold_left].
  - split; [exact Hnd|]. intros x. split; [auto | intros [? | [Hx _]]; [assumption | inversion Hx]].
  - destruct (addKey_spec set k Hnd) as [Hnd1 H1].
    destruct (IH _ Hnd1) as [Hnd2 H2]. split; [exact Hnd2|].
    intros x. rewrite H2, H1, elem_of_cons. split.
    + intros [[? | [-> ?]] | [? ?]]; auto.
    + intros [? | [[-> | ?] ?]]; auto.
Qed.

Lemma collect_spec docs set :
  NoDup set ->
  let names :=
    fold_left (fun set d => fold_left addKey (List.map fst (ratingsOf d)) set) docs set in
  NoDup names /\
  forall x, x ∈ names
            <-> x ∈ set \/ (exists d, d ∈ docs /\ x ∈ List.map fst (ratingsOf d)
                                      /\ endsWith "_remarks" x = false).
Proof.
  revert set. induction docs as [|d docs IH]; intros set Hnd; cbn [fold_left].
  - split; [exact Hnd|]. intros x. split; [auto|].
    intros [? | (d & Hd & _)]; [assumption | inversion Hd].
  - destruct (addKeys_spec (List.map fst (ratingsOf d)) set Hnd) as [Hnd1 H1].
    destruct (IH _ Hnd1) as [Hnd2 H2]. split; [exact Hnd2|].
    intros x. rewrite H2, H1. split.
    + intros [[? | [? ?]] | (d' & Hd' & ? & ?)]; [auto | right | right].
      * exists d. split; [now left | auto].
      * exists d'. split; [now right | auto].
    + intros [? | (d' & [-> | Hd']%elem_of_cons & ? & ?)]; [auto | auto |].
      right. exists d'. auto.
Qed.

(** X14.  The parameter names of a list of evaluations are the keys of
    their ratings objects, those ending in "_remarks" left out: each such
    key is listed, once, and nothing else is. *)
Theorem collectParameterNames_spec (docs : list Doc.t) :
  NoDup (collectParameterNames docs) /\
  (forall k, k ∈ collectParameterNames docs <->
     exists d, d ∈ docs /\ k ∈ List.map fst (ratingsOf d)
               /\ endsWith "_remarks" k = false) /\
  (forall d, Doc.ratings d = None -> collectParameterNames (d :: docs)
                                     = collectParameterNames docs).
Proof.
  destruct (collect_spec docs [] (NoDup_nil_2 (A := string))) as [Hnd Hin].
  split; [exact Hnd|]. split.
  - intros k. unfold collectParameterNames. fold addKey. rewrite Hin. split.
    + intros [Hk | ?]; [inversion Hk | assumption].
    + auto.
  - intros d Hd. unfold collectParameterNames. cbn [fold_left].
    replace (ratingsOf d) with (@nil (string * string))
      by (unfold ratingsOf; now rewrite Hd).
    reflexivity.
Qed.

(** *** The tallies *)

(** The rating is one of the four. *)
Definition recognised (v : string) : bool :=
  negb (isEmpty v) && existsb (String.eqb v) ["Excellent"; "Good"; "Average"; "Poor"].

(** What an evaluation adds to the tally of a parameter. *)
Definition tallyOne (d : Doc.t) (p : string) (t : Tally) : Tally :=
  match prop (ratingsOf d) p with
  | Some v => if recognised v then bump v t else t
  | None => t
  end.

(** The evaluations that rate the parameter [p] as [v]. *)
Definition ratedAs (p v : string) (docs : list Doc.t) : Z :=
  Z.of_nat (length (List.filter
                      (fun d => bool_decide (prop (ratingsOf d) p = Some v)) docs)).

Lemma updateStats_same stats p : updateStats stats p (fun t => t) = stats.
Proof.
  unfold updateStats. rewrite <- (List.map_id stats) at 2.
  apply List.map_ext. intros [k t]. cbn [fst snd]. now destruct (_ =? _)%string.
Qed.

Lemma inner_step d stats p :
  match prop (ratingsOf d) p with
  | Some v =>
      if negb (isEmpty v) && existsb (String.eqb v) ["Excellent"; "Good"; "Average"; "Poor"]
      then updateStats stats p (bump v)
      else stats
  | None => stats
  end
  = updateStats stats p (tallyOne d p).
Proof.
  unfold tallyOne, recognised. destruct (prop (ratingsOf d) p) as [v|].
  - destruct (negb (isEmpty v) && _); [reflexivity | now rewrite updateStats_same].
  - now rewrite updateStats_same.
Qed.

Lemma fold_updateStats (F : string -> Tally -> Tally) ps stats :
  NoDup ps ->
  fold_left (fun stats p => updateStats stats p (F p)) ps stats
  = List.map (fun kv => if existsb (String.eqb (fst kv)) ps
                        then (fst kv, F (fst kv) (snd kv)) else kv) stats.
Proof.
  revert stats. induction ps as [|p ps IH]; intros stats Hnd; cbn [fold_left].
  - cbn [existsb]. now rewrite List.map_id.
  - apply NoDup_cons in Hnd as [Hp Hnd]. rewrite (IH _ Hnd).
    unfold updateStats. rewrite List.map_map. apply List.map_ext.
    intros [k t]. cbn [fst snd existsb].
    destruct (String.eqb_spec k p) as [-> | Hk]; cbn [fst snd orb].
    + destruct (existsb (String.eqb p) ps) eqn:E; [|reflexivity].
      apply existsb_eqb_iff in E. contradiction.
    + reflexivity.
Qed.

Lemma stats_step d params (T : string -> Tally) :
  NoDup params ->
  fold_left
    (fun stats p =>
       match prop (ratingsOf d) p with
       | Some v =>
           if negb (isEmpty v)
              && existsb (String.eqb v) ["Excellent"; "Good"; "Average"; "Poor"]
           then updateStats stats p (bump v)
           else stats
       | None => stats
       end)
    params (List.map (fun p => (p, T p)) params)
  = List.map (fun p => (p, tallyOne d p (T p))) params.
Proof.
  intros Hnd.
  rewrite (fold_left_ext_elem _
             (fun stats p => updateStats stats p (tallyOne d p)))
    by (intros p acc _; apply inner_step).
  rewrite (fold_updateStats (tallyOne d)) by exact Hnd.
  rewrite List.map_map. apply List.map_ext_in. intros p Hp. cbn [fst snd].
  destruct (existsb (String.eqb p) params) eqn:E; [reflexivity|].
  apply list_elem_of_In, existsb_eqb_iff in Hp. congruence.
Qed.

Lemma stats_fold docs params (T : string -> Tally) :
  NoDup params ->
  fold_left
    (fun stats d =>
       let r := ratingsOf d in
       fold_left
         (fun stats p =>
            match prop r p with
            | Some v =>
                if negb (isEmpty v)
                   && existsb (String.eqb v) ["Excellent"; "Good"; "Average"; "Poor"]
                then updateStats stats p (bump v)
                else stats
            | None => stats
            end)
         params stats)
    docs (List.map (fun p => (p, T p)) params)
  = List.map (fun p => (p, fold_left (fun t d => tallyOne d p t) docs (T p))) params.
Proof.
  intros Hnd. revert T. induction docs as [|d docs IH]; intros T; [reflexivity|].
  cbn [fold_left]. cbv zeta. rewrite (stats_step d params T Hnd).
  apply (IH (fun p => tallyOne d p (T p))).
Qed.

Lemma tallyOne_fields d p t :
  Excellent (tallyOne d p t)
  = Excellent t + indicator (bool_decide (prop (ratingsOf d) p = Some "Excellent")) /\
  Good (tallyOne d p t)
  = Good t + indicator (bool_decide (prop (ratingsOf d) p = Some "Good")) /\
  Average (tallyOne d p t)
  = Average t + indicator (bool_decide (prop (ratingsOf d) p = Some "Average")) /\
  Poor (tallyOne d p t)
  = Poor t + indicator (bool_decide (prop (ratingsOf d) p = Some "Poor")) /\
  total (tallyOne d p t)
  = total t
    + indicator (bool_decide (prop (ratingsOf d) p = Some "Excellent"))
    + indicator (bool_decide (prop (ratingsOf d) p = Some "Good"))
    + indicator (bool_decide (prop (ratingsOf d) p = Some "Average"))
    + indicator (bool_decide (prop (ratingsOf d) p = Some "Poor")).
Proof.
  unfold tallyOne. destruct (prop (ratingsOf d) p) as [v|].
  - unfold recognised, bump. cbn [existsb].
    destruct (String.eqb_spec v "Excellent") as [-> | N1];
      [| destruct (String.eqb_spec v "Good") as [-> | N2];
         [| destruct (String.eqb_spec v "Average") as [-> | N3];
            [| destruct (String.eqb_spec v "Poor") as [-> | N4] ] ] ];
      cbn [isEmpty negb andb orb Excellent Good Average Poor total];
      try (rewrite ?andb_false_r);
      repeat case_bool_decide; try congruence;
      cbn [indicator]; repeat split; lia.
  - repeat case_bool_decide; try congruence.
    cbn [indicator]. repeat split; lia.
Qed.

Lemma tally_fold docs p t :
  let t' := fold_left (fun t d => tallyOne d p t) docs t in
  Excellent t' = Excellent t + ratedAs p "Excellent" docs /\
  Good t' = Good t + ratedAs p "Good" docs /\
  Average t' = Average t + ratedAs p "Average" docs /\
  Poor t' = Poor t + ratedAs p "Poor" docs /\
  total t' = total t + ratedAs p "Excellent" docs + ratedAs p "Good" docs
             + ratedAs p "Average" docs + ratedAs p "Poor" docs.
Proof.
  revert t. induction docs as [|d docs IH]; intros t; cbn [fold_left].
  - unfold ratedAs. cbn. repeat split; lia.
  - destruct (IH (tallyOne d p t)) as (E1 & E2 & E3 & E4 & E5).
    destruct (tallyOne_fields d p t) as (F1 & F2 & F3 & F4 & F5).
    cbv zeta. rewrite E1, E2, E3, E4, E5, F1, F2, F3, F4, F5.
    unfold ratedAs. rewrite !filter_count. repeat split; lia.
Qed.

Lemma indicator_exclusive (o : option string) :
  0 <= indicator (bool_decide (o = Some "Excellent"))
       + indicator (bool_decide (o = Some "Good"))
       + indicator (bool_decide (o = Some "Average"))
       + indicator (bool_decide (o = Some "Poor")) <= 1.
Proof.
  repeat case_bool_decide; cbn [indicator]; try lia; congruence.
Qed.

Lemma ratedAs_bound p docs :
  0 <= ratedAs p "Excellent" docs + ratedAs p "Good" docs
       + ratedAs p "Average" docs + ratedAs p "Poor" docs
    <= Z.of_nat (length docs).
Proof.
  induction docs as [|d docs IH]; [unfold ratedAs; cbn; lia|].
  unfold ratedAs in *. rewrite !filter_count.
  pose proof (indicator_exclusive (prop (ratingsOf d) p)). cbn [length]. lia.
Qed.

(** X15.  The statistics list the collected parameter names, and for each
    of them count the evaluations that rate it Excellent, Good, Average
    and Poor: each count is the number of evaluations whose ratings object
    gives the parameter that rating, and the total is the sum of the four
    counts, which is the number of evaluations that give the parameter one
    of the four ratings, at most the number of evaluations. *)
Theorem computeParameterStats_spec (docs : list Doc.t) :
  let params := fst (computeParameterStats docs) in
  let stats := snd (computeParameterStats docs) in
  params = collectParameterNames docs /\
  List.map fst stats = params /\
  forall p t, (p, t) ∈ stats ->
    Excellent t = ratedAs p "Excellent" docs /\
    Good t = ratedAs p "Good" docs /\
    Average t = ratedAs p "Average" docs /\
    Poor t = ratedAs p "Poor" docs /\
    total t = Excellent t + Good t + Average t + Poor t /\
    0 <= total t <= Z.of_nat (length docs).
Proof.
  intros params stats.
  assert (Es : stats
               = List.map (fun p => (p, fold_left (fun t d => tallyOne d p t) docs
                                          (mkTally 0 0 0 0 0)))
                   (collectParameterNames docs)).
  { unfold stats, computeParameterStats. cbn [snd].
    apply (stats_fold docs (collectParameterNames docs) (fun _ => mkTally 0 0 0 0 0)).
    exact (proj1 (collect_spec docs [] (NoDup_nil_2 (A := string)))). }
  split; [reflexivity|]. split.
  - rewrite Es, List.map_map. cbn [fst]. apply List.map_id.
  - intros p t Hin. rewrite Es in Hin.
    apply list_elem_of_In, in_map_iff in Hin as (p' & [= <- <-] & _).
    destruct (tally_fold docs p' (mkTally 0 0 0 0 0)) as (E1 & E2 & E3 & E4 & E5).
    cbn [Excellent Good Average Poor total] in E1, E2, E3, E4, E5.
    pose proof (ratedAs_bound p' docs) as B.
    cbv zeta in E1, E2, E3, E4, E5.
    rewrite E1, E2, E3, E4, E5. repeat split; lia.
Qed.

End ParameterStats.

(** ** From the selection page to the forms *)

Module SelectionFlow.
Import JsString JsStringFacts JsNumber JsNumberFacts JsDate Store Spec.
Import DateNormalizer RangeFilter Uniqueness.

(** *** Today's date *)

(** The calendar date of a local time. *)
Definition calOf (t : LocalTime) : CalDate :=
  mkCal (getFullYear t) (getMonth t + 1) (getDate t).

Lemma parseDigits_two a b :
  0 <= a <= 9 -> 0 <= b <= 9 ->
  parseDigits (String (digitChar a) (String (digitChar b) EmptyString)) 0 = 10 * a + b.
Proof.
  intros Ha Hb. cbn [parseDigits]. rewrite !digitVal_digitChar by assumption. lia.
Qed.

Lemma parseDigits_four a b c d :
  0 <= a <= 9 -> 0 <= b <= 9 -> 0 <= c <= 9 -> 0 <= d <= 9 ->
  parseDigits (String (digitChar a) (String (digitChar b)
                 (String (digitChar c) (String (digitChar d) EmptyString)))) 0
  = 1000 * a + 100 * b + 10 * c + d.
Proof.
  intros Ha Hb Hc Hd. cbn [parseDigits]. rewrite !digitVal_digitChar by assumption. lia.
Qed.

Lemma two_digits n :
  0 <= n < 100 ->
  let s := padStart 2 "0" (Number_toString n) in
  digitsBetween 2 2 s = true /\ parseDigits s 0 = n.
Proof.
  intros Hn s. unfold s. rewrite (pad2_form n Hn). split.
  - unfold digitsBetween. cbn [allChars String.length Nat.leb andb].
    now rewrite !digitChar_isDigit by lia.
  - rewrite parseDigits_two by lia. lia.
Qed.

Lemma four_digits n :
  1000 <= n <= 9999 ->
  let s := Number_toString n in
  digitsBetween 4 4 s = true /\ parseDigits s 0 = n.
Proof.
  intros Hn s. unfold s. rewrite (toString_4 n) by lia. split.
  - unfold digitsBetween. cbn [allChars String.length Nat.leb andb].
    now rewrite !digitChar_isDigit by lia.
  - rewrite parseDigits_four by lia. lia.
Qed.

Lemma validCal_calOf t :
  validLocalTime t -> 1000 <= getFullYear t <= 9999 -> validCal (calOf t) = true.
Proof.
  intros (Hm & Hd & _) Hy. unfold validCal, calOf. cbn [year month day].
  replace (getMonth t + 1 - 1) with (getMonth t) by lia.
  repeat (apply andb_true_intro; split); apply Z.leb_le; lia.
Qed.

(** The text written for a local time reads back as its calendar date. *)
Lemma formatLocal_read t :
  validLocalTime t -> 1000 <= getFullYear t <= 9999 ->
  canonicalDate (formatLocal t) = true /\
  readDDMMYYYY (formatLocal t) = Some (calOf t).
Proof.
  intros Hv Hy. pose proof (validCal_calOf t Hv Hy) as Hc.
  destruct Hv as (Hm & Hd & _).
  assert (Hd' : 1 <= getDate t <= 31).
  { split; [lia|]. eapply Z.le_trans; [apply Hd|]. apply daysInMonth_le. }
  destruct (two_digits (getDate t) ltac:(lia)) as [Dd Pd].
  destruct (two_digits (getMonth t + 1) ltac:(lia)) as [Dm Pm].
  destruct (four_digits (getFullYear t) Hy) as [Dy Py].
  unfold formatLocal. cbv zeta. rewrite slashed_eq.
  destruct (IsoDates.digitsBetween_spec _ _ _ Dd) as [Ad _].
  destruct (IsoDates.digitsBetween_spec _ _ _ Dm) as [Am _].
  destruct (IsoDates.digitsBetween_spec _ _ _ Dy) as [Ay _].
  assert (Es : split "/" (slashed (padStart 2 "0" (Number_toString (getDate t)))
                            (padStart 2 "0" (Number_toString (getMonth t + 1)))
                            (Number_toString (getFullYear t)))
               = [padStart 2 "0" (Number_toString (getDate t));
                  padStart 2 "0" (Number_toString (getMonth t + 1));
                  Number_toString (getFullYear t)]).
  { apply split_three; apply digits_noChar; (apply slash_not_digit || assumption). }
  unfold canonicalDate, readDDMMYYYY. rewrite Es, Dd, Dm, Dy, Pd, Pm, Py.
  fold (calOf t). now rewrite Hc.
Qed.

(** X16.  The date a selection carries: for a local time [now] of a year
    of four digits, today's date as the selection page writes it is the
    canonical dd/mm/yyyy text of the calendar date of [now].  Both forms
    keep it as it is when they normalise it, so does [isoToDDMMYYYY], the
    report page writes the same text for the same day, and the range filter
    of the reports reads it back as the local midnight of that day. *)
Theorem todayDD_is_canonical `{Host} (now : LocalTime) :
  validLocalTime now -> 1000 <= getFullYear now <= 9999 ->
  let today := SelectPage.todayDD now in
  canonicalDate today = true /\
  readDDMMYYYY today = Some (calOf now) /\
  AuditForm.formatDateDDMMYYYY (Some today) = today /\
  StaffEvaluation.ensureDDMMYYYY (Some today) = today /\
  RetrieveReports.isoToDDMMYYYY today = today /\
  RetrieveReports.formatTodayDDMMYYYY now = today /\
  RetrieveReports.parseDDMMYYYYtoDate today = Some (getTime now - msOfDay now).
Proof.
  intros Hv Hy today.
  destruct (formatLocal_read now Hv Hy) as [Hc Hr].
  change today with (formatLocal now).
  destruct (canonical_fixed _ Hc) as [He Hf].
  split; [exact Hc|]. split; [exact Hr|]. split; [exact Hf|]. split; [exact He|].
  split; [|split; [reflexivity|]].
  - destruct (canonical_form _ Hc) as (a & b & c & E & Da & Db & Dc & La & Lb & Lc).
    unfold RetrieveReports.isoToDDMMYYYY.
    assert (Ht : reDDMMYYYY_test (formatLocal now) = true).
    { rewrite E. unfold reDDMMYYYY_test, slashed.
      rewrite split_three by (apply digits_noChar; (apply slash_not_digit || assumption)).
      unfold digitsBetween. rewrite Da, Db, Dc, La, Lb, Lc. reflexivity. }
    rewrite Ht. now destruct (formatLocal now).
  - destruct (parse_readDDMMYYYY _ _ Hr) as [-> _]. f_equal.
    unfold dayNo, calOf, getTime, MakeDate. cbn [year month day].
    replace (getMonth now + 1 - 1) with (getMonth now) by lia. lia.
Qed.

Lemma todayDD_is_fixed `{Host} (now : LocalTime) :
  validLocalTime now -> 1000 <= getFullYear now <= 9999 ->
  canonicalDate (SelectPage.todayDD now) = true /\
  AuditForm.formatDateDDMMYYYY (Some (SelectPage.todayDD now)) = SelectPage.todayDD now.
Proof.
  intros Hv Hy. destruct (formatLocal_read now Hv Hy) as [Hc _].
  split; [exact Hc|]. now destruct (canonical_fixed _ Hc).
Qed.

(** The first of June 2024, at one in the afternoon. *)
Lemma todayDD_is_canonical_witness :
  let now := {| getFullYear := 2024; getMonth := 5; getDate := 1;
                msOfDay := 46800000 |} in
  let today := @SelectPage.todayDD RefHost.refHost now in
  today = "01/06/2024" /\
  @AuditForm.formatDateDDMMYYYY RefHost.refHost (Some today) = today /\
  @StaffEvaluation.ensureDDMMYYYY RefHost.refHost (Some today) = today /\
  @RetrieveReports.parseDDMMYYYYtoDate RefHost.refHost today
  = Some (getTime now - msOfDay now).
Proof.
  intros now today.
  assert (Hv : validLocalTime now) by (unfold validLocalTime, msPerDay; cbn; lia).
  assert (Hy : 1000 <= getFullYear now <= 9999) by (cbn; lia).
  destruct (@todayDD_is_canonical RefHost.refHost now Hv Hy)
    as (_ & _ & Hf & He & _ & _ & Hp).
  split; [reflexivity|]. split; [exact Hf|]. split; [exact He | exact Hp].
Defined.

(** *** The guard of the selection page *)

Lemma select_unit_answers todayDD branch w :
  isEmpty branch = false -> storeAnswers w ->
  SelectPage.handleSubmit todayDD branch "unit" w
  = match List.filter
            (fun r => String.eqb (UnitAudit.branch r) branch
                      && String.eqb (UnitAudit.date r) todayDD) (unitAudits w)
    with
    | [] => (Returned (Some {| SelectPage.branch := branch;
                               SelectPage.city := SelectPage.cityOf branch;
                               SelectPage.auditor := "Kumar Kannaiyan";
                               SelectPage.date := todayDD;
                               SelectPage.type := "unit" |}), afterCall w)
    | _ :: _ =>
        (Returned None,
         withAlert (afterCall w) (SelectPage.existsMessage branch todayDD))
    end.
Proof.
  intros Hb Hs. unfold SelectPage.handleSubmit. rewrite Hb.
  change (false || isEmpty "unit") with false.
  change (String.eqb "unit" "unit") with true. cbv iota.
  unfold tryCatch. rewrite run_bind, (getDocs_unitAudits_answers _ _ w Hs).
  destruct (List.filter _ (unitAudits w)); reflexivity.
Qed.

Lemma select_unit_fails todayDD branch w e rest :
  isEmpty branch = false -> outages w = Some e :: rest ->
  SelectPage.handleSubmit todayDD branch "unit" w
  = (Returned None,
     withAlert (withConsole (afterCall w) ("Error checking existing audit: " ++ e))
       (SelectPage.connectionMessage e)).
Proof.
  intros Hb Ho. unfold SelectPage.handleSubmit. rewrite Hb.
  change (false || isEmpty "unit") with false.
  change (String.eqb "unit" "unit") with true. cbv iota.
  unfold tryCatch. rewrite run_bind, (getDocs_unitAudits_fails _ _ w e rest Ho).
  reflexivity.
Qed.

Lemma filter_on_record w b d :
  List.filter (fun r => String.eqb (UnitAudit.branch r) b
                        && String.eqb (UnitAudit.date r) d) (unitAudits w) = []
  <-> ~ unitAuditOnRecord w b d.
Proof.
  rewrite ListFacts.filter_nil_iff. unfold unitAuditOnRecord. split.
  - intros Hf (r & Hr & Eb & Ed). specialize (Hf r Hr).
    now rewrite Eb, Ed, !String.eqb_refl in Hf.
  - intros Hn r Hr.
    destruct (String.eqb_spec (UnitAudit.branch r) b) as [Eb|]; [|reflexivity].
    destruct (String.eqb_spec (UnitAudit.date r) d) as [Ed|]; [|reflexivity].
    exfalso. apply Hn. now exists r.
Qed.

Lemma classic_on_record w b d :
  unitAuditOnRecord w b d \/ ~ unitAuditOnRecord w b d.
Proof.
  destruct (List.filter (fun r => String.eqb (UnitAudit.branch r) b
                                  && String.eqb (UnitAudit.date r) d) (unitAudits w))
    as [|r rs] eqn:Ef.
  - right. now apply filter_on_record.
  - left. assert (Hin : In r (List.filter
                                (fun r => String.eqb (UnitAudit.branch r) b
                                          && String.eqb (UnitAudit.date r) d)
                                (unitAudits w))) by (rewrite Ef; now left).
    apply filter_In in Hin as [Hin E]. apply andb_prop in E as [Eb Ed].
    apply String.eqb_eq in Eb, Ed. exists r.
    split; [now apply list_elem_of_In | now split].
Qed.

Lemma storeAnswers_dec w :
  storeAnswers w \/ exists e rest, outages w = Some e :: rest.
Proof.
  unfold storeAnswers. destruct (outages w) as [|[e|] rest]; eauto.
Qed.

(** X17.  The selection page hands a selection on (calls [onSelect])
    exactly when a branch and a type are chosen and, for a unit audit, the
    store answered the query and holds no unit audit of that branch for
    today.  The selection handed on carries the branch, its city, the
    auditor's name, today's date and the type.  In every other case an
    alert is shown and nothing is handed on: in particular when the query
    fails, the page does not let the user through.  A staff evaluation is
    let through without a call to the store.  The page never writes to
    the store and no error escapes it. *)
Theorem selection_guard (todayDD branch type : string) (w : World) :
  exists res w',
    SelectPage.handleSubmit todayDD branch type w = (Returned res, w') /\
    unitAudits w' = unitAudits w /\ staffEvaluations w' = staffEvaluations w /\
    match res with
    | Some sel =>
        sel = {| SelectPage.branch := branch;
                 SelectPage.city := SelectPage.cityOf branch;
                 SelectPage.auditor := "Kumar Kannaiyan";
                 SelectPage.date := todayDD;
                 SelectPage.type := type |} /\
        isEmpty branch = false /\ isEmpty type = false /\
        alerts w' = alerts w /\
        (type = "unit" -> storeAnswers w /\ ~ unitAuditOnRecord w branch todayDD) /\
        (type <> "unit" -> w' = w)
    | None =>
        (exists msg, alerts w' = (alerts w ++ [msg])%list) /\
        (isEmpty branch = true \/ isEmpty type = true \/
         (type = "unit" /\
          (unitAuditOnRecord w branch todayDD
           \/ exists e rest, outages w = Some e :: rest)))
    end.
Proof.
  destruct (isEmpty branch) eqn:Hb.
  { exists None, (withAlert w "Please select both Branch and Type.").
    unfold SelectPage.handleSubmit. rewrite Hb.
    split; [reflexivity|]. split; [reflexivity|]. split; [reflexivity|].
    split; [now eexists | now left]. }
  destruct (isEmpty type) eqn:Ht.
  { exists None, (withAlert w "Please select both Branch and Type.").
    unfold SelectPage.handleSubmit. rewrite Hb, Ht.
    split; [reflexivity|]. split; [reflexivity|]. split; [reflexivity|].
    split; [now eexists | right; now left]. }
  destruct (String.eqb_spec type "unit") as [-> | Hn].
  - destruct (storeAnswers_dec w) as [Hs | (e & rest & Ho)].
    + rewrite (select_unit_answers todayDD branch w Hb Hs).
      destruct (List.filter _ (unitAudits w)) as [|r rs] eqn:Ef.
      * apply filter_on_record in Ef. do 2 eexists. split; [reflexivity|].
        split; [reflexivity|]. split; [reflexivity|].
        repeat split; try reflexivity; try assumption. intros Hc. now contradiction Hc.
      * do 2 eexists. split; [reflexivity|].
        split; [reflexivity|]. split; [reflexivity|].
        split; [now eexists|]. do 2 right. split; [reflexivity|]. left.
        destruct (classic_on_record w branch todayDD) as [Hr | Hr]; [exact Hr|].
        apply filter_on_record in Hr. congruence.
    + rewrite (select_unit_fails todayDD branch w e rest Hb Ho).
      do 2 eexists. split; [reflexivity|].
      split; [reflexivity|]. split; [reflexivity|].
      split; [now eexists|]. do 2 right. split; [reflexivity|]. right. eauto.
  - exists (Some {| SelectPage.branch := branch;
                    SelectPage.city := SelectPage.cityOf branch;
                    SelectPage.auditor := "Kumar Kannaiyan";
                    SelectPage.date := todayDD;
                    SelectPage.type := type |}), w.
    unfold SelectPage.handleSubmit. rewrite Hb, Ht.
    destruct (String.eqb_spec type "unit") as [E | _]; [contradiction|].
    split; [reflexivity|]. split; [reflexivity|]. split; [reflexivity|].
    split; [reflexivity|]. split; [reflexivity|]. split; [reflexivity|].
    split; [reflexivity|]. split; [intros E; contradiction | reflexivity].
Qed.

(** *** From the page to the form *)

Lemma unit_write `{Host} formData selection w :
  AuditForm.validate formData (AuditForm.defaultSelection selection) = [] ->
  storeAnswers w -> storeAnswers (afterCall w) ->
  ~ unitAuditOnRecord w (AuditForm.field (AuditForm.branch selection))
      (AuditForm.formatDateDDMMYYYY (AuditForm.date selection)) ->
  let payload :=
    AuditForm.payloadOf formData (AuditForm.defaultSelection selection) (clock w) in
  AuditForm.handleSubmit formData selection w
  = (Returned tt,
     {| unitAudits := (unitAudits w ++ [payload])%list;
        staffEvaluations := staffEvaluations w;
        outages := tail (tail (outages w));
        alerts := (alerts w
                   ++ [("‚úÖ Audit submitted successfully! Score: "
                        ++ Number_toString (UnitAudit.scoreOutOf100 payload)
                        ++ " / 100")%string])%list;
        console := console w; clock := clock w |}).
Proof.
  intros Hv Hs Hs2 Hn payload. unfold AuditForm.handleSubmit. rewrite Hv.
  rewrite run_bind. unfold get at 1. fold payload. unfold tryCatch.
  rewrite run_bind, (getDocs_unitAudits_answers _ _ w Hs).
  apply filter_on_record in Hn.
  change (UnitAudit.branch payload) with (AuditForm.field (AuditForm.branch selection)).
  change (UnitAudit.date payload)
    with (AuditForm.formatDateDDMMYYYY (AuditForm.date selection)).
  rewrite Hn. unfold addDoc_unitAudits.
  rewrite !run_bind, (storeCall_answers _ Hs2). reflexivity.
Qed.

(** X18.  The guard of the selection page and the guard of the unit audit
    form agree on the key.  When the page lets a unit audit of a branch
    through, on a day of a year of four digits, the application shows the
    unit audit form with that selection; and a complete form submitted
    then, the store answering and nobody having written in between, is not
    refused: the audit is stored under that branch and under the very text
    of today's date the page had looked for, and the success is shown. *)
Theorem admitted_audit_is_stored `{Host} (now : LocalTime) (branch : string)
    (formData : AuditForm.FormData) (w w1 : World) (sel : SelectPage.Selection) :
  validLocalTime now -> 1000 <= getFullYear now <= 9999 ->
  SelectPage.handleSubmit (SelectPage.todayDD now) branch "unit" w
  = (Returned (Some sel), w1) ->
  let st := App.handleSelection sel App.initialState in
  let selection := App.unitSelection st in
  AuditForm.validate formData (AuditForm.defaultSelection selection) = [] ->
  storeAnswers w1 -> storeAnswers (afterCall w1) ->
  let w2 := snd (AuditForm.handleSubmit formData selection w1) in
  App.page st = "unit" /\
  ~ unitAuditOnRecord w branch (SelectPage.todayDD now) /\
  exists r msg,
    unitAudits w2 = (unitAudits w ++ [r])%list /\
    UnitAudit.branch r = branch /\
    UnitAudit.date r = SelectPage.todayDD now /\
    UnitAudit.auditor r = "Kumar Kannaiyan" /\
    alerts w2 = (alerts w ++ [msg])%list /\
    unitAuditOnRecord w2 branch (SelectPage.todayDD now).
Proof.
  intros Hv Hy Hsel st selection Hval Hs1 Hs2 w2.
  destruct (todayDD_is_fixed now Hv Hy) as [_ Hfix].
  destruct (isEmpty branch) eqn:Hb.
  { unfold SelectPage.handleSubmit in Hsel. rewrite Hb in Hsel. discriminate Hsel. }
  destruct (storeAnswers_dec w) as [Hs | (e & rest & Ho)];
    [|rewrite (select_unit_fails _ branch w e rest Hb Ho) in Hsel; discriminate Hsel].
  rewrite (select_unit_answers _ branch w Hb Hs) in Hsel.
  destruct (List.filter _ (unitAudits w)) as [|r0 rs] eqn:Ef; [|discriminate Hsel].
  injection Hsel as <- <-. apply filter_on_record in Ef.
  split; [reflexivity|]. split; [exact Ef|].
  assert (Hn : ~ unitAuditOnRecord (afterCall w)
                   (AuditForm.field (AuditForm.branch selection))
                   (AuditForm.formatDateDDMMYYYY (AuditForm.date selection))).
  { unfold selection, st. cbn [App.unitSelection App.handleSelection App.selection
      SelectPage.branch SelectPage.date AuditForm.branch AuditForm.date AuditForm.field
      from_option id].
    rewrite Hfix. exact Ef. }
  unfold w2. rewrite (unit_write formData selection (afterCall w) Hval Hs1 Hs2 Hn).
  cbn [snd unitAudits alerts].
  do 2 eexists. split; [reflexivity|].
  unfold AuditForm.payloadOf, selection, st.
  cbn [UnitAudit.branch UnitAudit.date UnitAudit.auditor App.unitSelection
       App.handleSelection App.selection SelectPage.branch SelectPage.date
       SelectPage.auditor AuditForm.defaultSelection AuditForm.branch AuditForm.date
       AuditForm.auditor AuditForm.field from_option id].
  rewrite Hfix. split; [reflexivity|]. split; [reflexivity|]. split; [reflexivity|].
  split; [reflexivity|].
  eexists. split; [apply elem_of_app; right; now left|].
  cbn [UnitAudit.branch UnitAudit.date]. split; reflexivity.
Qed.

(** Whitefield, clean so far, on the first of June 2024. *)
Lemma admitted_audit_is_stored_witness :
  let now := {| getFullYear := 2024; getMonth := 5; getDate := 1;
                msOfDay := 46800000 |} in
  let today := @SelectPage.todayDD RefHost.refHost now in
  let w := Sample.session [] in
  let sel := {| SelectPage.branch := "Whitefield";
                SelectPage.city := Some "Bangalore";
                SelectPage.auditor := "Kumar Kannaiyan";
                SelectPage.date := today;
                SelectPage.type := "unit" |} in
  let selection := App.unitSelection (App.handleSelection sel App.initialState) in
  let w2 := snd (@AuditForm.handleSubmit RefHost.refHost Sample.auditForm selection
                   (afterCall w)) in
  SelectPage.handleSubmit today "Whitefield" "unit" w = (Returned (Some sel), afterCall w) /\
  App.page (App.handleSelection sel App.initialState) = "unit" /\
  ~ unitAuditOnRecord w "Whitefield" today /\
  exists r msg,
    unitAudits w2 = (unitAudits w ++ [r])%list /\
    UnitAudit.branch r = "Whitefield" /\
    UnitAudit.date r = today /\
    UnitAudit.auditor r = "Kumar Kannaiyan" /\
    alerts w2 = (alerts w ++ [msg])%list /\
    unitAuditOnRecord w2 "Whitefield" today.
Proof.
  intros now today w sel selection w2.
  assert (Ha : SelectPage.handleSubmit today "Whitefield" "unit" w
               = (Returned (Some sel), afterCall w)) by (vm_compute; reflexivity).
  split; [exact Ha|].
  apply (@admitted_audit_is_stored RefHost.refHost now "Whitefield" Sample.auditForm
           w (afterCall w) sel).
  - unfold validLocalTime, msPerDay. cbn. lia.
  - cbn. lia.
  - exact Ha.
  - vm_compute. reflexivity.
  - exact I.
  - exact I.
Defined.

End SelectionFlow.

(** ** Grades, labels and colours *)

Module Labels.
Import JsString JsNumber StaffEvaluation RetrieveReports.

Lemma Qle_bool_inject (a b : Z) : Qle_bool (inject_Z a) (inject_Z b) = (a <=? b).
Proof.
  destruct (Z.leb_spec a b) as [Hle | Hgt].
  - apply Qle_bool_iff. now rewrite <- Zle_Qle.
  - destruct (Qle_bool (inject_Z a) (inject_Z b)) eqn:E; [|reflexivity].
    apply Qle_bool_iff in E. rewrite <- Zle_Qle in E. lia.
Qed.

(** X19.  The grade of the staff form, the label of the reports and the
    colour of the score badge cut the scores at the same places: a score
    graded A is labelled "Excellent" and shown green, B is "Good" and
    orange, C is "Average" and D is "Poor", both red; and a missing or
    non-numeric score has the label "-" and the grey badge. *)
Theorem grades_labels_colours (n : Z) (s : number) :
  (scoreToGrade n = "A" <-> avgScoreToLabel (Some (inject_Z n)) = "Excellent") /\
  (scoreToGrade n = "B" <-> avgScoreToLabel (Some (inject_Z n)) = "Good") /\
  (scoreToGrade n = "C" <-> avgScoreToLabel (Some (inject_Z n)) = "Average") /\
  (scoreToGrade n = "D" <-> avgScoreToLabel (Some (inject_Z n)) = "Poor") /\
  (avgScoreToLabel s = "Excellent" <-> scoreBadgeColor s = "#2e7d32") /\
  (avgScoreToLabel s = "Good" <-> scoreBadgeColor s = "#f0ad4e") /\
  (avgScoreToLabel s = "Average" \/ avgScoreToLabel s = "Poor"
   <-> scoreBadgeColor s = "#d9534f") /\
  (avgScoreToLabel s = "-" <-> scoreBadgeColor s = "#999") /\
  (s = None <-> scoreBadgeColor s = "#999").
Proof.
  unfold scoreToGrade, avgScoreToLabel, scoreBadgeColor.
  change 90%Q with (inject_Z 90). change 75%Q with (inject_Z 75).
  change 60%Q with (inject_Z 60). rewrite !Qle_bool_inject.
  split; [|split; [|split; [|split]]].
  1-4: destruct (90 <=? n), (75 <=? n), (60 <=? n); split; intros E;
       (reflexivity || discriminate E).
  destruct s as [q|].
  - destruct (Qle_bool (inject_Z 90) q), (Qle_bool (inject_Z 75) q),
      (Qle_bool (inject_Z 60) q);
      repeat split; intros E; try discriminate E; try reflexivity;
      try (destruct E as [E | E]; discriminate E); auto.
  - repeat split; intros E; try discriminate E; try reflexivity;
      try (destruct E as [E | E]; discriminate E).
Qed.

End Labels.

(* --------------------------------------------------------------------- *)
(** ** The presets of the date range                                       *)
(* --------------------------------------------------------------------- *)

Module Presets.
Import JsString JsStringFacts JsNumber JsNumberFacts JsDate Spec.
Import RetrieveReports DateNormalizer RangeFilter.

(** *** The calendar fields of a day number *)

Lemma YearFromDay_spec d :
  DayFromYear (YearFromDay d) <= d < DayFromYear (YearFromDay d + 1).
Proof.
  unfold YearFromDay. cbv zeta.
  destruct (Z.ltb_spec d (DayFromYear (1970 + 400 * d / 146097))) as [H1 | H1].
  - replace (1970 + 400 * d / 146097 - 1 + 1) with (1970 + 400 * d / 146097) by lia.
    split; [|exact H1]. unfold DayFromYear in *. lia.
  - destruct (Z.leb_spec (DayFromYear (1970 + 400 * d / 146097 + 1)) d) as [H2 | H2].
    + split; [exact H2|]. unfold DayFromYear in *. lia.
    + split; assumption.
Qed.

Lemma YearFromDay_unique d y :
  DayFromYear y <= d < DayFromYear (y + 1) -> YearFromDay d = y.
Proof.
  intros [Hlo Hhi]. destruct (YearFromDay_spec d) as [Slo Shi].
  destruct (Z.lt_trichotomy (YearFromDay d) y) as [Hlt | [E | Hgt]]; [|exact E|].
  - pose proof (DayFromYear_mono (YearFromDay d + 1) y ltac:(lia)). lia.
  - pose proof (DayFromYear_mono (y + 1) (YearFromDay d) ltac:(lia)). lia.
Qed.

(** The fields of the day number of a calendar date are that date. *)
Lemma fields_of_day y m d :
  1 <= m <= 12 -> 1 <= d <= daysInMonth (isLeapYear y) (m - 1) ->
  let n := DayFromYear y + dayOfYear (isLeapYear y) m d in
  YearFromDay n = y /\ MonthFromDay n = m - 1 /\ DateFromDay n = d.
Proof.
  intros Hm Hd n.
  pose proof (dayOfYear_bound _ _ _ Hm Hd) as B.
  assert (Ey : YearFromDay n = y).
  { apply YearFromDay_unique. rewrite DayFromYear_succ. unfold n.
    destruct (isLeapYear y); lia. }
  assert (Em : MonthFromDay n = m - 1).
  { unfold MonthFromDay. cbv zeta. rewrite Ey. unfold n.
    replace (DayFromYear y + dayOfYear (isLeapYear y) m d - DayFromYear y)
      with (dayOfYear (isLeapYear y) m d) by lia.
    unfold dayOfYear. clear Ey B n.
    destruct (isLeapYear y); each_month m Hm; simpl in Hd |- *;
      repeat match goal with
             | |- context [?a <? ?b] => destruct (Z.ltb_spec a b); try lia
             end; lia. }
  split; [exact Ey|]. split; [exact Em|].
  unfold DateFromDay. cbv zeta. rewrite Ey, Em. unfold n, dayOfYear. lia.
Qed.

Lemma fields_of_dayNo c :
  validCal c = true ->
  YearFromDay (dayNo c) = year c /\
  MonthFromDay (dayNo c) = month c - 1 /\
  DateFromDay (dayNo c) = day c.
Proof.
  intros Hc. rewrite (dayNo_eq c Hc).
  apply validCal_spec in Hc as (_ & Hm & Hd). now apply fields_of_day.
Qed.

(** *** The text of a date *)

Lemma toString_3 n :
  100 <= n < 1000 ->
  Number_toString n
  = String (digitChar (n / 100))
      (String (digitChar (n / 10 mod 10)) (String (digitChar (n mod 10)) EmptyString)).
Proof.
  intros H. unfold Number_toString.
  destruct (Z.ltb_spec n 0); [lia|].
  destruct (log2_fuel n 6 ltac:(lia) ltac:(simpl; lia)) as [k ->].
  change (Z.to_nat 6) with 6%nat. cbn [Nat.add].
  rewrite !digitsOf_step.
  destruct (Z.ltb_spec n 10); [lia|].
  destruct (Z.ltb_spec (n / 10) 10); [lia|].
  destruct (Z.ltb_spec (n / 10 / 10) 10); [|lia].
  replace (n / 10 / 10) with (n / 100) by lia.
  now rewrite (Z.mod_small (n / 100)) by lia.
Qed.

(** A number below 10000 prints, padded, as four digits. *)
Lemma pad4_form n :
  0 <= n <= 9999 ->
  pad 4 n
  = String (digitChar (n / 1000))
      (String (digitChar (n / 100 mod 10))
         (String (digitChar (n / 10 mod 10))
            (String (digitChar (n mod 10)) EmptyString))).
Proof.
  intros H. unfold pad.
  destruct (Z.ltb_spec n 10); [|destruct (Z.ltb_spec n 100); [|destruct (Z.ltb_spec n 1000)]].
  - rewrite toString_1 by lia.
    replace (n / 1000) with 0 by lia. replace (n / 100) with 0 by lia.
    replace (n / 10) with 0 by lia. rewrite (Z.mod_small n 10) by lia. reflexivity.
  - rewrite toString_2 by lia.
    replace (n / 1000) with 0 by lia. replace (n / 100) with 0 by lia.
    rewrite (Z.mod_small (n / 10)) by lia. reflexivity.
  - rewrite toString_3 by lia.
    replace (n / 1000) with 0 by lia.
    rewrite (Z.mod_small (n / 100)) by lia. reflexivity.
  - now rewrite toString_4 by lia.
Qed.

Lemma pad4_digits n :
  0 <= n <= 9999 ->
  digitsBetween 4 4 (pad 4 n) = true /\ parseDigits (pad 4 n) 0 = n.
Proof.
  intros Hn. rewrite (pad4_form n Hn). split.
  - unfold digitsBetween. cbn [allChars String.length Nat.leb andb].
    now rewrite !digitChar_isDigit by lia.
  - cbn [parseDigits]. rewrite !digitVal_digitChar by lia. lia.
Qed.

Lemma pad2_digits n :
  0 <= n < 100 ->
  digitsBetween 2 2 (pad 2 n) = true /\ parseDigits (pad 2 n) 0 = n.
Proof.
  intros Hn. unfold pad. rewrite (pad2_form n Hn). split.
  - unfold digitsBetween. cbn [allChars String.length Nat.leb andb].
    now rewrite !digitChar_isDigit by lia.
  - cbn [parseDigits]. rewrite !digitVal_digitChar by lia. lia.
Qed.

(** The ISO text of a calendar date. *)
Definition isoText (c : CalDate) : string :=
  pad 4 (year c) ++ "-" ++ pad 2 (month c) ++ "-" ++ pad 2 (day c).

Lemma isoText_read c : validCal c = true -> readISO (isoText c) = Some c.
Proof.
  intros Hc. pose proof (validCal_spec c Hc) as (Hy & Hm & Hd).
  assert (Hd' : day c <= 31) by (eapply Z.le_trans; [apply Hd | apply daysInMonth_le]).
  destruct (pad4_digits (year c) ltac:(lia)) as [Dy Py].
  destruct (pad2_digits (month c) ltac:(lia)) as [Dm Pm].
  destruct (pad2_digits (day c) ltac:(lia)) as [Dd Pd].
  assert (Ay : allChars isDigit (pad 4 (year c)) = true)
    by (unfold digitsBetween in Dy; now repeat (apply andb_prop in Dy as [Dy _])).
  assert (Am : allChars isDigit (pad 2 (month c)) = true)
    by (unfold digitsBetween in Dm; now repeat (apply andb_prop in Dm as [Dm _])).
  assert (Ad : allChars isDigit (pad 2 (day c)) = true)
    by (unfold digitsBetween in Dd; now repeat (apply andb_prop in Dd as [Dd _])).
  unfold readISO, isoText.
  change (pad 4 (year c) ++ "-" ++ pad 2 (month c) ++ "-" ++ pad 2 (day c))
    with (pad 4 (year c) ++ String "-" (pad 2 (month c) ++ String "-" (pad 2 (day c)))).
  rewrite split_three by (apply digits_noChar; (reflexivity || assumption)).
  rewrite Dy, Dm, Dd, Py, Pm, Pd. cbn [andb].
  destruct c as [y m d]. cbn [year month day] in *. now rewrite Hc.
Qed.

Lemma Day_zone D tz :
  -msPerDay < tz <= msPerDay ->
  Day (MakeDate D 0 - tz) = if 0 <? tz then D - 1 else D.
Proof.
  intros Hz. unfold Day, MakeDate, msPerDay in *.
  destruct (Z.ltb_spec 0 tz); lia.
Qed.

(** The date part of [toISOString]. *)
Lemma toISOString_date tz t c :
  validCal c = true -> Day (t - tz) = dayNo c ->
  slice 0 10 (toISOString tz t) = isoText c.
Proof.
  intros Hc Ed. pose proof (validCal_spec c Hc) as (Hy & Hm & Hd).
  assert (Hd' : day c <= 31) by (eapply Z.le_trans; [apply Hd | apply daysInMonth_le]).
  destruct (fields_of_dayNo c Hc) as (Fy & Fm & Fd).
  unfold toISOString. cbv zeta. rewrite Ed, Fy, Fm, Fd.
  replace (month c - 1 + 1) with (month c) by lia.
  replace ((0 <=? year c) && (year c <=? 9999)) with true
    by (symmetry; apply andb_true_intro; split; apply Z.leb_le; lia).
  unfold isoText. rewrite (pad4_form (year c)) by lia.
  unfold pad. rewrite (pad2_form (month c)), (pad2_form (day c)) by lia.
  reflexivity.
Qed.

(** *** The month a preset sets *)

(** The first and the last day of month [m] (0 = January) of a year, and
    the day before a date of the calendar. *)
Definition firstOf (y m : Z) : CalDate := mkCal y (m + 1) 1.

Definition lastOf (y m : Z) : CalDate :=
  mkCal y (m + 1) (daysInMonth (isLeapYear y) m).

Definition dayBefore (c : CalDate) : CalDate :=
  if 1 <? day c then mkCal (year c) (month c) (day c - 1)
  else if 1 <? month c
       then mkCal (year c) (month c - 1)
              (daysInMonth (isLeapYear (year c)) (month c - 2))
       else mkCal (year c - 1) 12 31.

Lemma month0_cases m :
  0 <= m <= 11 ->
  m = 0 \/ m = 1 \/ m = 2 \/ m = 3 \/ m = 4 \/ m = 5 \/ m = 6 \/ m = 7
  \/ m = 8 \/ m = 9 \/ m = 10 \/ m = 11.
Proof. lia. Qed.

Ltac each_month0 m H :=
  destruct (month0_cases m H)
    as [-> | [-> | [-> | [-> | [-> | [-> | [-> | [-> | [-> | [-> | [-> | ->]]]]]]]]]]].

Lemma validCal_intro c :
  100 <= year c <= 9999 -> 1 <= month c <= 12 ->
  1 <= day c <= daysInMonth (isLeapYear (year c)) (month c - 1) ->
  validCal c = true.
Proof.
  intros Hy Hm Hd. unfold validCal.
  repeat (apply andb_true_intro; split); apply Z.leb_le; lia.
Qed.

Lemma daysInMonth_ge leap m : 28 <= daysInMonth leap m.
Proof.
  unfold daysInMonth. destruct leap;
    destruct m as [|p|p]; try lia;
    do 4 (try destruct p as [p|p|]); lia.
Qed.

Lemma firstOf_valid y m :
  100 <= y <= 9999 -> 0 <= m <= 11 -> validCal (firstOf y m) = true.
Proof.
  intros Hy Hm. apply validCal_intro; cbn [firstOf year month day]; try lia.
  pose proof (daysInMonth_ge (isLeapYear y) (m + 1 - 1)). lia.
Qed.

Lemma lastOf_valid y m :
  100 <= y <= 9999 -> 0 <= m <= 11 -> validCal (lastOf y m) = true.
Proof.
  intros Hy Hm. apply validCal_intro; cbn [lastOf year month day]; try lia.
  replace (m + 1 - 1) with m by lia.
  pose proof (daysInMonth_ge (isLeapYear y) m). lia.
Qed.

(** The day before a date of the calendar is the date of the day number
    before. *)
Lemma dayBefore_dayNo c :
  validCal c = true -> 100 < year c ->
  validCal (dayBefore c) = true /\ dayNo (dayBefore c) = dayNo c - 1.
Proof.
  intros Hc Hy'. pose proof (validCal_spec c Hc) as (Hy & Hm & Hd).
  destruct c as [y m d]. cbn [year month day] in *. unfold dayBefore.
  cbn [year month day].
  destruct (Z.ltb_spec 1 d) as [H1 | H1].
  - split; [apply validCal_intro; cbn [year month day]; lia|].
    unfold dayNo. cbn [year month day]. unfold MakeDay. lia.
  - assert (d = 1) as -> by lia.
    destruct (Z.ltb_spec 1 m) as [H2 | H2].
    + split.
      * apply validCal_intro; cbn [year month day]; try lia.
        replace (m - 1 - 1) with (m - 2) by lia.
        pose proof (daysInMonth_ge (isLeapYear y) (m - 2)). lia.
      * unfold dayNo. cbn [year month day]. unfold MakeDay.
        replace ((m - 1 - 1) / 12) with 0 by lia.
        replace ((m - 1) / 12) with 0 by lia.
        replace ((m - 1 - 1) mod 12) with (m - 2) by lia.
        replace ((m - 1) mod 12) with (m - 1) by lia.
        rewrite !Z.add_0_r. clear Hc Hd.
        destruct (isLeapYear y); each_month m Hm; simpl; lia.
    + assert (m = 1) as -> by lia.
      split; [apply validCal_intro; cbn [year month day]; simpl; lia|].
      unfold dayNo. cbn [year month day]. unfold MakeDay.
      change ((12 - 1) / 12) with 0. change ((1 - 1) / 12) with 0.
      change ((12 - 1) mod 12) with 11. change ((1 - 1) mod 12) with 0.
      rewrite !Z.add_0_r.
      replace y with (y - 1 + 1) at 3 by lia. rewrite DayFromYear_succ.
      destruct (isLeapYear (y - 1)); cbn [daysBeforeMonth]; lia.
Qed.

Lemma Date_ymd_Z y m d qm qd :
  (qm == inject_Z m)%Q -> (qd == inject_Z d)%Q -> 100 <= y ->
  Z.abs (MakeDay y m d) <= 3000000 ->
  Date_ymd (Some (inject_Z y)) (Some qm) (Some qd) = Some (MakeDate (MakeDay y m d) 0).
Proof.
  intros Em Ed Hy B. unfold Date_ymd.
  rewrite (truncate_Z (inject_Z y) y) by reflexivity.
  rewrite (truncate_Z qm m Em), (truncate_Z qd d Ed).
  destruct (Z.leb_spec 0 y); [|lia].
  destruct (Z.leb_spec y 99); [lia|]. cbn [andb].
  unfold TimeClip, MakeDate, msPerDay in *.
  destruct (Z.leb_spec (Z.abs (MakeDay y m d * 86400000 + 0)) 8640000000000000);
    [reflexivity | lia].
Qed.

(** [new Date(year, monthIndex, 1)] and [new Date(year, monthIndex + 1, 0)]
    are the first and the last day of the month, at local midnight. *)
Lemma month_ends y m :
  100 <= y <= 9999 -> 0 <= m <= 11 ->
  Date_ymd (Some (inject_Z y)) (Some (inject_Z m)) (Some 1%Q)
  = Some (MakeDate (dayNo (firstOf y m)) 0) /\
  Date_ymd (Some (inject_Z y)) (Some (inject_Z m + 1)%Q) (Some 0%Q)
  = Some (MakeDate (dayNo (lastOf y m)) 0).
Proof.
  intros Hy Hm.
  pose proof (dayNo_bound _ (firstOf_valid y m Hy Hm)) as Bf.
  pose proof (dayNo_bound _ (lastOf_valid y m Hy Hm)) as Bl.
  assert (Ef : dayNo (firstOf y m) = MakeDay y m 1).
  { unfold dayNo, firstOf. cbn [year month day]. now replace (m + 1 - 1) with m by lia. }
  assert (El : dayNo (lastOf y m) = MakeDay y (m + 1) 0).
  { unfold dayNo, lastOf. cbn [year month day]. replace (m + 1 - 1) with m by lia.
    unfold MakeDay. clear Bf Bl Ef.
    replace (m / 12) with 0 by lia. replace (m mod 12) with m by lia.
    rewrite Z.add_0_r. destruct (Z.eq_dec m 11) as [-> | Hne].
    - change ((11 + 1) / 12) with 1. change ((11 + 1) mod 12) with 0.
      rewrite DayFromYear_succ. destruct (isLeapYear y); simpl; lia.
    - replace ((m + 1) / 12) with 0 by lia.
      replace ((m + 1) mod 12) with (m + 1) by lia. rewrite !Z.add_0_r.
      destruct (isLeapYear y); each_month0 m Hm; simpl; lia. }
  split.
  - rewrite Ef. apply Date_ymd_Z; [reflexivity | reflexivity | lia | lia].
  - rewrite El. apply Date_ymd_Z; [|reflexivity | lia | lia].
    now rewrite inject_Z_plus.
Qed.

Lemma calLeb_spec a b :
  calLeb a b = true <->
  year a < year b
  \/ (year a = year b /\ (month a < month b \/ (month a = month b /\ day a <= day b))).
Proof.
  unfold calLeb.
  destruct (Z.ltb_spec (year a) (year b)), (Z.eqb_spec (year a) (year b)),
    (Z.ltb_spec (month a) (month b)), (Z.eqb_spec (month a) (month b)),
    (Z.leb_spec (day a) (day b)); cbn; split; intros; (discriminate || lia || auto).
Qed.

Lemma dayNo_in_month y m k :
  dayNo (mkCal y (m + 1) k) = dayNo (firstOf y m) + k - 1.
Proof. unfold dayNo, firstOf, MakeDay. cbn [year month day]. lia. Qed.

Lemma dayNo_inj a b :
  validCal a = true -> validCal b = true -> dayNo a = dayNo b -> a = b.
Proof.
  intros Va Vb E. apply IsoDates.calLeb_antisym.
  - rewrite (calLeb_dayNo a b Va Vb). apply Z.leb_le. lia.
  - rewrite (calLeb_dayNo b a Vb Va). apply Z.leb_le. lia.
Qed.

(** The dates of month [m] of year [y] are those from its first to its
    last day. *)
Lemma in_month y m d :
  100 <= y <= 9999 -> 0 <= m <= 11 -> validCal d = true ->
  (dayNo (firstOf y m) <= dayNo d <= dayNo (lastOf y m)
   <-> year d = y /\ month d = m + 1).
Proof.
  intros Hy Hm Vd.
  pose proof (firstOf_valid y m Hy Hm) as Vf.
  pose proof (lastOf_valid y m Hy Hm) as Vl.
  rewrite <- !Z.leb_le, <- (calLeb_dayNo _ _ Vf Vd), <- (calLeb_dayNo _ _ Vd Vl).
  rewrite !calLeb_spec. unfold firstOf, lastOf. cbn [year month day].
  apply validCal_spec in Vd as (_ & _ & Hd).
  split; [lia|]. intros [Ey Em]. rewrite Ey, Em in *.
  replace (m + 1 - 1) with m in Hd by lia. lia.
Qed.

Section zone.
Context `{Host}.
Variables (tz y m : Z).
Hypothesis Hy : 1000 <= y <= 9999.
Hypothesis Hm : 0 <= m <= 11.
Hypothesis Hz : - msPerDay < tz <= msPerDay.

(** East of UTC the local midnight is still the day before in UTC. *)
Definition shift (c : CalDate) : CalDate := if 0 <? tz then dayBefore c else c.

Lemma shift_day c :
  validCal c = true -> 100 < year c ->
  validCal (shift c) = true /\
  dayNo (shift c) = (if 0 <? tz then dayNo c - 1 else dayNo c) /\
  Day (MakeDate (dayNo c) 0 - tz) = dayNo (shift c).
Proof.
  intros Vc Hc. rewrite (Day_zone _ _ Hz). unfold shift.
  destruct (0 <? tz).
  - destruct (dayBefore_dayNo c Vc Hc) as [V E]. rewrite E. auto.
  - auto.
Qed.

Lemma preset_bounds :
  setPresetMonth tz y m
  = Some (isoText (shift (firstOf y m)), isoText (shift (lastOf y m))).
Proof.
  destruct (month_ends y m ltac:(lia) Hm) as [Ef El].
  destruct (shift_day _ (firstOf_valid y m ltac:(lia) Hm) ltac:(cbn; lia)) as (Vf & _ & Df).
  destruct (shift_day _ (lastOf_valid y m ltac:(lia) Hm) ltac:(cbn; lia)) as (Vl & _ & Dl).
  unfold setPresetMonth. cbv zeta. rewrite Ef, El.
  now rewrite (toISOString_date tz _ _ Vf Df), (toISOString_date tz _ _ Vl Dl).
Qed.

Lemma preset_range dateDD d :
  readDDMMYYYY dateDD = Some d ->
  withinRange dateDD (isoText (shift (firstOf y m))) (isoText (shift (lastOf y m))) = true
  <-> dayNo (shift (firstOf y m)) <= dayNo d <= dayNo (shift (lastOf y m)).
Proof.
  intros Hd.
  destruct (shift_day _ (firstOf_valid y m ltac:(lia) Hm) ltac:(cbn; lia)) as (Vf & _ & _).
  destruct (shift_day _ (lastOf_valid y m ltac:(lia) Hm) ltac:(cbn; lia)) as (Vl & _ & _).
  destruct (parse_readDDMMYYYY _ _ Hd) as [_ Vd].
  assert (Bf : readBound (isoText (shift (firstOf y m))) = Some (Some (shift (firstOf y m)))).
  { unfold readBound. pose proof (isoText_read _ Vf) as R.
    destruct (parse_readISO _ _ R) as (-> & _). now rewrite R. }
  assert (Bl : readBound (isoText (shift (lastOf y m))) = Some (Some (shift (lastOf y m)))).
  { unfold readBound. pose proof (isoText_read _ Vl) as R.
    destruct (parse_readISO _ _ R) as (-> & _). now rewrite R. }
  rewrite (withinRange_read _ _ _ d _ _ Hd Bf Bl). unfold inRange.
  rewrite andb_true_iff, (calLeb_dayNo _ _ Vf Vd), (calLeb_dayNo _ _ Vd Vl), !Z.leb_le.
  reflexivity.
Qed.
End zone.

(** X20.  The month a preset sets depends on the time zone.  [setPresetMonth]
    takes the first and the last day of the month at local midnight and
    writes them with [toISOString], which is in UTC.  In a zone at or
    behind UTC the range is the month, from its first to its last day, and
    the filter keeps the records of that month only.  In a zone ahead of
    UTC both bounds are one day early: the range runs from the last day of
    the month before to the day before the last day of the month, so that
    the filter keeps the records of the last day of the month before and
    drops those of the last day of the month. *)
Theorem setPresetMonth_zone `{Host} (tz year monthIndex : Z) :
  1000 <= year <= 9999 -> 0 <= monthIndex <= 11 -> - msPerDay < tz <= msPerDay ->
  let first := firstOf year monthIndex in
  let last := lastOf year monthIndex in
  let from := if 0 <? tz then dayBefore first else first in
  let to := if 0 <? tz then dayBefore last else last in
  setPresetMonth tz year monthIndex = Some (isoText from, isoText to) /\
  readISO (isoText from) = Some from /\
  readISO (isoText to) = Some to /\
  forall dateDD d, readDDMMYYYY dateDD = Some d ->
    (withinRange dateDD (isoText from) (isoText to) = true <->
     if 0 <? tz
     then d = dayBefore first
          \/ (Spec.year d = year /\ month d = monthIndex + 1 /\ day d < day last)
     else Spec.year d = year /\ month d = monthIndex + 1).
Proof.
  intros Hy Hm Hz first last from to.
  assert (Hy' : 100 <= year <= 9999) by lia.
  assert (Vf : validCal first = true) by now apply firstOf_valid.
  assert (Vl : validCal last = true) by now apply lastOf_valid.
  destruct (shift_day tz Hz first Vf ltac:(cbn; lia)) as (Vf' & Nf & _).
  destruct (shift_day tz Hz last Vl ltac:(cbn; lia)) as (Vl' & Nl & _).
  change from with (shift tz first). change to with (shift tz last).
  split; [now apply preset_bounds|].
  split; [now apply isoText_read|]. split; [now apply isoText_read|].
  intros dateDD d Hd.
  etransitivity; [exact (preset_range tz year monthIndex Hy Hm Hz dateDD d Hd)|].
  fold first last. rewrite Nf, Nl.
  destruct (parse_readDDMMYYYY _ _ Hd) as [_ Vd].
  pose proof (in_month year monthIndex d Hy' Hm Vd) as Hin. fold first last in Hin.
  destruct (Z.ltb_spec 0 tz) as [East | West]; [|exact Hin].
  assert (El : dayNo last = dayNo first + day last - 1)
    by apply dayNo_in_month.
  assert (Hl : 28 <= day last) by apply daysInMonth_ge.
  destruct (dayBefore_dayNo first Vf ltac:(cbn; lia)) as [Vb Eb].
  assert (Ed : Spec.year d = year /\ month d = monthIndex + 1 ->
               dayNo d = dayNo first + day d - 1).
  { intros [Ey Em]. unfold first. rewrite <- dayNo_in_month.
    destruct d as [yd md dd]. cbn [Spec.year month day] in *. now subst. }
  split.
  - intros [Lo Hi].
    destruct (Z.eq_dec (dayNo d) (dayNo first - 1)) as [E | N].
    + left. apply dayNo_inj; [assumption | assumption | lia].
    + right. destruct (proj1 Hin ltac:(lia)) as [Ey Em].
      split; [exact Ey|]. split; [exact Em|].
      specialize (Ed (conj Ey Em)). lia.
  - intros [-> | (Ey & Em & Lt)]; [lia|].
    specialize (Ed (conj Ey Em)).
    apply validCal_spec in Vd as (_ & _ & Hdd). lia.
Qed.

(** June 2024 in India (UTC+5:30): the preset runs from 31 May to
    29 June. *)
Lemma setPresetMonth_zone_witness :
  @setPresetMonth 19800000 2024 5 = Some ("2024-05-31", "2024-06-29") /\
  @withinRange RefHost.refHost "30/06/2024" "2024-05-31" "2024-06-29" = false /\
  @withinRange RefHost.refHost "31/05/2024" "2024-05-31" "2024-06-29" = true.
Proof.
  pose proof (@setPresetMonth_zone RefHost.refHost 19800000 2024 5
                ltac:(lia) ltac:(lia) ltac:(unfold msPerDay; lia)) as (E & _ & _ & W).
  split; [exact E|]. split.
  - destruct (@withinRange RefHost.refHost "30/06/2024" "2024-05-31" "2024-06-29") eqn:R;
      [|reflexivity].
    apply (W "30/06/2024" (mkCal 2024 6 30) eq_refl) in R.
    destruct R as [R | (_ & _ & R)]; [discriminate R | cbn in R; lia].
  - apply (W "31/05/2024" (mkCal 2024 5 31) eq_refl). left. reflexivity.
Defined.

(** X21.  The buttons: "This month" sets the range of the month of today,
    and "Last month" that of the month before, which in January is the
    December of the year before; each with the bounds one day early in a
    zone ahead of UTC. *)
Theorem preset_buttons (tz : Z) (now : LocalTime) :
  validLocalTime now -> 1000 < getFullYear now <= 9999 ->
  - msPerDay < tz <= msPerDay ->
  let y := getFullYear now in
  let m := getMonth now in
  let py := if m =? 0 then y - 1 else y in
  let pm := if m =? 0 then 11 else m - 1 in
  thisMonth tz now
  = Some (isoText (shift tz (firstOf y m)), isoText (shift tz (lastOf y m))) /\
  lastMonth tz now
  = Some (isoText (shift tz (firstOf py pm)), isoText (shift tz (lastOf py pm))).
Proof.
  intros (Hm & _ & _) Hy Hz y m py pm. fold m in Hm. fold y in Hy.
  split; [apply preset_bounds; (assumption || lia)|].
  assert (Hpm : 0 <= pm <= 11) by (unfold pm; destruct (Z.eqb_spec m 0); lia).
  assert (Hpy : 1000 <= py <= 9999) by (unfold py; destruct (Z.eqb_spec m 0); lia).
  pose proof (firstOf_valid py pm ltac:(lia) Hpm) as Vp.
  assert (Ep : MakeDay y (m - 1) 1 = dayNo (firstOf py pm)).
  { unfold dayNo, firstOf, MakeDay. cbn [year month day]. unfold py, pm.
    destruct (Z.eqb_spec m 0) as [-> | Hne].
    - change ((0 - 1) / 12) with (-1). change ((0 - 1) mod 12) with 11.
      change ((11 + 1 - 1) / 12) with 0. change ((11 + 1 - 1) mod 12) with 11.
      now rewrite Z.add_0_r.
    - replace (m - 1 + 1 - 1) with (m - 1) by lia. reflexivity. }
  unfold lastMonth. fold y m.
  rewrite (Date_ymd_Z y (m - 1) 1);
    [| unfold Z.sub; rewrite inject_Z_plus, inject_Z_opp; reflexivity
     | reflexivity | lia
     | rewrite Ep; pose proof (dayNo_bound _ Vp); lia ].
  rewrite Ep.
  replace (Day (MakeDate (dayNo (firstOf py pm)) 0)) with (dayNo (firstOf py pm))
    by (unfold Day, MakeDate, msPerDay; lia).
  destruct (fields_of_dayNo _ Vp) as (-> & -> & _). cbn [firstOf year month].
  replace (pm + 1 - 1) with pm by lia.
  apply preset_bounds; assumption.
Qed.

(** New Year's Day 2025 in India: "Last month" runs from 30 November to
    30 December 2024. *)
Lemma preset_buttons_witness :
  let now := {| getFullYear := 2025; getMonth := 0; getDate := 1;
                msOfDay := 36000000 |} in
  lastMonth 19800000 now = Some ("2024-11-30", "2024-12-30").
Proof.
  intros now.
  exact (proj2 (preset_buttons 19800000 now
                  ltac:(unfold validLocalTime, msPerDay; simpl; lia)
                  ltac:(simpl; lia) ltac:(unfold msPerDay; lia))).
Defined.

End Presets.

(* --------------------------------------------------------------------- *)
(** ** The history of an employee                                          *)
(* --------------------------------------------------------------------- *)

Module History.
Import ListFacts JsString RetrieveReports Spec Dedupe QueryResults QueryExact.

Section history.
Context `{Host}.

(** A list without two records of the same identity has nothing to
    deduplicate. *)
Lemma firstOfEach_distinct seen xs :
  NoDup (List.map identity xs) ->
  (forall x, x ∈ xs -> identity x ∉ seen) ->
  firstOfEach seen xs = xs.
Proof.
  revert seen. induction xs as [|x xs IH]; intros seen Hnd Hs; [reflexivity|].
  cbn [List.map] in Hnd. apply NoDup_cons in Hnd as [Hx Hnd].
  cbn [firstOfEach]. rewrite bool_decide_eq_false_2 by (apply Hs; now left).
  f_equal. apply IH; [exact Hnd|].
  intros y Hy Hin. apply elem_of_union in Hin as [Hin | Hin].
  - apply elem_of_singleton in Hin. apply Hx. rewrite <- Hin.
    apply list_elem_of_In, in_map, list_elem_of_In, Hy.
  - now apply (Hs y); [right|].
Qed.

Lemma dedupeById_distinct xs :
  NoDup (List.map identity xs) -> dedupeById xs = xs.
Proof.
  intros Hnd. rewrite dedupeById_eq. apply firstOfEach_distinct; [exact Hnd|].
  intros x _. apply not_elem_of_empty.
Qed.

Lemma sublist_identities (xs ys : list Doc.t) :
  sublist xs ys -> NoDup (List.map identity ys) -> NoDup (List.map identity xs).
Proof.
  intros Hs Hn. refine (sublist_NoDup _ _ Hn _). clear Hn.
  induction Hs; cbn [List.map]; [constructor | now apply sublist_skip | now apply sublist_cons].
Qed.

Lemma employeeHistory_eq docs fromISO toISO :
  employeeHistory docs fromISO toISO
  = if negb (isEmpty fromISO) || negb (isEmpty toISO)
    then List.filter (fun r => withinRange (staffDate r) fromISO toISO) (dedupeById docs)
    else dedupeById docs.
Proof.
  unfold employeeHistory. cbv zeta.
  destruct (negb (isEmpty fromISO) || negb (isEmpty toISO)).
  - apply dedupeById_distinct.
    apply (sublist_identities _ (dedupeById docs)); [apply filter_sublist|].
    rewrite dedupeById_eq. apply firstOfEach_NoDup.
  - rewrite !dedupeById_eq. now apply firstOfEach_again.
Qed.
End history.

(** X22.  The history of an employee lists each fetched evaluation once,
    in the order fetched; the second deduplication never removes
    anything.  With a date range selected it keeps the evaluations in the
    range only, and agrees with the list of the query when no two fetched
    documents share an identity.  With no range selected nothing is
    filtered: every fetched evaluation is represented, whatever its
    date. *)
Theorem employeeHistory_spec `{Host} (docs : list Doc.t) (fromISO toISO : string) :
  let shown := employeeHistory docs fromISO toISO in
  let ranged := negb (isEmpty fromISO) || negb (isEmpty toISO) in
  shown = (if ranged
           then List.filter (fun r => withinRange (staffDate r) fromISO toISO)
                  (dedupeById docs)
           else dedupeById docs) /\
  NoDup (List.map identity shown) /\
  sublist shown docs /\
  (ranged = true ->
     (forall r, r ∈ shown -> withinRange (staffDate r) fromISO toISO = true) /\
     (NoDup (List.map identity docs) -> shown = staffResults docs fromISO toISO)) /\
  (ranged = false ->
     forall d, d ∈ docs -> exists r, r ∈ shown /\ identity r = identity d).
Proof.
  intros shown ranged. unfold shown. rewrite employeeHistory_eq. fold ranged.
  split; [reflexivity|].
  assert (Hd : NoDup (List.map identity (dedupeById docs)))
    by (rewrite dedupeById_eq; apply firstOfEach_NoDup).
  assert (Hs : sublist (dedupeById docs) docs)
    by (rewrite dedupeById_eq; apply firstOfEach_sublist).
  destruct ranged.
  - split; [eapply sublist_identities; [apply filter_sublist | exact Hd]|].
    split; [etransitivity; [apply filter_sublist | exact Hs]|].
    split; [|discriminate]. intros _. split.
    + intros r Hr. now apply list_elem_of_In, filter_In in Hr as [_ Hr].
    + intros Hnd. rewrite staffResults_eq, (dedupeById_distinct docs Hnd).
      symmetry. apply dedupeById_distinct.
      eapply sublist_identities; [apply filter_sublist | exact Hnd].
  - split; [exact Hd|]. split; [exact Hs|]. split; [discriminate|].
    intros _ d Hin. rewrite dedupeById_eq.
    destruct (firstOfEach_complete ∅ docs d Hin) as [He | Hex];
      [now apply not_elem_of_empty in He | exact Hex].
Qed.

End History.
